(** * Remote Browser Isolation server: shallow embedding and verified properties

    The development follows the server sources:
    - [core/browser-pool.js]      -> [BrowserPool]
    - [core/session-manager.js]   -> [SessionManager]
    - [core/streaming-engine.js]  -> [StreamingEngine] (both variants)
    - [services/cuda-encoder.js]  -> [CUDAEncoder]
    - [services/basic-encoder.js] -> [BasicEncoder]
    - [services/webrtc-service.js]-> [WebRTCService]
    - [utils/config.js]           -> [Config]

    Part I holds the definitions, Part II the lemmas and theorems.

    Conventions.  Every [async] method is modelled as one atomic state
    transformer: the calls of a sequence run one after the other.  A method
    is split at an [await] where a property depends on what happens across
    it: [createBrowser] (its tests, then the registration once the launch
    has settled) and [processFrame] (up to the awaited encode, then its
    continuation on the processor object it holds).  A listener that a
    method triggers on its way runs inside the transformer of that method
    ([closePage], [closeBrowser], [closeStream]).  Results of
    external collaborators (puppeteer, ffmpeg, the clock, uuid generation) are
    explicit arguments of the transformer.  A JavaScript [Map] whose iteration
    order the code observes is an insertion-ordered association list
    ([JsMap]); a [Map] only accessed by key is a [gmap].  Timestamps are
    integers (milliseconds), counters are naturals, bitrates and frame rates
    are rationals; the session timeout is computed in binary64, as the code
    computes it. *)

From Stdlib Require Import ZArith QArith Qround Lia Lqa Floats.SpecFloat.
From stdpp Require Import base gmap strings list.

(* ===================================================================== *)
(** * Part I: definitions *)
(* ===================================================================== *)

(** ** JavaScript values needed by the embedding *)

Module Js.

(** The few dynamic values the pool code manipulates: numbers, arrays (only
    their length matters), promises and [undefined]. *)
Inductive value :=
| undefined
| infinity
| number (n : Z)
| array (len : nat)
| promise (v : value).

(** [v.length]: defined on arrays, [undefined] on every other value here. *)
Definition prop_length (v : value) : value :=
  match v with
  | array n => number (Z.of_nat n)
  | _ => undefined
  end.

(** [await v] *)
Definition await (v : value) : value :=
  match v with
  | promise x => x
  | _ => v
  end.

(** [a === b] on the values above (objects are never compared). *)
Definition strict_eq (a b : value) : bool :=
  match a, b with
  | undefined, undefined => true
  | infinity, infinity => true
  | number x, number y => (x =? y)%Z
  | _, _ => false
  end.

(** [a < b]; a comparison involving [undefined] (NaN) is false. *)
Definition lt (a b : value) : bool :=
  match a, b with
  | number x, number y => (x <? y)%Z
  | number _, infinity => true
  | _, _ => false
  end.

(** [o || d] for an optional string: [undefined] and the empty string are
    falsy. *)
Definition or_string (o : option string) (d : string) : string :=
  match o with
  | Some s => if String.eqb s "" then d else s
  | None => d
  end.

(** [x || d] for a number: [0] is falsy. *)
Definition or_number (x d : Q) : Q := if Qeq_bool x 0 then d else x.

(** Errors raised by the server code. *)
Inductive error :=
| ResourceLimitError (msg : string)
| NotFoundError (msg : string)
| Error (msg : string)
| TypeError (msg : string).

(** Outcome of a call that may throw. *)
Inductive result (A : Type) :=
| Return (a : A)
| Throw (e : error).
Arguments Return {A} a.
Arguments Throw {A} e.

Definition is_resource_limit {A} (r : result A) : bool :=
  match r with
  | Throw (ResourceLimitError _) => true
  | _ => false
  end.

Definition returns {A} (r : result A) : bool :=
  match r with
  | Return _ => true
  | Throw _ => false
  end.

(** [Math.max], [Math.min], [Math.round] on rationals. *)
Definition Math_max (a b : Q) : Q := if Qle_bool a b then b else a.
Definition Math_min (a b : Q) : Q := if Qle_bool a b then a else b.
Definition Math_round (a : Q) : Z := Qfloor (a + (1 # 2)).

(** *** Binary64 numbers

    Where the code computes a duration from a configured fraction, the
    model computes as the code does, in IEEE 754 binary64, through the
    executable specification of the Standard Library ([SFmul] and [SFdiv]
    round to nearest, ties to even; [S754_nan] and [S754_infinity] are
    [NaN] and the infinities). *)
Definition float := spec_float.

(** An integer as a number (rounded when it has more than 53 bits). *)
Definition float_of_Z (z : Z) : float := binary_normalize 53 1024 z 0 false.

(** [a * b] and [a / b] *)
Definition mul (a b : float) : float := SFmul 53 1024 a b.
Definition div (a b : float) : float := SFdiv 53 1024 a b.

(** The exact value of a finite number, in lowest terms; [None] for [NaN]
    and the infinities. *)
Definition float_value (x : float) : option Q :=
  match x with
  | S754_zero _ => Some 0%Q
  | S754_finite negative m e =>
      let q := if (0 <=? e)%Z then inject_Z (Z.pos m * 2 ^ e)
               else Qmake (Z.pos m) (Z.to_pos (2 ^ (- e))) in
      Some (Qred (if negative then Qopp q else q))
  | _ => None
  end.

(** [n > x] for an integer [n] (an instant or a difference of instants:
    below 2^53, so a number itself).  A comparison with [NaN] is false. *)
Definition exceeds (n : Z) (x : float) : bool :=
  match x with
  | S754_nan => false
  | S754_infinity negative => negative
  | _ =>
      match float_value x with
      | Some q => negb (Qle_bool (inject_Z n) q)
      | None => false
      end
  end.

(** [xs.reduce((sum, val) => sum + val, 0)] *)
Definition sum (xs : list Q) : Q := fold_left Qplus xs 0%Q.

(** [xs.reduce(...) / xs.length] *)
Definition average (xs : list Q) : Q :=
  (sum xs / inject_Z (Z.of_nat (length xs)))%Q.

End Js.

(** ** Insertion-ordered maps (JavaScript [Map]) *)

Module JsMap.

Definition t (V : Type) := list (string * V).

Definition empty {V} : t V := [].

Fixpoint get {V} (k : string) (m : t V) : option V :=
  match m with
  | [] => None
  | (k', v) :: m' => if String.eqb k' k then Some v else get k m'
  end.

Definition has {V} (k : string) (m : t V) : bool :=
  match get k m with
  | Some _ => true
  | None => false
  end.

(** [m.set(k, v)]: an existing key keeps its position, a new key goes last. *)
Fixpoint set {V} (k : string) (v : V) (m : t V) : t V :=
  match m with
  | [] => [(k, v)]
  | (k', v') :: m' =>
      if String.eqb k' k then (k', v) :: m' else (k', v') :: set k v m'
  end.

Fixpoint delete {V} (k : string) (m : t V) : t V :=
  match m with
  | [] => []
  | (k', v') :: m' =>
      if String.eqb k' k then delete k m' else (k', v') :: delete k m'
  end.

Definition size {V} (m : t V) : nat := length m.

Definition keys {V} (m : t V) : list string := map fst m.

(** In-place mutation of the object stored under [k] (aliasing: the caller
    holds the very object that sits in the map). *)
Fixpoint update {V} (k : string) (f : V -> V) (m : t V) : t V :=
  match m with
  | [] => []
  | (k', v') :: m' =>
      if String.eqb k' k then (k', f v') :: m' else (k', v') :: update k f m'
  end.

End JsMap.

(** ** Configuration ([utils/config.js]) *)

Module Config.

Record BROWSER := {
  maxBrowsers : nat;
  maxPagesPerBrowser : nat;
  restartBrowserAfterPages : nat;
  restartBrowserAfterTime : Z
}.

(** [BROWSER_CONFIG]; [MAX_BROWSERS] is the parsed environment variable. *)
Definition BROWSER_CONFIG (MAX_BROWSERS : option nat) : BROWSER := {|
  maxBrowsers := default 5 MAX_BROWSERS;
  maxPagesPerBrowser := 5;
  restartBrowserAfterPages := 50;
  restartBrowserAfterTime := 60 * 60 * 1000
|}.

Record SESSION := {
  maxConcurrentSessions : nat;
  sessionTimeout : Js.float (* minutes *)
}.

(** [SESSION_CONFIG]; [SESSION_TIMEOUT] is the integer read by [parseInt]
    from the environment variable (milliseconds), [None] when the variable
    is unset or empty:
    [parseInt(process.env.SESSION_TIMEOUT, 10) / 1000 / 60], or [5]. *)
Definition SESSION_CONFIG (MAX_SESSIONS : option nat) (SESSION_TIMEOUT : option Z)
  : SESSION := {|
  maxConcurrentSessions := default 2 MAX_SESSIONS;
  sessionTimeout :=
    match SESSION_TIMEOUT with
    | Some ms => Js.div (Js.div (Js.float_of_Z ms) (Js.float_of_Z 1000)) (Js.float_of_Z 60)
    | None => Js.float_of_Z 5
    end
|}.

(** The part of [ENCODER_CONFIG] the model reads. *)
Definition ENCODER_defaultFrameRate : Q := 30.
Definition ENCODER_defaultBitrate : Q := 3000.

Record STREAMING := {
  defaultFrameRate : Q;
  minFrameRate : Q;
  defaultBitrate : Q;
  minBitrate : Q;
  adaptiveQualityAdjustmentInterval : Z;
  defaultEncodingStrategy : string;
  encodingStrategies : list string
}.

Definition STREAMING_CONFIG : STREAMING := {|
  defaultFrameRate := 30;
  minFrameRate := 15;
  defaultBitrate := 3000;
  minBitrate := 500;
  adaptiveQualityAdjustmentInterval := 5000;
  defaultEncodingStrategy := "cuda_h264";
  encodingStrategies := ["cuda_h264"; "cuda_hevc"; "cpu_h264"; "cpu_hevc"; "mjpeg"]
|}.

(** The ping/pong settings of [WEBSOCKET_CONFIG] (milliseconds). *)
Record WEBSOCKET := {
  pingInterval : Z;
  pingTimeout : Z
}.

Definition WEBSOCKET_CONFIG : WEBSOCKET := {|
  pingInterval := 30000;
  pingTimeout := 10000
|}.

End Config.

(** ** Browser pool ([core/browser-pool.js]) *)

Module BrowserPool.

(** A puppeteer browser with the custom properties the pool adds. *)
Record Browser := mkBrowser {
  process : bool;        (* [browser.process()] is non-null *)
  createdAt : Z;
  pagesCreated : nat;
  openPages : nat        (* length of the array [browser.pages()] resolves to *)
}.

(** [browser.pages()]: puppeteer returns a promise of the page array. *)
Definition pages_call (b : Browser) : Js.value :=
  Js.promise (Js.array (openPages b)).

Record PageInfo := mkPageInfo {
  browserId : string;
  page_createdAt : Z;
  lastActivityAt : Z;
  screencastRunning : bool;
  client : bool          (* a CDP session is stored *)
}.

Inductive Event :=
| browserCreated (id : string)
| browserDisconnected (id : string)
| browserClosed (id : string)
| pageCreated (id : string)
| pageClosed (id : string)
| screencastStarted (id : string)
| screencastStopped (id : string).

Record t := mk {
  browsers : JsMap.t Browser;
  pages : JsMap.t PageInfo;
  emitted : list Event     (* events emitted so far, oldest first *)
}.

Definition init : t := {| browsers := JsMap.empty; pages := JsMap.empty; emitted := [] |}.

Definition emit (e : Event) (p : t) : t :=
  {| browsers := browsers p; pages := pages p; emitted := emitted p ++ [e] |}.

Definition with_browsers (bs : JsMap.t Browser) (p : t) : t :=
  {| browsers := bs; pages := pages p; emitted := emitted p |}.

Definition with_pages (ps : JsMap.t PageInfo) (p : t) : t :=
  {| browsers := browsers p; pages := ps; emitted := emitted p |}.

Record BrowserOptions := { opt_browserId : option string }.

Record PageOptions := {
  opt_pageId : option string;
  browserOptions : BrowserOptions
}.

(** What the outside world answers during [createBrowser]. *)
Record LaunchOracle := {
  browser_uuid : string;   (* [uuidv4()] *)
  launch_ok : bool;        (* [puppeteer.launch] resolves *)
  launch_now : Z           (* [Date.now()] *)
}.

(** What the outside world answers during [createPage]. *)
Record PageOracle := {
  launch : LaunchOracle;
  page_uuid : string;      (* [uuidv4()] *)
  newPage_ok : bool;       (* [browser.newPage()] resolves *)
  setup_ok : bool;         (* [setViewport] and [setJavaScriptEnabled] resolve *)
  page_now : Z
}.

(** What the outside world answers while one page is closed. *)
Record CloseOracle := {
  stop_ok : bool;          (* [client.send('Page.stopScreencast')] resolves *)
  close_ok : bool          (* [page.close()] resolves *)
}.

Section WithConfig.

Variable cfg : Config.BROWSER.

(** Number of pages a freshly launched browser reports (puppeteer opens a
    blank page on launch). *)
Variable launchPages : nat.

(** [createBrowser(options)], run from its first statement to its last
    with no other call of the pool in between.  The method awaits
    [puppeteer.launch] between its tests and the registration:
    [createBrowser_tests] and [createBrowser_settled] below are the two
    parts on their own. *)
Definition createBrowser (options : BrowserOptions) (o : LaunchOracle) (p : t)
  : Js.result (string * Browser) * t :=
  if (Config.maxBrowsers cfg <=? JsMap.size (browsers p))%nat then
    (Js.Throw (Js.ResourceLimitError "Maximum number of browsers reached"), p)
  else
    let id := Js.or_string (opt_browserId options) (browser_uuid o) in
    match JsMap.get id (browsers p) with
    | Some b => (Js.Return (id, b), p)
    | None =>
        if launch_ok o then
          let b := {| process := true; createdAt := launch_now o;
                      pagesCreated := 0; openPages := launchPages |} in
          (Js.Return (id, b),
           emit (browserCreated id) (with_browsers (JsMap.set id b (browsers p)) p))
        else (Js.Throw (Js.Error "puppeteer.launch failed"), p)
    end.

(** [createBrowser] up to the awaited launch: the cap test and the id test,
    on the pool as it is when the call starts.  [inr id]: a browser is
    being launched for [id]. *)
Definition createBrowser_tests (options : BrowserOptions) (o : LaunchOracle) (p : t)
  : Js.result (string * Browser) + string :=
  if (Config.maxBrowsers cfg <=? JsMap.size (browsers p))%nat then
    inl (Js.Throw (Js.ResourceLimitError "Maximum number of browsers reached"))
  else
    let id := Js.or_string (opt_browserId options) (browser_uuid o) in
    match JsMap.get id (browsers p) with
    | Some b => inl (Js.Return (id, b))
    | None => inr id
    end.

(** [createBrowser] once the launch has settled, on the pool as it is by
    then: the browser is stored without any further test. *)
Definition createBrowser_settled (id : string) (o : LaunchOracle) (p : t)
  : Js.result (string * Browser) * t :=
  if launch_ok o then
    let b := {| process := true; createdAt := launch_now o;
                pagesCreated := 0; openPages := launchPages |} in
    (Js.Return (id, b),
     emit (browserCreated id) (with_browsers (JsMap.set id b (browsers p)) p))
  else (Js.Throw (Js.Error "puppeteer.launch failed"), p).

(** The ['disconnected'] listener installed by [createBrowser]. *)
Definition onBrowserDisconnected (id : string) (p : t) : t :=
  emit (browserDisconnected id) (with_browsers (JsMap.delete id (browsers p)) p).

(** The loop of [getOrCreateBrowser] over [this.browsers.entries()]. *)
Fixpoint findBest (entries : list (string * Browser))
    (bestBrowser : option (string * Browser)) (minPages : Js.value)
  : option (string * Browser) :=
  match entries with
  | [] => bestBrowser
  | (id, b) :: rest =>
      let pageCount := Js.prop_length (Js.await (pages_call b)) in
      if Js.lt pageCount minPages
         && Js.lt pageCount (Js.number (Z.of_nat (Config.maxPagesPerBrowser cfg)))
      then findBest rest (Some (id, b)) pageCount
      else findBest rest bestBrowser minPages
  end.

(** [getOrCreateBrowser(options)] *)
Definition getOrCreateBrowser (options : BrowserOptions) (o : LaunchOracle) (p : t)
  : Js.result (string * Browser) * t :=
  if (JsMap.size (browsers p) =? 0)%nat then createBrowser options o p
  else
    match findBest (browsers p) None Js.infinity with
    | Some best => (Js.Return best, p)
    | None => createBrowser options o p
    end.

(** [browser.newPage()] followed by [browser.pagesCreated++], on the browser
    object shared with the map. *)
Definition browser_newPage (b : Browser) : Browser :=
  {| process := process b; createdAt := createdAt b;
     pagesCreated := S (pagesCreated b); openPages := S (openPages b) |}.

(** [createPage(options)] *)
Definition createPage (options : PageOptions) (o : PageOracle) (p : t)
  : Js.result (string * PageInfo) * t :=
  match getOrCreateBrowser (browserOptions options) (launch o) p with
  | (Js.Throw e, p1) => (Js.Throw e, p1)
  | (Js.Return (bid, _), p1) =>
      let pageId := Js.or_string (opt_pageId options) (page_uuid o) in
      match JsMap.get pageId (pages p1) with
      | Some info => (Js.Return (pageId, info), p1)
      | None =>
          if negb (newPage_ok o) then (Js.Throw (Js.Error "newPage failed"), p1)
          else
            let p2 := with_browsers (JsMap.update bid browser_newPage (browsers p1)) p1 in
            if negb (setup_ok o) then (Js.Throw (Js.Error "page setup failed"), p2)
            else
              let info := {| browserId := bid; page_createdAt := page_now o;
                             lastActivityAt := page_now o;
                             screencastRunning := false; client := false |} in
              (Js.Return (pageId, info),
               emit (pageCreated pageId) (with_pages (JsMap.set pageId info (pages p2)) p2))
      end
  end.

(** The ['close'] listener installed on every page by [createPage]. *)
Definition onPageClose (pageId : string) (p : t) : t :=
  emit (pageClosed pageId) (with_pages (JsMap.delete pageId (pages p)) p).

Definition touch (now : Z) (i : PageInfo) : PageInfo :=
  {| browserId := browserId i; page_createdAt := page_createdAt i;
     lastActivityAt := now; screencastRunning := screencastRunning i;
     client := client i |}.

(** [getPage(pageId)]: refreshes [lastActivityAt] of a stored page. *)
Definition getPage (pageId : string) (now : Z) (p : t) : option PageInfo * t :=
  match JsMap.get pageId (pages p) with
  | Some i => (Some (touch now i), with_pages (JsMap.update pageId (touch now) (pages p)) p)
  | None => (None, p)
  end.

Definition set_screencast (running hasClient : bool) (i : PageInfo) : PageInfo :=
  {| browserId := browserId i; page_createdAt := page_createdAt i;
     lastActivityAt := lastActivityAt i; screencastRunning := running;
     client := hasClient |}.

(** [startScreencast(pageId, options)]; [cdp_ok] tells whether the CDP
    session could be created and the screencast started. *)
Definition startScreencast (pageId : string) (now : Z) (cdp_ok : bool) (p : t)
  : Js.result bool * t :=
  match getPage pageId now p with
  | (None, p1) => (Js.Throw (Js.NotFoundError "Page not found"), p1)
  | (Some i, p1) =>
      if screencastRunning i then (Js.Return true, p1)
      else if cdp_ok then
        (Js.Return true,
         emit (screencastStarted pageId)
           (with_pages (JsMap.update pageId (set_screencast true true) (pages p1)) p1))
      else
        (Js.Throw (Js.Error "Page.startScreencast failed"),
         with_pages (JsMap.update pageId (fun x => set_screencast false (client x) (touch now x))
                       (pages p1)) p1)
  end.

(** [stopScreencast(pageId)] *)
Definition stopScreencast (pageId : string) (now : Z) (stopOk : bool) (p : t) : bool * t :=
  match getPage pageId now p with
  | (None, p1) => (false, p1)
  | (Some i, p1) =>
      if negb (screencastRunning i) then (true, p1)
      else if client i && negb stopOk then
        (* catch branch: the flag is cleared, the CDP session stays stored *)
        (false, with_pages (JsMap.update pageId (set_screencast false (client i)) (pages p1)) p1)
      else
        (true, emit (screencastStopped pageId)
                 (with_pages (JsMap.update pageId (set_screencast false false) (pages p1)) p1))
  end.

Definition browser_pageClosed (b : Browser) : Browser :=
  {| process := process b; createdAt := createdAt b;
     pagesCreated := pagesCreated b; openPages := pred (openPages b) |}.

(** [closePage(pageId)].  When [page.close()] resolves, the page has
    raised its ['close'] event on the way and the listener installed by
    [createPage] has run: the page is removed and ['pageClosed'] emitted
    once by the listener and once more by the method itself.  When
    [page.close()] rejects, the [catch] branch removes the page and emits
    the event. *)
Definition closePage (pageId : string) (now : Z) (o : CloseOracle) (p : t) : bool * t :=
  match getPage pageId now p with
  | (None, p1) => (false, p1)
  | (Some i, p1) =>
      let p2 := if screencastRunning i then snd (stopScreencast pageId now (stop_ok o) p1) else p1 in
      if close_ok o then
        let p3 := onPageClose pageId
                    (with_browsers (JsMap.update (browserId i) browser_pageClosed (browsers p2))
                       p2) in
        (true, emit (pageClosed pageId) (with_pages (JsMap.delete pageId (pages p3)) p3))
      else
        (false, emit (pageClosed pageId) (with_pages (JsMap.delete pageId (pages p2)) p2))
  end.

(** The loop of [closeBrowser] over [this.pages.entries()]. *)
Fixpoint closePagesOf (bid : string) (entries : list (string * PageInfo)) (now : Z)
    (o : string -> CloseOracle) (p : t) : t :=
  match entries with
  | [] => p
  | (pageId, info) :: rest =>
      if String.eqb (browserId info) bid
      then closePagesOf bid rest now o (snd (closePage pageId now (o pageId) p))
      else closePagesOf bid rest now o p
  end.

(** [closeBrowser(browserId)]; [browserCloseOk] tells whether
    [browser.close()] resolves.  When it does, the browser has raised its
    ['disconnected'] event on the way and the listener installed by
    [createBrowser] has run before the method removes the browser and
    emits ['browserClosed']. *)
Definition closeBrowser (bid : string) (now : Z) (o : string -> CloseOracle)
    (browserCloseOk : bool) (p : t) : bool * t :=
  match JsMap.get bid (browsers p) with
  | None => (false, p)
  | Some _ =>
      let p1 := closePagesOf bid (pages p) now o p in
      let p2 := if browserCloseOk then onBrowserDisconnected bid p1 else p1 in
      (browserCloseOk,
       emit (browserClosed bid) (with_browsers (JsMap.delete bid (browsers p2)) p2))
  end.

(** [restartBrowser(browserId)] *)
Definition restartBrowser (bid : string) (now : Z) (o : string -> CloseOracle)
    (browserCloseOk : bool) (lo : LaunchOracle) (p : t)
  : Js.result (option (string * Browser)) * t :=
  match JsMap.get bid (browsers p) with
  | None => (Js.Return None, p)
  | Some _ =>
      let p1 := snd (closeBrowser bid now o browserCloseOk p) in
      match createBrowser {| opt_browserId := Some bid |} lo p1 with
      | (Js.Return nb, p2) => (Js.Return (Some nb), p2)
      | (Js.Throw e, p2) => (Js.Throw e, p2)
      end
  end.

(** What the outside world answers during one health-loop tick. *)
Record MonitorOracle := {
  mon_now : Z;
  mon_close : string -> CloseOracle;
  mon_browserCloseOk : string -> bool;
  mon_launch : string -> LaunchOracle
}.

(** The branch the loop of [monitorMemoryUsage] takes for one entry. *)
Inductive Action := Skip | CloseIdle | Restart | Keep.

Definition monitorDecision (b : Browser) (now : Z) : Action :=
  if negb (process b) then Skip
  else if Js.strict_eq (Js.prop_length (pages_call b)) (Js.number 0) then CloseIdle
  else if (Config.restartBrowserAfterPages cfg <=? pagesCreated b)%nat then Restart
  else if (Config.restartBrowserAfterTime cfg <=? now - createdAt b)%Z then Restart
  else Keep.

(** Body of the loop of [monitorMemoryUsage] for one entry, inner
    [try]/[catch] included: an error is logged and the loop goes on. *)
Definition monitorBrowser (bid : string) (b : Browser) (o : MonitorOracle) (p : t) : t :=
  match monitorDecision b (mon_now o) with
  | Skip => p
  | CloseIdle =>
      snd (closeBrowser bid (mon_now o) (mon_close o) (mon_browserCloseOk o bid) p)
  | Restart =>
      snd (restartBrowser bid (mon_now o) (mon_close o) (mon_browserCloseOk o bid)
             (mon_launch o bid) p)
  | Keep => p
  end.

(** [monitorMemoryUsage()]: the iteration runs over the live map, so an
    entry deleted before its turn is skipped and an entry re-inserted by a
    restart is visited again at the end.  [work] is the list of keys still
    to visit; [fuel] bounds the number of visits. *)
Fixpoint monitorLoop (fuel : nat) (work : list string) (o : MonitorOracle) (p : t) : t :=
  match fuel with
  | O => p
  | S fuel' =>
      match work with
      | [] => p
      | bid :: rest =>
          match JsMap.get bid (browsers p) with
          | None => monitorLoop fuel' rest o p
          | Some b =>
              let p' := monitorBrowser bid b o p in
              let again :=
                match monitorDecision b (mon_now o) with
                | Restart => if JsMap.has bid (browsers p') then [bid] else []
                | _ => []
                end in
              monitorLoop fuel' (rest ++ again) o p'
          end
      end
  end.

Definition monitorMemoryUsage (fuel : nat) (o : MonitorOracle) (p : t) : t :=
  monitorLoop fuel (JsMap.keys (browsers p)) o p.

(** Entry points of the pool: the public methods and the two listeners.
    [PageClosedByBrowser] is a page closing on its own (puppeteer drops it
    from the browser and fires the ['close'] listener). *)
Inductive Call :=
| CreateBrowser (options : BrowserOptions) (o : LaunchOracle)
| GetOrCreateBrowser (options : BrowserOptions) (o : LaunchOracle)
| CreatePage (options : PageOptions) (o : PageOracle)
| ClosePage (pageId : string) (now : Z) (o : CloseOracle)
| CloseBrowser (bid : string) (now : Z) (o : string -> CloseOracle) (browserCloseOk : bool)
| RestartBrowser (bid : string) (now : Z) (o : string -> CloseOracle)
    (browserCloseOk : bool) (lo : LaunchOracle)
| MonitorMemoryUsage (fuel : nat) (o : MonitorOracle)
| BrowserDisconnected (bid : string)
| PageClosedByBrowser (pageId : string).

Definition page_gone (pageId : string) (p : t) : t :=
  match JsMap.get pageId (pages p) with
  | Some i =>
      onPageClose pageId
        (with_browsers (JsMap.update (browserId i) browser_pageClosed (browsers p)) p)
  | None => onPageClose pageId p
  end.

Definition step (c : Call) (p : t) : t :=
  match c with
  | CreateBrowser options o => snd (createBrowser options o p)
  | GetOrCreateBrowser options o => snd (getOrCreateBrowser options o p)
  | CreatePage options o => snd (createPage options o p)
  | ClosePage pageId now o => snd (closePage pageId now o p)
  | CloseBrowser bid now o ok => snd (closeBrowser bid now o ok p)
  | RestartBrowser bid now o ok lo => snd (restartBrowser bid now o ok lo p)
  | MonitorMemoryUsage fuel o => monitorMemoryUsage fuel o p
  | BrowserDisconnected bid => onBrowserDisconnected bid p
  | PageClosedByBrowser pageId => page_gone pageId p
  end.

Definition run (cs : list Call) (p : t) : t := fold_left (fun q c => step c q) cs p.

(** The two caps of the pool. *)
Definition within_caps (p : t) : Prop :=
  (JsMap.size (browsers p) <= Config.maxBrowsers cfg)%nat /\
  forall id b, JsMap.get id (browsers p) = Some b ->
               (openPages b <= Config.maxPagesPerBrowser cfg)%nat.

(** Every browser of the pool is at the per-browser cap. *)
Definition all_full (p : t) : Prop :=
  forall id b, In (id, b) (browsers p) ->
               (Config.maxPagesPerBrowser cfg <= openPages b)%nat.

(** The loop of [shutdown] over [Array.from(this.browsers.keys())];
    [closeBrowser] catches what it raises. *)
Fixpoint closeBrowsers (ids : list string) (now : Z) (o : string -> CloseOracle)
    (browserCloseOk : string -> bool) (p : t) : t :=
  match ids with
  | [] => p
  | bid :: rest =>
      closeBrowsers rest now o browserCloseOk
        (snd (closeBrowser bid now o (browserCloseOk bid) p))
  end.

(** [shutdown()]: every registered browser is closed, then both maps are
    cleared.  (The [running] flag and the monitoring timer are not part of
    [t].) *)
Definition shutdown (now : Z) (o : string -> CloseOracle)
    (browserCloseOk : string -> bool) (p : t) : bool * t :=
  let p1 := closeBrowsers (JsMap.keys (browsers p)) now o browserCloseOk p in
  (true, with_pages JsMap.empty (with_browsers JsMap.empty p1)).

End WithConfig.

End BrowserPool.

(** ** Session manager ([core/session-manager.js]) *)

Module SessionManager.

Record Stats := {
  frameCount : nat;
  bytesSent : nat;
  bytesReceived : nat
}.

Record Session := mkSession {
  createdAt : Z;
  lastActivityAt : Z;
  browserId : option string;
  pageId : option string;
  webrtcId : option string;
  status : string;
  stats : Stats
}.

Inductive Event :=
| sessionCreated (id : string)
| sessionUpdated (id : string)
| sessionClosed (id : string) (reason : string).

Record t := mk {
  sessions : JsMap.t Session;
  sessionTimeouts : gmap string Q;  (* id -> instant at which the timer fires *)
  emitted : list Event
}.

Definition init : t := {| sessions := JsMap.empty; sessionTimeouts := ∅; emitted := [] |}.

Definition emit (e : Event) (m : t) : t :=
  {| sessions := sessions m; sessionTimeouts := sessionTimeouts m;
     emitted := emitted m ++ [e] |}.

Definition with_sessions (ss : JsMap.t Session) (m : t) : t :=
  {| sessions := ss; sessionTimeouts := sessionTimeouts m; emitted := emitted m |}.

Definition with_timeouts (ts : gmap string Q) (m : t) : t :=
  {| sessions := sessions m; sessionTimeouts := ts; emitted := emitted m |}.

Record SessionOptions := { opt_sessionId : option string }.

(** [Object.assign(session, updates)] for the fields the server updates. *)
Record Updates := {
  upd_browserId : option string;
  upd_pageId : option string;
  upd_webrtcId : option string
}.

Section WithConfig.

Variable cfg : Config.SESSION.

(** [SESSION_CONFIG.sessionTimeout * 60 * 1000], a binary64 product *)
Definition timeout : Js.float :=
  Js.mul (Js.mul (Config.sessionTimeout cfg) (Js.float_of_Z 60)) (Js.float_of_Z 1000).

(** Its exact value in milliseconds ([0] stands in when it is [NaN] or
    infinite). *)
Definition timeout_ms : Q := default 0%Q (Js.float_value timeout).

(** [clearSessionTimeout(sessionId)] *)
Definition clearSessionTimeout (id : string) (m : t) : t :=
  match sessionTimeouts m !! id with
  | Some _ => with_timeouts (delete id (sessionTimeouts m)) m
  | None => m
  end.

(** [resetSessionTimeout(sessionId)]: the timer armed at [now] fires at
    [now + timeout_ms]. *)
Definition resetSessionTimeout (id : string) (now : Z) (m : t) : t :=
  let m1 := clearSessionTimeout id m in
  with_timeouts (<[id := (inject_Z now + timeout_ms)%Q]> (sessionTimeouts m1)) m1.

(** [createSession(options)] *)
Definition createSession (options : SessionOptions) (uuid : string) (now : Z) (m : t)
  : Js.result (string * Session) * t :=
  if (Config.maxConcurrentSessions cfg <=? JsMap.size (sessions m))%nat then
    (Js.Throw (Js.ResourceLimitError "Maximum number of concurrent sessions reached"), m)
  else
    let id := Js.or_string (opt_sessionId options) uuid in
    match JsMap.get id (sessions m) with
    | Some s => (Js.Return (id, s), m)
    | None =>
        let s := {| createdAt := now; lastActivityAt := now; browserId := None;
                    pageId := None; webrtcId := None; status := "created";
                    stats := {| frameCount := 0; bytesSent := 0; bytesReceived := 0 |} |} in
        (Js.Return (id, s),
         emit (sessionCreated id)
           (resetSessionTimeout id now (with_sessions (JsMap.set id s (sessions m)) m)))
    end.

Definition touch (now : Z) (s : Session) : Session :=
  {| createdAt := createdAt s; lastActivityAt := now; browserId := browserId s;
     pageId := pageId s; webrtcId := webrtcId s; status := status s; stats := stats s |}.

(** [getSession(sessionId)]: every access refreshes the session. *)
Definition getSession (id : string) (now : Z) (m : t) : option Session * t :=
  match JsMap.get id (sessions m) with
  | None => (None, m)
  | Some s =>
      (Some (touch now s),
       resetSessionTimeout id now (with_sessions (JsMap.update id (touch now) (sessions m)) m))
  end.

Definition assign (u : Updates) (s : Session) : Session :=
  {| createdAt := createdAt s; lastActivityAt := lastActivityAt s;
     browserId := match upd_browserId u with Some x => Some x | None => browserId s end;
     pageId := match upd_pageId u with Some x => Some x | None => pageId s end;
     webrtcId := match upd_webrtcId u with Some x => Some x | None => webrtcId s end;
     status := status s; stats := stats s |}.

(** [updateSession(sessionId, updates)] *)
Definition updateSession (id : string) (u : Updates) (now : Z) (m : t)
  : Js.result Session * t :=
  match getSession id now m with
  | (None, m1) => (Js.Throw (Js.NotFoundError "Session not found"), m1)
  | (Some s, m1) =>
      let f := fun x => touch now (assign u x) in
      (Js.Return (f s),
       emit (sessionUpdated id)
         (resetSessionTimeout id now (with_sessions (JsMap.update id f (sessions m1)) m1)))
  end.

Definition assign_stats (frames bytes : nat) (s : Session) : Session :=
  {| createdAt := createdAt s; lastActivityAt := lastActivityAt s;
     browserId := browserId s; pageId := pageId s; webrtcId := webrtcId s;
     status := status s;
     stats := {| frameCount := frames; bytesSent := bytes;
                 bytesReceived := bytesReceived (stats s) |} |}.

(** [updateSessionStats(sessionId, {frameCount, bytesSent})] *)
Definition updateSessionStats (id : string) (frames bytes : nat) (now : Z) (m : t)
  : Js.result Session * t :=
  match getSession id now m with
  | (None, m1) => (Js.Throw (Js.NotFoundError "Session not found"), m1)
  | (Some s, m1) =>
      let f := fun x => touch now (assign_stats frames bytes x) in
      (Js.Return (f s),
       resetSessionTimeout id now (with_sessions (JsMap.update id f (sessions m1)) m1))
  end.

Definition set_status (st : string) (s : Session) : Session :=
  {| createdAt := createdAt s; lastActivityAt := lastActivityAt s;
     browserId := browserId s; pageId := pageId s; webrtcId := webrtcId s;
     status := st; stats := stats s |}.

(** What the outside world answers while one session is closed. *)
Record CloseOracle := {
  close_now : Z;
  page_close : BrowserPool.CloseOracle;
  listener_throws : bool   (* a ['sessionClosed'] listener throws *)
}.

(** [closeSession(sessionId, reason)], on the manager and the pool it
    holds.  [closePage] never throws; the only statement of the [try] block
    that can is the final [emit], and the [catch] block then deletes the
    session again and emits with reason ['error']. *)
Definition closeSession (id reason : string) (o : CloseOracle)
    (m : t) (pool : BrowserPool.t) : bool * t * BrowserPool.t :=
  match JsMap.get id (sessions m) with
  | None => (false, m, pool)
  | Some s =>
      let m1 := with_sessions (JsMap.update id (set_status "closing") (sessions m)) m in
      let m2 := clearSessionTimeout id m1 in
      let pool' :=
        match pageId s with
        | Some pg =>
            if String.eqb pg "" then pool
            else snd (BrowserPool.closePage pg (close_now o) (page_close o) pool)
        | None => pool
        end in
      let m3 := with_sessions (JsMap.delete id (sessions m2)) m2 in
      if listener_throws o then
        (false,
         emit (sessionClosed id "error")
           (clearSessionTimeout id (with_sessions (JsMap.delete id (sessions m3)) m3)),
         pool')
      else (true, emit (sessionClosed id reason) m3, pool')
  end.

(** The test of [cleanupExpiredSessions] on one session. *)
Definition expired (now : Z) (s : Session) : bool :=
  let sessionAge := (now - createdAt s)%Z in
  let lastActivityAge := (now - lastActivityAt s)%Z in
  Js.exceeds sessionAge timeout || Js.exceeds lastActivityAge timeout.

(** First loop of [cleanupExpiredSessions]: collect the expired ids. *)
Definition expiredSessions (now : Z) (m : t) : list string :=
  JsMap.keys (List.filter (fun e => expired now (snd e)) (sessions m)).

(** Second loop: close them one after the other. *)
Fixpoint closeAll (ids : list string) (reason : string) (o : string -> CloseOracle)
    (m : t) (pool : BrowserPool.t) : t * BrowserPool.t :=
  match ids with
  | [] => (m, pool)
  | id :: rest =>
      match closeSession id reason (o id) m pool with
      | (_, m', pool') => closeAll rest reason o m' pool'
      end
  end.

(** [cleanupExpiredSessions()] run at instant [now]. *)
Definition cleanupExpiredSessions (now : Z) (o : string -> CloseOracle)
    (m : t) (pool : BrowserPool.t) : t * BrowserPool.t :=
  closeAll (expiredSessions now m) "expired" o m pool.

(** The callback armed by [resetSessionTimeout], when the timer fires. *)
Definition onSessionTimeout (id : string) (o : CloseOracle)
    (m : t) (pool : BrowserPool.t) : t * BrowserPool.t :=
  match closeSession id "timeout" o m pool with
  | (_, m', pool') => (m', pool')
  end.

(** [shutdown()]: every session is closed with reason ['shutdown'], then
    both maps are cleared.  (The [running] flag and the cleanup timer are
    not part of [t].) *)
Definition shutdown (o : string -> CloseOracle) (m : t) (pool : BrowserPool.t)
  : bool * t * BrowserPool.t :=
  match closeAll (JsMap.keys (sessions m)) "shutdown" o m pool with
  | (m1, pool1) => (true, with_timeouts ∅ (with_sessions JsMap.empty m1), pool1)
  end.

(** Entry points of the session manager: its public methods, the periodic
    cleanup and the per-session timer. *)
Inductive Call :=
| CreateSession (options : SessionOptions) (uuid : string) (now : Z)
| GetSession (id : string) (now : Z)
| UpdateSession (id : string) (u : Updates) (now : Z)
| UpdateSessionStats (id : string) (frames bytes : nat) (now : Z)
| CloseSession (id reason : string) (o : CloseOracle)
| CleanupExpiredSessions (now : Z) (o : string -> CloseOracle)
| SessionTimeout (id : string) (o : CloseOracle)
| Shutdown (o : string -> CloseOracle).

Definition step (c : Call) (st : t * BrowserPool.t) : t * BrowserPool.t :=
  let '(m, pool) := st in
  match c with
  | CreateSession options uuid now => (snd (createSession options uuid now m), pool)
  | GetSession id now => (snd (getSession id now m), pool)
  | UpdateSession id u now => (snd (updateSession id u now m), pool)
  | UpdateSessionStats id frames bytes now =>
      (snd (updateSessionStats id frames bytes now m), pool)
  | CloseSession id reason o =>
      match closeSession id reason o m pool with (_, m', pool') => (m', pool') end
  | CleanupExpiredSessions now o => cleanupExpiredSessions now o m pool
  | SessionTimeout id o => onSessionTimeout id o m pool
  | Shutdown o => match shutdown o m pool with (_, m', pool') => (m', pool') end
  end.

Definition run (cs : list Call) (st : t * BrowserPool.t) : t * BrowserPool.t :=
  fold_left (fun acc c => step c acc) cs st.

(** The instant at which the idle timer of session [id] fires, as far as
    the stored session tells: its last activity plus the time to live. *)
Definition idle_deadline (id : string) (m : t) : option Q :=
  (fun s => (inject_Z (lastActivityAt s) + timeout_ms)%Q) <$> JsMap.get id (sessions m).

End WithConfig.

End SessionManager.

(** ** Encoder services *)

(** Options handed to [createEncoder] by the streaming engine. *)
Record EncoderOptions := {
  eo_frameRate : Q;
  eo_bitrate : Q;
  eo_strategy : option string
}.

(** [{ ...encoder.stats }] as returned by [getEncoderStats].  Neither
    encoder service records an [avgBitrate]. *)
Record EncoderStats := {
  framesEncoded : nat;
  bytesEncoded : nat;
  encodingTime : Z
}.

(** [array.indexOf(x)]; [None] stands for [-1]. *)
Fixpoint indexOf (x : string) (l : list string) : option nat :=
  match l with
  | [] => None
  | y :: l' => if String.eqb y x then Some 0%nat else S <$> indexOf x l'
  end.

(** *** [services/cuda-encoder.js] *)

Module CUDAEncoder.

Record Encoder := mkEncoder {
  process : bool;          (* an ffmpeg child process is stored *)
  frameRate : Q;
  bitrate : Q;
  strategy : string;
  stats : EncoderStats;
  startTime : option Z;
  active : bool
}.

Inductive Event :=
| encoderStarted (id : string)
| encoderError (id : string)
| encoderClosed (id : string) (code : Z)
| encoderStopped (id : string).

(** Name under which an event is emitted. *)
Definition event_name (e : Event) : string :=
  match e with
  | encoderStarted _ => "encoderStarted"
  | encoderError _ => "encoderError"
  | encoderClosed _ _ => "encoderClosed"
  | encoderStopped _ => "encoderStopped"
  end.

Definition event_id (e : Event) : string :=
  match e with
  | encoderStarted id | encoderError id | encoderClosed id _ | encoderStopped id => id
  end.

Record t := mk {
  encoders : gmap string Encoder;
  encodingStrategies : list string;
  currentStrategy : string;
  emitted : list Event
}.

(** State after the constructor. *)
Definition init : t := {|
  encoders := ∅;
  encodingStrategies := Config.encodingStrategies Config.STREAMING_CONFIG;
  currentStrategy := Config.defaultEncodingStrategy Config.STREAMING_CONFIG;
  emitted := []
|}.

Definition with_encoders (es : gmap string Encoder) (c : t) : t :=
  {| encoders := es; encodingStrategies := encodingStrategies c;
     currentStrategy := currentStrategy c; emitted := emitted c |}.

Definition emit (e : Event) (c : t) : t :=
  {| encoders := encoders c; encodingStrategies := encodingStrategies c;
     currentStrategy := currentStrategy c; emitted := emitted c ++ [e] |}.

(** [initialize()], given the outcome of the NVENC probe. *)
Definition initialize (nvencAvailable : bool) (c : t) : t :=
  {| encoders := encoders c; encodingStrategies := encodingStrategies c;
     currentStrategy := if nvencAvailable then "cuda_h264" else "cpu_h264";
     emitted := emitted c |}.

(** [createEncoder(encoderId, options)] *)
Definition createEncoder (id : string) (options : EncoderOptions) (c : t) : Encoder * t :=
  match encoders c !! id with
  | Some e => (e, c)
  | None =>
      let e := {| process := false;
                  frameRate := Js.or_number (eo_frameRate options) Config.ENCODER_defaultFrameRate;
                  bitrate := Js.or_number (eo_bitrate options) Config.ENCODER_defaultBitrate;
                  strategy := Js.or_string (eo_strategy options) (currentStrategy c);
                  stats := {| framesEncoded := 0; bytesEncoded := 0; encodingTime := 0 |};
                  startTime := None;
                  active := false |} in
      (e, with_encoders (<[id := e]> (encoders c)) c)
  end.

Definition set_active (a : bool) (e : Encoder) : Encoder :=
  {| process := process e; frameRate := frameRate e; bitrate := bitrate e;
     strategy := strategy e; stats := stats e; startTime := startTime e; active := a |}.

Definition set_strategy (s : string) (e : Encoder) : Encoder :=
  {| process := process e; frameRate := frameRate e; bitrate := bitrate e;
     strategy := s; stats := stats e; startTime := startTime e; active := active e |}.

Definition started (now : Z) (e : Encoder) : Encoder :=
  {| process := true; frameRate := frameRate e; bitrate := bitrate e;
     strategy := strategy e; stats := stats e; startTime := Some now; active := true |}.

(** [startEncoder(encoderId)]; [spawn_ok] tells whether the [try] block
    (temp directory, [spawn]) runs through. *)
Definition startEncoder (id : string) (spawn_ok : bool) (now : Z) (c : t) : bool * t :=
  match encoders c !! id with
  | None => (false, c)
  | Some e =>
      if active e then (true, c)
      else if spawn_ok then
        (true, emit (encoderStarted id) (with_encoders (<[id := started now e]> (encoders c)) c))
      else
        (false, with_encoders (<[id := set_active false e]> (encoders c)) c)
  end.

(** [tryFallbackStrategy(encoderId)] *)
Definition tryFallbackStrategy (id : string) (spawn_ok : bool) (now : Z) (c : t) : bool * t :=
  match encoders c !! id with
  | None => (false, c)
  | Some e =>
      let currentStrategy := strategy e in
      match indexOf currentStrategy (encodingStrategies c) with
      | None => (false, c)
      | Some currentIndex =>
          if (currentIndex =? length (encodingStrategies c) - 1)%nat then (false, c)
          else
            match encodingStrategies c !! S currentIndex with
            | None => (false, c)   (* unreachable: the index is in range *)
            | Some nextStrategy =>
                startEncoder id spawn_ok now
                  (with_encoders (<[id := set_strategy nextStrategy e]> (encoders c)) c)
            end
      end
  end.

(** [handleEncoderError(encoderId, error)] *)
Definition handleEncoderError (id : string) (spawn_ok : bool) (now : Z) (c : t) : t :=
  match encoders c !! id with
  | None => c
  | Some e =>
      let c1 := with_encoders (<[id := set_active false e]> (encoders c)) c in
      snd (tryFallbackStrategy id spawn_ok now (emit (encoderError id) c1))
  end.

(** [handleEncoderClosed(encoderId, code)] *)
Definition handleEncoderClosed (id : string) (code : Z) (spawn_ok : bool) (now : Z) (c : t) : t :=
  match encoders c !! id with
  | None => c
  | Some e =>
      let c1 := with_encoders (<[id := set_active false e]> (encoders c)) c in
      let c2 := emit (encoderClosed id code) c1 in
      if (code =? 0)%Z then c2 else snd (tryFallbackStrategy id spawn_ok now c2)
  end.

Definition encoded (len : nat) (elapsed : Z) (e : Encoder) : Encoder :=
  {| process := process e; frameRate := frameRate e; bitrate := bitrate e;
     strategy := strategy e;
     stats := {| framesEncoded := S (framesEncoded (stats e));
                 bytesEncoded := bytesEncoded (stats e) + len;
                 encodingTime := encodingTime (stats e) + elapsed |};
     startTime := startTime e; active := active e |}.

(** [encodeFrame(encoderId, frameData)]; [write_ok] tells whether the frame
    could be written to the input file, [elapsed] how long it took. *)
Definition encodeFrame (id : string) (len : nat) (write_ok : bool) (elapsed : Z) (c : t)
  : bool * t :=
  match encoders c !! id with
  | None => (false, c)
  | Some e =>
      if negb (active e) then (false, c)
      else if negb (process e) then (false, c)
      else if write_ok then (true, with_encoders (<[id := encoded len elapsed e]> (encoders c)) c)
      else (false, c)
  end.

(** [stopEncoder(encoderId)] *)
Definition stopEncoder (id : string) (c : t) : bool * t :=
  match encoders c !! id with
  | None => (false, c)
  | Some e =>
      if negb (active e) then (true, c)
      else (true, emit (encoderStopped id)
                    (with_encoders (<[id := set_active false e]> (encoders c)) c))
  end.

(** [getEncoderStats(encoderId)] *)
Definition getEncoderStats (id : string) (c : t) : option EncoderStats :=
  stats <$> encoders c !! id.

(** Handling of one fatal event of the encoding worker: an ['error'] of the
    child process, or its ['close'] with exit code [code]. *)
Inductive Failure :=
| WorkerError
| WorkerClosed (code : Z).

Definition fatal (f : Failure) : Prop :=
  match f with
  | WorkerError => True
  | WorkerClosed code => code <> 0%Z
  end.

Definition handleFailure (id : string) (f : Failure) (spawn_ok : bool) (now : Z) (c : t) : t :=
  match f with
  | WorkerError => handleEncoderError id spawn_ok now c
  | WorkerClosed code => handleEncoderClosed id code spawn_ok now c
  end.

(** Position of the active strategy of encoder [id] in the fallback chain. *)
Definition strategyIndex (id : string) (c : t) : option nat :=
  match encoders c !! id with
  | Some e => indexOf (strategy e) (encodingStrategies c)
  | None => None
  end.

(** No encoder was ever started: none is active, none holds a worker, none
    has encoded a frame. *)
Definition never_started (c : t) : Prop :=
  forall id e, encoders c !! id = Some e ->
    active e = false /\ process e = false /\ framesEncoded (stats e) = 0%nat.

(** A run of worker failures of encoder [id], each with the outcome of the
    restart it may trigger. *)
Definition handleFailures (id : string) (fs : list (Failure * bool * Z)) (c : t) : t :=
  fold_left (fun acc x => handleFailure id x.1.1 x.1.2 x.2 acc) fs c.

End CUDAEncoder.

(** *** [services/basic-encoder.js] *)

Module BasicEncoder.

Record Encoder := mkEncoder {
  frameRate : Q;
  bitrate : Q;
  strategy : string;
  stats : EncoderStats;
  active : bool
}.

Inductive Event :=
| encodedFrame (id : string) (len : nat) (keyFrame : bool)
| encoderStopped (id : string).

Record t := mk {
  encoders : gmap string Encoder;
  encodingStrategies : list string;
  currentStrategy : string;
  emitted : list Event
}.

Definition init : t := {|
  encoders := ∅;
  encodingStrategies := ["cpu_h264"; "cpu_hevc"; "mjpeg"];
  currentStrategy := "cpu_h264";
  emitted := []
|}.

Definition with_encoders (es : gmap string Encoder) (c : t) : t :=
  {| encoders := es; encodingStrategies := encodingStrategies c;
     currentStrategy := currentStrategy c; emitted := emitted c |}.

Definition emit (e : Event) (c : t) : t :=
  {| encoders := encoders c; encodingStrategies := encodingStrategies c;
     currentStrategy := currentStrategy c; emitted := emitted c ++ [e] |}.

(** [createEncoder(encoderId, options)] *)
Definition createEncoder (id : string) (options : EncoderOptions) (c : t) : Encoder * t :=
  match encoders c !! id with
  | Some e => (e, c)
  | None =>
      let e := {| frameRate := Js.or_number (eo_frameRate options) Config.ENCODER_defaultFrameRate;
                  bitrate := Js.or_number (eo_bitrate options) Config.ENCODER_defaultBitrate;
                  strategy := Js.or_string (eo_strategy options) (currentStrategy c);
                  stats := {| framesEncoded := 0; bytesEncoded := 0; encodingTime := 0 |};
                  active := true |} in
      (e, with_encoders (<[id := e]> (encoders c)) c)
  end.

Definition encoded (len : nat) (elapsed : Z) (e : Encoder) : Encoder :=
  {| frameRate := frameRate e; bitrate := bitrate e; strategy := strategy e;
     stats := {| framesEncoded := S (framesEncoded (stats e));
                 bytesEncoded := bytesEncoded (stats e) + len;
                 encodingTime := encodingTime (stats e) + elapsed |};
     active := active e |}.

(** [encodeFrame(encoderId, frameData)]: pass-through, the frame is emitted
    as encoded at once. *)
Definition encodeFrame (id : string) (len : nat) (elapsed : Z) (c : t) : bool * t :=
  match encoders c !! id with
  | None => (false, c)
  | Some e =>
      if negb (active e) then (false, c)
      else
        let e' := encoded len elapsed e in
        (true,
         emit (encodedFrame id len (framesEncoded (stats e') mod 30 =? 0)%nat)
           (with_encoders (<[id := e']> (encoders c)) c))
  end.

Definition assign (fr br : Z) (e : Encoder) : Encoder :=
  {| frameRate := inject_Z fr; bitrate := inject_Z br; strategy := strategy e;
     stats := stats e; active := active e |}.

(** [updateEncoderOptions(encoderId, {bitrate, frameRate})] *)
Definition updateEncoderOptions (id : string) (br fr : Z) (c : t) : t :=
  match encoders c !! id with
  | None => c
  | Some e => with_encoders (<[id := assign fr br e]> (encoders c)) c
  end.

Definition set_active (a : bool) (e : Encoder) : Encoder :=
  {| frameRate := frameRate e; bitrate := bitrate e; strategy := strategy e;
     stats := stats e; active := a |}.

(** [stopEncoder(encoderId)] *)
Definition stopEncoder (id : string) (c : t) : bool * t :=
  match encoders c !! id with
  | None => (false, c)
  | Some e =>
      (true, emit (encoderStopped id) (with_encoders (<[id := set_active false e]> (encoders c)) c))
  end.

(** [destroyEncoder(encoderId)] *)
Definition destroyEncoder (id : string) (c : t) : t :=
  let c1 := snd (stopEncoder id c) in
  with_encoders (delete id (encoders c1)) c1.

(** [getEncoderStats(encoderId)] *)
Definition getEncoderStats (id : string) (c : t) : option EncoderStats :=
  stats <$> encoders c !! id.

(** [encodeFrame] called once per frame of [frames], each given by its
    length and the time its encoding took. *)
Definition encodeFrames (id : string) (frames : list (nat * Z)) (c : t) : t :=
  fold_left (fun acc f => snd (encodeFrame id (fst f) (snd f) acc)) frames c.

End BasicEncoder.

(** *** The encoder object handed to the streaming engine

    The engine calls [createEncoder], [encodeFrame], [getEncoderStats],
    [updateEncoderOptions] and [destroyEncoder] on whatever object it was
    given.  A method the object does not define is [None]: calling it raises
    a [TypeError]. *)
Class EncoderBackend (E : Type) := {
  enc_createEncoder : string -> EncoderOptions -> E -> E;
  enc_encodeFrame : string -> nat -> bool -> Z -> E -> E;
  enc_getEncoderStats : string -> E -> option EncoderStats;
  enc_updateEncoderOptions : option (string -> Z -> Z -> E -> E);
  enc_destroyEncoder : option (string -> E -> E);
  enc_bitrate : string -> E -> option Q
}.

#[export] Instance cuda_backend : EncoderBackend CUDAEncoder.t := {|
  enc_createEncoder := fun id o c => snd (CUDAEncoder.createEncoder id o c);
  enc_encodeFrame := fun id len ok dt c => snd (CUDAEncoder.encodeFrame id len ok dt c);
  enc_getEncoderStats := CUDAEncoder.getEncoderStats;
  enc_updateEncoderOptions := None;
  enc_destroyEncoder := None;
  enc_bitrate := fun id c => CUDAEncoder.bitrate <$> CUDAEncoder.encoders c !! id
|}.

#[export] Instance basic_backend : EncoderBackend BasicEncoder.t := {|
  enc_createEncoder := fun id o c => snd (BasicEncoder.createEncoder id o c);
  enc_encodeFrame := fun id len _ dt c => snd (BasicEncoder.encodeFrame id len dt c);
  enc_getEncoderStats := BasicEncoder.getEncoderStats;
  enc_updateEncoderOptions := Some BasicEncoder.updateEncoderOptions;
  enc_destroyEncoder := Some BasicEncoder.destroyEncoder;
  enc_bitrate := fun id c => BasicEncoder.bitrate <$> BasicEncoder.encoders c !! id
|}.

(** ** Transport ([services/webrtc-service.js]) *)

Module WebRTCService.

Record Stats := {
  bytesSent : nat;
  packetsLost : Q;
  roundTripTime : Q;
  jitter : Q
}.

Record Connection := mkConnection {
  createdAt : Z;
  lastActivityAt : Z;
  stats : Stats;
  active : bool
}.

Inductive Event :=
| connectionCreated (id : string)
| connectionClosed (id : string) (state : string).

Record t := mk {
  wrtc : bool;                      (* the native module was loaded *)
  connections : gmap string Connection;
  emitted : list Event
}.

(** State after the constructor; [loaded] tells whether [require] of the
    native module succeeded. *)
Definition init (loaded : bool) : t :=
  {| wrtc := loaded; connections := ∅; emitted := [] |}.

Definition with_connections (cs : gmap string Connection) (w : t) : t :=
  {| wrtc := wrtc w; connections := cs; emitted := emitted w |}.

Definition emit (e : Event) (w : t) : t :=
  {| wrtc := wrtc w; connections := connections w; emitted := emitted w ++ [e] |}.

(** [createConnection(connectionId, options)]; [peer_ok] tells whether the
    peer connection and its video track could be built. *)
Definition createConnection (id : string) (peer_ok : bool) (now : Z) (w : t)
  : Js.result Connection * t :=
  match connections w !! id with
  | Some c => (Js.Return c, w)
  | None =>
      if negb (wrtc w) then (Js.Throw (Js.Error "wrtc module not available"), w)
      else if negb peer_ok then (Js.Throw (Js.Error "RTCPeerConnection failed"), w)
      else
        let c := {| createdAt := now; lastActivityAt := now;
                    stats := {| bytesSent := 0; packetsLost := 0;
                                roundTripTime := 0; jitter := 0 |};
                    active := true |} in
        (Js.Return c, emit (connectionCreated id) (with_connections (<[id := c]> (connections w)) w))
  end.

Definition touch (now : Z) (c : Connection) : Connection :=
  {| createdAt := createdAt c; lastActivityAt := now; stats := stats c; active := active c |}.

(** [getConnection(connectionId)] *)
Definition getConnection (id : string) (now : Z) (w : t) : option Connection * t :=
  match connections w !! id with
  | None => (None, w)
  | Some c => (Some (touch now c), with_connections (<[id := touch now c]> (connections w)) w)
  end.

Definition sent (len : nat) (c : Connection) : Connection :=
  {| createdAt := createdAt c; lastActivityAt := lastActivityAt c;
     stats := {| bytesSent := bytesSent (stats c) + len; packetsLost := packetsLost (stats c);
                 roundTripTime := roundTripTime (stats c); jitter := jitter (stats c) |};
     active := active c |}.

(** [sendVideoFrame(connectionId, frameData, frameInfo)]; [frame_ok] tells
    whether building and pushing the video frame runs through. *)
Definition sendVideoFrame (id : string) (len : nat) (frame_ok : bool) (now : Z) (w : t)
  : bool * t :=
  match getConnection id now w with
  | (None, w1) => (false, w1)
  | (Some c, w1) =>
      if negb (active c) then (false, w1)
      else if negb (wrtc w1) then (false, w1)
      else if negb frame_ok then (false, w1)
      else (true, with_connections (<[id := sent len c]> (connections w1)) w1)
  end.

(** [getConnectionStats(connectionId)]; [live] is what the peer connection
    reports on top of the stored counters ([None] when [getStats] fails or
    reports nothing). *)
Definition getConnectionStats (id : string) (live : option Stats) (now : Z) (w : t)
  : option Stats * t :=
  match getConnection id now w with
  | (None, w1) => (None, w1)
  | (Some c, w1) => (Some (default (stats c) live), w1)
  end.

(** [closeConnection(connectionId)]; [close_ok] tells whether stopping the
    track and closing the peer connection run through. *)
Definition closeConnection (id : string) (close_ok : bool) (w : t) : bool * t :=
  match connections w !! id with
  | None => (false, w)
  | Some c =>
      let w1 := with_connections (delete id (connections w)) w in
      if close_ok then (true, emit (connectionClosed id "closed") w1)
      else (false, emit (connectionClosed id "error") w1)
  end.

(** The four transport operations the core consumes. *)
Inductive Call :=
| CreateConnection (id : string) (peer_ok : bool) (now : Z)
| SendVideoFrame (id : string) (len : nat) (frame_ok : bool) (now : Z)
| GetConnectionStats (id : string) (live : option Stats) (now : Z)
| CloseConnection (id : string) (close_ok : bool).

Definition step (c : Call) (w : t) : t :=
  match c with
  | CreateConnection id peer_ok now => snd (createConnection id peer_ok now w)
  | SendVideoFrame id len frame_ok now => snd (sendVideoFrame id len frame_ok now w)
  | GetConnectionStats id live now => snd (getConnectionStats id live now w)
  | CloseConnection id close_ok => snd (closeConnection id close_ok w)
  end.

Definition run (cs : list Call) (w : t) : t := fold_left (fun v c => step c v) cs w.

(** The native module is missing and, as a consequence, no connection is
    stored. *)
Definition degraded (w : t) : Prop := wrtc w = false /\ connections w = ∅.

End WebRTCService.

(** *** The variant of the service with a fallback mode

    When no native module can be loaded the constructor installs mock
    classes and sets [fallbackMode]; [createConnection] and
    [sendVideoFrame] are the two methods that differ. *)

Module WebRTCFallback.

Import WebRTCService.

Inductive Event :=
| connectionCreated (id : string)
| frameData (id : string) (len : nat).

Record t := mk {
  fallbackMode : bool;
  connections : gmap string Connection;
  emitted : list Event
}.

Definition init (loaded : bool) : t :=
  {| fallbackMode := negb loaded; connections := ∅; emitted := [] |}.

(** [createConnection(connectionId, options)]: the mock classes never
    fail, the native ones may. *)
Definition createConnection (id : string) (peer_ok : bool) (now : Z) (w : t)
  : Js.result Connection * t :=
  match connections w !! id with
  | Some c => (Js.Return c, w)
  | None =>
      if negb (fallbackMode w) && negb peer_ok
      then (Js.Throw (Js.Error "RTCPeerConnection failed"), w)
      else
        let c := {| createdAt := now; lastActivityAt := now;
                    stats := {| bytesSent := 0; packetsLost := 0;
                                roundTripTime := 0; jitter := 0 |};
                    active := true |} in
        (Js.Return c,
         {| fallbackMode := fallbackMode w; connections := <[id := c]> (connections w);
            emitted := emitted w ++ [connectionCreated id] |})
  end.

(** [sendVideoFrame(connectionId, frameData, frameInfo)] *)
Definition sendVideoFrame (id : string) (len : nat) (frame_ok : bool) (now : Z) (w : t)
  : bool * t :=
  match connections w !! id with
  | None => (false, w)
  | Some c0 =>
      let c := touch now c0 in
      let w1 := {| fallbackMode := fallbackMode w; connections := <[id := c]> (connections w);
                   emitted := emitted w |} in
      if negb (active c) then (false, w1)
      else if fallbackMode w then
        (true, {| fallbackMode := fallbackMode w1; connections := connections w1;
                  emitted := emitted w1 ++ [frameData id len] |})
      else if negb frame_ok then (false, w1)
      else (true, {| fallbackMode := fallbackMode w1;
                     connections := <[id := sent len c]> (connections w1);
                     emitted := emitted w1 |})
  end.

End WebRTCFallback.

(** ** WebSocket service ([services/websocket-service.js]) *)

Module WebSocketService.

Record Stats := {
  messagesSent : nat;
  messagesReceived : nat;
  bytesSent : nat;
  bytesReceived : nat
}.

(** A client record, with what the service reads from its socket object. *)
Record Client := mkClient {
  open : bool;             (* [ws.readyState === WebSocket.OPEN] *)
  createdAt : Z;
  lastActivityAt : Z;
  isAlive : bool;
  sessionId : option string;
  stats : Stats
}.

(** Messages the service writes to a socket. *)
Inductive Outgoing :=
| welcome (clientId : string) (timestamp : Z)
| pong (timestamp : Z)
| registered (sessionId : string) (timestamp : Z)
| error (msg : string) (timestamp : Z)
| payload (tag : string).   (* a message handed in by another service *)

(** What [JSON.parse] makes of an incoming message, as far as
    [processMessage] looks at it: [null], or a value with its [type] and
    [sessionId] properties ([None]: undefined). *)
Inductive Parsed :=
| Null
| Value (type : option string) (sessionId : option string).

(** An incoming message: its length and the result of parsing it ([None]
    when [JSON.parse] throws). *)
Record Incoming := { length : nat; parsed : option Parsed }.

Inductive Event :=
| clientConnected (clientId : string)
| clientRegistered (clientId sessionId : string)
| clientDisconnected (clientId : string) (sessionId : option string)
| input (sessionId : string)
| message (clientId : string).

Record t := mk {
  clients : JsMap.t Client;
  sent : list (string * Outgoing);   (* what was written to which socket *)
  emitted : list Event
}.

Definition init : t := {| clients := JsMap.empty; sent := []; emitted := [] |}.

Definition with_clients (cs : JsMap.t Client) (w : t) : t :=
  {| clients := cs; sent := sent w; emitted := emitted w |}.

Definition emit (e : Event) (w : t) : t :=
  {| clients := clients w; sent := sent w; emitted := emitted w ++ [e] |}.

Section WithConfig.

Variable cfg : Config.WEBSOCKET.

(** [JSON.stringify(message).length] *)
Variable wire_length : Outgoing -> nat.

Definition counted_out (len : nat) (c : Client) : Client :=
  {| open := open c; createdAt := createdAt c; lastActivityAt := lastActivityAt c;
     isAlive := isAlive c; sessionId := sessionId c;
     stats := {| messagesSent := S (messagesSent (stats c));
                 messagesReceived := messagesReceived (stats c);
                 bytesSent := bytesSent (stats c) + len;
                 bytesReceived := bytesReceived (stats c) |} |}.

(** [sendMessage(clientId, message)]; [send_ok] tells whether
    [JSON.stringify(message)] and [ws.send] return.  When one of them
    throws, the [catch] of the method logs the error and returns [false]:
    nothing was written and nothing is counted. *)
Definition sendMessage (clientId : string) (m : Outgoing) (send_ok : bool) (w : t) : bool * t :=
  match JsMap.get clientId (clients w) with
  | None => (false, w)
  | Some c =>
      if negb (open c) then (false, w)
      else if negb send_ok then (false, w)
      else
        (true,
         {| clients := JsMap.update clientId (counted_out (wire_length m)) (clients w);
            sent := sent w ++ [(clientId, m)];
            emitted := emitted w |})
  end.

(** [handleConnection(ws, req)]; [socket_open] is the state of the new
    socket, [send_ok] tells whether writing the welcome message to it
    returns. *)
Definition handleConnection (uuid : string) (socket_open send_ok : bool) (now : Z) (w : t) : t :=
  let client := {| open := socket_open; createdAt := now; lastActivityAt := now;
                   isAlive := true; sessionId := None;
                   stats := {| messagesSent := 0; messagesReceived := 0;
                               bytesSent := 0; bytesReceived := 0 |} |} in
  let w1 := with_clients (JsMap.set uuid client (clients w)) w in
  emit (clientConnected uuid) (snd (sendMessage uuid (welcome uuid now) send_ok w1)).

Definition set_session (sid : string) (c : Client) : Client :=
  {| open := open c; createdAt := createdAt c; lastActivityAt := lastActivityAt c;
     isAlive := isAlive c; sessionId := Some sid; stats := stats c |}.

(** A property read in a condition: [undefined], [null] and the empty
    string are falsy. *)
Definition truthy (o : option string) : option string :=
  match o with
  | Some s => if String.eqb s "" then None else Some s
  | None => None
  end.

(** [processMessage(clientId, message)]; [send_ok] is the oracle of the
    one answer the method may write. *)
Definition processMessage (clientId : string) (m : Parsed) (send_ok : bool) (now : Z) (w : t)
  : t :=
  match JsMap.get clientId (clients w) with
  | None => w
  | Some client =>
      match m with
      | Null => w          (* reading [message.type] throws; caught and logged *)
      | Value type sid =>
          if bool_decide (type = Some "ping") then
            snd (sendMessage clientId (pong now) send_ok w)
          else if bool_decide (type = Some "register") then
            match truthy sid with
            | Some s =>
                let w1 := with_clients (JsMap.update clientId (set_session s) (clients w)) w in
                emit (clientRegistered clientId s)
                  (snd (sendMessage clientId (registered s now) send_ok w1))
            | None => snd (sendMessage clientId (error "Missing sessionId" now) send_ok w)
            end
          else if bool_decide (type = Some "input") then
            match truthy (sessionId client) with
            | Some s => emit (input s) w
            | None =>
                snd (sendMessage clientId (error "Not registered with a session" now) send_ok w)
            end
          else emit (message clientId) w
      end
  end.

Definition counted_in (len : nat) (now : Z) (c : Client) : Client :=
  {| open := open c; createdAt := createdAt c; lastActivityAt := now;
     isAlive := isAlive c; sessionId := sessionId c;
     stats := {| messagesSent := messagesSent (stats c);
                 messagesReceived := S (messagesReceived (stats c));
                 bytesSent := bytesSent (stats c);
                 bytesReceived := bytesReceived (stats c) + len |} |}.

(** [handleMessage(clientId, message)] *)
Definition handleMessage (clientId : string) (m : Incoming) (send_ok : bool) (now : Z) (w : t)
  : t :=
  match JsMap.get clientId (clients w) with
  | None => w
  | Some _ =>
      let w1 := with_clients (JsMap.update clientId (counted_in (length m) now) (clients w)) w in
      match parsed m with
      | None => snd (sendMessage clientId (error "Invalid JSON message" now) send_ok w1)
      | Some p => processMessage clientId p send_ok now w1
      end
  end.

(** [handleClose(clientId)] *)
Definition handleClose (clientId : string) (w : t) : t :=
  match JsMap.get clientId (clients w) with
  | None => w
  | Some client =>
      emit (clientDisconnected clientId (sessionId client))
        (with_clients (JsMap.delete clientId (clients w)) w)
  end.

Definition alive (now : Z) (c : Client) : Client :=
  {| open := open c; createdAt := createdAt c; lastActivityAt := now;
     isAlive := true; sessionId := sessionId c; stats := stats c |}.

(** [handlePong(clientId)] *)
Definition handlePong (clientId : string) (now : Z) (w : t) : t :=
  match JsMap.get clientId (clients w) with
  | None => w
  | Some _ => with_clients (JsMap.update clientId (alive now) (clients w)) w
  end.

(** [closeConnection(clientId)]; [close_ok] tells whether [ws.close()]
    returns, [listener_throws] whether a ['clientDisconnected'] listener
    throws. *)
Definition closeConnection (clientId : string) (close_ok listener_throws : bool) (w : t)
  : bool * t :=
  match JsMap.get clientId (clients w) with
  | None => (false, w)
  | Some client =>
      if negb close_ok then (false, w)
      else
        (negb listener_throws,
         emit (clientDisconnected clientId (sessionId client))
           (with_clients (JsMap.delete clientId (clients w)) w))
  end.

(** [handleClientError(clientId, error)] *)
Definition handleClientError (clientId : string) (close_ok listener_throws : bool) (w : t) : t :=
  snd (closeConnection clientId close_ok listener_throws w).

Definition pinged (c : Client) : Client :=
  {| open := open c; createdAt := createdAt c; lastActivityAt := lastActivityAt c;
     isAlive := false; sessionId := sessionId c; stats := stats c |}.

(** What the sockets answer during one run of [pingClients]: whether
    [ws.terminate()] and [ws.ping()] return for a client. *)
Record PingOracle := {
  terminate_ok : string -> bool;
  ping_ok : string -> bool
}.

(** The test of [pingClients] on one client: it is kept when it is flagged
    alive and was active within [pingTimeout]. *)
Definition keeps (now : Z) (c : Client) : bool :=
  isAlive c && negb (Config.pingTimeout cfg <? now - lastActivityAt c)%Z.

(** The loop of [pingClients] over [this.clients.entries()]; an exception
    of a socket leaves the loop (outer [try]/[catch]). *)
Fixpoint pingLoop (entries : list (string * Client)) (now : Z) (o : PingOracle) (w : t) : t :=
  match entries with
  | [] => w
  | (clientId, client) :: rest =>
      if keeps now client then
        let w1 := with_clients (JsMap.update clientId pinged (clients w)) w in
        if ping_ok o clientId then pingLoop rest now o w1 else w1
      else if terminate_ok o clientId then
        pingLoop rest now o
          (emit (clientDisconnected clientId (sessionId client))
             (with_clients (JsMap.delete clientId (clients w)) w))
      else w
  end.

(** [pingClients()] *)
Definition pingClients (now : Z) (o : PingOracle) (w : t) : t :=
  pingLoop (clients w) now o w.

(** The loop of [sendMessageToSession] and [getClientBySessionId] over
    [this.clients.entries()]: the first client that carries the session
    id, in the insertion order of the registry.  A client is inserted when
    it connects and registering does not move it, so this is the order in
    which the clients connected, not the order in which they registered. *)
Fixpoint findClient (sid : string) (entries : list (string * Client)) : option string :=
  match entries with
  | [] => None
  | (clientId, client) :: rest =>
      if bool_decide (sessionId client = Some sid) then Some clientId
      else findClient sid rest
  end.

(** [sendMessageToSession(sessionId, message)] *)
Definition sendMessageToSession (sid : string) (m : Outgoing) (send_ok : bool) (w : t)
  : bool * t :=
  match findClient sid (clients w) with
  | Some clientId => sendMessage clientId m send_ok w
  | None => (false, w)
  end.

(** [getClientBySessionId(sessionId)] *)
Definition getClientBySessionId (sid : string) (w : t) : option (string * Client) :=
  match findClient sid (clients w) with
  | Some clientId => (fun c => (clientId, c)) <$> JsMap.get clientId (clients w)
  | None => None
  end.

(** [shutdown()]: every socket is closed, then the registry is cleared. *)
Definition shutdown (w : t) : bool * t := (true, with_clients JsMap.empty w).

(** What reaches the service: connections, socket events, the ping timer,
    and the calls of the other services. *)
Inductive Call :=
| Connection (uuid : string) (socket_open send_ok : bool) (now : Z)
| Message (clientId : string) (m : Incoming) (send_ok : bool) (now : Z)
| Close (clientId : string)
| ClientError (clientId : string) (close_ok listener_throws : bool)
| Pong (clientId : string) (now : Z)
| PingClients (now : Z) (o : PingOracle)
| SendMessage (clientId : string) (m : Outgoing) (send_ok : bool)
| SendMessageToSession (sid : string) (m : Outgoing) (send_ok : bool)
| CloseConnection (clientId : string) (close_ok listener_throws : bool)
| SocketState (clientId : string) (socket_open : bool)
| Shutdown.

Definition set_open (b : bool) (c : Client) : Client :=
  {| open := b; createdAt := createdAt c; lastActivityAt := lastActivityAt c;
     isAlive := isAlive c; sessionId := sessionId c; stats := stats c |}.

Definition step (c : Call) (w : t) : t :=
  match c with
  | Connection uuid socket_open send_ok now => handleConnection uuid socket_open send_ok now w
  | Message clientId m send_ok now => handleMessage clientId m send_ok now w
  | Close clientId => handleClose clientId w
  | ClientError clientId close_ok lt => handleClientError clientId close_ok lt w
  | Pong clientId now => handlePong clientId now w
  | PingClients now o => pingClients now o w
  | SendMessage clientId m send_ok => snd (sendMessage clientId m send_ok w)
  | SendMessageToSession sid m send_ok => snd (sendMessageToSession sid m send_ok w)
  | CloseConnection clientId close_ok lt => snd (closeConnection clientId close_ok lt w)
  | SocketState clientId b => with_clients (JsMap.update clientId (set_open b) (clients w)) w
  | Shutdown => snd (shutdown w)
  end.

Definition run (cs : list Call) (w : t) : t := fold_left (fun acc c => step c acc) cs w.

(** Calls that tell the service a client is alive at the protocol level,
    or bring in a new client. *)
Definition quiet (c : Call) : bool :=
  match c with
  | Pong _ _ | Connection _ _ _ _ => false
  | _ => true
  end.

(** No socket operation of the run of [pingClients] throws. *)
Definition calm (o : PingOracle) : Prop :=
  (forall k, terminate_ok o k = true) /\ (forall k, ping_ok o k = true).

End WithConfig.

End WebSocketService.

(** ** Streaming engine ([core/streaming-engine.js])

    The repository holds two variants of the engine.  They share every
    method modelled here; the second one adds the adaptive quality
    controller ([createAdaptiveQualityController], [applyAdaptiveQuality])
    and is the one wired to the CUDA encoder.  [adaptive] selects it. *)

Module StreamingEngine.

(** A raw screencast frame: an identifying tag and the size of its data. *)
Record Frame := mkFrame { tag : nat; size : nat }.

(** [options] argument of [createStream]. *)
Record Request := {
  req_pageId : option string;
  req_webrtcId : option string;
  req_frameRate : option Q;
  req_bitrate : option Q;
  req_encodingStrategy : option string;
  req_adaptiveQuality : option bool
}.

(** [stream.options], defaults applied. *)
Record StreamOptions := {
  frameRate : Q;
  bitrate : Q;
  encodingStrategy : string;
  adaptiveQuality : bool
}.

Record Stream := mkStream {
  pageId : string;
  webrtcId : string;
  options : StreamOptions;
  createdAt : Z;
  lastFrameAt : Z;
  frameCount : nat;
  keyFrameCount : nat;
  droppedFrameCount : nat;
  totalBytes : nat;
  active : bool
}.

Record FrameProcessor := mkFrameProcessor {
  lastFrameTimestamp : Z;
  frameInterval : Q;
  frameQueue : list Frame;
  processing : bool;
  dropped : nat;
  processed : nat
}.

(** The part of the quality tuple the controller changes. *)
Record Quality := { q_frameRate : Q; q_bitrate : Q }.

Record Controller := mkController {
  ceiling : StreamOptions;          (* [adaptiveQualityController.options] *)
  enabled : bool;
  lastAdjustmentTime : Z;
  adjustmentInterval : Z;
  rtt : list Q;
  net_jitter : list Q;
  packetLoss : list Q;
  encodingTimes : list Q;
  bitrates : list (option Q);       (* [encoderStats.avgBitrate] is undefined *)
  currentQuality : Quality;
  targetQuality : Quality
}.

Record Metrics := { frameEncodeTime : list Z; timestamp : Z }.

Inductive Event :=
| streamCreated (id : string)
| streamClosed (id : string) (reason : string)
| qualityChanged (id : string) (q : Quality)
| frameSent (id : string).

Record t := mk {
  adaptive : bool;
  streams : JsMap.t Stream;
  frameProcessors : gmap string FrameProcessor;
  adaptiveQualityControllers : gmap string Controller;
  performanceMetrics : gmap string Metrics;
  emitted : list Event
}.

Definition init (variant : bool) : t := {|
  adaptive := variant; streams := JsMap.empty; frameProcessors := ∅;
  adaptiveQualityControllers := ∅; performanceMetrics := ∅; emitted := []
|}.

Definition with_streams (x : JsMap.t Stream) (e : t) : t :=
  {| adaptive := adaptive e; streams := x; frameProcessors := frameProcessors e;
     adaptiveQualityControllers := adaptiveQualityControllers e;
     performanceMetrics := performanceMetrics e; emitted := emitted e |}.

Definition with_processors (x : gmap string FrameProcessor) (e : t) : t :=
  {| adaptive := adaptive e; streams := streams e; frameProcessors := x;
     adaptiveQualityControllers := adaptiveQualityControllers e;
     performanceMetrics := performanceMetrics e; emitted := emitted e |}.

Definition with_controllers (x : gmap string Controller) (e : t) : t :=
  {| adaptive := adaptive e; streams := streams e; frameProcessors := frameProcessors e;
     adaptiveQualityControllers := x;
     performanceMetrics := performanceMetrics e; emitted := emitted e |}.

Definition with_metrics (x : gmap string Metrics) (e : t) : t :=
  {| adaptive := adaptive e; streams := streams e; frameProcessors := frameProcessors e;
     adaptiveQualityControllers := adaptiveQualityControllers e;
     performanceMetrics := x; emitted := emitted e |}.

Definition emit (ev : Event) (e : t) : t :=
  {| adaptive := adaptive e; streams := streams e; frameProcessors := frameProcessors e;
     adaptiveQualityControllers := adaptiveQualityControllers e;
     performanceMetrics := performanceMetrics e; emitted := emitted e ++ [ev] |}.

(** A frame processor that left [frameProcessors] (deleted by
    [closeStream], or replaced by [createFrameProcessor]) while encodes
    started on it were awaited.  [processFrame] holds the processor object
    in a local variable across its [await]; the continuation of an awaited
    encode works on that object, whatever is registered under the session id
    by then. *)
Record Detached := mkDetached {
  det_id : string;                 (* the session id the encodes were issued for *)
  det_processor : FrameProcessor;
  det_awaited : list Frame
}.

(** The engine together with the collaborators handed to its constructor
    and the part of the run-time it keeps busy: [encoding] lists the frames
    whose [encodeFrame] call is awaited and whose continuation holds the
    processor registered under the session id, [immediates] the calls
    scheduled with [setImmediate], [detached] the processors that are no
    longer registered but still held by awaited encodes. *)
Record System (E : Type) := mkSystem {
  engine : t;
  pool : BrowserPool.t;
  sessionManager : SessionManager.t;
  webrtc : WebRTCService.t;
  encoder : E;
  encoding : list (string * Frame);
  immediates : list (string * Frame);
  detached : list Detached
}.
Arguments mkSystem {E}.
Arguments engine {E}.
Arguments pool {E}.
Arguments sessionManager {E}.
Arguments webrtc {E}.
Arguments encoder {E}.
Arguments encoding {E}.
Arguments immediates {E}.
Arguments detached {E}.

(** Events of an encoder object the engine listens to: [setupEventListeners]
    subscribes to ['encodedFrame'] and to nothing else. *)
Definition listens_to_encoder (name : string) : bool := String.eqb name "encodedFrame".

Section WithBackend.

Context {E : Type} `{EncoderBackend E}.

Variable cfgB : Config.BROWSER.
Variable launchPages : nat.
Variable cfgS : Config.SESSION.

Definition STREAMING := Config.STREAMING_CONFIG.

Definition with_engine (e : t) (s : System E) : System E :=
  mkSystem e (pool s) (sessionManager s) (webrtc s) (encoder s) (encoding s) (immediates s)
    (detached s).

Definition with_pool (p : BrowserPool.t) (s : System E) : System E :=
  mkSystem (engine s) p (sessionManager s) (webrtc s) (encoder s) (encoding s) (immediates s)
    (detached s).

Definition with_sessionManager (m : SessionManager.t) (s : System E) : System E :=
  mkSystem (engine s) (pool s) m (webrtc s) (encoder s) (encoding s) (immediates s)
    (detached s).

Definition with_webrtc (w : WebRTCService.t) (s : System E) : System E :=
  mkSystem (engine s) (pool s) (sessionManager s) w (encoder s) (encoding s) (immediates s)
    (detached s).

Definition with_encoder (c : E) (s : System E) : System E :=
  mkSystem (engine s) (pool s) (sessionManager s) (webrtc s) c (encoding s) (immediates s)
    (detached s).

Definition with_encoding (l : list (string * Frame)) (s : System E) : System E :=
  mkSystem (engine s) (pool s) (sessionManager s) (webrtc s) (encoder s) l (immediates s)
    (detached s).

Definition with_immediates (l : list (string * Frame)) (s : System E) : System E :=
  mkSystem (engine s) (pool s) (sessionManager s) (webrtc s) (encoder s) (encoding s) l
    (detached s).

Definition with_detached (l : list Detached) (s : System E) : System E :=
  mkSystem (engine s) (pool s) (sessionManager s) (webrtc s) (encoder s) (encoding s)
    (immediates s) l.

(** The awaited encodes of session [id], oldest first. *)
Definition awaited_of (id : string) (l : list (string * Frame)) : list Frame :=
  map snd (List.filter (fun e => String.eqb (fst e) id) l).

(** The processor registered under [id] is about to leave the map: the
    encodes awaited on it keep the object. *)
Definition detach (id : string) (s : System E) : System E :=
  match frameProcessors (engine s) !! id, awaited_of id (encoding s) with
  | Some fp, f :: fs =>
      with_detached (detached s ++ [mkDetached id fp (f :: fs)])
        (with_encoding (List.filter (fun e => negb (String.eqb (fst e) id)) (encoding s)) s)
  | _, _ => s
  end.

Definition or_opt_number (o : option Q) (d : Q) : Q :=
  match o with
  | Some x => Js.or_number x d
  | None => d
  end.

(** [stream.options] built by [createStream]. *)
Definition stream_options (r : Request) : StreamOptions := {|
  frameRate := or_opt_number (req_frameRate r) (Config.defaultFrameRate STREAMING);
  bitrate := or_opt_number (req_bitrate r) (Config.defaultBitrate STREAMING);
  encodingStrategy :=
    Js.or_string (req_encodingStrategy r) (Config.defaultEncodingStrategy STREAMING);
  adaptiveQuality :=
    match req_adaptiveQuality r with
    | Some false => false
    | _ => true
    end
|}.

(** [createFrameProcessor(sessionId, options)] *)
Definition createFrameProcessor (id : string) (o : StreamOptions) (now : Z) (e : t) : t :=
  let fp := {| lastFrameTimestamp := now;
               frameInterval :=
                 (1000 / Js.or_number (frameRate o) (Config.defaultFrameRate STREAMING))%Q;
               frameQueue := []; processing := false; dropped := 0; processed := 0 |} in
  with_processors (<[id := fp]> (frameProcessors e)) e.

(** [createAdaptiveQualityController(sessionId, options)] *)
Definition createAdaptiveQualityController (id : string) (o : StreamOptions) (now : Z) (e : t) : t :=
  let q := {| q_frameRate := Js.or_number (frameRate o) (Config.defaultFrameRate STREAMING);
              q_bitrate := Js.or_number (bitrate o) (Config.defaultBitrate STREAMING) |} in
  let c := {| ceiling := o; enabled := adaptiveQuality o; lastAdjustmentTime := now;
              adjustmentInterval := Config.adaptiveQualityAdjustmentInterval STREAMING;
              rtt := []; net_jitter := []; packetLoss := [];
              encodingTimes := []; bitrates := [];
              currentQuality := q; targetQuality := q |} in
  with_controllers (<[id := c]> (adaptiveQualityControllers e)) e.

(** [initializePerformanceMetrics(sessionId)] *)
Definition initializePerformanceMetrics (id : string) (now : Z) (e : t) : t :=
  with_metrics (<[id := {| frameEncodeTime := []; timestamp := now |}]> (performanceMetrics e)) e.

(** [array.push(x)] followed by [if (array.length > n) array.shift()] *)
Definition push_bounded {A} (n : nat) (x : A) (l : list A) : list A :=
  let l' := l ++ [x] in
  if (n <? length l')%nat then tl l' else l'.

(** [updatePerformanceMetrics(sessionId, { frameEncodeTime })] *)
Definition updatePerformanceMetrics (id : string) (dt : Z) (now : Z) (e : t) : t :=
  match performanceMetrics e !! id with
  | None => e
  | Some m =>
      with_metrics
        (<[id := {| frameEncodeTime := push_bounded 100 dt (frameEncodeTime m);
                    timestamp := now |}]> (performanceMetrics e)) e
  end.

(** What the outside world answers during [createStream]. *)
Record CreateOracle := {
  co_now : Z;
  co_page : BrowserPool.PageOracle;
  co_peer_ok : bool;
  co_cdp_ok : bool
}.

(** Steps of [createStream] after the page and the channel are known. *)
Definition finishCreateStream (id pg rtc : string) (r : Request) (o : CreateOracle)
    (s : System E) : Js.result Stream * System E :=
  let so := stream_options r in
  let s1 := with_encoder
              (enc_createEncoder id
                 {| eo_frameRate := frameRate so; eo_bitrate := bitrate so;
                    eo_strategy := Some (encodingStrategy so) |} (encoder s)) s in
  match BrowserPool.startScreencast pg (co_now o) (co_cdp_ok o) (pool s1) with
  | (Js.Throw e, p) => (Js.Throw e, with_pool p s1)
  | (Js.Return _, p) =>
      let s2 := with_pool p s1 in
      let st := {| pageId := pg; webrtcId := rtc; options := so;
                   createdAt := co_now o; lastFrameAt := co_now o;
                   frameCount := 0; keyFrameCount := 0; droppedFrameCount := 0;
                   totalBytes := 0; active := true |} in
      let e1 := with_streams (JsMap.set id st (streams (engine s2))) (engine s2) in
      let e2 := createFrameProcessor id so (co_now o) e1 in
      let e3 := if adaptive e2 then createAdaptiveQualityController id so (co_now o) e2 else e2 in
      let e4 := initializePerformanceMetrics id (co_now o) e3 in
      (Js.Return st, with_engine (emit (streamCreated id) e4) (detach id s2))
  end.

(** Opening of the transport channel in [createStream]. *)
Definition openChannel (id pg : string) (r : Request) (session : SessionManager.Session)
    (o : CreateOracle) (s : System E) : Js.result Stream * System E :=
  match Js.or_string (req_webrtcId r) (Js.or_string (SessionManager.webrtcId session) "") with
  | EmptyString =>
      match WebRTCService.createConnection id (co_peer_ok o) (co_now o) (webrtc s) with
      | (Js.Throw e, w) => (Js.Throw e, with_webrtc w s)
      | (Js.Return _, w) =>
          let s1 := with_webrtc w s in
          match SessionManager.updateSession cfgS id
                  {| SessionManager.upd_browserId := None; SessionManager.upd_pageId := None;
                     SessionManager.upd_webrtcId := Some id |} (co_now o) (sessionManager s1) with
          | (Js.Throw e, m) => (Js.Throw e, with_sessionManager m s1)
          | (Js.Return _, m) => finishCreateStream id pg id r o (with_sessionManager m s1)
          end
      end
  | rtc => finishCreateStream id pg rtc r o s
  end.

(** Lookup of the page in [createStream], once its id is known. *)
Definition bindPage (id pg : string) (r : Request) (session : SessionManager.Session)
    (o : CreateOracle) (s : System E) : Js.result Stream * System E :=
  match BrowserPool.getPage pg (co_now o) (pool s) with
  | (None, p) => (Js.Throw (Js.Error "Page not found"), with_pool p s)
  | (Some _, p) => openChannel id pg r session o (with_pool p s)
  end.

(** [createStream(sessionId, options)] *)
Definition createStream (id : string) (r : Request) (o : CreateOracle) (s : System E)
  : Js.result Stream * System E :=
  match JsMap.get id (streams (engine s)) with
  | Some st => (Js.Return st, s)
  | None =>
      match SessionManager.getSession cfgS id (co_now o) (sessionManager s) with
      | (None, m) => (Js.Throw (Js.Error "Session not found"), with_sessionManager m s)
      | (Some session, m) =>
          let s1 := with_sessionManager m s in
          match Js.or_string (req_pageId r) (Js.or_string (SessionManager.pageId session) "") with
          | EmptyString =>
              match BrowserPool.createPage cfgB launchPages
                      {| BrowserPool.opt_pageId := None;
                         BrowserPool.browserOptions := {| BrowserPool.opt_browserId := None |} |}
                      (co_page o) (pool s1) with
              | (Js.Throw e, p) => (Js.Throw e, with_pool p s1)
              | (Js.Return (pg, info), p) =>
                  let s2 := with_pool p s1 in
                  match SessionManager.updateSession cfgS id
                          {| SessionManager.upd_browserId := Some (BrowserPool.browserId info);
                             SessionManager.upd_pageId := Some pg;
                             SessionManager.upd_webrtcId := None |}
                          (co_now o) (sessionManager s2) with
                  | (Js.Throw e, m') => (Js.Throw e, with_sessionManager m' s2)
                  | (Js.Return session', m') =>
                      bindPage id pg r session' o (with_sessionManager m' s2)
                  end
              end
          | pg => bindPage id pg r session o s1
          end
      end
  end.

(** The page of the stream to create can be obtained: the session is
    stored, and either the request or the session names a registered page,
    or neither names a page and the pool creates one. *)
Definition page_obtained (id : string) (r : Request) (o : CreateOracle) (s : System E) : Prop :=
  exists session,
    JsMap.get id (SessionManager.sessions (sessionManager s)) = Some session /\
    match Js.or_string (req_pageId r) (Js.or_string (SessionManager.pageId session) "") with
    | EmptyString =>
        Js.returns
          (fst (BrowserPool.createPage cfgB launchPages
                  {| BrowserPool.opt_pageId := None;
                     BrowserPool.browserOptions := {| BrowserPool.opt_browserId := None |} |}
                  (co_page o) (pool s))) = true
    | pg => is_Some (JsMap.get pg (BrowserPool.pages (pool s)))
    end.

(** ** Frame path *)

(** The loop that finds the session streaming page [pg]: first match in
    insertion order. *)
Fixpoint findSession (pg : string) (entries : list (string * Stream)) : option string :=
  match entries with
  | [] => None
  | (id, st) :: rest => if String.eqb (pageId st) pg then Some id else findSession pg rest
  end.

(** ** Adaptive quality *)

Inductive Condition := good | fair | poor.

Definition networkCondition (avgRtt avgJitter avgPacketLoss : Q) : Condition :=
  if negb (Qle_bool avgRtt 300) || negb (Qle_bool avgJitter 50)
     || negb (Qle_bool avgPacketLoss 5) then poor
  else if negb (Qle_bool avgRtt 150) || negb (Qle_bool avgJitter 25)
          || negb (Qle_bool avgPacketLoss 2) then fair
  else good.

Definition encodingCondition (avgEncodingTime : Q) : Condition :=
  if negb (Qle_bool avgEncodingTime 50) then poor
  else if negb (Qle_bool avgEncodingTime 25) then fair
  else good.

Definition is_poor (c : Condition) : bool := match c with poor => true | _ => false end.
Definition is_fair (c : Condition) : bool := match c with fair => true | _ => false end.
Definition is_good (c : Condition) : bool := match c with good => true | _ => false end.

(** [a > b] on numbers. *)
Definition gt (a b : Q) : bool := negb (Qle_bool a b).

(** The configured bitrate floor. *)
Definition floor : Q := Config.minBitrate STREAMING.

(** The branch "Adjust quality based on conditions": the new target
    quality and the [qualityChanged] flag. *)
Definition adjust (net enc : Condition) (c : Controller) : Quality * bool :=
  let cur := currentQuality c in
  let tgt := targetQuality c in
  if is_poor net || is_poor enc then
    let '(tgt1, ch1) :=
      if gt (q_bitrate cur) (Config.minBitrate STREAMING)
      then ({| q_frameRate := q_frameRate tgt;
               q_bitrate := Js.Math_max (q_bitrate cur * 0.8) (Config.minBitrate STREAMING) |},
            true)
      else (tgt, false) in
    if gt (q_frameRate cur) (Config.minFrameRate STREAMING)
    then ({| q_frameRate := Js.Math_max (q_frameRate cur * 0.8) (Config.minFrameRate STREAMING);
             q_bitrate := q_bitrate tgt1 |}, true)
    else (tgt1, ch1)
  else if is_fair net || is_fair enc then
    if gt (q_bitrate cur) (Config.minBitrate STREAMING)
    then ({| q_frameRate := q_frameRate tgt;
             q_bitrate := Js.Math_max (q_bitrate cur * 0.9) (Config.minBitrate STREAMING) |},
          true)
    else (tgt, false)
  else if is_good net && is_good enc then
    let '(tgt1, ch1) :=
      if gt (bitrate (ceiling c)) (q_bitrate cur)
      then ({| q_frameRate := q_frameRate tgt;
               q_bitrate := Js.Math_min (q_bitrate cur * 1.1) (bitrate (ceiling c)) |},
            true)
      else (tgt, false) in
    if gt (frameRate (ceiling c)) (q_frameRate cur)
    then ({| q_frameRate := Js.Math_min (q_frameRate cur * 1.1) (frameRate (ceiling c));
             q_bitrate := q_bitrate tgt1 |}, true)
    else (tgt1, ch1)
  else (tgt, false).

(** The controller after the samples of one tick were pushed. *)
Definition sample (now : Z) (w : WebRTCService.Stats) (es : EncoderStats) (c : Controller)
  : Controller :=
  {| ceiling := ceiling c; enabled := enabled c; lastAdjustmentTime := now;
     adjustmentInterval := adjustmentInterval c;
     rtt := push_bounded 10 (WebRTCService.roundTripTime w) (rtt c);
     net_jitter :=
       if (10 <? length (rtt c ++ [WebRTCService.roundTripTime w]))%nat
       then tl (net_jitter c ++ [WebRTCService.jitter w])
       else net_jitter c ++ [WebRTCService.jitter w];
     packetLoss :=
       if (10 <? length (rtt c ++ [WebRTCService.roundTripTime w]))%nat
       then tl (packetLoss c ++ [WebRTCService.packetsLost w])
       else packetLoss c ++ [WebRTCService.packetsLost w];
     encodingTimes := push_bounded 10 (inject_Z (encodingTime es)) (encodingTimes c);
     bitrates :=
       if (10 <? length (encodingTimes c ++ [inject_Z (encodingTime es)]))%nat
       then tl (bitrates c ++ [None])
       else bitrates c ++ [None];
     currentQuality := currentQuality c; targetQuality := targetQuality c |}.

Definition net_of (c : Controller) : Condition :=
  networkCondition (Js.average (rtt c)) (Js.average (net_jitter c)) (Js.average (packetLoss c)).

Definition enc_of (c : Controller) : Condition :=
  encodingCondition (Js.average (encodingTimes c)).

Definition set_time (now : Z) (c : Controller) : Controller :=
  {| ceiling := ceiling c; enabled := enabled c; lastAdjustmentTime := now;
     adjustmentInterval := adjustmentInterval c;
     rtt := rtt c; net_jitter := net_jitter c; packetLoss := packetLoss c;
     encodingTimes := encodingTimes c; bitrates := bitrates c;
     currentQuality := currentQuality c; targetQuality := targetQuality c |}.

Definition set_target (q : Quality) (c : Controller) : Controller :=
  {| ceiling := ceiling c; enabled := enabled c; lastAdjustmentTime := lastAdjustmentTime c;
     adjustmentInterval := adjustmentInterval c;
     rtt := rtt c; net_jitter := net_jitter c; packetLoss := packetLoss c;
     encodingTimes := encodingTimes c; bitrates := bitrates c;
     currentQuality := currentQuality c; targetQuality := q |}.

Definition commit (c : Controller) : Controller :=
  {| ceiling := ceiling c; enabled := enabled c; lastAdjustmentTime := lastAdjustmentTime c;
     adjustmentInterval := adjustmentInterval c;
     rtt := rtt c; net_jitter := net_jitter c; packetLoss := packetLoss c;
     encodingTimes := encodingTimes c; bitrates := bitrates c;
     currentQuality := targetQuality c; targetQuality := targetQuality c |}.

(** What the outside world answers during one controller tick. *)
Record TickOracle := {
  tick_now : Z;
  tick_live : option WebRTCService.Stats
}.

Definition put_controller (id : string) (c : Controller) (s : System E) : System E :=
  with_engine (with_controllers (<[id := c]> (adaptiveQualityControllers (engine s))) (engine s)) s.

(** [applyAdaptiveQuality(sessionId)].  The controller object is mutated in
    place, so whatever was written before an exception stays written. *)
Definition applyAdaptiveQuality (id : string) (o : TickOracle) (s : System E)
  : bool * System E :=
  match adaptiveQualityControllers (engine s) !! id with
  | None => (false, s)
  | Some c =>
      if negb (enabled c) then (false, s)
      else if (tick_now o - lastAdjustmentTime c <? adjustmentInterval c)%Z then (false, s)
      else
        let s1 := put_controller id (set_time (tick_now o) c) s in
        match WebRTCService.getConnectionStats id (tick_live o) (tick_now o) (webrtc s1) with
        | (None, w) => (false, with_webrtc w s1)
        | (Some ws, w) =>
            let s2 := with_webrtc w s1 in
            match enc_getEncoderStats id (encoder s2) with
            | None => (false, s2)
            | Some es =>
                let c1 := sample (tick_now o) ws es c in
                let '(tgt, changed) := adjust (net_of c1) (enc_of c1) c1 in
                let c2 := set_target tgt c1 in
                if changed then
                  match enc_updateEncoderOptions with
                  | None =>
                      (* TypeError: not a function; caught by the outer [catch] *)
                      (false, put_controller id c2 s2)
                  | Some update =>
                      let s3 := with_encoder
                                  (update id (Js.Math_round (q_bitrate tgt))
                                     (Js.Math_round (q_frameRate tgt)) (encoder s2)) s2 in
                      let c3 := commit c2 in
                      (true,
                       with_engine (emit (qualityChanged id (currentQuality c3)) (engine (put_controller id c3 s3)))
                         (put_controller id c3 s3))
                  end
                else (true, put_controller id c2 s2)
            end
        end
  end.

(** ** [processFrame]

    The method is asynchronous.  [processFrame] below is its part up to the
    awaited [encodeFrame] call, [encodeDone] the part that runs once that
    call has settled ([finally] block included), [runImmediate] the call
    scheduled with [setImmediate]. *)

Definition set_processing (b : bool) (fp : FrameProcessor) : FrameProcessor :=
  {| lastFrameTimestamp := lastFrameTimestamp fp; frameInterval := frameInterval fp;
     frameQueue := frameQueue fp; processing := b;
     dropped := dropped fp; processed := processed fp |}.

Definition enqueue (f : Frame) (fp : FrameProcessor) : FrameProcessor :=
  {| lastFrameTimestamp := lastFrameTimestamp fp; frameInterval := frameInterval fp;
     frameQueue := frameQueue fp ++ [f]; processing := processing fp;
     dropped := dropped fp; processed := processed fp |}.

Definition put_processor (id : string) (fp : FrameProcessor) (s : System E) : System E :=
  with_engine (with_processors (<[id := fp]> (frameProcessors (engine s))) (engine s)) s.

Definition processFrame (id : string) (f : Frame) (o : TickOracle) (s : System E)
  : bool * System E :=
  match frameProcessors (engine s) !! id with
  | None => (false, s)
  | Some fp =>
      if processing fp then (true, put_processor id (enqueue f fp) s)
      else
        let s1 := put_processor id (set_processing true fp) s in
        let s2 :=
          match adaptiveQualityControllers (engine s1) !! id with
          | Some c => if enabled c then snd (applyAdaptiveQuality id o s1) else s1
          | None => s1
          end in
        (true, with_encoding (encoding s2 ++ [(id, f)]) s2)
  end.

(** Removes the first awaited encode of session [id]. *)
Fixpoint take (id : string) (l : list (string * Frame))
  : option (Frame * list (string * Frame)) :=
  match l with
  | [] => None
  | (id', f) :: rest =>
      if String.eqb id' id then Some (f, rest)
      else match take id rest with
           | Some (g, rest') => Some (g, (id', f) :: rest')
           | None => None
           end
  end.

Definition finished (fp : FrameProcessor) : FrameProcessor :=
  {| lastFrameTimestamp := lastFrameTimestamp fp; frameInterval := frameInterval fp;
     frameQueue := tl (frameQueue fp); processing := false;
     dropped := dropped fp; processed := S (processed fp) |}.

(** What the outside world answers when an encode settles. *)
Record EncodeOracle := {
  write_ok : bool;
  elapsed : Z;
  done_now : Z
}.

(** The end of the oldest encode of session [id] that is awaited on the
    processor registered under [id]: [encoding] only lists those, [detach]
    has moved the encodes of a processor that left the map.  The encoder
    and the metrics are addressed by session id; the counters, the queue
    and the flag are those of the processor. *)
Definition encodeDone (id : string) (o : EncodeOracle) (s : System E) : System E :=
  match take id (encoding s) with
  | None => s
  | Some (f, rest) =>
      let s1 := with_encoding rest s in
      let s2 := with_encoder (enc_encodeFrame id (size f) (write_ok o) (elapsed o) (encoder s1)) s1 in
      let s3 := with_engine (updatePerformanceMetrics id (elapsed o) (done_now o) (engine s2)) s2 in
      match frameProcessors (engine s3) !! id with
      | None => s3
      | Some fp =>
          let s4 := put_processor id (finished fp) s3 in
          match frameQueue fp with
          | [] => s4
          | nextFrame :: _ => with_immediates (immediates s4 ++ [(id, nextFrame)]) s4
          end
      end
  end.

Definition runImmediate (o : TickOracle) (s : System E) : System E :=
  match immediates s with
  | [] => s
  | (id, f) :: rest => snd (processFrame id f o (with_immediates rest s))
  end.

(** The end of an awaited encode whose processor is the [n]-th detached
    one: the encoder and the metrics are addressed by session id, the
    counters, the queue and the flag are those of the object held, and the
    next frame of its queue is handed to [processFrame] of whatever is
    registered under the session id by then. *)
Definition detachedDone (n : nat) (o : EncodeOracle) (s : System E) : System E :=
  match detached s !! n with
  | None => s
  | Some d =>
      match det_awaited d with
      | [] => s
      | f :: rest =>
          let id := det_id d in
          let s1 := with_encoder
                      (enc_encodeFrame id (size f) (write_ok o) (elapsed o) (encoder s)) s in
          let s2 := with_engine
                      (updatePerformanceMetrics id (elapsed o) (done_now o) (engine s1)) s1 in
          let fp := det_processor d in
          let s3 := with_detached (<[n := mkDetached id (finished fp) rest]> (detached s2)) s2 in
          match frameQueue fp with
          | [] => s3
          | nextFrame :: _ => with_immediates (immediates s3 ++ [(id, nextFrame)]) s3
          end
      end
  end.

Definition received (now : Z) (st : Stream) : Stream :=
  {| pageId := pageId st; webrtcId := webrtcId st; options := options st;
     createdAt := createdAt st; lastFrameAt := now;
     frameCount := S (frameCount st); keyFrameCount := keyFrameCount st;
     droppedFrameCount := droppedFrameCount st; totalBytes := totalBytes st;
     active := active st |}.

Definition stream_dropped (st : Stream) : Stream :=
  {| pageId := pageId st; webrtcId := webrtcId st; options := options st;
     createdAt := createdAt st; lastFrameAt := lastFrameAt st;
     frameCount := frameCount st; keyFrameCount := keyFrameCount st;
     droppedFrameCount := S (droppedFrameCount st); totalBytes := totalBytes st;
     active := active st |}.

Definition processor_dropped (fp : FrameProcessor) : FrameProcessor :=
  {| lastFrameTimestamp := lastFrameTimestamp fp; frameInterval := frameInterval fp;
     frameQueue := frameQueue fp; processing := processing fp;
     dropped := S (dropped fp); processed := processed fp |}.

Definition accepted_at (now : Z) (fp : FrameProcessor) : FrameProcessor :=
  {| lastFrameTimestamp := now; frameInterval := frameInterval fp;
     frameQueue := frameQueue fp; processing := processing fp;
     dropped := dropped fp; processed := processed fp |}.

(** The cadence test of [handleScreencastFrame]:
    [timeSinceLastFrame < frameProcessor.frameInterval]. *)
Definition too_early (now : Z) (fp : FrameProcessor) : bool :=
  negb (Qle_bool (frameInterval fp) (inject_Z (now - lastFrameTimestamp fp))).

(** What the outside world answers while a raw frame is handled: the two
    readings of the clock and the answers for a controller tick. *)
Record FrameOracle := {
  seen_at : Z;       (* [stream.lastFrameAt = Date.now()] *)
  gate_now : Z;      (* [const now = Date.now()] *)
  frame_tick : TickOracle
}.

(** [handleScreencastFrame(pageId, frameObject)] *)
Definition handleScreencastFrame (pg : string) (f : Frame) (o : FrameOracle) (s : System E)
  : System E :=
  match findSession pg (streams (engine s)) with
  | None => s
  | Some id =>
      if String.eqb id "" then s
      else
        match JsMap.get id (streams (engine s)) with
        | None => s
        | Some st =>
            if negb (active st) then s
            else
              let s1 := with_engine
                          (with_streams (JsMap.update id (received (seen_at o)) (streams (engine s)))
                             (engine s)) s in
              match frameProcessors (engine s1) !! id with
              | None => s1
              | Some fp =>
                  if too_early (gate_now o) fp then
                    put_processor id (processor_dropped fp)
                      (with_engine
                         (with_streams (JsMap.update id stream_dropped (streams (engine s1)))
                            (engine s1)) s1)
                  else
                    snd (processFrame id f (frame_tick o)
                           (put_processor id (accepted_at (gate_now o) fp) s1))
              end
        end
  end.

Definition stream_sent (now : Z) (len : nat) (key : bool) (st : Stream) : Stream :=
  {| pageId := pageId st; webrtcId := webrtcId st; options := options st;
     createdAt := createdAt st; lastFrameAt := now;
     frameCount := frameCount st;
     keyFrameCount := if key then S (keyFrameCount st) else keyFrameCount st;
     droppedFrameCount := droppedFrameCount st; totalBytes := totalBytes st + len;
     active := active st |}.

(** [handleEncodedFrame(sessionId, frameData, frameInfo)]; errors of the
    transport and of the session manager are caught and logged. *)
Definition handleEncodedFrame (id : string) (len : nat) (key : bool) (frame_ok : bool)
    (now : Z) (s : System E) : System E :=
  match JsMap.get id (streams (engine s)) with
  | None => s
  | Some st =>
      if negb (active st) then s
      else
        let st' := stream_sent now len key st in
        let s1 := with_engine (with_streams (JsMap.update id (stream_sent now len key)
                                               (streams (engine s))) (engine s)) s in
        let s2 := with_webrtc (snd (WebRTCService.sendVideoFrame id len frame_ok now (webrtc s1))) s1 in
        match SessionManager.updateSessionStats cfgS id (frameCount st') (totalBytes st') now
                (sessionManager s2) with
        | (Js.Throw _, m) => with_sessionManager m s2
        | (Js.Return _, m) =>
            let s3 := with_sessionManager m s2 in
            with_engine (emit (frameSent id) (engine s3)) s3
        end
  end.

(** ** Teardown *)

Definition deactivated (st : Stream) : Stream :=
  {| pageId := pageId st; webrtcId := webrtcId st; options := options st;
     createdAt := createdAt st; lastFrameAt := lastFrameAt st;
     frameCount := frameCount st; keyFrameCount := keyFrameCount st;
     droppedFrameCount := droppedFrameCount st; totalBytes := totalBytes st;
     active := false |}.

(** What the outside world answers during [closeStream]. *)
Record StopOracle := {
  so_now : Z;
  so_stop_ok : bool;        (* [Page.stopScreencast] resolves *)
  so_channel_ok : bool;     (* closing the peer connection runs through *)
  so_listener_throws : bool (* a ['streamClosed'] listener throws *)
}.

Definition forget (id : string) (e : t) : t :=
  {| adaptive := adaptive e;
     streams := JsMap.delete id (streams e);
     frameProcessors := delete id (frameProcessors e);
     adaptiveQualityControllers := delete id (adaptiveQualityControllers e);
     performanceMetrics := delete id (performanceMetrics e);
     emitted := emitted e |}.

(** The three inner steps of [closeStream], each in a [try] block of its
    own that swallows what the pool, the encoder and the transport raise; a
    missing [destroyEncoder] method raises a [TypeError] that is swallowed
    too.  The frame processor leaves the map right after them. *)
Definition releaseStream (id : string) (st : Stream) (o : StopOracle) (s : System E)
  : System E :=
  let s2 := with_pool (snd (BrowserPool.stopScreencast (pageId st) (so_now o)
                              (so_stop_ok o) (pool s))) s in
  let s3 := match enc_destroyEncoder with
            | Some destroy => with_encoder (destroy id (encoder s2)) s2
            | None => s2
            end in
  detach id
    (with_webrtc (snd (WebRTCService.closeConnection id (so_channel_ok o) (webrtc s3))) s3).

(** The end of [closeStream]: the four maps forget the session and
    ['streamClosed'] is emitted. *)
Definition streamGone (id reason : string) (s : System E) : System E :=
  with_engine (emit (streamClosed id reason) (forget id (engine s))) s.

(** [closeStream(sessionId, reason)].  When the transport still holds the
    connection of the session, [closeConnection] emits ['connectionClosed']
    while the stream is still registered, and the listener
    [handleWebRTCConnectionClosed] enters [closeStream(sessionId,
    'webrtc_closed')] a second time.  The inner call finds the screencast
    stopped and the connection gone, so none of its steps waits for the
    outside world: it ends right after the outer call, goes through the
    same steps and emits ['streamClosed'] a second time. *)
Definition closeStream (id reason : string) (o : StopOracle) (s : System E)
  : bool * System E :=
  match JsMap.get id (streams (engine s)) with
  | None => (false, s)
  | Some st =>
      let s1 := with_engine (with_streams (JsMap.update id deactivated (streams (engine s)))
                               (engine s)) s in
      let reentered := bool_decide (is_Some (WebRTCService.connections (webrtc s1) !! id)) in
      let s5 := streamGone id reason (releaseStream id st o s1) in
      (negb (so_listener_throws o),
       if reentered then streamGone id "webrtc_closed" (releaseStream id (deactivated st) o s5)
       else s5)
  end.

(** [handlePageClosed(pageId)] *)
Definition handlePageClosed (pg : string) (o : StopOracle) (s : System E) : System E :=
  match findSession pg (streams (engine s)) with
  | None => s
  | Some id => if String.eqb id "" then s else snd (closeStream id "page_closed" o s)
  end.

(** [handleSessionClosed(sessionId)] *)
Definition handleSessionClosed (id : string) (o : StopOracle) (s : System E) : System E :=
  snd (closeStream id "session_closed" o s).

(** [handleWebRTCConnectionClosed(sessionId)] *)
Definition handleWebRTCConnectionClosed (id : string) (o : StopOracle) (s : System E) : System E :=
  match JsMap.get id (streams (engine s)) with
  | None => s
  | Some _ => snd (closeStream id "webrtc_closed" o s)
  end.

(** Delivery of an event of the encoder object to the engine:
    [setupEventListeners] installed [handleEncodedFrame] under the name
    ['encodedFrame']; an event of any other name has no listener here. *)
Definition onEncoderEvent (name id : string) (payload : option (nat * bool))
    (frame_ok : bool) (now : Z) (s : System E) : System E :=
  if listens_to_encoder name then
    match payload with
    | Some (len, key) => handleEncodedFrame id len key frame_ok now s
    | None => s
    end
  else s.

(** The events of a CUDA encoder, delivered in the order of emission. *)
Definition onCudaEvents (evs : list CUDAEncoder.Event) (frame_ok : bool) (now : Z)
    (s : System E) : System E :=
  fold_left
    (fun acc ev =>
       onEncoderEvent (CUDAEncoder.event_name ev) (CUDAEncoder.event_id ev) None frame_ok now acc)
    evs s.

(** ** Runs of the frame path of one engine *)

Inductive FrameStep :=
| Arrive (pg : string) (f : Frame) (o : FrameOracle)
| EncodeDone (id : string) (o : EncodeOracle)
| Immediate (o : TickOracle).

Definition frameStep (st : FrameStep) (s : System E) : System E :=
  match st with
  | Arrive pg f o => handleScreencastFrame pg f o s
  | EncodeDone id o => encodeDone id o s
  | Immediate o => runImmediate o s
  end.

Definition frameRun (l : list FrameStep) (s : System E) : System E :=
  fold_left (fun acc st => frameStep st acc) l s.

(** Number of entries of session [id] in a list of awaited encodes. *)
Definition cnt (id : string) (l : list (string * Frame)) : nat :=
  length (List.filter (fun e => String.eqb (fst e) id) l).

(** Number of encodes that are awaited on the processor registered under
    [id]: the encode concurrency of the stream of session [id]. *)
Definition inflight (id : string) (s : System E) : nat := cnt id (encoding s).

(** The [processing] flag of the processor of session [id]. *)
Definition busy (id : string) (s : System E) : bool :=
  match frameProcessors (engine s) !! id with
  | Some fp => processing fp
  | None => false
  end.

(** No encode is awaited and no processor is flagged as processing. *)
Definition quiescent (s : System E) : Prop :=
  encoding s = [] /\ forall id, busy id s = false.

(** The invariant behind the concurrency bound: an encode of a session is
    awaited only while its processor is flagged as processing, and then
    there is exactly one. *)
Definition one_at_a_time (s : System E) : Prop :=
  forall id, (cnt id (encoding s) <= if busy id s then 1 else 0)%nat.

(** The same for the processors that were detached: an encode is awaited on
    one only while it is flagged as processing, and then there is at most
    one. *)
Definition detached_one_at_a_time (s : System E) : Prop :=
  Forall (fun d => (length (det_awaited d) <= if processing (det_processor d) then 1 else 0)%nat)
    (detached s).

(** A raw frame of page [pg] reaches the cadence test of session [id]. *)
Definition gated (pg id : string) (s : System E) : Prop :=
  findSession pg (streams (engine s)) = Some id /\ id <> "" /\
  (exists st, JsMap.get id (streams (engine s)) = Some st /\ active st = true) /\
  (exists fp, frameProcessors (engine s) !! id = Some fp).

(** Instants ([gate_now]) of the raw frames of page [pg] that pass the
    cadence test of session [id] during a burst. *)
Fixpoint acceptedTimes (pg id : string) (burst : list (Frame * FrameOracle)) (s : System E)
  : list Z :=
  match burst with
  | [] => []
  | (f, o) :: rest =>
      let s' := handleScreencastFrame pg f o s in
      match frameProcessors (engine s) !! id with
      | Some fp =>
          if too_early (gate_now o) fp then acceptedTimes pg id rest s'
          else gate_now o :: acceptedTimes pg id rest s'
      | None => acceptedTimes pg id rest s'
      end
  end.

(** Number of instants of [l] inside the window [[T, U)]. *)
Definition inWindow (T U : Z) (l : list Z) : nat :=
  length (List.filter (fun t => (T <=? t)%Z && (t <? U)%Z) l).

(** The system right after the engine was constructed on its four
    collaborators: no stream, nothing awaited, nothing scheduled. *)
Definition start (variant : bool) (p : BrowserPool.t) (m : SessionManager.t)
    (w : WebRTCService.t) (c : E) : System E :=
  mkSystem (init variant) p m w c [] [] [].

(** The loop of [shutdown] over [Array.from(this.streams.keys())]. *)
Fixpoint closeStreams (ids : list string) (o : string -> StopOracle) (s : System E)
  : System E :=
  match ids with
  | [] => s
  | id :: rest => closeStreams rest o (snd (closeStream id "shutdown" (o id) s))
  end.

(** [shutdown()] *)
Definition shutdown (o : string -> StopOracle) (s : System E) : System E :=
  closeStreams (JsMap.keys (streams (engine s))) o s.

(** What reaches the engine: its two public methods, the steps of the frame
    path, the end of an encode started on a processor that was detached
    since, a controller tick on its own, and the listeners installed by
    [setupEventListeners].  [createStream] and [closeStream] are
    asynchronous, so a call that passed its first test may reach its last
    steps after other calls have run: [CreateStreamEnds] is the end of such
    a [createStream] call, from the creation of the encoder on, on the page
    and the channel it has obtained; [CloseStreamEnds] is the end of such a
    [closeStream] call, on the stream object it holds. *)
Inductive Call :=
| CreateStream (id : string) (r : Request) (o : CreateOracle)
| OnFrame (st : FrameStep)
| DetachedDone (n : nat) (o : EncodeOracle)
| Tick (id : string) (o : TickOracle)
| EncodedFrame (id : string) (len : nat) (key frame_ok : bool) (now : Z)
| CloseStream (id reason : string) (o : StopOracle)
| PageClosed (pg : string) (o : StopOracle)
| SessionClosed (id : string) (o : StopOracle)
| ConnectionClosed (id : string) (o : StopOracle)
| Shutdown (o : string -> StopOracle)
| CreateStreamEnds (id pg rtc : string) (r : Request) (o : CreateOracle)
| CloseStreamEnds (id reason : string) (st : Stream) (o : StopOracle).

Definition step (c : Call) (s : System E) : System E :=
  match c with
  | CreateStream id r o => snd (createStream id r o s)
  | OnFrame st => frameStep st s
  | DetachedDone n o => detachedDone n o s
  | Tick id o => snd (applyAdaptiveQuality id o s)
  | EncodedFrame id len key frame_ok now => handleEncodedFrame id len key frame_ok now s
  | CloseStream id reason o => snd (closeStream id reason o s)
  | PageClosed pg o => handlePageClosed pg o s
  | SessionClosed id o => handleSessionClosed id o s
  | ConnectionClosed id o => handleWebRTCConnectionClosed id o s
  | Shutdown o => shutdown o s
  | CreateStreamEnds id pg rtc r o => snd (finishCreateStream id pg rtc r o s)
  | CloseStreamEnds id reason st o => streamGone id reason (releaseStream id st o s)
  end.

Definition run (cs : list Call) (s : System E) : System E :=
  fold_left (fun acc c => step c acc) cs s.

(** Length of the frame queue of session [id]. *)
Definition queued (id : string) (s : System E) : nat :=
  match frameProcessors (engine s) !! id with
  | Some fp => length (frameQueue fp)
  | None => 0%nat
  end.

(** Frames of session [id] that were accepted and are still on their way:
    awaited by an encode, handed to [setImmediate], or queued. *)
Definition pending (id : string) (s : System E) : nat :=
  (cnt id (encoding s) + cnt id (immediates s) + queued id s)%nat.

(** The counters of the stream of session [id] add up: every raw frame
    counted was dropped, processed, or is still on its way. *)
Definition accounted (id : string) (s : System E) : Prop :=
  forall st, JsMap.get id (streams (engine s)) = Some st ->
    exists fp, frameProcessors (engine s) !! id = Some fp /\
      frameCount st = (droppedFrameCount st + processed fp + pending id s)%nat /\
      dropped fp = droppedFrameCount st.

(** The sample windows of a controller hold at most ten entries each. *)
Definition windows_bounded (c : Controller) : Prop :=
  (length (rtt c) <= 10)%nat /\
  length (net_jitter c) = length (rtt c) /\
  length (packetLoss c) = length (rtt c) /\
  (length (encodingTimes c) <= 10)%nat /\
  length (bitrates c) = length (encodingTimes c).

(** Every history the engine keeps per session is bounded. *)
Definition bounded_history (e : t) : Prop :=
  (forall id c, adaptiveQualityControllers e !! id = Some c -> windows_bounded c) /\
  (forall id m, performanceMetrics e !! id = Some m ->
                (length (frameEncodeTime m) <= 100)%nat).

(** A quality between the configured floor and the ceiling of a
    controller. *)
Definition in_range (c : Controller) (q : Quality) : Prop :=
  (Config.minBitrate STREAMING <= q_bitrate q)%Q /\
  (q_bitrate q <= bitrate (ceiling c))%Q /\
  (Config.minFrameRate STREAMING <= q_frameRate q)%Q /\
  (q_frameRate q <= frameRate (ceiling c))%Q.

(** The qualities of a controller respect its limits, provided the ceiling
    requested for the stream is not below the configured floor. *)
Definition within_limits (c : Controller) : Prop :=
  (Config.minBitrate STREAMING <= bitrate (ceiling c))%Q ->
  (Config.minFrameRate STREAMING <= frameRate (ceiling c))%Q ->
  in_range c (currentQuality c) /\ in_range c (targetQuality c).

End WithBackend.

End StreamingEngine.

(** ** The cadence test, on its own *)

Module Cadence.

(** The instants a processor accepts out of a list of arrival instants:
    an instant passes when at least [interval] elapsed since the last
    accepted one. *)
Fixpoint gate (interval : Q) (last : Z) (arrivals : list Z) : list Z :=
  match arrivals with
  | [] => []
  | t :: rest =>
      if negb (Qle_bool interval (inject_Z (t - last))) then gate interval last rest
      else t :: gate interval t rest
  end.

(** Consecutive instants of [l] are at least [interval] apart, the first
    one counted from [prev]. *)
Fixpoint spaced (interval : Q) (prev : Z) (l : list Z) : Prop :=
  match l with
  | [] => True
  | t :: rest => (interval <= inject_Z (t - prev))%Q /\ spaced interval t rest
  end.

(** A count as a rational. *)
Definition qn (n : nat) : Q := inject_Z (Z.of_nat n).

End Cadence.

(** ** Concrete pool scenarios *)

Module PoolScenario.

Import BrowserPool.

Definition cfg : Config.BROWSER := Config.BROWSER_CONFIG None.

(** puppeteer opens one blank page in a freshly launched browser. *)
Definition launchPages : nat := 1.

Definition lo (uuid : string) (now : Z) : LaunchOracle :=
  {| browser_uuid := uuid; launch_ok := true; launch_now := now |}.

Definition po (buuid puuid : string) (now : Z) : PageOracle :=
  {| launch := lo buuid now; page_uuid := puuid;
     newPage_ok := true; setup_ok := true; page_now := now |}.

(** [createPage()] with no option set. *)
Definition plain : PageOptions :=
  {| opt_pageId := None; browserOptions := {| opt_browserId := None |} |}.

(** [createPage({ browserOptions: { browserId: id } })] *)
Definition on_browser (id : string) : PageOptions :=
  {| opt_pageId := None; browserOptions := {| opt_browserId := Some id |} |}.

(** [createPage({ pageId: id })] *)
Definition with_pageId (id : string) : PageOptions :=
  {| opt_pageId := Some id; browserOptions := {| opt_browserId := None |} |}.

(** Four pages are acquired on an empty pool: one browser ["b1"] is
    launched and filled up to the per-browser cap (blank page included). *)
Definition fill_b1 : list Call :=
  [ CreatePage plain (po "b1" "p1" 1);
    CreatePage plain (po "b2" "p2" 2);
    CreatePage plain (po "b3" "p3" 3);
    CreatePage plain (po "b4" "p4" 4) ].

Definition full_pool : t := run cfg launchPages fill_b1 init.

(** One page was acquired on an empty pool: browser ["b1"] holds two pages
    (the blank one and ["p1"]) and has room for more. *)
Definition roomy_pool : t :=
  run cfg launchPages [ CreatePage plain (po "b1" "p1" 1) ] init.

Definition closes_fine : CloseOracle := {| stop_ok := true; close_ok := true |}.

(** A pool whose only browser has lost its last page: a page is acquired
    and released again (here a launch leaves no blank page behind). *)
Definition idle_pool : t :=
  run cfg 0 [ CreatePage plain (po "b1" "p1" 1); ClosePage "p1" 2 closes_fine ] init.

(** A health-loop tick at time [now] during which nothing fails. *)
Definition calm_tick (now : Z) : MonitorOracle :=
  {| mon_now := now; mon_close := fun _ => closes_fine;
     mon_browserCloseOk := fun _ => true;
     mon_launch := fun id => lo id now |}.

End PoolScenario.

(** ** Concrete session scenarios *)

Module SessionScenario.

Import SessionManager.

(** Default configuration: two sessions at most, five minutes of TTL. *)
Definition cfg : Config.SESSION := Config.SESSION_CONFIG None None.

Definition quiet (now : Z) : CloseOracle :=
  {| close_now := now; page_close := PoolScenario.closes_fine;
     listener_throws := false |}.

(** Session ["s1"] is created at instant 0 and accessed at 350 s. *)
Definition busy_session : t :=
  snd (getSession cfg "s1" 350000
         (snd (createSession cfg {| opt_sessionId := Some "s1" |} "u1" 0 init))).

(** The cleanup loop runs at 360 s, ten seconds after the last access. *)
Definition after_cleanup : t :=
  fst (cleanupExpiredSessions cfg 360000 (fun _ => quiet 360000)
         busy_session BrowserPool.init).

End SessionScenario.

(** ** Concrete engine scenarios *)

Module EngineScenario.

Import StreamingEngine.

Definition cfgB : Config.BROWSER := PoolScenario.cfg.
Definition cfgS : Config.SESSION := SessionScenario.cfg.

(** The services right after start-up, wired as the application does:
    the adaptive engine on top of the CUDA encoder.  [loaded] tells whether
    the native WebRTC module could be loaded. *)
Definition boot (loaded : bool) : System CUDAEncoder.t :=
  mkSystem (init true) BrowserPool.init SessionManager.init
    (WebRTCService.init loaded) (CUDAEncoder.initialize true CUDAEncoder.init) [] [] [].

(** Session ["s1"] is created at instant 0. *)
Definition with_session (s : System CUDAEncoder.t) : System CUDAEncoder.t :=
  with_sessionManager
    (snd (SessionManager.createSession cfgS {| SessionManager.opt_sessionId := Some "s1" |}
            "u1" 0 (sessionManager s))) s.

(** [createStream("s1", {})] *)
Definition request : Request := {|
  req_pageId := None; req_webrtcId := None; req_frameRate := None;
  req_bitrate := None; req_encodingStrategy := None; req_adaptiveQuality := None
|}.

Definition co : CreateOracle := {|
  co_now := 1000; co_page := PoolScenario.po "b1" "p1" 1000;
  co_peer_ok := true; co_cdp_ok := true
|}.

(** The stream of session ["s1"] is created at instant 1000 with the
    default quality (30 frames per second, 3000 kbps). *)
Definition streaming : System CUDAEncoder.t :=
  snd (createStream cfgB 1 cfgS "s1" request co (with_session (boot true))).

(** The same request when the native WebRTC module is missing. *)
Definition degraded_attempt : Js.result Stream * System CUDAEncoder.t :=
  createStream cfgB 1 cfgS "s1" request co (with_session (boot false)).

(** The encoding worker of ["s1"] is started, then fails four times with a
    non-zero exit code: the encoder walks down the chain to ["mjpeg"]. *)
Definition on_last_strategy : CUDAEncoder.t :=
  let c0 := snd (CUDAEncoder.startEncoder "s1" true 1500 (encoder streaming)) in
  fold_left (fun c now => CUDAEncoder.handleEncoderClosed "s1" 1 true now c)
    [2000; 3000; 4000; 5000]%Z c0.

(** The worker of the last strategy exits with code 1 as well. *)
Definition exhausted : CUDAEncoder.t :=
  CUDAEncoder.handleEncoderClosed "s1" 1 true 6000 on_last_strategy.

(** The system once every event of the exhausted encoder was delivered. *)
Definition after_exhaustion : System CUDAEncoder.t :=
  onCudaEvents cfgS (CUDAEncoder.emitted exhausted) true 6000
    (with_encoder exhausted streaming).

Definition frame (n : nat) : Frame := {| tag := n; size := 1024 |}.

Definition no_stats (now : Z) : TickOracle := {| tick_now := now; tick_live := None |}.

(** A raw frame seen at instant [now]. *)
Definition at_ (now : Z) : FrameOracle :=
  {| seen_at := now; gate_now := now; frame_tick := no_stats now |}.

(** Three raw frames of page ["p1"], 100 ms apart; none of the encodes
    settles in between. *)
Definition three_frames : System CUDAEncoder.t :=
  frameRun [ Arrive "p1" (frame 1) (at_ 1100);
                  Arrive "p1" (frame 2) (at_ 1200);
                  Arrive "p1" (frame 3) (at_ 1300) ] streaming.

Definition settled (now : Z) : EncodeOracle :=
  {| write_ok := true; elapsed := 5; done_now := now |}.

(** The encode of the first frame settles. *)
Definition first_done : System CUDAEncoder.t :=
  frameRun [ EncodeDone "s1" (settled 1350) ] three_frames.

(** A raw frame that arrives 10 ms after the stream was created. *)
Definition early_frame : System CUDAEncoder.t :=
  handleScreencastFrame "p1" (frame 1) (at_ 1010) streaming.

(** Sixty raw frames, 16 ms apart, right after the stream was created:
    fewer than 31 of them are accepted between instants 1000 and 2000. *)
Definition sixty_frames_statement : Prop :=
  (Cadence.qn
     (inWindow 1000 2000
        (acceptedTimes "p1" "s1"
           (map (fun n => (frame n, at_ (1000 + 16 * Z.of_nat n))) (seq 1 60)) streaming))
   < 30 + 1)%Q.

(** A tick of the controller at instant [now] on a poor network (round
    trip of 400 ms). *)
Definition poor_tick (now : Z) : TickOracle := {|
  tick_now := now;
  tick_live := Some {| WebRTCService.bytesSent := 0; WebRTCService.packetsLost := 0;
                       WebRTCService.roundTripTime := 400; WebRTCService.jitter := 0 |}
|}.

(** Five consecutive ticks on a poor network, 5 s apart. *)
Definition five_poor_ticks {E} `{EncoderBackend E} (s : System E) : System E :=
  fold_left (fun acc now => snd (applyAdaptiveQuality "s1" (poor_tick now) acc))
    [6000; 11000; 16000; 21000; 26000]%Z s.

(** The same stream on an engine wired to the basic encoder. *)
Definition boot_basic : System BasicEncoder.t :=
  mkSystem (init true) BrowserPool.init SessionManager.init
    (WebRTCService.init true) BasicEncoder.init [] [] [].

Definition streaming_basic : System BasicEncoder.t :=
  snd (createStream cfgB 1 cfgS "s1" request co
         (with_sessionManager
            (snd (SessionManager.createSession cfgS
                    {| SessionManager.opt_sessionId := Some "s1" |} "u1" 0
                    (sessionManager boot_basic))) boot_basic)).

(** Ticks on a poor network, 5 s apart, as many as [instants] lists. *)
Definition poor_ticks {E} `{EncoderBackend E} (instants : list Z) (s : System E) : System E :=
  fold_left (fun acc now => snd (applyAdaptiveQuality "s1" (poor_tick now) acc)) instants s.

(** Bitrate in effect for session ["s1"] after each of the ticks. *)
Fixpoint bitrate_trace {E} `{EncoderBackend E} (instants : list Z) (s : System E)
  : list (option Q) :=
  match instants with
  | [] => []
  | now :: rest =>
      let s' := snd (applyAdaptiveQuality "s1" (poor_tick now) s) in
      (Qred <$> (q_bitrate <$> (currentQuality <$>
         adaptiveQualityControllers (engine s') !! "s1")))
      :: bitrate_trace rest s'
  end.

Definition ten_instants : list Z :=
  [6000; 11000; 16000; 21000; 26000; 31000; 36000; 41000; 46000; 51000]%Z.

(** Every step of a teardown that can fail does fail. *)
Definition failing_stop : StopOracle :=
  {| so_now := 2000; so_stop_ok := false; so_channel_ok := false;
     so_listener_throws := false |}.

(** What reaches the engine during the life of one stream: the stream is
    created, a raw frame arrives and its encode settles, the controller
    ticks on a poor network, the stream is closed. *)
Definition one_stream : list Call :=
  [ CreateStream "s1" request co;
    OnFrame (Arrive "p1" (frame 1) (at_ 1100));
    OnFrame (EncodeDone "s1" (settled 1150));
    Tick "s1" (poor_tick 6000);
    CloseStream "s1" "client" failing_stop ].

(** Five fatal failures of the worker of ["s1"], each followed by a
    successful restart where one is attempted. *)
Definition five_failures : list (CUDAEncoder.Failure * bool * Z) :=
  [ (CUDAEncoder.WorkerClosed 1, true, 2000%Z); (CUDAEncoder.WorkerError, true, 3000%Z);
    (CUDAEncoder.WorkerClosed 1, true, 4000%Z); (CUDAEncoder.WorkerClosed 137, true, 5000%Z);
    (CUDAEncoder.WorkerError, true, 6000%Z) ].

(** The stream of ["s1"] is created, accepts a raw frame, is closed while
    the encode of that frame is awaited, and is created again; then the
    next raw frame arrives. *)
Definition recreated : list Call :=
  [ CreateStream "s1" request co;
    OnFrame (Arrive "p1" (frame 1) (at_ 1100));
    CloseStream "s1" "client" failing_stop;
    CreateStream "s1" request co;
    OnFrame (Arrive "p1" (frame 2) (at_ 1200)) ].

(** What reaches the engine of a running stream on a poor network: a raw
    frame arrives and its encode settles, then the controller ticks twelve
    times, 5 s apart. *)
Definition poor_network : list Call :=
  OnFrame (Arrive "p1" (frame 1) (at_ 1100)) ::
  OnFrame (EncodeDone "s1" (settled 1150)) ::
  map (fun now => Tick "s1" (poor_tick now)) (ten_instants ++ [56000; 61000]%Z).

End EngineScenario.

(** ** Concrete WebSocket scenarios *)

Module WebSocketScenario.

Import WebSocketService.

Definition cfg : Config.WEBSOCKET := Config.WEBSOCKET_CONFIG.

(** Every message written to a socket takes 64 characters. *)
Definition wire_length (m : Outgoing) : nat := 64.

(** No socket operation throws. *)
Definition calm_sockets : PingOracle :=
  {| terminate_ok := fun _ => true; ping_ok := fun _ => true |}.

(** [{"type":"register","sessionId":sid}] *)
Definition register (sid : string) : Incoming :=
  {| length := 40; parsed := Some (Value (Some "register") (Some sid)) |}.

(** [{"type":"input", ...}] *)
Definition click : Incoming :=
  {| length := 30; parsed := Some (Value (Some "input") None) |}.

(** Client ["c1"] connects at instant 0 and registers for session ["s1"]
    one second later. *)
Definition connected : t :=
  run cfg wire_length
    [ Connection "c1" true true 0; Message "c1" (register "s1") true 1000 ] init.

(** The client then sends an input message. *)
Definition clicking : list Call :=
  [ Connection "c1" true true 0; Message "c1" (register "s1") true 1000;
    Message "c1" click true 2000 ].

(** Two clients carry the same session id.  ["c1"] connects before
    ["c2"], but ["c2"] registers for session ["s1"] first and ["c1"] after
    it; then the socket of ["c1"] leaves the open state and no ['close']
    event has been handled yet. *)
Definition two_tabs : t :=
  run cfg wire_length
    [ Connection "c1" true true 0; Connection "c2" true true 500;
      Message "c2" (register "s1") true 1000; Message "c1" (register "s1") true 3000;
      SocketState "c1" false ] init.

End WebSocketScenario.

(* ===================================================================== *)
(** * Part II: lemmas and theorems *)
(* ===================================================================== *)

(** ** Facts about insertion-ordered maps *)

Section JsMapFacts.

Context {V : Type}.
Implicit Types (m : JsMap.t V) (k : string) (v : V).

Lemma jsmap_get_set_eq k v m : JsMap.get k (JsMap.set k v m) = Some v.
Proof.
  induction m as [|[k' v'] m IH]; simpl.
  - by rewrite String.eqb_refl.
  - destruct (String.eqb k' k) eqn:E; simpl; rewrite E; auto.
Qed.

Lemma jsmap_get_set_ne k k' v m :
  k <> k' -> JsMap.get k' (JsMap.set k v m) = JsMap.get k' m.
Proof.
  intros Hne. induction m as [|[k0 v0] m IH]; simpl.
  - destruct (String.eqb_spec k k'); congruence.
  - destruct (String.eqb_spec k0 k) as [->|Hk]; simpl.
    + destruct (String.eqb_spec k k'); congruence.
    + by rewrite IH.
Qed.

Lemma jsmap_get_delete_eq k m : JsMap.get k (JsMap.delete k m) = None.
Proof.
  induction m as [|[k' v'] m IH]; simpl; [done|].
  destruct (String.eqb k' k) eqn:E; simpl; [done|]. by rewrite E.
Qed.

Lemma jsmap_get_delete_ne k k' m :
  k <> k' -> JsMap.get k' (JsMap.delete k m) = JsMap.get k' m.
Proof.
  intros Hne. induction m as [|[k0 v0] m IH]; simpl; [done|].
  destruct (String.eqb_spec k0 k) as [->|Hk]; simpl.
  - destruct (String.eqb_spec k k'); congruence.
  - by rewrite IH.
Qed.

Lemma jsmap_delete_absent k m : JsMap.get k m = None -> JsMap.delete k m = m.
Proof.
  induction m as [|[k' v'] m IH]; simpl; [done|].
  destruct (String.eqb k' k); [done|]. intros H. by rewrite IH.
Qed.

Lemma jsmap_update_absent k f m : JsMap.get k m = None -> JsMap.update k f m = m.
Proof.
  induction m as [|[k' v'] m IH]; simpl; [done|].
  destruct (String.eqb k' k); [done|]. intros H. by rewrite IH.
Qed.

Lemma jsmap_get_update_eq k f m :
  JsMap.get k (JsMap.update k f m) = f <$> JsMap.get k m.
Proof.
  induction m as [|[k' v'] m IH]; simpl; [done|].
  destruct (String.eqb k' k) eqn:E; simpl; by rewrite E.
Qed.

Lemma jsmap_get_update_ne k k' f m :
  k <> k' -> JsMap.get k' (JsMap.update k f m) = JsMap.get k' m.
Proof.
  intros Hne. induction m as [|[k0 v0] m IH]; simpl; [done|].
  destruct (String.eqb_spec k0 k) as [->|Hk]; simpl.
  - destruct (String.eqb_spec k k'); congruence.
  - by rewrite IH.
Qed.

Lemma jsmap_get_update k k' f m :
  JsMap.get k' (JsMap.update k f m) =
  if String.eqb k k' then f <$> JsMap.get k' m else JsMap.get k' m.
Proof.
  destruct (String.eqb_spec k k') as [->|Hne].
  - apply jsmap_get_update_eq.
  - by apply jsmap_get_update_ne.
Qed.

Lemma jsmap_size_update k f m : JsMap.size (JsMap.update k f m) = JsMap.size m.
Proof.
  unfold JsMap.size. induction m as [|[k' v'] m IH]; simpl; [done|].
  destruct (String.eqb k' k); simpl; auto.
Qed.

Lemma jsmap_size_set_absent k v m :
  JsMap.get k m = None -> JsMap.size (JsMap.set k v m) = S (JsMap.size m).
Proof.
  unfold JsMap.size. induction m as [|[k' v'] m IH]; simpl; [done|].
  destruct (String.eqb k' k); [done|]. intros H. simpl. by rewrite IH.
Qed.

Lemma jsmap_size_delete_le k m : (JsMap.size (JsMap.delete k m) <= JsMap.size m)%nat.
Proof.
  unfold JsMap.size. induction m as [|[k' v'] m IH]; simpl; [done|].
  destruct (String.eqb k' k); simpl; lia.
Qed.

Lemma jsmap_size_delete_present k v m :
  JsMap.get k m = Some v -> (JsMap.size (JsMap.delete k m) < JsMap.size m)%nat.
Proof.
  unfold JsMap.size. induction m as [|[k' v'] m IH]; simpl; [done|].
  destruct (String.eqb k' k); simpl.
  - intros _. pose proof (jsmap_size_delete_le k m). unfold JsMap.size in *. lia.
  - intros H. specialize (IH H). lia.
Qed.

Lemma jsmap_get_In k v m : JsMap.get k m = Some v -> In (k, v) m.
Proof.
  induction m as [|[k' v'] m IH]; simpl; [done|].
  destruct (String.eqb_spec k' k) as [->|Hk].
  - intros [= ->]. by left.
  - intros H. right. auto.
Qed.

Lemma jsmap_In_get k v m :
  NoDup (JsMap.keys m) -> In (k, v) m -> JsMap.get k m = Some v.
Proof.
  induction m as [|[k' v'] m IH]; simpl; [done|].
  intros Hnd [H|H].
  - injection H as -> ->. by rewrite String.eqb_refl.
  - apply NoDup_cons in Hnd as [Hni Hnd].
    destruct (String.eqb_spec k' k) as [->|Hk].
    + exfalso. apply Hni. apply list_elem_of_In. unfold JsMap.keys.
      apply in_map_iff. by exists (k, v).
    + auto.
Qed.

Lemma jsmap_keys_update k f m : JsMap.keys (JsMap.update k f m) = JsMap.keys m.
Proof.
  unfold JsMap.keys. induction m as [|[k' v'] m IH]; simpl; [done|].
  destruct (String.eqb k' k); simpl; by rewrite ?IH.
Qed.

Lemma jsmap_keys_delete_subset k k' m :
  In k' (JsMap.keys (JsMap.delete k m)) -> In k' (JsMap.keys m).
Proof.
  unfold JsMap.keys. induction m as [|[k0 v0] m IH]; simpl; [done|].
  destruct (String.eqb k0 k); simpl; tauto.
Qed.

Lemma jsmap_nodup_delete k m :
  NoDup (JsMap.keys m) -> NoDup (JsMap.keys (JsMap.delete k m)).
Proof.
  induction m as [|[k' v'] m IH]; simpl; [done|].
  intros Hnd. apply NoDup_cons in Hnd as [Hni Hnd].
  destruct (String.eqb k' k); simpl; [auto|].
  apply NoDup_cons. split; [|auto].
  intros Hin. apply Hni. apply list_elem_of_In.
  apply list_elem_of_In in Hin. by apply jsmap_keys_delete_subset in Hin.
Qed.

Lemma jsmap_keys_set_absent k v m :
  JsMap.get k m = None -> JsMap.keys (JsMap.set k v m) = JsMap.keys m ++ [k].
Proof.
  unfold JsMap.keys. induction m as [|[k' v'] m IH]; simpl; [done|].
  destruct (String.eqb k' k); [done|]. intros H. simpl. by rewrite IH.
Qed.

Lemma jsmap_get_None_not_key k m :
  JsMap.get k m = None -> ~ In k (JsMap.keys m).
Proof.
  unfold JsMap.keys. induction m as [|[k' v'] m IH]; simpl; [tauto|].
  destruct (String.eqb_spec k' k) as [->|Hk]; [done|].
  intros H [?|?]; [done|]. by apply IH.
Qed.

Lemma jsmap_nodup_set_absent k v m :
  JsMap.get k m = None -> NoDup (JsMap.keys m) -> NoDup (JsMap.keys (JsMap.set k v m)).
Proof.
  intros Hget Hnd. rewrite jsmap_keys_set_absent by done.
  apply NoDup_app. split_and!; [done| |apply NoDup_singleton].
  intros x Hx Hx'. apply list_elem_of_In in Hx.
  apply list_elem_of_singleton in Hx' as ->.
  by apply jsmap_get_None_not_key in Hget.
Qed.

Lemma jsmap_has_get k m : JsMap.has k m = true <-> is_Some (JsMap.get k m).
Proof.
  unfold JsMap.has. destruct (JsMap.get k m); split; intros H; try done.
Qed.

Lemma jsmap_delete_update k f m :
  JsMap.delete k (JsMap.update k f m) = JsMap.delete k m.
Proof.
  induction m as [|[k' v'] m IH]; simpl; [done|].
  destruct (String.eqb k' k) eqn:E; simpl; rewrite E; [done|]. by rewrite IH.
Qed.

Lemma jsmap_delete_idem k m :
  JsMap.delete k (JsMap.delete k m) = JsMap.delete k m.
Proof. apply jsmap_delete_absent, jsmap_get_delete_eq. Qed.

End JsMapFacts.

(** ** Browser pool: frame lemmas *)

Section PoolFacts.

Import BrowserPool.

Variable cfg : Config.BROWSER.
Variable launchPages : nat.

Lemma getPage_browsers pageId now p : browsers (snd (getPage pageId now p)) = browsers p.
Proof. unfold getPage. by destruct (JsMap.get pageId (pages p)). Qed.

Lemma getPage_emitted pageId now p : emitted (snd (getPage pageId now p)) = emitted p.
Proof. unfold getPage. by destruct (JsMap.get pageId (pages p)). Qed.

Lemma getPage_absent pageId now p :
  JsMap.get pageId (pages p) = None -> getPage pageId now p = (None, p).
Proof. unfold getPage. by intros ->. Qed.

Lemma getPage_found pageId now p :
  fst (getPage pageId now p) = touch now <$> JsMap.get pageId (pages p).
Proof. unfold getPage. by destruct (JsMap.get pageId (pages p)). Qed.

Lemma stopScreencast_browsers pageId now ok p :
  browsers (snd (stopScreencast pageId now ok p)) = browsers p.
Proof.
  unfold stopScreencast.
  pose proof (getPage_browsers pageId now p) as Hb.
  destruct (getPage pageId now p) as [[i|] p1]; simpl in *; [|done].
  destruct (negb (screencastRunning i)); [done|].
  by destruct (client i && negb ok).
Qed.

Lemma closePage_size pageId now o p :
  JsMap.size (browsers (snd (closePage pageId now o p))) = JsMap.size (browsers p).
Proof.
  unfold closePage.
  pose proof (getPage_browsers pageId now p) as Hb.
  destruct (getPage pageId now p) as [[i|] p1]; simpl in *; [|by rewrite Hb].
  assert (browsers (if screencastRunning i
                    then snd (stopScreencast pageId now (stop_ok o) p1) else p1)
          = browsers p) as Hb2.
  { destruct (screencastRunning i); [by rewrite stopScreencast_browsers|done]. }
  destruct (close_ok o); simpl; rewrite ?jsmap_size_update, Hb2; done.
Qed.

Lemma closePage_keys pageId now o p :
  JsMap.keys (browsers (snd (closePage pageId now o p))) = JsMap.keys (browsers p).
Proof.
  unfold closePage.
  pose proof (getPage_browsers pageId now p) as Hb.
  destruct (getPage pageId now p) as [[i|] p1]; simpl in *; [|by rewrite Hb].
  assert (browsers (if screencastRunning i
                    then snd (stopScreencast pageId now (stop_ok o) p1) else p1)
          = browsers p) as Hb2.
  { destruct (screencastRunning i); [by rewrite stopScreencast_browsers|done]. }
  destruct (close_ok o); simpl; rewrite ?jsmap_keys_update, Hb2; done.
Qed.

Lemma closePagesOf_keys bid entries now o p :
  JsMap.keys (browsers (closePagesOf bid entries now o p)) = JsMap.keys (browsers p).
Proof.
  revert p. induction entries as [|[pageId info] rest IH]; intros p; simpl; [done|].
  destruct (String.eqb (browserId info) bid); rewrite IH; [apply closePage_keys|done].
Qed.

Lemma keys_size {V} (m : JsMap.t V) : JsMap.size m = length (JsMap.keys m).
Proof. unfold JsMap.size, JsMap.keys. by rewrite length_map. Qed.

(** The registries and the events of [closeBrowser] on a registered
    browser; the ['disconnected'] listener removes what the method removes
    again. *)
Lemma closeBrowser_found bid now o ok p b :
  JsMap.get bid (browsers p) = Some b ->
  let p1 := closePagesOf bid (pages p) now o p in
  fst (closeBrowser bid now o ok p) = ok /\
  browsers (snd (closeBrowser bid now o ok p)) = JsMap.delete bid (browsers p1) /\
  pages (snd (closeBrowser bid now o ok p)) = pages p1 /\
  emitted (snd (closeBrowser bid now o ok p))
  = emitted p1 ++ (if ok then [browserDisconnected bid] else []) ++ [browserClosed bid].
Proof.
  intros Hb. unfold closeBrowser. rewrite Hb. cbn zeta.
  destruct ok; cbn [fst snd browsers pages emitted emit with_browsers onBrowserDisconnected];
    rewrite ?jsmap_delete_idem, <- ?app_assoc; done.
Qed.

Lemma closeBrowser_size bid now o ok p :
  (JsMap.size (browsers (snd (closeBrowser bid now o ok p))) <= JsMap.size (browsers p))%nat.
Proof.
  destruct (JsMap.get bid (browsers p)) as [b|] eqn:Hb.
  - destruct (closeBrowser_found bid now o ok p b Hb) as (_ & -> & _).
    etrans; [apply jsmap_size_delete_le|].
    by rewrite !keys_size, closePagesOf_keys.
  - unfold closeBrowser. by rewrite Hb.
Qed.

Lemma closeBrowser_removes bid now o ok p :
  JsMap.get bid (browsers (snd (closeBrowser bid now o ok p))) = None.
Proof.
  destruct (JsMap.get bid (browsers p)) as [b|] eqn:Hb.
  - destruct (closeBrowser_found bid now o ok p b Hb) as (_ & -> & _).
    apply jsmap_get_delete_eq.
  - unfold closeBrowser. by rewrite Hb.
Qed.

Lemma closeBrowser_size_present bid now o ok p b :
  JsMap.get bid (browsers p) = Some b ->
  (JsMap.size (browsers (snd (closeBrowser bid now o ok p))) < JsMap.size (browsers p))%nat.
Proof.
  intros Hb. destruct (closeBrowser_found bid now o ok p b Hb) as (_ & -> & _).
  assert (JsMap.size (browsers (closePagesOf bid (pages p) now o p)) = JsMap.size (browsers p)) as Hs
    by (by rewrite !keys_size, closePagesOf_keys).
  assert (is_Some (JsMap.get bid (browsers (closePagesOf bid (pages p) now o p)))) as [b' Hb'].
  { destruct (JsMap.get bid (browsers (closePagesOf bid (pages p) now o p))) eqn:E; [by eexists|].
    apply jsmap_get_None_not_key in E. rewrite closePagesOf_keys in E.
    exfalso. apply E. apply jsmap_get_In in Hb. unfold JsMap.keys.
    apply in_map_iff. by exists (bid, b). }
  pose proof (jsmap_size_delete_present _ _ _ Hb'). lia.
Qed.

Lemma createBrowser_size options o p :
  (JsMap.size (browsers p) <= Config.maxBrowsers cfg)%nat ->
  (JsMap.size (browsers (snd (createBrowser cfg launchPages options o p)))
   <= Config.maxBrowsers cfg)%nat.
Proof.
  intros Hs. unfold createBrowser.
  destruct (Nat.leb_spec (Config.maxBrowsers cfg) (JsMap.size (browsers p))); [done|].
  destruct (JsMap.get _ (browsers p)) eqn:E; [done|].
  destruct (launch_ok o); simpl; [|done].
  rewrite jsmap_size_set_absent by done. lia.
Qed.

Lemma getOrCreateBrowser_size options o p :
  (JsMap.size (browsers p) <= Config.maxBrowsers cfg)%nat ->
  (JsMap.size (browsers (snd (getOrCreateBrowser cfg launchPages options o p)))
   <= Config.maxBrowsers cfg)%nat.
Proof.
  intros Hs. unfold getOrCreateBrowser.
  destruct (JsMap.size (browsers p) =? 0)%nat; [by apply createBrowser_size|].
  destruct (findBest cfg (browsers p) None Js.infinity); [done|].
  by apply createBrowser_size.
Qed.

Lemma createPage_size options o p :
  (JsMap.size (browsers p) <= Config.maxBrowsers cfg)%nat ->
  (JsMap.size (browsers (snd (createPage cfg launchPages options o p)))
   <= Config.maxBrowsers cfg)%nat.
Proof.
  intros Hs. unfold createPage.
  pose proof (getOrCreateBrowser_size (browserOptions options) (launch o) p Hs) as H1.
  destruct (getOrCreateBrowser cfg launchPages (browserOptions options) (launch o) p)
    as [[[bid b]|e] p1]; simpl in *; [|done].
  destruct (JsMap.get _ (pages p1)); [done|].
  destruct (newPage_ok o); simpl; [|done].
  destruct (setup_ok o); simpl; by rewrite jsmap_size_update.
Qed.

Lemma restartBrowser_size bid now o ok lo p :
  (JsMap.size (browsers p) <= Config.maxBrowsers cfg)%nat ->
  (JsMap.size (browsers (snd (restartBrowser cfg launchPages bid now o ok lo p)))
   <= Config.maxBrowsers cfg)%nat.
Proof.
  intros Hs. unfold restartBrowser.
  destruct (JsMap.get bid (browsers p)); [|done].
  pose proof (closeBrowser_size bid now o ok p) as H1.
  pose proof (createBrowser_size {| opt_browserId := Some bid |} lo
                (snd (closeBrowser bid now o ok p)) ltac:(lia)) as H2.
  by destruct (createBrowser cfg launchPages _ lo _) as [[nb|e] p2].
Qed.

Lemma monitorBrowser_size bid b o p :
  (JsMap.size (browsers p) <= Config.maxBrowsers cfg)%nat ->
  (JsMap.size (browsers (monitorBrowser cfg launchPages bid b o p))
   <= Config.maxBrowsers cfg)%nat.
Proof.
  intros Hs. unfold monitorBrowser.
  destruct (monitorDecision cfg b (mon_now o)); try done.
  - etrans; [apply closeBrowser_size|done].
  - by apply restartBrowser_size.
Qed.

Lemma monitorLoop_size fuel work o p :
  (JsMap.size (browsers p) <= Config.maxBrowsers cfg)%nat ->
  (JsMap.size (browsers (monitorLoop cfg launchPages fuel work o p))
   <= Config.maxBrowsers cfg)%nat.
Proof.
  revert work p. induction fuel as [|fuel IH]; intros work p Hs; simpl; [done|].
  destruct work as [|bid rest]; [done|].
  destruct (JsMap.get bid (browsers p)) as [b|]; [|by apply IH].
  apply IH. by apply monitorBrowser_size.
Qed.

Lemma step_size c p :
  (JsMap.size (browsers p) <= Config.maxBrowsers cfg)%nat ->
  (JsMap.size (browsers (step cfg launchPages c p)) <= Config.maxBrowsers cfg)%nat.
Proof.
  intros Hs. destruct c; simpl.
  - by apply createBrowser_size.
  - by apply getOrCreateBrowser_size.
  - by apply createPage_size.
  - by rewrite closePage_size.
  - etrans; [apply closeBrowser_size|done].
  - by apply restartBrowser_size.
  - by apply monitorLoop_size.
  - etrans; [apply jsmap_size_delete_le|done].
  - unfold page_gone. destruct (JsMap.get pageId (pages p)); simpl;
      by rewrite ?jsmap_size_update.
Qed.

(** The instance cap is an invariant of every run of the pool. *)
Lemma pool_instance_cap cs :
  (JsMap.size (browsers (run cfg launchPages cs init)) <= Config.maxBrowsers cfg)%nat.
Proof.
  unfold run. rewrite <- fold_left_rev_right.
  induction (rev cs) as [|c l IH]; simpl; [lia|].
  by apply step_size.
Qed.

(** A launch is refused once the instance cap is reached, and nothing is
    queued: the pool is left as it was. *)
Lemma createBrowser_rejects options o p :
  (Config.maxBrowsers cfg <= JsMap.size (browsers p))%nat ->
  createBrowser cfg launchPages options o p
  = (Js.Throw (Js.ResourceLimitError "Maximum number of browsers reached"), p).
Proof.
  intros Hs. unfold createBrowser.
  by destruct (Nat.leb_spec (Config.maxBrowsers cfg) (JsMap.size (browsers p))); [|lia].
Qed.

Lemma findBest_none entries :
  (forall id b, In (id, b) entries -> (Config.maxPagesPerBrowser cfg <= openPages b)%nat) ->
  forall best m, findBest cfg entries best m = best.
Proof.
  induction entries as [|[id b] rest IH]; intros Hfull best m; [done|].
  cbn [findBest].
  assert (Js.lt (Js.prop_length (Js.await (pages_call b)))
            (Js.number (Z.of_nat (Config.maxPagesPerBrowser cfg))) = false) as ->.
  { simpl. apply Z.ltb_ge. specialize (Hfull id b (or_introl eq_refl)). lia. }
  rewrite andb_false_r. apply IH. intros id' b' Hin. apply (Hfull id' b'). by right.
Qed.

(** A page acquisition is refused when every browser is full and the
    instance cap is reached. *)
Lemma createPage_rejects options o p :
  (Config.maxBrowsers cfg <= JsMap.size (browsers p))%nat ->
  all_full cfg p ->
  createPage cfg launchPages options o p
  = (Js.Throw (Js.ResourceLimitError "Maximum number of browsers reached"), p).
Proof.
  intros Hs Hfull. unfold createPage, getOrCreateBrowser.
  rewrite (findBest_none _ Hfull).
  rewrite createBrowser_rejects by done.
  by destruct (JsMap.size (browsers p) =? 0)%nat.
Qed.

End PoolFacts.

(** ** Browser pool: the per-browser cap under least-loaded placement *)

Section PagePlacement.

Import BrowserPool.

Variable cfg : Config.BROWSER.
Variable launchPages : nat.

Lemma findBest_under_cap entries best minPages id b :
  findBest cfg entries best minPages = Some (id, b) ->
  best = Some (id, b) \/
  (In (id, b) entries /\ (openPages b < Config.maxPagesPerBrowser cfg)%nat).
Proof.
  revert best minPages. induction entries as [|[k v] rest IH]; intros best minPages.
  { simpl. by left. }
  cbn [findBest].
  destruct (Js.lt (Js.prop_length (Js.await (pages_call v))) minPages
            && Js.lt (Js.prop_length (Js.await (pages_call v)))
                 (Js.number (Z.of_nat (Config.maxPagesPerBrowser cfg)))) eqn:Hpick; intros Hf.
  - apply IH in Hf as [[= -> ->]|[Hin Hlt]].
    + right. split; [by left|]. apply andb_true_iff in Hpick as [_ Hlt].
      simpl in Hlt. apply Z.ltb_lt in Hlt. lia.
    + right. split; [by right|done].
  - apply IH in Hf as [Hb|[Hin Hlt]]; [by left|]. right. split; [by right|done].
Qed.

(** When the browser that would be launched is not registered yet, the
    browser handed out for a new page has room for it. *)
Lemma getOrCreateBrowser_has_room options o p bid b p' :
  NoDup (JsMap.keys (browsers p)) ->
  (launchPages < Config.maxPagesPerBrowser cfg)%nat ->
  JsMap.get (Js.or_string (opt_browserId options) (browser_uuid o)) (browsers p) = None ->
  getOrCreateBrowser cfg launchPages options o p = (Js.Return (bid, b), p') ->
  JsMap.get bid (browsers p') = Some b /\
  (openPages b < Config.maxPagesPerBrowser cfg)%nat /\
  (forall k, k <> bid -> JsMap.get k (browsers p') = JsMap.get k (browsers p)) /\
  (JsMap.get bid (browsers p) = None \/ p' = p).
Proof.
  intros Hnd Hlaunch Hfresh.
  assert (forall r p1, createBrowser cfg launchPages options o p = (r, p1) ->
            r = Js.Return (bid, b) -> p1 = p' ->
            JsMap.get bid (browsers p') = Some b /\
            (openPages b < Config.maxPagesPerBrowser cfg)%nat /\
            (forall k, k <> bid -> JsMap.get k (browsers p') = JsMap.get k (browsers p)) /\
            (JsMap.get bid (browsers p) = None \/ p' = p)) as Hcreate.
  { intros r p1. unfold createBrowser.
    destruct (_ <=? _)%nat; [by intros [= <- <-]|].
    rewrite Hfresh. destruct (launch_ok o); [|by intros [= <- <-]].
    intros [= <- <-] [= <- <-] <-. simpl. split_and!.
    - apply jsmap_get_set_eq.
    - done.
    - intros k Hk. by apply jsmap_get_set_ne.
    - by left. }
  unfold getOrCreateBrowser.
  destruct (JsMap.size (browsers p) =? 0)%nat.
  { intros Heq. by eapply Hcreate. }
  destruct (findBest cfg (browsers p) None Js.infinity) as [[k v]|] eqn:Hf.
  - intros [= -> -> <-]. apply findBest_under_cap in Hf as [|[Hin Hlt]]; [done|].
    split_and!; [by apply jsmap_In_get|done|done|by right].
  - intros Heq. by eapply Hcreate.
Qed.

(** A page acquisition that does not name a registered browser keeps every
    browser within the per-browser cap. *)
Lemma createPage_within_page_cap options o p :
  NoDup (JsMap.keys (browsers p)) ->
  (launchPages < Config.maxPagesPerBrowser cfg)%nat ->
  JsMap.get (Js.or_string (opt_browserId (browserOptions options)) (browser_uuid (launch o)))
    (browsers p) = None ->
  (forall id b, JsMap.get id (browsers p) = Some b ->
                (openPages b <= Config.maxPagesPerBrowser cfg)%nat) ->
  forall id b, JsMap.get id (browsers (snd (createPage cfg launchPages options o p))) = Some b ->
               (openPages b <= Config.maxPagesPerBrowser cfg)%nat.
Proof.
  intros Hnd Hlaunch Hfresh Hcap id b. unfold createPage.
  destruct (getOrCreateBrowser cfg launchPages (browserOptions options) (launch o) p)
    as [[[bid vb]|e] p1] eqn:Hg.
  2:{ cbn [snd].
      assert (browsers p1 = browsers p) as ->; [|apply Hcap].
      revert Hg. unfold getOrCreateBrowser, createBrowser.
      destruct (JsMap.size (browsers p) =? 0)%nat;
        [|destruct (findBest cfg (browsers p) None Js.infinity); [done|]];
        (destruct (_ <=? _)%nat; [by intros [= _ <-]|]);
        rewrite Hfresh; (destruct (launch_ok (launch o)); [done|by intros [= _ <-]]). }
  destruct (getOrCreateBrowser_has_room _ _ _ _ _ _ Hnd Hlaunch Hfresh Hg)
    as (Hget & Hroom & Hother & _).
  assert (forall k v, JsMap.get k (browsers p1) = Some v ->
                      (openPages v <= Config.maxPagesPerBrowser cfg)%nat) as Hcap1.
  { intros k v Hk. destruct (decide (k = bid)) as [->|Hne].
    - rewrite Hget in Hk. injection Hk as <-. lia.
    - rewrite Hother in Hk by done. by eapply Hcap. }
  assert (forall k v, JsMap.get k (JsMap.update bid browser_newPage (browsers p1)) = Some v ->
                      (openPages v <= Config.maxPagesPerBrowser cfg)%nat) as Hcap2.
  { intros k v. rewrite jsmap_get_update.
    destruct (String.eqb_spec bid k) as [<-|Hne]; [|apply Hcap1].
    rewrite Hget. simpl. intros [= <-]. simpl. lia. }
  destruct (JsMap.get _ (pages p1)); [apply Hcap1|].
  destruct (newPage_ok o); cbn [negb snd]; [|apply Hcap1].
  destruct (setup_ok o); cbn [negb snd]; apply Hcap2.
Qed.

End PagePlacement.

(** ** C1: caps of the pool *)

Section C1.

Import BrowserPool PoolScenario.

Example full_pool_b1 :
  JsMap.keys (browsers full_pool) = ["b1"] /\
  (openPages <$> JsMap.get "b1" (browsers full_pool)) = Some 5%nat /\
  Config.maxPagesPerBrowser cfg = 5%nat /\
  JsMap.keys (pages full_pool) = ["p1"; "p2"; "p3"; "p4"].
Proof. vm_compute. done. Qed.

(** C1, at the failing input.  The pool holds one browser ["b1"] that is at
    the per-browser cap of 5 pages.  A page acquisition that names this
    browser, [createPage({browserOptions: {browserId: "b1"}})], is not
    rejected: [getOrCreateBrowser] finds no browser with spare capacity and
    falls through to [createBrowser], which hands back the registered
    browser ["b1"]; the new page is opened on it, and the browser ends up
    with 6 live pages, above the cap. *)
Theorem C1_named_browser_exceeds_page_cap :
  let r := createPage cfg launchPages (on_browser "b1") (po "b9" "p5" 5) full_pool in
  Js.returns (fst r) = true /\
  (openPages <$> JsMap.get "b1" (browsers (snd r))) = Some 6%nat /\
  (Config.maxPagesPerBrowser cfg < 6)%nat /\
  JsMap.keys (browsers (snd r)) = ["b1"].
Proof. vm_compute. split_and!; (done || lia). Qed.

End C1.

(** ** C9: the health loop *)

Section C9.

Import BrowserPool PoolScenario.

Variable cfg0 : Config.BROWSER.
Variable launchPages0 : nat.

(** The test [browser.pages().length === 0] reads [length] off the promise
    returned by [browser.pages()], so it compares [undefined] with [0]: the
    idle branch of the loop is never taken, whatever the browser. *)
Lemma monitorDecision_never_CloseIdle b now :
  monitorDecision cfg0 b now <> CloseIdle.
Proof.
  unfold monitorDecision. simpl.
  destruct (negb (process b)); [done|].
  destruct (_ <=? _)%nat; [done|]. by destruct (_ <=? _)%Z.
Qed.

(** [getOrCreateBrowser] awaits the same call and does see the count. *)
Lemma awaited_page_count b :
  Js.prop_length (Js.await (pages_call b)) = Js.number (Z.of_nat (openPages b)).
Proof. done. Qed.

(** A browser below both restart thresholds is left alone by the loop body,
    idle or not. *)
Lemma monitorBrowser_below_thresholds bid b o p :
  (pagesCreated b < Config.restartBrowserAfterPages cfg0)%nat ->
  (mon_now o - createdAt b < Config.restartBrowserAfterTime cfg0)%Z ->
  monitorBrowser cfg0 launchPages0 bid b o p = p.
Proof.
  intros Hp Ht. unfold monitorBrowser, monitorDecision. simpl.
  destruct (negb (process b)); [done|].
  destruct (Nat.leb_spec (Config.restartBrowserAfterPages cfg0) (pagesCreated b)); [lia|].
  by destruct (Z.leb_spec (Config.restartBrowserAfterTime cfg0) (mon_now o - createdAt b)); [lia|].
Qed.

(** Restart branch: a browser with a process that reached the page-creation
    threshold or the age threshold is closed and a replacement is launched
    under the same id. *)
Lemma monitorBrowser_restarts bid b o p :
  process b = true ->
  ((Config.restartBrowserAfterPages cfg0 <= pagesCreated b)%nat \/
   (Config.restartBrowserAfterTime cfg0 <= mon_now o - createdAt b)%Z) ->
  JsMap.get bid (browsers p) = Some b ->
  (JsMap.size (browsers p) <= Config.maxBrowsers cfg0)%nat ->
  bid <> "" ->
  launch_ok (mon_launch o bid) = true ->
  let p' := monitorBrowser cfg0 launchPages0 bid b o p in
  JsMap.get bid (browsers p')
  = Some {| process := true; createdAt := launch_now (mon_launch o bid);
            pagesCreated := 0; openPages := launchPages0 |} /\
  In (browserClosed bid) (emitted p') /\ In (browserCreated bid) (emitted p').
Proof.
  intros Hproc Hthr Hget Hsize Hne Hlaunch.
  assert (monitorDecision cfg0 b (mon_now o) = Restart) as Hdec.
  { unfold monitorDecision. rewrite Hproc. simpl.
    destruct Hthr as [H|H].
    - by destruct (Nat.leb_spec (Config.restartBrowserAfterPages cfg0) (pagesCreated b)); [|lia].
    - destruct (_ <=? _)%nat; [done|].
      by destruct (Z.leb_spec (Config.restartBrowserAfterTime cfg0) (mon_now o - createdAt b)); [|lia]. }
  unfold monitorBrowser. rewrite Hdec. unfold restartBrowser. rewrite Hget.
  set (q := snd (closeBrowser bid (mon_now o) (mon_close o) (mon_browserCloseOk o bid) p)).
  assert (JsMap.get bid (browsers q) = None) as Hq by apply closeBrowser_removes.
  assert (JsMap.size (browsers q) < Config.maxBrowsers cfg0)%nat as Hlt.
  { pose proof (closeBrowser_size_present bid (mon_now o) (mon_close o)
                  (mon_browserCloseOk o bid) p b Hget). fold q in H. lia. }
  assert (In (browserClosed bid) (emitted q)) as Hev.
  { unfold q, closeBrowser. rewrite Hget. simpl. apply in_app_iff. right. by left. }
  unfold createBrowser.
  destruct (Nat.leb_spec (Config.maxBrowsers cfg0) (JsMap.size (browsers q))); [lia|].
  cbn [opt_browserId].
  assert (Js.or_string (Some bid) (browser_uuid (mon_launch o bid)) = bid) as ->.
  { simpl. destruct (String.eqb_spec bid ""); congruence. }
  rewrite Hq, Hlaunch. simpl. split_and!.
  - apply jsmap_get_set_eq.
  - apply in_app_iff. by left.
  - apply in_app_iff. right. by left.
Qed.

Example idle_pool_shape :
  idle_pool
  = {| browsers := [("b1", {| process := true; createdAt := 1;
                              pagesCreated := 1; openPages := 0 |})];
       pages := [];
       emitted := [browserCreated "b1"; pageCreated "p1"; pageClosed "p1"; pageClosed "p1"] |}.
Proof. by vm_compute. Qed.

(** C9, at the failing input.  The pool holds one launched browser with zero
    live pages, one page created so far and one second of age; a health-loop
    tick during which nothing fails leaves the pool exactly as it was: the
    idle browser is not closed. *)
Theorem C9_idle_browser_is_not_reclaimed :
  (openPages <$> JsMap.get "b1" (browsers idle_pool)) = Some 0%nat /\
  forall fuel, monitorMemoryUsage cfg 0 fuel (calm_tick 1000) idle_pool = idle_pool.
Proof.
  rewrite idle_pool_shape. split; [done|].
  intros [|[|fuel]]; by vm_compute.
Qed.

End C9.

(** ** Session manager: lemmas *)

Section SessionFacts.

Import SessionManager.

Variable cfg : Config.SESSION.

Lemma closeSession_absent id reason o m pool :
  JsMap.get id (sessions m) = None ->
  closeSession id reason o m pool = (false, m, pool).
Proof. unfold closeSession. by intros ->. Qed.

Lemma clearSessionTimeout_sessions id m :
  sessions (clearSessionTimeout id m) = sessions m.
Proof. unfold clearSessionTimeout. by destruct (sessionTimeouts m !! id). Qed.

Lemma clearSessionTimeout_lookup id m :
  sessionTimeouts (clearSessionTimeout id m) !! id = None.
Proof.
  unfold clearSessionTimeout. destruct (sessionTimeouts m !! id) eqn:E; simpl; [|done].
  apply lookup_delete_eq.
Qed.

Lemma resetSessionTimeout_sessions id now m :
  sessions (resetSessionTimeout cfg id now m) = sessions m.
Proof. unfold resetSessionTimeout. simpl. apply clearSessionTimeout_sessions. Qed.

Lemma resetSessionTimeout_lookup id now m :
  sessionTimeouts (resetSessionTimeout cfg id now m) !! id
  = Some (inject_Z now + timeout_ms cfg)%Q.
Proof. unfold resetSessionTimeout. simpl. apply lookup_insert_eq. Qed.

Lemma closeSession_sessions id reason o m pool :
  sessions (closeSession id reason o m pool).1.2 = JsMap.delete id (sessions m).
Proof.
  unfold closeSession. destruct (JsMap.get id (sessions m)) as [s|] eqn:E; simpl.
  - destruct (listener_throws o); simpl;
      rewrite ?clearSessionTimeout_sessions; simpl;
      rewrite ?clearSessionTimeout_sessions; simpl;
      by rewrite ?jsmap_delete_idem, jsmap_delete_update.
  - by rewrite jsmap_delete_absent.
Qed.

Lemma closeAll_sessions ids reason o m pool k :
  JsMap.get k (sessions (closeAll ids reason o m pool).1)
  = if bool_decide (k ∈ ids) then None else JsMap.get k (sessions m).
Proof.
  revert m pool. induction ids as [|id rest IH]; intros m pool; cbn [closeAll].
  - case_bool_decide as H; [by apply elem_of_nil in H|done].
  - pose proof (closeSession_sessions id reason (o id) m pool) as Hs.
    destruct (closeSession id reason (o id) m pool) as [[r m'] pool']. cbn [fst snd] in Hs.
    rewrite IH, Hs. destruct (decide (id = k)) as [->|Hne].
    + rewrite jsmap_get_delete_eq.
      rewrite (bool_decide_eq_true_2 (k ∈ k :: rest)) by apply list_elem_of_here.
      by case_bool_decide.
    + rewrite jsmap_get_delete_ne by done.
      repeat case_bool_decide; try done.
      * exfalso. apply H0. by apply list_elem_of_further.
      * exfalso. apply elem_of_cons in H0 as [?|?]; congruence.
Qed.

Lemma expiredSessions_In now m k s :
  NoDup (JsMap.keys (sessions m)) ->
  JsMap.get k (sessions m) = Some s ->
  In k (expiredSessions cfg now m) <-> expired cfg now s = true.
Proof.
  intros Hnd Hget. unfold expiredSessions, JsMap.keys. rewrite in_map_iff. split.
  - intros [[k' s'] [Hk Hin]]. simpl in Hk. subst k'.
    apply filter_In in Hin as [Hin Hexp]. simpl in Hexp.
    apply (jsmap_In_get _ _ _ Hnd) in Hin. congruence.
  - intros Hexp. exists (k, s). split; [done|].
    apply filter_In. split; [by apply jsmap_get_In|done].
Qed.

Lemma exceeds_spec n x T :
  Js.float_value x = Some T -> Js.exceeds n x = true <-> (T < inject_Z n)%Q.
Proof.
  intros Hx. unfold Js.exceeds. rewrite Hx.
  assert (negb (Qle_bool (inject_Z n) T) = true <-> (T < inject_Z n)%Q) as Hcmp.
  { rewrite negb_true_iff, <- not_true_iff_false, Qle_bool_iff.
    split; [apply Qnot_le_lt|apply Qlt_not_le]. }
  destruct x; try done.
Qed.

Lemma timeout_ms_value T : Js.float_value (timeout cfg) = Some T -> timeout_ms cfg = T.
Proof. unfold timeout_ms. by intros ->. Qed.

Lemma expired_spec now s T :
  Js.float_value (timeout cfg) = Some T ->
  expired cfg now s = true <->
  (T < inject_Z (now - createdAt s) \/ T < inject_Z (now - lastActivityAt s))%Q.
Proof.
  intros HT. unfold expired. cbn zeta.
  by rewrite orb_true_iff, !(exceeds_spec _ _ T HT).
Qed.

Lemma getSession_refreshes id now m s :
  JsMap.get id (sessions m) = Some s ->
  let m' := snd (getSession cfg id now m) in
  (lastActivityAt <$> JsMap.get id (sessions m')) = Some now /\
  (createdAt <$> JsMap.get id (sessions m')) = Some (createdAt s) /\
  sessionTimeouts m' !! id = Some (inject_Z now + timeout_ms cfg)%Q.
Proof.
  intros Hget. unfold getSession. rewrite Hget. cbn [snd].
  rewrite resetSessionTimeout_sessions, resetSessionTimeout_lookup. cbn [sessions with_sessions].
  by rewrite jsmap_get_update_eq, Hget.
Qed.

End SessionFacts.

(** ** C7: session expiry *)

Section C7.

Import SessionManager SessionScenario.


(** The timeout is the product the code computes, in binary64.  With
    [SESSION_TIMEOUT=123000] the configured fraction is [123000 / 1000 / 60]
    and [sessionTimeout * 60 * 1000] is 122999.99999999998..., not 123000:
    the loop closes a session that is exactly 123000 ms old. *)
Lemma C7_timeout_is_a_binary64_product :
  let cfg' := Config.SESSION_CONFIG None (Some 123000%Z) in
  Js.float_value (timeout cfg') = Some (8452495638527999 # 68719476736)%Q /\
  (timeout_ms cfg' < 123000)%Q /\
  (forall s, createdAt s = 0%Z -> lastActivityAt s = 0%Z -> expired cfg' 123000 s = true) /\
  Js.float_value (timeout cfg) = Some 300000%Q.
Proof.
  cbn zeta. split; [by vm_compute|]. split; [by vm_compute|]. split; [|by vm_compute].
  intros s Hc Ha. unfold expired. rewrite Hc, Ha. by vm_compute.
Qed.



End C7.

(** ** C4: encoder fallback *)

Section C4.

Import CUDAEncoder.

Lemma indexOf_lookup x l k : indexOf x l = Some k -> l !! k = Some x.
Proof.
  revert k. induction l as [|y l IH]; intros k; simpl; [done|].
  destruct (String.eqb_spec y x) as [->|Hne].
  - by intros [= <-].
  - destruct (indexOf x l) as [j|]; simpl; [|done]. intros [= <-]. simpl. by apply IH.
Qed.

Lemma lookup_indexOf x l k : NoDup l -> l !! k = Some x -> indexOf x l = Some k.
Proof.
  revert k. induction l as [|y l IH]; intros k Hnd Hk; [done|].
  apply NoDup_cons in Hnd as [Hni Hnd]. simpl.
  destruct k as [|k]; simpl in Hk.
  - injection Hk as ->. by rewrite String.eqb_refl.
  - destruct (String.eqb_spec y x) as [->|Hne].
    + exfalso. apply Hni. by eapply list_elem_of_lookup_2.
    + by rewrite (IH k Hnd Hk).
Qed.

Lemma startEncoder_strategy id ok now c e :
  encoders c !! id = Some e ->
  exists e', encoders (snd (startEncoder id ok now c)) !! id = Some e' /\
             strategy e' = strategy e /\
             (active e = false -> active e' = ok).
Proof.
  intros He. unfold startEncoder. rewrite He.
  destruct (active e) eqn:Ha; simpl; [by exists e|].
  destruct ok; simpl; rewrite lookup_insert_eq; eexists; by split_and!.
Qed.

(** [tryFallbackStrategy] on an inactive encoder whose strategy sits at
    position [k] of the chain. *)
Lemma tryFallbackStrategy_spec id ok now c e k :
  encoders c !! id = Some e ->
  active e = false ->
  indexOf (strategy e) (encodingStrategies c) = Some k ->
  let c' := snd (tryFallbackStrategy id ok now c) in
  encodingStrategies c' = encodingStrategies c /\
  (S k < length (encodingStrategies c) ->
   exists e', encoders c' !! id = Some e' /\
              encodingStrategies c !! S k = Some (strategy e') /\ active e' = ok) /\
  (S k = length (encodingStrategies c) -> c' = c).
Proof.
  intros He Ha Hk. unfold tryFallbackStrategy. rewrite He, Hk.
  pose proof (indexOf_lookup _ _ _ Hk) as Hlk. apply lookup_lt_Some in Hlk.
  destruct (Nat.eqb_spec k (length (encodingStrategies c) - 1)) as [Heq|Hne].
  - simpl. split_and!; [done| |done]. lia.
  - destruct (encodingStrategies c !! S k) as [next|] eqn:Hn.
    2:{ apply lookup_ge_None in Hn. lia. }
    set (c1 := with_encoders _ c).
    assert (encoders c1 !! id = Some (set_strategy next e)) as H1
      by (unfold c1; simpl; apply lookup_insert_eq).
    destruct (startEncoder_strategy id ok now c1 _ H1) as (e' & He' & Hs & Hact).
    split_and!.
    + unfold startEncoder. rewrite H1. simpl. rewrite Ha.
      by destruct ok.
    + intros _. exists e'. split_and!; [done|by rewrite Hs|by apply Hact].
    + lia.
Qed.

(** One failure of the worker of an encoder whose strategy sits at
    position [k] of the chain. *)
Lemma handleFailure_spec id f ok now c e k :
  encoders c !! id = Some e ->
  indexOf (strategy e) (encodingStrategies c) = Some k ->
  let c' := handleFailure id f ok now c in
  encodingStrategies c' = encodingStrategies c /\
  (fatal f -> S k < length (encodingStrategies c) ->
   exists e', encoders c' !! id = Some e' /\
              encodingStrategies c !! S k = Some (strategy e') /\ active e' = ok) /\
  (~ fatal f \/ S k = length (encodingStrategies c) ->
   encoders c' !! id = Some (set_active false e)).
Proof.
  intros He Hk.
  assert (forall ev, let c1 := emit ev (with_encoders (<[id := set_active false e]> (encoders c)) c) in
            encoders c1 !! id = Some (set_active false e) /\
            indexOf (strategy (set_active false e)) (encodingStrategies c1) = Some k /\
            length (encodingStrategies c1) = length (encodingStrategies c)) as Hc1.
  { intros ev. simpl. by rewrite lookup_insert_eq. }
  destruct f as [|code]; simpl.
  - unfold handleEncoderError. rewrite He.
    destruct (Hc1 (encoderError id)) as (H1 & H2 & H3).
    destruct (tryFallbackStrategy_spec id ok now _ _ k H1 eq_refl H2) as (HA & HB & HC).
    split_and!; [done| |].
    + intros _ Hlt. destruct HB as (e' & ? & ? & ?); [simpl; lia|]. by exists e'.
    + intros [Hnf|Hlast]; [by destruct Hnf|]. rewrite HC; [done|]. simpl. lia.
  - unfold handleEncoderClosed. rewrite He.
    destruct (Hc1 (encoderClosed id code)) as (H1 & H2 & H3).
    destruct (Z.eqb_spec code 0) as [->|Hcode].
    + split_and!; [done|intros Hf; by destruct Hf|done].
    + destruct (tryFallbackStrategy_spec id ok now _ _ k H1 eq_refl H2) as (HA & HB & HC).
      split_and!; [done| |].
      * intros _ Hlt. destruct HB as (e' & ? & ? & ?); [simpl; lia|]. by exists e'.
      * intros [Hnf|Hlast]; [by destruct Hnf|]. rewrite HC; [done|]. simpl. lia.
Qed.

(** The engine subscribes to no event the CUDA encoder emits: delivering
    them leaves the whole system as it was. *)
Lemma onCudaEvents_ignored {E} `{EncoderBackend E} cfgS evs ok now (s : StreamingEngine.System E) :
  StreamingEngine.onCudaEvents cfgS evs ok now s = s.
Proof.
  unfold StreamingEngine.onCudaEvents. induction evs as [|ev evs IH]; simpl; [done|].
  assert (StreamingEngine.onEncoderEvent cfgS (event_name ev) (event_id ev) None ok now s = s) as ->.
  { unfold StreamingEngine.onEncoderEvent. by destruct (StreamingEngine.listens_to_encoder _). }
  done.
Qed.

End C4.

Section C4_claim.

Import CUDAEncoder EngineScenario.

(** C4, counterexample.  The stream of session ["s1"] runs on an encoder
    that has fallen back to the last strategy of the chain, ["mjpeg"]; the
    worker exits with code 1.  The encoder is left registered and inactive
    with its strategy unchanged, it emits ['encoderClosed'] and nothing
    else, and once every event was delivered the stream is still registered
    and active: the engine has emitted no ['streamClosed'] at all. *)
Lemma C4_exhausted_chain_leaves_stream_open :
  (strategy <$> encoders on_last_strategy !! "s1") = Some "mjpeg" /\
  last (encodingStrategies on_last_strategy) = Some "mjpeg" /\
  (strategy <$> encoders exhausted !! "s1") = Some "mjpeg" /\
  (active <$> encoders exhausted !! "s1") = Some false /\
  emitted exhausted = emitted on_last_strategy ++ [encoderClosed "s1" 1] /\
  (StreamingEngine.active <$>
     JsMap.get "s1" (StreamingEngine.streams (StreamingEngine.engine after_exhaustion)))
  = Some true /\
  StreamingEngine.emitted (StreamingEngine.engine after_exhaustion)
  = [StreamingEngine.streamCreated "s1"].
Proof. by vm_compute. Qed.

(** C4, amended.  When the worker of an encoder fails fatally (an error, or
    an exit with a non-zero code) while the active strategy is entry [k] of
    the ordered chain and an entry [k+1] exists, the active strategy becomes
    exactly entry [k+1] and the encoder is restarted; no handled event moves
    the strategy backward.  When the strategy that fails is the last of the
    chain, the encoder stays registered with that strategy and is left
    inactive; the stream of the session is not told and stays as it is. *)
Theorem C4_fallback_moves_forward_only
    (c : CUDAEncoder.t) (id : string) (e : Encoder) (k : nat)
    (f : Failure) (spawn_ok : bool) (now : Z) :
  NoDup (encodingStrategies c) ->
  encoders c !! id = Some e ->
  indexOf (strategy e) (encodingStrategies c) = Some k ->
  let c' := handleFailure id f spawn_ok now c in
  (fatal f -> S k < length (encodingStrategies c) ->
   strategyIndex id c' = Some (S k) /\ (active <$> encoders c' !! id) = Some spawn_ok) /\
  (exists k', strategyIndex id c' = Some k' /\ k <= k') /\
  (fatal f -> S k = length (encodingStrategies c) ->
   encoders c' !! id = Some (set_active false e) /\
   forall (s : StreamingEngine.System CUDAEncoder.t) cfgS ok t,
     StreamingEngine.onCudaEvents cfgS (emitted c') ok t s = s).
Proof.
  intros Hnd He Hk. cbn zeta.
  destruct (handleFailure_spec id f spawn_ok now c e k He Hk) as (Hchain & Hadv & Hstay).
  pose proof (indexOf_lookup _ _ _ Hk) as Hlk. apply lookup_lt_Some in Hlk.
  assert (strategyIndex id (handleFailure id f spawn_ok now c) = Some k
          \/ strategyIndex id (handleFailure id f spawn_ok now c) = Some (S k)) as Hidx.
  { unfold strategyIndex. rewrite Hchain.
    destruct (decide (S k < length (encodingStrategies c))) as [Hlt|Hge].
    - assert ({fatal f} + {~ fatal f}) as [Hf|Hf].
      { destruct f as [|code]; simpl; [by left|]. destruct (decide (code = 0%Z)); [right|left]; tauto. }
      + right. destruct (Hadv Hf Hlt) as (e' & -> & Hs & _). by apply lookup_indexOf.
      + left. rewrite Hstay by tauto. done.
    - left. rewrite Hstay; [done|]. right. lia. }
  split_and!.
  - intros Hf Hlt. destruct (Hadv Hf Hlt) as (e' & He' & Hs & Ha). split.
    + unfold strategyIndex. rewrite Hchain, He'. by apply lookup_indexOf.
    + by rewrite He', <- Ha.
  - destruct Hidx as [->| ->]; eexists; split; try done; lia.
  - intros Hf Hlast. split; [apply Hstay; tauto|].
    intros s cfgS ok t. apply onCudaEvents_ignored.
Qed.

Lemma C4_fallback_witness :
  NoDup (encodingStrategies (StreamingEngine.encoder streaming)) /\
  strategyIndex "s1" (StreamingEngine.encoder streaming) = Some 0%nat /\
  strategyIndex "s1"
    (handleFailure "s1" (WorkerClosed 1) true 2000 (StreamingEngine.encoder streaming))
  = Some 1%nat.
Proof.
  assert (NoDup (encodingStrategies (StreamingEngine.encoder streaming))) as Hnd.
  { apply (bool_decide_unpack _). by vm_compute. }
  split; [exact Hnd|]. split; [by vm_compute|].
  destruct (encoders (StreamingEngine.encoder streaming) !! "s1") as [e|] eqn:He;
    [|by vm_compute in He].
  assert (indexOf (strategy e) (encodingStrategies (StreamingEngine.encoder streaming))
          = Some 0%nat) as Hk.
  { vm_compute in He. injection He as <-. by vm_compute. }
  refine (proj1 (proj1 (C4_fallback_moves_forward_only (StreamingEngine.encoder streaming)
                   "s1" e 0 (WorkerClosed 1) true 2000 Hnd He Hk) _ _)).
  - simpl. discriminate.
  - vm_compute. lia.
Defined.

End C4_claim.

(** ** C6: transport without the native module *)

Section C6.

Import WebRTCService.

Lemma degraded_createConnection id peer_ok now w :
  degraded w ->
  createConnection id peer_ok now w = (Js.Throw (Js.Error "wrtc module not available"), w).
Proof. intros [Hw Hc]. unfold createConnection. by rewrite Hc, lookup_empty, Hw. Qed.

Lemma degraded_sendVideoFrame id len frame_ok now w :
  degraded w -> sendVideoFrame id len frame_ok now w = (false, w).
Proof. intros [Hw Hc]. unfold sendVideoFrame, getConnection. by rewrite Hc, lookup_empty. Qed.

Lemma degraded_getConnectionStats id live now w :
  degraded w -> getConnectionStats id live now w = (None, w).
Proof. intros [Hw Hc]. unfold getConnectionStats, getConnection. by rewrite Hc, lookup_empty. Qed.

Lemma degraded_closeConnection id close_ok w :
  degraded w -> closeConnection id close_ok w = (false, w).
Proof. intros [Hw Hc]. unfold closeConnection. by rewrite Hc, lookup_empty. Qed.

Lemma degraded_step c w : degraded w -> step c w = w.
Proof.
  intros Hd. destruct c; simpl.
  - by rewrite degraded_createConnection.
  - by rewrite degraded_sendVideoFrame.
  - by rewrite degraded_getConnectionStats.
  - by rewrite degraded_closeConnection.
Qed.

Lemma degraded_run cs : run cs (init false) = init false.
Proof.
  unfold run. induction cs as [|c cs IH] using rev_ind; [done|].
  rewrite fold_left_app. simpl. rewrite IH. by apply degraded_step.
Qed.

End C6.

Section C6_engine.

Import StreamingEngine.

Context {E : Type} `{EncoderBackend E}.
Variable cfgB : Config.BROWSER.
Variable launchPages : nat.
Variable cfgS : Config.SESSION.

Lemma getSession_inv id now m s m' :
  SessionManager.getSession cfgS id now m = (Some s, m') ->
  exists s0, JsMap.get id (SessionManager.sessions m) = Some s0 /\
             s = SessionManager.touch now s0 /\
             JsMap.get id (SessionManager.sessions m') = Some (SessionManager.touch now s0).
Proof.
  unfold SessionManager.getSession.
  destruct (JsMap.get id (SessionManager.sessions m)) as [s0|] eqn:E0; [|done].
  intros [= <- <-]. exists s0. split_and!; [done..|].
  rewrite resetSessionTimeout_sessions. simpl. by rewrite jsmap_get_update_eq, E0.
Qed.

Lemma updateSession_inv id u now m s m' :
  SessionManager.updateSession cfgS id u now m = (Js.Return s, m') ->
  exists s0, JsMap.get id (SessionManager.sessions m) = Some s0 /\
             s = SessionManager.touch now (SessionManager.assign u (SessionManager.touch now s0)).
Proof.
  unfold SessionManager.updateSession.
  destruct (SessionManager.getSession cfgS id now m) as [[s1|] m1] eqn:Eg; [|done].
  apply getSession_inv in Eg as (s0 & H0 & -> & _).
  intros [= <- <-]. by exists s0.
Qed.

Lemma openChannel_degraded id pg r session o (s : System E) :
  WebRTCService.wrtc (webrtc s) = false ->
  WebRTCService.connections (webrtc s) = ∅ ->
  req_webrtcId r = None ->
  SessionManager.webrtcId session = None ->
  exists s', openChannel cfgS id pg r session o s
             = (Js.Throw (Js.Error "wrtc module not available"), s').
Proof.
  intros Hw Hc Hr Hs. unfold openChannel. rewrite Hr, Hs. simpl.
  rewrite degraded_createConnection by done. by eexists.
Qed.

Lemma bindPage_degraded id pg r session o (s : System E) :
  WebRTCService.wrtc (webrtc s) = false ->
  WebRTCService.connections (webrtc s) = ∅ ->
  req_webrtcId r = None ->
  SessionManager.webrtcId session = None ->
  Js.returns (fst (bindPage cfgS id pg r session o s)) = false.
Proof.
  intros Hw Hc Hr Hs. unfold bindPage.
  destruct (BrowserPool.getPage pg (co_now o) (pool s)) as [[i|] p]; [|done].
  destruct (openChannel_degraded id pg r session o (with_pool p s)) as [s' ->]; done.
Qed.

Lemma createPage_returns_registered options o p pg info p' :
  BrowserPool.createPage cfgB launchPages options o p = (Js.Return (pg, info), p') ->
  is_Some (JsMap.get pg (BrowserPool.pages p')).
Proof.
  unfold BrowserPool.createPage.
  destruct (BrowserPool.getOrCreateBrowser _ _ _ _ _) as [[[bid b]|e] p1]; [|done].
  destruct (JsMap.get _ (BrowserPool.pages p1)) as [i|] eqn:Hi.
  - intros [= <- <- <-]. by rewrite Hi.
  - destruct (negb (BrowserPool.newPage_ok o)); [done|].
    destruct (negb (BrowserPool.setup_ok o)); [done|].
    intros [= <- <- <-]. cbn [BrowserPool.pages BrowserPool.emit BrowserPool.with_pages].
    by rewrite jsmap_get_set_eq.
Qed.

Lemma bindPage_degraded_error id pg r session o (s : System E) :
  WebRTCService.wrtc (webrtc s) = false ->
  WebRTCService.connections (webrtc s) = ∅ ->
  req_webrtcId r = None ->
  SessionManager.webrtcId session = None ->
  is_Some (JsMap.get pg (BrowserPool.pages (pool s))) ->
  fst (bindPage cfgS id pg r session o s) = Js.Throw (Js.Error "wrtc module not available").
Proof.
  intros Hw Hc Hr Hs [i Hi]. unfold bindPage, BrowserPool.getPage. rewrite Hi.
  by destruct (openChannel_degraded id pg r session o
                 (with_pool (BrowserPool.with_pages
                               (JsMap.update pg (BrowserPool.touch (co_now o))
                                  (BrowserPool.pages (pool s))) (pool s)) s)) as [s' ->].
Qed.

(** Without the native module, once the session is there and its page is
    obtained, [createStream] throws the error of [createConnection]. *)
Lemma createStream_degraded_error id r o (s : System E) :
  WebRTCService.wrtc (webrtc s) = false ->
  WebRTCService.connections (webrtc s) = ∅ ->
  JsMap.get id (streams (engine s)) = None ->
  req_webrtcId r = None ->
  (forall session, JsMap.get id (SessionManager.sessions (sessionManager s)) = Some session ->
                   SessionManager.webrtcId session = None) ->
  page_obtained cfgB launchPages id r o s ->
  fst (createStream cfgB launchPages cfgS id r o s)
  = Js.Throw (Js.Error "wrtc module not available").
Proof.
  intros Hw Hc Hst Hr Hsess (s0 & H0 & Hpage). unfold createStream. rewrite Hst.
  pose proof (Hsess s0 H0) as Hnone.
  unfold SessionManager.getSession. rewrite H0.
  cbn [SessionManager.pageId SessionManager.touch].
  set (m := SessionManager.resetSessionTimeout _ _ _ _).
  assert (JsMap.get id (SessionManager.sessions m)
          = Some (SessionManager.touch (co_now o) s0)) as Hm.
  { unfold m. rewrite resetSessionTimeout_sessions. simpl.
    by rewrite jsmap_get_update_eq, H0. }
  destruct (Js.or_string (req_pageId r) _) as [|a pg'] eqn:Epg.
  - cbn [pool with_sessionManager].
    destruct (BrowserPool.createPage _ _ _ _ _) as [[[pg info]|e] p] eqn:Ecp; [|done].
    apply createPage_returns_registered in Ecp.
    cbn [sessionManager with_pool with_sessionManager].
    destruct (SessionManager.updateSession cfgS id _ (co_now o) m) as [[session'|e] m'] eqn:Eu.
    + apply updateSession_inv in Eu as (s1 & H1 & ->). rewrite Hm in H1. injection H1 as <-.
      by apply bindPage_degraded_error.
    + exfalso. revert Eu. unfold SessionManager.updateSession, SessionManager.getSession.
      by rewrite Hm.
  - by apply bindPage_degraded_error.
Qed.

(** Without the native module a stream cannot be created for a session
    that has no channel yet: [createStream] throws. *)
Lemma createStream_degraded id r o (s : System E) :
  WebRTCService.wrtc (webrtc s) = false ->
  WebRTCService.connections (webrtc s) = ∅ ->
  JsMap.get id (streams (engine s)) = None ->
  req_webrtcId r = None ->
  (forall session, JsMap.get id (SessionManager.sessions (sessionManager s)) = Some session ->
                   SessionManager.webrtcId session = None) ->
  Js.returns (fst (createStream cfgB launchPages cfgS id r o s)) = false.
Proof.
  intros Hw Hc Hst Hr Hsess. unfold createStream. rewrite Hst.
  destruct (SessionManager.getSession cfgS id (co_now o) (sessionManager s))
    as [[session|] m] eqn:Eg; [|done].
  apply getSession_inv in Eg as (s0 & H0 & -> & Hm).
  pose proof (Hsess s0 H0) as Hnone.
  destruct (Js.or_string (req_pageId r) _) as [|a pg'] eqn:Epg.
  - destruct (BrowserPool.createPage _ _ _ _ _) as [[[pg info]|e] p]; [|done].
    destruct (SessionManager.updateSession cfgS id _ (co_now o) _) as [[session'|e] m'] eqn:Eu;
      [|done].
    apply updateSession_inv in Eu as (s1 & H1 & ->). simpl in H1. rewrite Hm in H1.
    injection H1 as <-. by apply bindPage_degraded.
  - by apply bindPage_degraded.
Qed.

End C6_engine.

Section C6_claim.

Import WebRTCService EngineScenario.

(** C6, counterexample.  The native WebRTC module failed to load.  Opening
    a channel throws ["wrtc module not available"], and [createStream] for
    session ["s1"] fails with that very error: no stream is registered,
    although the page it acquired on the way stays open. *)
Lemma C6_degraded_stream_creation_fails :
  fst (createConnection "s1" true 1000 (init false))
  = Js.Throw (Js.Error "wrtc module not available") /\
  fst degraded_attempt = Js.Throw (Js.Error "wrtc module not available") /\
  StreamingEngine.streams (StreamingEngine.engine (snd degraded_attempt)) = [] /\
  JsMap.keys (BrowserPool.pages (StreamingEngine.pool (snd degraded_attempt))) = ["p1"].
Proof. by vm_compute. Qed.

(** C6, amended.  When the native WebRTC module failed to load, whatever
    transport operations were issued before, sending a frame reports [false],
    reading the statistics yields nothing and closing a channel reports
    [false], each without throwing and without changing the service; but
    opening a channel throws ["wrtc module not available"].  So creating a
    stream for a session that has no channel yet never succeeds; and as
    soon as the session is stored and its page is obtained (the request or
    the session names a registered page, or the pool creates one), the
    error [createStream] throws is that very error. *)
Theorem C6_degraded_transport
    (cs : list Call) (id : string) (len : nat) (ok : bool) (live : option Stats) (now : Z) :
  let w := run cs (init false) in
  sendVideoFrame id len ok now w = (false, w) /\
  getConnectionStats id live now w = (None, w) /\
  closeConnection id ok w = (false, w) /\
  createConnection id ok now w = (Js.Throw (Js.Error "wrtc module not available"), w) /\
  forall (s : StreamingEngine.System CUDAEncoder.t) cfgB launchPages cfgS r o,
    StreamingEngine.webrtc s = w ->
    JsMap.get id (StreamingEngine.streams (StreamingEngine.engine s)) = None ->
    StreamingEngine.req_webrtcId r = None ->
    (forall session,
        JsMap.get id (SessionManager.sessions (StreamingEngine.sessionManager s)) = Some session ->
        SessionManager.webrtcId session = None) ->
    Js.returns (fst (StreamingEngine.createStream cfgB launchPages cfgS id r o s)) = false /\
    (StreamingEngine.page_obtained cfgB launchPages id r o s ->
     fst (StreamingEngine.createStream cfgB launchPages cfgS id r o s)
     = Js.Throw (Js.Error "wrtc module not available")).
Proof.
  cbn zeta. rewrite degraded_run.
  assert (degraded (init false)) as Hd by done.
  split_and!.
  - by apply degraded_sendVideoFrame.
  - by apply degraded_getConnectionStats.
  - by apply degraded_closeConnection.
  - by apply degraded_createConnection.
  - intros s cfgB launchPages cfgS r o Hw Hst Hr Hsess. split.
    + apply createStream_degraded; try done; by rewrite Hw.
    + intros Hpage. apply createStream_degraded_error; try done; by rewrite Hw.
Qed.

Lemma C6_degraded_witness :
  StreamingEngine.page_obtained cfgB 1 "s1" request co (with_session (boot false)) /\
  fst degraded_attempt = Js.Throw (Js.Error "wrtc module not available").
Proof.
  assert (StreamingEngine.page_obtained cfgB 1 "s1" request co (with_session (boot false)))
    as Hpage.
  { eexists. split; [by vm_compute|]. by vm_compute. }
  split; [exact Hpage|].
  refine (proj2 (proj2 (proj2 (proj2 (proj2
            (C6_degraded_transport [] "s1" 0 true None 0)))) (with_session (boot false))
            cfgB 1%nat cfgS request co _ _ _ _) Hpage).
  - done.
  - done.
  - done.
  - intros session Hs. vm_compute in Hs. by injection Hs as <-.
Defined.

End C6_claim.

(** ** Streaming engine: frame lemmas *)

Section EngineFacts.

Import StreamingEngine.

Context {E : Type} `{EncoderBackend E}.

Implicit Types (s : System E) (id pg : string).

(** Detaching a processor moves awaited encodes and nothing else. *)
Lemma detach_frame id s :
  engine (detach id s) = engine s /\ pool (detach id s) = pool s /\
  sessionManager (detach id s) = sessionManager s /\ webrtc (detach id s) = webrtc s /\
  encoder (detach id s) = encoder s /\ immediates (detach id s) = immediates s.
Proof.
  unfold detach. destruct (frameProcessors (engine s) !! id); [|done].
  by destruct (awaited_of id (encoding s)).
Qed.

Lemma detach_engine id s : engine (detach id s) = engine s.
Proof. apply detach_frame. Qed.

Lemma detach_pool id s : pool (detach id s) = pool s.
Proof. apply detach_frame. Qed.

Lemma detach_sessionManager id s : sessionManager (detach id s) = sessionManager s.
Proof. apply detach_frame. Qed.

Lemma detach_webrtc id s : webrtc (detach id s) = webrtc s.
Proof. apply detach_frame. Qed.

Lemma detach_encoder id s : encoder (detach id s) = encoder s.
Proof. apply detach_frame. Qed.

(** What the inner steps of [closeStream] touch. *)
Lemma releaseStream_engine id st o s : engine (releaseStream id st o s) = engine s.
Proof. unfold releaseStream. rewrite detach_engine. by destruct enc_destroyEncoder. Qed.

Lemma releaseStream_sessionManager id st o s :
  sessionManager (releaseStream id st o s) = sessionManager s.
Proof. unfold releaseStream. rewrite detach_sessionManager. by destruct enc_destroyEncoder. Qed.

Lemma releaseStream_pool id st o s :
  pool (releaseStream id st o s)
  = snd (BrowserPool.stopScreencast (pageId st) (so_now o) (so_stop_ok o) (pool s)).
Proof. unfold releaseStream. rewrite detach_pool. by destruct enc_destroyEncoder. Qed.

Lemma releaseStream_webrtc id st o s :
  webrtc (releaseStream id st o s)
  = snd (WebRTCService.closeConnection id (so_channel_ok o) (webrtc s)).
Proof. unfold releaseStream. rewrite detach_webrtc. by destruct enc_destroyEncoder. Qed.

Lemma releaseStream_encoder id st o s :
  encoder (releaseStream id st o s)
  = match enc_destroyEncoder with
    | Some destroy => destroy id (encoder s)
    | None => encoder s
    end.
Proof. unfold releaseStream. rewrite detach_encoder. by destruct enc_destroyEncoder. Qed.

(** The four maps forget a session once. *)
Lemma forget_emit_forget id ev e :
  forget id (emit ev (forget id e)) = emit ev (forget id e).
Proof.
  unfold forget, emit. cbn. f_equal; [apply jsmap_delete_idem|..]; apply delete_delete_eq.
Qed.

(** [closeStream] on a registered stream, layer by layer: the engine
    forgets the session and emits ['streamClosed'] once, and a second time
    when the transport held the connection. *)
Lemma closeStream_found id reason o s st :
  JsMap.get id (streams (engine s)) = Some st ->
  let e1 := with_streams (JsMap.update id deactivated (streams (engine s))) (engine s) in
  let s1 := with_engine e1 s in
  let once := streamGone id reason (releaseStream id st o s1) in
  let reentered := bool_decide (is_Some (WebRTCService.connections (webrtc s) !! id)) in
  fst (closeStream id reason o s) = negb (so_listener_throws o) /\
  snd (closeStream id reason o s)
  = (if reentered then streamGone id "webrtc_closed" (releaseStream id (deactivated st) o once)
     else once) /\
  engine once = emit (streamClosed id reason) (forget id e1) /\
  engine (snd (closeStream id reason o s))
  = (if reentered then emit (streamClosed id "webrtc_closed") else fun e => e)
      (emit (streamClosed id reason) (forget id e1)).
Proof.
  intros Hst. cbn zeta. unfold closeStream. rewrite Hst. cbn [fst snd webrtc with_engine].
  split; [done|]. split; [done|].
  assert (engine (streamGone id reason
                    (releaseStream id st o
                       (with_engine
                          (with_streams (JsMap.update id deactivated (streams (engine s)))
                             (engine s)) s)))
          = emit (streamClosed id reason)
              (forget id (with_streams (JsMap.update id deactivated (streams (engine s)))
                            (engine s)))) as He.
  { unfold streamGone. cbn [engine with_engine]. by rewrite releaseStream_engine. }
  split; [exact He|].
  destruct (bool_decide _); [|exact He].
  unfold streamGone at 1. cbn [engine with_engine]. rewrite releaseStream_engine, He.
  by rewrite forget_emit_forget.
Qed.

(** A controller tick touches neither the frame processors, nor the awaited
    encodes, nor the streams. *)
Lemma applyAdaptiveQuality_frame id o s :
  let s' := snd (applyAdaptiveQuality id o s) in
  frameProcessors (engine s') = frameProcessors (engine s) /\
  streams (engine s') = streams (engine s) /\
  encoding s' = encoding s /\ immediates s' = immediates s.
Proof.
  unfold applyAdaptiveQuality.
  destruct (adaptiveQualityControllers (engine s) !! id) as [c|]; [|done].
  destruct (negb (enabled c)); [done|].
  destruct (_ <? _)%Z; [done|].
  destruct (WebRTCService.getConnectionStats _ _ _ _) as [[ws|] w]; [|done].
  simpl. destruct (enc_getEncoderStats id (encoder s)) as [es|]; [|done].
  destruct (adjust _ _ _) as [tgt changed].
  destruct changed; [|done].
  by destruct enc_updateEncoderOptions.
Qed.

Lemma updatePerformanceMetrics_processors id dt now e :
  frameProcessors (updatePerformanceMetrics id dt now e) = frameProcessors e.
Proof. unfold updatePerformanceMetrics. by destruct (performanceMetrics e !! id). Qed.

Lemma processFrame_missing id f o s :
  frameProcessors (engine s) !! id = None -> processFrame id f o s = (false, s).
Proof. unfold processFrame. by intros ->. Qed.

Lemma processFrame_busy id f o s fp :
  frameProcessors (engine s) !! id = Some fp -> processing fp = true ->
  processFrame id f o s = (true, put_processor id (enqueue f fp) s).
Proof. unfold processFrame. by intros -> ->. Qed.

Lemma processFrame_idle id f o s fp :
  frameProcessors (engine s) !! id = Some fp -> processing fp = false ->
  let s' := snd (processFrame id f o s) in
  frameProcessors (engine s') = <[id := set_processing true fp]> (frameProcessors (engine s)) /\
  streams (engine s') = streams (engine s) /\
  encoding s' = encoding s ++ [(id, f)] /\ immediates s' = immediates s.
Proof.
  intros Hfp Hp. unfold processFrame. rewrite Hfp, Hp. cbn [snd].
  set (s1 := put_processor id (set_processing true fp) s).
  assert (exists s2,
             match adaptiveQualityControllers (engine s1) !! id with
             | Some c => if enabled c then snd (applyAdaptiveQuality id o s1) else s1
             | None => s1
             end = s2 /\
             frameProcessors (engine s2) = frameProcessors (engine s1) /\
             streams (engine s2) = streams (engine s1) /\
             encoding s2 = encoding s1 /\ immediates s2 = immediates s1)
    as (s2 & -> & H1 & H2 & H3 & H4).
  { eexists. split; [done|].
    destruct (adaptiveQualityControllers (engine s1) !! id) as [c|]; [|done].
    destruct (enabled c); [apply applyAdaptiveQuality_frame|done]. }
  unfold with_encoding. cbn [engine encoding immediates]. by rewrite H1, H2, H3, H4.
Qed.

Lemma cnt_app id l l' : cnt id (l ++ l') = (cnt id l + cnt id l')%nat.
Proof. unfold cnt. by rewrite List.filter_app, length_app. Qed.

Lemma cnt_single id id' f : cnt id [(id', f)] = if String.eqb id' id then 1%nat else 0%nat.
Proof. unfold cnt. simpl. by destruct (String.eqb id' id). Qed.

Lemma take_None id l : take id l = None -> cnt id l = 0%nat.
Proof.
  unfold cnt. induction l as [|[id' f] l IH]; simpl; [done|].
  destruct (String.eqb id' id); [done|].
  destruct (take id l) as [[g rest]|]; [done|]. auto.
Qed.

Lemma take_Some id l f rest :
  take id l = Some (f, rest) ->
  cnt id l = S (cnt id rest) /\ forall id', id' <> id -> cnt id' rest = cnt id' l.
Proof.
  unfold cnt. revert f rest. induction l as [|[k g] l IH]; intros f rest; simpl; [done|].
  destruct (String.eqb_spec k id) as [->|Hk].
  - intros [= <- <-]. split; [done|]. intros id' Hne.
    by destruct (String.eqb_spec id id'); [congruence|].
  - destruct (take id l) as [[g' rest']|]; [|done]. intros [= <- <-].
    destruct (IH g' rest' eq_refl) as [H1 H2]. split.
    + simpl. by destruct (String.eqb_spec k id).
    + intros id' Hne. simpl. destruct (String.eqb k id'); simpl; by rewrite H2.
Qed.

Lemma one_at_a_time_ext s s' :
  encoding s' = encoding s -> (forall id, busy id s' = busy id s) ->
  one_at_a_time s -> one_at_a_time s'.
Proof. intros He Hb Hinv id. rewrite He, Hb. apply Hinv. Qed.

Lemma busy_put_processor id fp s id' :
  busy id' (put_processor id fp s) = if String.eqb id id' then processing fp else busy id' s.
Proof.
  unfold busy, put_processor. simpl.
  destruct (String.eqb_spec id id') as [->|Hne].
  - by rewrite lookup_insert_eq.
  - by rewrite lookup_insert_ne.
Qed.

Lemma processFrame_one_at_a_time id f o s :
  one_at_a_time s -> one_at_a_time (snd (processFrame id f o s)).
Proof.
  intros Hinv.
  destruct (frameProcessors (engine s) !! id) as [fp|] eqn:Hfp.
  2:{ by rewrite processFrame_missing. }
  destruct (processing fp) eqn:Hp.
  - rewrite (processFrame_busy id f o s fp) by done. cbn [snd].
    apply (one_at_a_time_ext s); [done| |done].
    intros id'. rewrite busy_put_processor.
    destruct (String.eqb_spec id id') as [<-|]; [|done].
    unfold busy. by rewrite Hfp.
  - destruct (processFrame_idle id f o s fp Hfp Hp) as (H1 & _ & H3 & _).
    intros id'. rewrite H3, cnt_app, cnt_single. unfold busy. rewrite H1.
    specialize (Hinv id'). unfold busy in Hinv.
    destruct (String.eqb_spec id id') as [<-|Hne].
    + rewrite lookup_insert_eq. simpl. rewrite Hfp, Hp in Hinv. lia.
    + rewrite lookup_insert_ne by done. lia.
Qed.

Lemma handleScreencastFrame_one_at_a_time pg f o s :
  one_at_a_time s -> one_at_a_time (handleScreencastFrame pg f o s).
Proof.
  intros Hinv. unfold handleScreencastFrame.
  destruct (findSession pg (streams (engine s))) as [id|]; [|done].
  destruct (String.eqb id ""); [done|].
  destruct (JsMap.get id (streams (engine s))) as [st|]; [|done].
  destruct (negb (active st)); [done|].
  set (s1 := with_engine _ s).
  assert (one_at_a_time s1) as Hs1 by (by apply (one_at_a_time_ext s)).
  destruct (frameProcessors (engine s1) !! id) as [fp|] eqn:Hfp; [|done].
  destruct (too_early (gate_now o) fp).
  - apply (one_at_a_time_ext s1); [done| |done].
    intros id'. rewrite busy_put_processor.
    destruct (String.eqb_spec id id') as [<-|]; [|done].
    unfold busy. by rewrite Hfp.
  - apply processFrame_one_at_a_time.
    apply (one_at_a_time_ext s1); [done| |done].
    intros id'. rewrite busy_put_processor.
    destruct (String.eqb_spec id id') as [<-|]; [|done].
    unfold busy. by rewrite Hfp.
Qed.

Lemma encodeDone_one_at_a_time id o s :
  one_at_a_time s -> one_at_a_time (encodeDone id o s).
Proof.
  intros Hinv. unfold encodeDone.
  destruct (take id (encoding s)) as [[f rest]|] eqn:Ht; [|done].
  apply take_Some in Ht as [Hc Hother].
  set (s3 := with_engine _ _).
  assert (forall id', busy id' s3 = busy id' s) as Hb3.
  { intros id'. unfold busy, s3. cbn [engine with_engine].
    by rewrite updatePerformanceMetrics_processors. }
  assert (encoding s3 = rest) as He3 by done.
  assert (cnt id rest = 0%nat) as Hzero.
  { specialize (Hinv id). destruct (busy id s); lia. }
  assert (forall s4, encoding s4 = rest ->
            (forall id', id' <> id -> busy id' s4 = busy id' s) -> one_at_a_time s4) as Hgen.
  { intros s4 He4 Hb4 id'. rewrite He4.
    destruct (decide (id' = id)) as [->|Hne]; [rewrite Hzero; lia|].
    rewrite Hother, Hb4 by done. apply Hinv. }
  destruct (frameProcessors (engine s3) !! id) as [fp|] eqn:Hfp.
  - assert (one_at_a_time (put_processor id (finished fp) s3)) as H4.
    { apply Hgen; [done|]. intros id' Hne. rewrite busy_put_processor.
      destruct (String.eqb_spec id id'); [congruence|apply Hb3]. }
    destruct (frameQueue fp); [done|].
    by apply (one_at_a_time_ext (put_processor id (finished fp) s3)).
  - apply Hgen; [done|]. intros id' _. apply Hb3.
Qed.

Lemma runImmediate_one_at_a_time o s :
  one_at_a_time s -> one_at_a_time (runImmediate o s).
Proof.
  intros Hinv. unfold runImmediate.
  destruct (immediates s) as [|[id f] rest]; [done|].
  apply processFrame_one_at_a_time. by apply (one_at_a_time_ext s).
Qed.

Lemma frameRun_one_at_a_time l s :
  one_at_a_time s -> one_at_a_time (frameRun l s).
Proof.
  revert s. induction l as [|st l IH]; intros s Hinv; simpl; [done|].
  apply IH. destruct st; simpl.
  - by apply handleScreencastFrame_one_at_a_time.
  - by apply encodeDone_one_at_a_time.
  - by apply runImmediate_one_at_a_time.
Qed.

Lemma quiescent_one_at_a_time s : quiescent s -> one_at_a_time s.
Proof. intros [He Hb] id. rewrite He, Hb. unfold cnt. simpl. lia. Qed.

(** The end of an encode: the oldest queued frame, if any, is handed to
    [setImmediate] and leaves the queue; the flag is cleared. *)
Lemma encodeDone_dispatches id o s f rest fp :
  take id (encoding s) = Some (f, rest) ->
  frameProcessors (engine s) !! id = Some fp ->
  let s' := encodeDone id o s in
  frameProcessors (engine s') !! id = Some (finished fp) /\
  encoding s' = rest /\
  immediates s' = immediates s ++ match frameQueue fp with
                                  | [] => []
                                  | g :: _ => [(id, g)]
                                  end.
Proof.
  intros Ht Hfp. unfold encodeDone. rewrite Ht. cbn zeta.
  set (s3 := with_engine _ _).
  assert (frameProcessors (engine s3) !! id = Some fp) as ->.
  { unfold s3. cbn [engine with_engine]. by rewrite updatePerformanceMetrics_processors. }
  destruct (frameQueue fp); simpl; rewrite lookup_insert_eq; split_and!; try done.
  by rewrite app_nil_r.
Qed.

End EngineFacts.

(** ** Streaming engine: one encode per stream, whatever reaches the engine *)

Section EngineConcurrency.

Import StreamingEngine.

Context {E : Type} `{EncoderBackend E}.

Variable cfgB : Config.BROWSER.
Variable launchPages : nat.
Variable cfgS : Config.SESSION.

Implicit Types (s : System E) (id pg : string).

(** The part of the state the concurrency bound is about. *)
Local Abbreviation frames_of s := (frameProcessors (engine s), encoding s, detached s).

Lemma one_at_a_time_frames s s' :
  frames_of s' = frames_of s -> one_at_a_time s -> one_at_a_time s'.
Proof.
  intros [= Hp He Hd] Hinv. apply (one_at_a_time_ext s); [done| |done].
  intros id. unfold busy. by rewrite Hp.
Qed.

Lemma detached_frames s s' :
  frames_of s' = frames_of s -> detached_one_at_a_time s -> detached_one_at_a_time s'.
Proof. intros [= Hp He Hd]. unfold detached_one_at_a_time. by rewrite Hd. Qed.

Lemma cnt_awaited_of id l : cnt id l = length (awaited_of id l).
Proof. unfold cnt, awaited_of. by rewrite length_map. Qed.

Lemma cnt_filter_out id l id' :
  cnt id' (List.filter (fun e => negb (String.eqb (fst e) id)) l)
  = if String.eqb id id' then 0%nat else cnt id' l.
Proof.
  induction l as [|[k f] l IH].
  - unfold cnt. cbn. by destruct (String.eqb id id').
  - cbn [List.filter fst]. destruct (String.eqb_spec k id) as [->|Hk]; cbn [negb].
    + rewrite IH. destruct (String.eqb_spec id id') as [->|Hne]; [done|].
      unfold cnt. cbn [List.filter fst]. by destruct (String.eqb_spec id id').
    + unfold cnt in *. cbn [List.filter fst].
      destruct (String.eqb_spec k id') as [->|Hk']; cbn [length]; rewrite IH;
        destruct (String.eqb_spec id id') as [->|Hne]; done.
Qed.

(** Detaching keeps both bounds, and leaves nothing awaited on [id] when a
    processor is registered under it. *)
Lemma detach_bounds id s :
  one_at_a_time s -> detached_one_at_a_time s ->
  (forall id', (cnt id' (encoding (detach id s))
                <= if String.eqb id id' then 0 else if busy id' s then 1 else 0)%nat) /\
  detached_one_at_a_time (detach id s).
Proof.
  intros Hinv Hdet. unfold detach.
  destruct (frameProcessors (engine s) !! id) as [fp|] eqn:Hfp.
  - destruct (awaited_of id (encoding s)) as [|f fs] eqn:Haw.
    + split; [|done]. intros id'. specialize (Hinv id').
      destruct (String.eqb_spec id id') as [<-|Hne]; [|done].
      rewrite cnt_awaited_of, Haw. done.
    + split.
      * intros id'. cbn [encoding with_encoding with_detached]. rewrite cnt_filter_out.
        destruct (String.eqb id id'); [done|apply Hinv].
      * unfold detached_one_at_a_time. cbn [detached with_detached with_encoding].
        apply Forall_app. split; [exact Hdet|]. apply Forall_singleton.
        cbn [det_awaited det_processor]. rewrite <- Haw, <- cnt_awaited_of.
        specialize (Hinv id). unfold busy in Hinv. by rewrite Hfp in Hinv.
  - split; [|done]. intros id'. specialize (Hinv id').
    destruct (String.eqb_spec id id') as [<-|Hne]; [|done].
    unfold busy in Hinv. by rewrite Hfp in Hinv.
Qed.

Lemma applyAdaptiveQuality_detached id o s :
  detached (snd (applyAdaptiveQuality id o s)) = detached s.
Proof.
  unfold applyAdaptiveQuality.
  destruct (adaptiveQualityControllers (engine s) !! id) as [c|]; [|done].
  destruct (negb (enabled c)); [done|].
  destruct (_ <? _)%Z; [done|].
  destruct (WebRTCService.getConnectionStats _ _ _ _) as [[ws|] w]; [|done].
  simpl. destruct (enc_getEncoderStats id (encoder s)) as [es|]; [|done].
  destruct (adjust _ _ _) as [tgt changed].
  destruct changed; [|done].
  by destruct enc_updateEncoderOptions.
Qed.

Lemma applyAdaptiveQuality_frames id o s :
  frames_of (snd (applyAdaptiveQuality id o s)) = frames_of s.
Proof.
  destruct (applyAdaptiveQuality_frame id o s) as (H1 & _ & H3 & _). cbn zeta in *.
  by rewrite H1, H3, applyAdaptiveQuality_detached.
Qed.

Lemma processFrame_detached id f o s : detached (snd (processFrame id f o s)) = detached s.
Proof.
  unfold processFrame. destruct (frameProcessors (engine s) !! id) as [fp|]; [|done].
  destruct (processing fp); [done|]. cbn [snd].
  set (s1 := put_processor id (set_processing true fp) s).
  destruct (adaptiveQualityControllers (engine s1) !! id) as [c|]; [|done].
  destruct (enabled c); [|done]. cbn [detached with_encoding].
  by rewrite applyAdaptiveQuality_detached.
Qed.

Lemma frameStep_detached st s : detached (frameStep st s) = detached s.
Proof.
  destruct st as [pg f o|id o|o]; cbn [frameStep].
  - unfold handleScreencastFrame.
    destruct (findSession pg (streams (engine s))) as [id|]; [|done].
    destruct (String.eqb id ""); [done|].
    destruct (JsMap.get id (streams (engine s))) as [st|]; [|done].
    destruct (negb (active st)); [done|].
    set (s1 := with_engine _ s).
    destruct (frameProcessors (engine s1) !! id) as [fp|]; [|done].
    destruct (too_early (gate_now o) fp); [done|].
    by rewrite processFrame_detached.
  - unfold encodeDone. destruct (take id (encoding s)) as [[f rest]|]; [|done].
    set (s3 := with_engine _ _).
    destruct (frameProcessors (engine s3) !! id) as [fp|]; [|done].
    by destruct (frameQueue fp).
  - unfold runImmediate. destruct (immediates s) as [|[id f] rest]; [done|].
    by rewrite processFrame_detached.
Qed.

Lemma detachedDone_bounds n o s :
  one_at_a_time s -> detached_one_at_a_time s ->
  one_at_a_time (detachedDone n o s) /\ detached_one_at_a_time (detachedDone n o s).
Proof.
  intros Hinv Hdet. unfold detachedDone.
  destruct (detached s !! n) as [d|] eqn:Hd; [|done].
  destruct (det_awaited d) as [|f rest] eqn:Haw; [done|].
  set (s2 := with_engine _ _).
  assert (one_at_a_time s2) as H2.
  { apply (one_at_a_time_ext s); [done| |done]. intros id. unfold busy, s2.
    cbn [engine with_engine with_encoder]. by rewrite updatePerformanceMetrics_processors. }
  assert (detached_one_at_a_time
            (with_detached
               (<[n := mkDetached (det_id d) (finished (det_processor d)) rest]> (detached s2))
               s2)) as H3.
  { unfold detached_one_at_a_time. cbn [detached with_detached with_engine with_encoder].
    apply Forall_insert; [exact Hdet|]. cbn [det_awaited det_processor processing finished].
    unfold detached_one_at_a_time in Hdet.
    pose proof (proj1 (Forall_lookup _ _) Hdet n d Hd) as Hb. cbn beta in Hb.
    rewrite Haw in Hb. cbn [length] in Hb. destruct (processing (det_processor d)); lia. }
  destruct (frameQueue (det_processor d)); split; try done.
Qed.

Lemma finishCreateStream_bounds id pg rtc r o s :
  one_at_a_time s -> detached_one_at_a_time s ->
  one_at_a_time (snd (finishCreateStream id pg rtc r o s)) /\
  detached_one_at_a_time (snd (finishCreateStream id pg rtc r o s)).
Proof.
  intros Hinv Hdet. unfold finishCreateStream.
  destruct (BrowserPool.startScreencast _ _ _ _) as [[x|err] p]; [|done]. cbn [snd].
  set (s2 := with_pool p _).
  destruct (detach_bounds id s2) as [Hc Hd]; [done|done|]. split.
  - intros id'. cbn [encoding with_engine]. specialize (Hc id').
    unfold busy. cbn [engine with_engine frameProcessors emit initializePerformanceMetrics
                      with_metrics].
    assert (forall e0, frameProcessors
                         (if adaptive e0
                          then createAdaptiveQualityController id (stream_options r) (co_now o) e0
                          else e0) = frameProcessors e0) as ->
      by (intros e0; by destruct (adaptive e0)).
    cbn [frameProcessors createFrameProcessor with_processors].
    destruct (String.eqb_spec id id') as [Heq|Hne].
    + subst id'. rewrite lookup_insert_eq. cbn [processing]. lia.
    + rewrite lookup_insert_ne by done. exact Hc.
  - exact Hd.
Qed.

Lemma openChannel_bounds id pg r session o s :
  one_at_a_time s -> detached_one_at_a_time s ->
  one_at_a_time (snd (openChannel cfgS id pg r session o s)) /\
  detached_one_at_a_time (snd (openChannel cfgS id pg r session o s)).
Proof.
  intros Hinv Hdet. unfold openChannel.
  destruct (Js.or_string (req_webrtcId r) _) as [|a rtc].
  - destruct (WebRTCService.createConnection _ _ _ _) as [[c|err] w]; [|done].
    destruct (SessionManager.updateSession _ _ _ _ _) as [[x|err] m]; [|done].
    by apply finishCreateStream_bounds.
  - by apply finishCreateStream_bounds.
Qed.

Lemma bindPage_bounds id pg r session o s :
  one_at_a_time s -> detached_one_at_a_time s ->
  one_at_a_time (snd (bindPage cfgS id pg r session o s)) /\
  detached_one_at_a_time (snd (bindPage cfgS id pg r session o s)).
Proof.
  intros Hinv Hdet. unfold bindPage.
  destruct (BrowserPool.getPage _ _ _) as [[i|] p]; [|done].
  by apply openChannel_bounds.
Qed.

Lemma createStream_bounds id r o s :
  one_at_a_time s -> detached_one_at_a_time s ->
  one_at_a_time (snd (createStream cfgB launchPages cfgS id r o s)) /\
  detached_one_at_a_time (snd (createStream cfgB launchPages cfgS id r o s)).
Proof.
  intros Hinv Hdet. unfold createStream.
  destruct (JsMap.get id (streams (engine s))) as [st|]; [done|].
  destruct (SessionManager.getSession _ _ _ _) as [[session|] m]; [|done].
  destruct (Js.or_string (req_pageId r) _) as [|a pg].
  - destruct (BrowserPool.createPage _ _ _ _ _) as [[[pg info]|err] p]; [|done].
    destruct (SessionManager.updateSession _ _ _ _ _) as [[session'|err] m']; [|done].
    by apply bindPage_bounds.
  - by apply bindPage_bounds.
Qed.

Lemma releaseStream_bounds id reason st o s :
  one_at_a_time s -> detached_one_at_a_time s ->
  one_at_a_time (streamGone id reason (releaseStream id st o s)) /\
  detached_one_at_a_time (streamGone id reason (releaseStream id st o s)).
Proof.
  intros Hinv Hdet. unfold streamGone, releaseStream.
  set (s3 := with_webrtc _ _).
  assert (one_at_a_time s3 /\ detached_one_at_a_time s3) as [H3 D3].
  { unfold s3. by destruct enc_destroyEncoder. }
  assert (forall id', busy id' s3 = busy id' s) as Hb3.
  { intros id'. unfold s3. by destruct enc_destroyEncoder. }
  destruct (detach_bounds id s3 H3 D3) as [Hc Hd]. split; [|exact Hd].
  intros id'. cbn [encoding with_engine]. specialize (Hc id').
  unfold busy. cbn [engine with_engine frameProcessors emit forget]. rewrite detach_engine.
  destruct (String.eqb_spec id id') as [Heq|Hne].
  - subst id'. rewrite lookup_delete_eq. lia.
  - rewrite lookup_delete_ne by done. exact Hc.
Qed.

Lemma closeStream_bounds id reason o s :
  one_at_a_time s -> detached_one_at_a_time s ->
  one_at_a_time (snd (closeStream id reason o s)) /\
  detached_one_at_a_time (snd (closeStream id reason o s)).
Proof.
  intros Hinv Hdet. unfold closeStream.
  destruct (JsMap.get id (streams (engine s))) as [st|]; [|done]. cbn [snd].
  set (s1 := with_engine _ s).
  assert (one_at_a_time s1 /\ detached_one_at_a_time s1) as [H1 D1] by done.
  destruct (releaseStream_bounds id reason st o s1 H1 D1) as [H5 D5].
  destruct (bool_decide _); [|done].
  by apply releaseStream_bounds.
Qed.

Lemma closeStreams_bounds ids o : forall s,
  one_at_a_time s -> detached_one_at_a_time s ->
  one_at_a_time (closeStreams ids o s) /\ detached_one_at_a_time (closeStreams ids o s).
Proof.
  induction ids as [|id rest IH]; intros s Hinv Hdet; [done|]. cbn [closeStreams].
  destruct (closeStream_bounds id "shutdown" (o id) s Hinv Hdet) as [H1 H2]. by apply IH.
Qed.

Lemma handleEncodedFrame_frames id len key ok now s :
  frames_of (handleEncodedFrame cfgS id len key ok now s) = frames_of s.
Proof.
  unfold handleEncodedFrame.
  destruct (JsMap.get id (streams (engine s))) as [st|]; [|done].
  destruct (negb (active st)); [done|].
  by destruct (SessionManager.updateSessionStats _ _ _ _ _ _) as [[x|err] m].
Qed.

Lemma step_bounds c s :
  one_at_a_time s -> detached_one_at_a_time s ->
  one_at_a_time (step cfgB launchPages cfgS c s) /\
  detached_one_at_a_time (step cfgB launchPages cfgS c s).
Proof.
  intros Hinv Hdet.
  destruct c as [id r o|st|n o|id o|id len key ok now|id reason o|pg o|id o|id o|o
                |id pg rtc r o|id reason st o];
    cbn [step].
  - by apply createStream_bounds.
  - split.
    + by apply (frameRun_one_at_a_time [st]).
    + unfold detached_one_at_a_time. by rewrite frameStep_detached.
  - by apply detachedDone_bounds.
  - pose proof (applyAdaptiveQuality_frames id o s) as Hf.
    split; [by apply (one_at_a_time_frames s)|by apply (detached_frames s)].
  - pose proof (handleEncodedFrame_frames id len key ok now s) as Hf.
    split; [by apply (one_at_a_time_frames s)|by apply (detached_frames s)].
  - by apply closeStream_bounds.
  - unfold handlePageClosed. destruct (findSession _ _) as [id|]; [|done].
    destruct (String.eqb id ""); [done|]. by apply closeStream_bounds.
  - by apply closeStream_bounds.
  - unfold handleWebRTCConnectionClosed. destruct (JsMap.get _ _); [|done].
    by apply closeStream_bounds.
  - by apply closeStreams_bounds.
  - by apply finishCreateStream_bounds.
  - by apply releaseStream_bounds.
Qed.

(** Both bounds are kept by everything that reaches the engine. *)
Lemma run_bounds cs : forall s,
  one_at_a_time s -> detached_one_at_a_time s ->
  one_at_a_time (run cfgB launchPages cfgS cs s) /\
  detached_one_at_a_time (run cfgB launchPages cfgS cs s).
Proof.
  unfold run. induction cs as [|c cs IH]; intros s Hinv Hdet; [done|]. cbn [fold_left].
  destruct (step_bounds c s Hinv Hdet) as [H1 H2]. by apply IH.
Qed.

Lemma start_bounds variant p m w (c : E) :
  one_at_a_time (start variant p m w c) /\ detached_one_at_a_time (start variant p m w c).
Proof.
  split.
  - intros id. unfold cnt, busy. cbn. rewrite lookup_empty. lia.
  - apply Forall_nil_2.
Qed.

End EngineConcurrency.

(** ** C2: pending frames and encode concurrency *)

Section C2.

Import StreamingEngine EngineScenario.




End C2.

(** ** C3: the cadence test *)

Section CadenceFacts.

Import Cadence.

Lemma gate_spaced i last ts : spaced i last (gate i last ts).
Proof.
  revert last. induction ts as [|t ts IH]; intros last; simpl; [done|].
  destruct (Qle_bool i (inject_Z (t - last))) eqn:Hle; simpl; [|apply IH].
  split; [by apply Qle_bool_iff|apply IH].
Qed.

Lemma qn_S n : (qn (S n) == qn n + 1)%Q.
Proof.
  unfold qn. rewrite Nat2Z.inj_succ, <- Z.add_1_r, inject_Z_plus. reflexivity.
Qed.

Lemma qn_nonneg n : (0 <= qn n)%Q.
Proof. unfold qn. change 0%Q with (inject_Z 0). rewrite <- Zle_Qle. lia. Qed.

Lemma inject_Z_sub a b : (inject_Z (a - b) == inject_Z a - inject_Z b)%Q.
Proof. unfold Z.sub. rewrite inject_Z_plus, inject_Z_opp. reflexivity. Qed.

Import StreamingEngine.

Lemma inWindow_cons T U t l :
  inWindow T U (t :: l)
  = if ((T <=? t)%Z && (t <? U)%Z) then S (inWindow T U l) else inWindow T U l.
Proof. unfold inWindow. simpl. by destruct ((T <=? t)%Z && (t <? U)%Z). Qed.

(** In a spaced list that starts no earlier than the window does, [n]
    instants inside the window push its end beyond [prev + n * interval]. *)
Lemma spaced_window_from i prev l T U :
  (0 < i)%Q -> spaced i prev l ->
  (inject_Z T <= inject_Z prev + i)%Q ->
  (1 <= inWindow T U l)%nat ->
  (inject_Z prev + qn (inWindow T U l) * i < inject_Z U)%Q.
Proof.
  intros Hi. revert prev. induction l as [|t l IH]; intros prev Hsp HT Hn.
  { unfold inWindow in Hn. simpl in Hn. lia. }
  destruct Hsp as [Hgap Hsp]. rewrite inject_Z_sub in Hgap.
  assert (T <= t)%Z as HTt by (rewrite Zle_Qle; lra).
  assert (inject_Z T <= inject_Z t + i)%Q as HT' by lra.
  rewrite inWindow_cons in *.
  destruct (Z.leb_spec T t); [|lia]. simpl in *.
  destruct (Z.ltb_spec t U) as [HtU|HtU].
  - rewrite Zlt_Qlt in HtU.
    destruct (inWindow T U l) as [|n'] eqn:En.
    + rewrite qn_S. change (qn 0) with 0%Q. lra.
    + specialize (IH t Hsp HT' ltac:(lia)). rewrite !qn_S. rewrite qn_S in IH.
      pose proof (qn_nonneg n'). lra.
  - rewrite Zle_Qle in HtU.
    specialize (IH t Hsp HT' Hn).
    pose proof (qn_nonneg (inWindow T U l)).
    assert (1 <= qn (inWindow T U l))%Q.
    { destruct (inWindow T U l) as [|n']; [lia|]. rewrite qn_S. pose proof (qn_nonneg n'). lra. }
    nra.
Qed.

(** In a spaced list, [n] instants inside a window need the window to be
    longer than [(n - 1) * interval]. *)
Lemma spaced_window i prev l T U :
  (0 < i)%Q -> spaced i prev l ->
  (1 <= inWindow T U l)%nat ->
  (inject_Z T + (qn (inWindow T U l) - 1) * i < inject_Z U)%Q.
Proof.
  intros Hi. revert prev. induction l as [|t l IH]; intros prev Hsp Hn.
  { unfold inWindow in Hn. simpl in Hn. lia. }
  destruct Hsp as [Hgap Hsp].
  rewrite inWindow_cons in *.
  destruct ((T <=? t)%Z && (t <? U)%Z) eqn:Hin; [|by apply (IH t)].
  apply andb_true_iff in Hin as [H1 H2].
  apply Z.leb_le in H1. apply Z.ltb_lt in H2. rewrite Zle_Qle in H1. rewrite Zlt_Qlt in H2.
  rewrite qn_S.
  destruct (inWindow T U l) as [|n'] eqn:En.
  - change (qn 0) with 0%Q. lra.
  - assert (inject_Z T <= inject_Z t + i)%Q as HT' by lra.
    pose proof (spaced_window_from i t l T U Hi Hsp HT' ltac:(lia)) as Hw.
    rewrite En in Hw. rewrite !qn_S in *. pose proof (qn_nonneg n'). lra.
Qed.

(** With an interval of [1000 / F] milliseconds, fewer than [F + 1]
    accepted instants fall in any window of one second. *)
Lemma gate_window i F last ts T :
  (0 < F)%Q -> (i == 1000 / F)%Q ->
  (qn (inWindow T (T + 1000) (gate i last ts)) < F + 1)%Q.
Proof.
  intros HF Hi.
  assert (i * F == 1000)%Q as HiF.
  { rewrite Hi. field. lra. }
  assert (0 < i)%Q as Hpos.
  { destruct (Qlt_le_dec 0 i) as [|Hneg]; [done|]. exfalso. nra. }
  destruct (inWindow T (T + 1000) (gate i last ts)) as [|n] eqn:En.
  { change (qn 0) with 0%Q. lra. }
  pose proof (spaced_window i last _ T (T + 1000) Hpos (gate_spaced i last ts)) as Hw.
  rewrite En in Hw. specialize (Hw ltac:(lia)).
  rewrite inject_Z_plus in Hw. change (inject_Z 1000) with 1000%Q in Hw.
  rewrite qn_S in *. pose proof (qn_nonneg n).
  assert ((qn n) * i < 1000)%Q as H1 by lra.
  assert ((qn n) * i * F < 1000 * F)%Q as H2 by (apply Qmult_lt_compat_r; lra).
  assert ((qn n) * i * F == qn n * 1000)%Q as H3 by (rewrite <- Qmult_assoc, HiF; reflexivity).
  rewrite H3 in H2. lra.
Qed.

End CadenceFacts.

Section C3.

Import StreamingEngine Cadence.

Context {E : Type} `{EncoderBackend E}.

Implicit Types (s : System E) (id pg : string).

Lemma findSession_update pg id (g : Stream -> Stream) m :
  (forall st, pageId (g st) = pageId st) ->
  findSession pg (JsMap.update id g m) = findSession pg m.
Proof.
  intros Hg. induction m as [|[k st] m IH]; simpl; [done|].
  destruct (String.eqb k id); simpl; rewrite ?Hg, ?IH; done.
Qed.

(** Effect of one raw frame that reaches the cadence test. *)
Lemma handleScreencastFrame_gated pg id f o s st fp :
  findSession pg (streams (engine s)) = Some id -> id <> "" ->
  JsMap.get id (streams (engine s)) = Some st -> active st = true ->
  frameProcessors (engine s) !! id = Some fp ->
  let s' := handleScreencastFrame pg f o s in
  findSession pg (streams (engine s')) = Some id /\
  (exists st', JsMap.get id (streams (engine s')) = Some st' /\ active st' = true /\
     frameCount st' = S (frameCount st) /\ lastFrameAt st' = seen_at o /\
     droppedFrameCount st' =
       if too_early (gate_now o) fp then S (droppedFrameCount st) else droppedFrameCount st) /\
  (exists fp', frameProcessors (engine s') !! id = Some fp' /\
     frameInterval fp' = frameInterval fp /\
     lastFrameTimestamp fp' =
       (if too_early (gate_now o) fp then lastFrameTimestamp fp else gate_now o) /\
     dropped fp' = (if too_early (gate_now o) fp then S (dropped fp) else dropped fp)) /\
  (too_early (gate_now o) fp = true ->
   frameProcessors (engine s') = <[id := processor_dropped fp]> (frameProcessors (engine s)) /\
   adaptiveQualityControllers (engine s') = adaptiveQualityControllers (engine s) /\
   performanceMetrics (engine s') = performanceMetrics (engine s) /\
   emitted (engine s') = emitted (engine s) /\
   pool s' = pool s /\ sessionManager s' = sessionManager s /\ webrtc s' = webrtc s /\
   encoder s' = encoder s /\ encoding s' = encoding s /\ immediates s' = immediates s).
Proof.
  intros Hfind Hne Hst Hact Hfp. unfold handleScreencastFrame.
  rewrite Hfind. destruct (String.eqb_spec id ""); [done|].
  rewrite Hst, Hact. cbn [negb].
  set (s1 := with_engine _ s).
  assert (frameProcessors (engine s1) !! id = Some fp) as -> by done.
  assert (findSession pg (streams (engine s1)) = Some id) as Hf1.
  { unfold s1. cbn [engine with_engine streams with_streams].
    by rewrite findSession_update. }
  assert (JsMap.get id (streams (engine s1)) = Some (received (seen_at o) st)) as Hst1.
  { unfold s1. cbn [engine with_engine streams with_streams].
    by rewrite jsmap_get_update_eq, Hst. }
  destruct (too_early (gate_now o) fp) eqn:Hearly.
  - cbn [engine put_processor with_engine streams with_streams frameProcessors with_processors].
    split_and!.
    + by rewrite findSession_update.
    + eexists. rewrite jsmap_get_update_eq, Hst1. by split_and!.
    + eexists. rewrite lookup_insert_eq. by split_and!.
    + intros _. by split_and!.
  - set (s2 := put_processor id (accepted_at (gate_now o) fp) s1).
    assert (frameProcessors (engine s2) !! id = Some (accepted_at (gate_now o) fp)) as Hfp2.
    { unfold s2. simpl. by rewrite lookup_insert_eq. }
    assert (streams (engine (snd (processFrame id f (frame_tick o) s2))) = streams (engine s1)
            /\ exists fp', frameProcessors (engine (snd (processFrame id f (frame_tick o) s2))) !! id
                           = Some fp' /\
                 frameInterval fp' = frameInterval fp /\
                 lastFrameTimestamp fp' = gate_now o /\ dropped fp' = dropped fp)
      as (Hs & fp' & Hfp' & Hi & Hl & Hd).
    { destruct (processing fp) eqn:Hp.
      - rewrite (processFrame_busy id f _ s2 _ Hfp2) by done. split; [done|].
        eexists. simpl. rewrite lookup_insert_eq. by split_and!.
      - destruct (processFrame_idle id f (frame_tick o) s2 _ Hfp2 Hp) as (H1 & H2 & _ & _).
        split; [by rewrite H2|]. eexists. rewrite H1, lookup_insert_eq. by split_and!. }
    split_and!.
    + by rewrite Hs.
    + eexists. rewrite Hs, Hst1. by split_and!.
    + by exists fp'.
    + done.
Qed.

(** The instants accepted by the engine are those the cadence test lets
    through. *)
Lemma acceptedTimes_gate pg id burst : forall s st fp,
  findSession pg (streams (engine s)) = Some id -> id <> "" ->
  JsMap.get id (streams (engine s)) = Some st -> active st = true ->
  frameProcessors (engine s) !! id = Some fp ->
  acceptedTimes pg id burst s
  = gate (frameInterval fp) (lastFrameTimestamp fp) (map (fun e => gate_now (snd e)) burst).
Proof.
  induction burst as [|[f o] burst IH]; intros s st fp Hfind Hne Hst Hact Hfp; [done|].
  cbn [acceptedTimes map gate snd]. rewrite Hfp.
  destruct (handleScreencastFrame_gated pg id f o s st fp Hfind Hne Hst Hact Hfp)
    as (Hf' & (st' & Hst' & Hact' & _) & (fp' & Hfp' & Hi & Hl & _) & _).
  rewrite (IH _ st' fp' Hf' Hne Hst' Hact' Hfp'), Hi, Hl.
  unfold too_early. by destruct (Qle_bool _ _).
Qed.

End C3.

Section C3_claim.

Import StreamingEngine EngineScenario Cadence.




End C3_claim.

(** ** C5: the adaptive quality controller *)

Section AdjustFacts.

Import StreamingEngine.

Lemma gt_spec a b : gt a b = true <-> (b < a)%Q.
Proof.
  unfold gt. rewrite negb_true_iff, <- not_true_iff_false, Qle_bool_iff.
  split; [apply Qnot_le_lt|apply Qlt_not_le].
Qed.

Lemma gt_false a b : gt a b = false <-> (a <= b)%Q.
Proof. unfold gt. by rewrite negb_false_iff, Qle_bool_iff. Qed.

Lemma Math_max_cases a b :
  (a <= b /\ Js.Math_max a b = b)%Q \/ (b < a /\ Js.Math_max a b = a)%Q.
Proof.
  unfold Js.Math_max. destruct (Qle_bool a b) eqn:Hle.
  - left. split; [by apply Qle_bool_iff|done].
  - right. split; [|done]. apply Qnot_le_lt. rewrite <- Qle_bool_iff. congruence.
Qed.

Lemma Math_min_cases a b :
  (a <= b /\ Js.Math_min a b = a)%Q \/ (b < a /\ Js.Math_min a b = b)%Q.
Proof.
  unfold Js.Math_min. destruct (Qle_bool a b) eqn:Hle.
  - left. split; [by apply Qle_bool_iff|done].
  - right. split; [|done]. apply Qnot_le_lt. rewrite <- Qle_bool_iff. congruence.
Qed.

(** Bitrate decided by a tick that observes a poor classification, from a
    controller whose target equals its current quality: it is not above the
    current bitrate, strictly below when the current bitrate is above the
    floor, and not below the floor in that case. *)
Lemma adjust_poor_bitrate net enc c :
  is_poor net || is_poor enc = true ->
  targetQuality c = currentQuality c ->
  let b := q_bitrate (currentQuality c) in
  let b' := q_bitrate (fst (adjust net enc c)) in
  (b' <= b)%Q /\
  (floor < b -> b' < b /\ floor <= b')%Q /\
  (b <= floor -> b' = b)%Q.
Proof.
  intros Hpoor Ht. cbn zeta. unfold adjust. rewrite Hpoor, Ht.
  assert (floor == 500)%Q as Hfloor by reflexivity.
  destruct (gt (q_bitrate (currentQuality c)) (Config.minBitrate STREAMING)) eqn:Hb.
  - apply gt_spec in Hb. fold floor in Hb.
    assert (let m := Js.Math_max (q_bitrate (currentQuality c) * 0.8) (Config.minBitrate STREAMING) in
            m < q_bitrate (currentQuality c) /\ floor <= m)%Q as [Hm1 Hm2].
    { cbn zeta. destruct (Math_max_cases (q_bitrate (currentQuality c) * 0.8)
                           (Config.minBitrate STREAMING)) as [[H1 ->]|[H1 ->]];
        fold floor in *; split; lra. }
    destruct (gt (q_frameRate (currentQuality c)) _); cbn [fst q_bitrate];
      (split_and!; [lra|intros _; split; lra|intros; exfalso; lra]).
  - apply gt_false in Hb. fold floor in Hb.
    destruct (gt (q_frameRate (currentQuality c)) _); cbn [fst q_bitrate];
      (split_and!; [lra|intros; exfalso; lra|done]).
Qed.

(** Bitrate decided by a tick that observes only good classifications: it
    is not below a non-negative current bitrate, and not above the ceiling
    unless the current bitrate already is. *)
Lemma adjust_good_bitrate c :
  targetQuality c = currentQuality c ->
  let b := q_bitrate (currentQuality c) in
  let b' := q_bitrate (fst (adjust good good c)) in
  (0 <= b -> b <= b')%Q /\
  (b < bitrate (ceiling c) -> b' <= bitrate (ceiling c))%Q /\
  (bitrate (ceiling c) <= b -> b' = b)%Q.
Proof.
  intros Ht. cbn zeta. unfold adjust. cbn [is_poor is_fair is_good orb andb]. rewrite Ht.
  destruct (gt (bitrate (ceiling c)) (q_bitrate (currentQuality c))) eqn:Hb.
  - apply gt_spec in Hb.
    assert (let m := Js.Math_min (q_bitrate (currentQuality c) * 1.1) (bitrate (ceiling c)) in
            (0 <= q_bitrate (currentQuality c) -> q_bitrate (currentQuality c) <= m) /\
            m <= bitrate (ceiling c))%Q as [Hm1 Hm2].
    { cbn zeta. destruct (Math_min_cases (q_bitrate (currentQuality c) * 1.1)
                           (bitrate (ceiling c))) as [[H1 ->]|[H1 ->]]; split; intros; lra. }
    destruct (gt (frameRate (ceiling c)) _); cbn [fst q_bitrate];
      (split_and!; [done|done|intros; exfalso; lra]).
  - apply gt_false in Hb.
    destruct (gt (frameRate (ceiling c)) _); cbn [fst q_bitrate];
      (split_and!; [intros; lra|intros; exfalso; lra|done]).
Qed.

End AdjustFacts.

Section TickFacts.

Import StreamingEngine.

Context {E : Type} `{EncoderBackend E}.

(** On an encoder object without [updateEncoderOptions] no tick ever
    changes the quality in effect, and the encoder is never told. *)
Lemma tick_without_update_method id o (s : System E) :
  enc_updateEncoderOptions = None ->
  let s' := snd (applyAdaptiveQuality id o s) in
  (currentQuality <$> adaptiveQualityControllers (engine s') !! id)
  = (currentQuality <$> adaptiveQualityControllers (engine s) !! id) /\
  encoder s' = encoder s /\
  emitted (engine s') = emitted (engine s).
Proof.
  intros Hnone. cbn zeta. unfold applyAdaptiveQuality.
  destruct (adaptiveQualityControllers (engine s) !! id) as [c|] eqn:Hc;
    [|cbn [snd]; by rewrite ?Hc].
  destruct (negb (enabled c)); [cbn [snd]; by rewrite ?Hc|].
  destruct (_ <? _)%Z; [cbn [snd]; by rewrite ?Hc|].
  destruct (WebRTCService.getConnectionStats _ _ _ _) as [[ws|] w];
    [|simpl; by rewrite lookup_insert_eq].
  cbn [encoder with_webrtc put_controller with_engine].
  destruct (enc_getEncoderStats id (encoder s)) as [es|];
    [|simpl; by rewrite lookup_insert_eq].
  destruct (adjust _ _ _) as [tgt changed]. rewrite Hnone.
  destruct changed; simpl; by rewrite lookup_insert_eq.
Qed.

(** On an encoder object with [updateEncoderOptions], a tick that gets as
    far as the classification makes the decided target the quality in
    effect; any other tick leaves it alone. *)
Lemma tick_with_update_method id o (s : System E) c update :
  enc_updateEncoderOptions = Some update ->
  adaptiveQualityControllers (engine s) !! id = Some c ->
  targetQuality c = currentQuality c ->
  let s' := snd (applyAdaptiveQuality id o s) in
  exists c', adaptiveQualityControllers (engine s') !! id = Some c' /\
    targetQuality c' = currentQuality c' /\ ceiling c' = ceiling c /\
    (currentQuality c' = currentQuality c \/
     exists c1, currentQuality c1 = currentQuality c /\ targetQuality c1 = targetQuality c /\
                ceiling c1 = ceiling c /\
                currentQuality c' = fst (adjust (net_of c1) (enc_of c1) c1)).
Proof.
  intros Hsome Hc Ht. cbn zeta. unfold applyAdaptiveQuality. rewrite Hc.
  destruct (negb (enabled c)); [exists c; cbn [snd]; by split_and!; [| | |left]|].
  destruct (_ <? _)%Z; [exists c; cbn [snd]; by split_and!; [| | |left]|].
  destruct (WebRTCService.getConnectionStats _ _ _ _) as [[ws|] w].
  2:{ simpl. rewrite lookup_insert_eq. eexists. split; [done|]. by split_and!; [| |left]. }
  cbn [encoder with_webrtc put_controller with_engine].
  destruct (enc_getEncoderStats id (encoder s)) as [es|].
  2:{ simpl. rewrite lookup_insert_eq. eexists. split; [done|]. by split_and!; [| |left]. }
  set (c1 := sample (tick_now o) ws es c).
  destruct (adjust (net_of c1) (enc_of c1) c1) as [tgt changed] eqn:Hadj.
  rewrite Hsome. destruct changed; simpl; rewrite lookup_insert_eq.
  - eexists. split; [done|]. split_and!; [done|done|].
    right. exists c1. rewrite Hadj. by split_and!.
  - assert (tgt = targetQuality c1) as ->.
    { revert Hadj. unfold adjust.
      repeat match goal with
             | |- context [if ?b then _ else _] => destruct b
             end; cbn [fst snd]; intros Heq; by simplify_eq. }
    eexists. split; [done|]. by split_and!; [| |left].
Qed.

End TickFacts.

Section C5_claim.

Import StreamingEngine EngineScenario.

(** The controller on the basic encoder, which has the method: ten ticks on
    a poor network shrink the bitrate tick by tick from 3000 and clamp it at
    the floor of 500. *)
Example basic_encoder_poor_ticks :
  bitrate_trace ten_instants streaming_basic
  = [Some 2400; Some 1920; Some 1536; Some (6144 # 5); Some (24576 # 25);
     Some (98304 # 125); Some (393216 # 625); Some (1572864 # 3125);
     Some 500; Some 500]%Q.
Proof. by vm_compute. Qed.

(** C5, at the failing input.  The stream of session ["s1"] starts at 3000
    kbps on the adaptive engine wired to the CUDA encoder, and five
    consecutive ticks observe a poor network.  Every tick decides a lower
    target and then calls [updateEncoderOptions], which the CUDA encoder
    does not define: the call throws before the target is recorded.  After
    the five ticks the bitrate in effect is still 3000, the encoder still
    runs at 3000 and no quality change was emitted. *)
Theorem C5_cuda_bitrate_never_shrinks :
  bitrate_trace [6000; 11000; 16000; 21000; 26000]%Z streaming
  = [Some 3000; Some 3000; Some 3000; Some 3000; Some 3000]%Q /\
  (net_of <$> adaptiveQualityControllers (engine (five_poor_ticks streaming)) !! "s1")
  = Some poor /\
  enc_bitrate "s1" (encoder (five_poor_ticks streaming)) = Some 3000%Q /\
  emitted (engine (five_poor_ticks streaming)) = [streamCreated "s1"].
Proof. by vm_compute. Qed.

End C5_claim.

(** ** C8: closing twice *)

Section C8.

Lemma closePage_absent pageId now o p :
  JsMap.get pageId (BrowserPool.pages p) = None ->
  BrowserPool.closePage pageId now o p = (false, p).
Proof. intros Hp. unfold BrowserPool.closePage. by rewrite getPage_absent. Qed.

Lemma closePage_removes pageId now o p :
  JsMap.get pageId (BrowserPool.pages (snd (BrowserPool.closePage pageId now o p))) = None.
Proof.
  unfold BrowserPool.closePage, BrowserPool.getPage.
  destruct (JsMap.get pageId (BrowserPool.pages p)) as [i|] eqn:Hp; simpl; [|done].
  destruct (BrowserPool.close_ok o); simpl; apply jsmap_get_delete_eq.
Qed.

Lemma closeSession_removes id reason o m pool :
  JsMap.get id (SessionManager.sessions (SessionManager.closeSession id reason o m pool).1.2)
  = None.
Proof. rewrite closeSession_sessions. apply jsmap_get_delete_eq. Qed.

Context {E : Type} `{EncoderBackend E}.

Lemma closeStream_absent id reason o (s : StreamingEngine.System E) :
  JsMap.get id (StreamingEngine.streams (StreamingEngine.engine s)) = None ->
  StreamingEngine.closeStream id reason o s = (false, s).
Proof. intros Hs. unfold StreamingEngine.closeStream. by rewrite Hs. Qed.

Lemma closeStream_removes id reason o (s : StreamingEngine.System E) :
  JsMap.get id (StreamingEngine.streams
                  (StreamingEngine.engine (snd (StreamingEngine.closeStream id reason o s))))
  = None.
Proof.
  destruct (JsMap.get id (StreamingEngine.streams (StreamingEngine.engine s))) as [st|] eqn:Hs.
  - destruct (closeStream_found id reason o s st Hs) as (_ & _ & _ & ->).
    destruct (bool_decide _); cbn; apply jsmap_get_delete_eq.
  - by rewrite closeStream_absent.
Qed.

(** C8.  Whatever the first call to close a session, a stream or a page
    did, the entity is no longer registered afterwards; a second call finds
    it missing, returns [false] without raising an error, and leaves the
    whole state as it is: no event is emitted and neither the pool, nor
    the encoder, nor the transport is asked to release anything again. *)
Theorem C8_second_close_is_a_no_op
    (id reason reason' : string) (now now' : Z)
    (so so' : SessionManager.CloseOracle) (m : SessionManager.t) (pool : BrowserPool.t)
    (to to' : StreamingEngine.StopOracle) (s : StreamingEngine.System E)
    (po po' : BrowserPool.CloseOracle) :
  (let '(_, m1, pool1) := SessionManager.closeSession id reason so m pool in
   JsMap.get id (SessionManager.sessions m1) = None /\
   SessionManager.closeSession id reason' so' m1 pool1 = (false, m1, pool1)) /\
  (let s1 := snd (StreamingEngine.closeStream id reason to s) in
   JsMap.get id (StreamingEngine.streams (StreamingEngine.engine s1)) = None /\
   StreamingEngine.closeStream id reason' to' s1 = (false, s1)) /\
  (let p1 := snd (BrowserPool.closePage id now po pool) in
   JsMap.get id (BrowserPool.pages p1) = None /\
   BrowserPool.closePage id now' po' p1 = (false, p1)).
Proof.
  split_and!.
  - pose proof (closeSession_removes id reason so m pool) as Hr.
    destruct (SessionManager.closeSession id reason so m pool) as [[r m1] pool1].
    cbn [fst snd] in Hr. split; [done|]. by apply closeSession_absent.
  - cbn zeta. pose proof (closeStream_removes id reason to s) as Hr.
    split; [done|]. by apply closeStream_absent.
  - cbn zeta. pose proof (closePage_removes id now po pool) as Hr.
    split; [done|]. by apply closePage_absent.
Qed.

End C8.

(** ** C10: creating under a registered id *)

Section C10.

Import BrowserPool.

Variable cfg : Config.BROWSER.
Variable launchPages : nat.

(** The placement loop finds a browser as soon as one is under the
    per-browser cap. *)
Lemma findBest_finds entries best minPages :
  is_Some best \/
  (minPages = Js.infinity /\
   exists id b, In (id, b) entries /\ (openPages b < Config.maxPagesPerBrowser cfg)%nat) ->
  is_Some (findBest cfg entries best minPages).
Proof.
  revert best minPages. induction entries as [|[id b] rest IH]; intros best minPages Hc.
  { simpl. destruct Hc as [|[_ (? & ? & [] & _)]]; done. }
  cbn [findBest].
  destruct (Js.lt _ minPages && Js.lt _ _) eqn:Hpick.
  - apply IH. left. by eexists.
  - apply IH. destruct Hc as [Hb|[-> (id' & b' & [Heq|Hin] & Hlt)]]; [by left| |].
    + injection Heq as -> ->. exfalso. simpl in Hpick.
      apply Z.ltb_ge in Hpick. lia.
    + right. split; [done|]. by exists id', b'.
Qed.

Lemma createPage_registered options o p info :
  (exists id b, In (id, b) (browsers p) /\
                (openPages b < Config.maxPagesPerBrowser cfg)%nat) ->
  JsMap.get (Js.or_string (opt_pageId options) (page_uuid o)) (pages p) = Some info ->
  createPage cfg launchPages options o p
  = (Js.Return (Js.or_string (opt_pageId options) (page_uuid o), info), p).
Proof.
  intros Hroom Hreg. unfold createPage, getOrCreateBrowser.
  assert ((JsMap.size (browsers p) =? 0)%nat = false) as ->.
  { destruct Hroom as (id & b & Hin & _). apply Nat.eqb_neq.
    unfold JsMap.size. by destruct (browsers p). }
  destruct (findBest_finds (browsers p) None Js.infinity) as [[bid b] ->].
  { right. by split. }
  by rewrite Hreg.
Qed.

End C10.

Section C10_claim.

Import PoolScenario.

(** C10, counterexample.  Page ["p1"] is registered in a pool whose only
    browser ["b1"] is full; the instance cap (5) is far from reached.
    [createPage({pageId: "p1"})] returns the stored page and raises no
    error, but it first launches a second browser, ["b5"], which it then
    leaves unused: stored state was modified. *)
Lemma C10_createPage_launches_a_browser :
  let r := BrowserPool.createPage cfg launchPages (with_pageId "p1") (po "b5" "p9" 9) full_pool in
  JsMap.keys (BrowserPool.browsers full_pool) = ["b1"] /\
  (JsMap.size (BrowserPool.browsers full_pool) < Config.maxBrowsers cfg)%nat /\
  (fst <$> (match fst r with Js.Return x => Some x | Js.Throw _ => None end)) = Some "p1" /\
  (match fst r with Js.Return x => Some (snd x) | Js.Throw _ => None end)
  = JsMap.get "p1" (BrowserPool.pages full_pool) /\
  JsMap.keys (BrowserPool.browsers (snd r)) = ["b1"; "b5"] /\
  (BrowserPool.openPages <$> JsMap.get "b5" (BrowserPool.browsers (snd r))) = Some 1%nat.
Proof. vm_compute. split_and!; (done || lia). Qed.

(** C10, amended.  Invoked with an id that is already registered,
    [createSession] and [createBrowser] (provided their cap is not reached)
    and [createEncoder] return the stored object, raise no error and
    leave every stored state as it is; so does [createPage] provided some
    browser of the pool has spare page capacity. *)
Theorem C10_create_is_idempotent_in_the_id
    (cfgS : Config.SESSION) (cfgB : Config.BROWSER) (launchPages : nat) :
  (forall options uuid now m session,
      (JsMap.size (SessionManager.sessions m) < Config.maxConcurrentSessions cfgS)%nat ->
      JsMap.get (Js.or_string (SessionManager.opt_sessionId options) uuid)
        (SessionManager.sessions m) = Some session ->
      SessionManager.createSession cfgS options uuid now m
      = (Js.Return (Js.or_string (SessionManager.opt_sessionId options) uuid, session), m)) /\
  (forall options o p b,
      (JsMap.size (BrowserPool.browsers p) < Config.maxBrowsers cfgB)%nat ->
      JsMap.get (Js.or_string (BrowserPool.opt_browserId options) (BrowserPool.browser_uuid o))
        (BrowserPool.browsers p) = Some b ->
      BrowserPool.createBrowser cfgB launchPages options o p
      = (Js.Return (Js.or_string (BrowserPool.opt_browserId options)
                      (BrowserPool.browser_uuid o), b), p)) /\
  (forall options o p info,
      (exists id b, In (id, b) (BrowserPool.browsers p) /\
                    (BrowserPool.openPages b < Config.maxPagesPerBrowser cfgB)%nat) ->
      JsMap.get (Js.or_string (BrowserPool.opt_pageId options) (BrowserPool.page_uuid o))
        (BrowserPool.pages p) = Some info ->
      BrowserPool.createPage cfgB launchPages options o p
      = (Js.Return (Js.or_string (BrowserPool.opt_pageId options)
                      (BrowserPool.page_uuid o), info), p)) /\
  (forall id options c e,
      CUDAEncoder.encoders c !! id = Some e ->
      CUDAEncoder.createEncoder id options c = (e, c)).
Proof.
  split_and!.
  - intros options uuid now m session Hcap Hreg. unfold SessionManager.createSession.
    destruct (Nat.leb_spec (Config.maxConcurrentSessions cfgS)
                (JsMap.size (SessionManager.sessions m))); [lia|].
    by rewrite Hreg.
  - intros options o p b Hcap Hreg. unfold BrowserPool.createBrowser.
    destruct (Nat.leb_spec (Config.maxBrowsers cfgB) (JsMap.size (BrowserPool.browsers p)));
      [lia|].
    by rewrite Hreg.
  - intros options o p info Hroom Hreg. by apply createPage_registered.
  - intros id options c e Hreg. unfold CUDAEncoder.createEncoder. by rewrite Hreg.
Qed.

Lemma C10_createPage_witness :
  (exists id b, In (id, b) (BrowserPool.browsers roomy_pool) /\
                (BrowserPool.openPages b < Config.maxPagesPerBrowser cfg)%nat) /\
  (exists info,
      JsMap.get "p1" (BrowserPool.pages roomy_pool) = Some info /\
      BrowserPool.createPage cfg launchPages (with_pageId "p1") (po "b5" "p9" 9) roomy_pool
      = (Js.Return ("p1", info), roomy_pool)).
Proof.
  assert (exists id b, In (id, b) (BrowserPool.browsers roomy_pool) /\
                       (BrowserPool.openPages b < Config.maxPagesPerBrowser cfg)%nat) as Hroom.
  { eexists "b1", _. split; [vm_compute; left; reflexivity|]. vm_compute. lia. }
  split; [exact Hroom|].
  destruct (JsMap.get "p1" (BrowserPool.pages roomy_pool)) as [info|] eqn:Hreg;
    [|by vm_compute in Hreg].
  exists info. split; [done|].
  exact (proj1 (proj2 (proj2 (C10_create_is_idempotent_in_the_id
                                SessionScenario.cfg cfg launchPages)))
           (with_pageId "p1") (po "b5" "p9" 9) roomy_pool info Hroom Hreg).
Defined.

End C10_claim.

(* ===================================================================== *)
(** * Further properties of the services *)
(* ===================================================================== *)

(** ** Browser pool: what closing does to the page registry *)

Section PoolClosing.

Import BrowserPool.

Lemma stopScreencast_pages pageId now ok p :
  JsMap.delete pageId (pages (snd (stopScreencast pageId now ok p)))
  = JsMap.delete pageId (pages p).
Proof.
  unfold stopScreencast, getPage.
  destruct (JsMap.get pageId (pages p)) as [i|]; [|done].
  cbn [snd fst]. destruct (negb (screencastRunning (touch now i))); cbn [snd pages with_pages].
  { by rewrite jsmap_delete_update. }
  destruct (client (touch now i) && negb ok); cbn [snd pages with_pages emit];
    by rewrite !jsmap_delete_update.
Qed.

Lemma stopScreencast_get_other pageId now ok p k :
  k <> pageId ->
  JsMap.get k (pages (snd (stopScreencast pageId now ok p))) = JsMap.get k (pages p).
Proof.
  intros Hk.
  rewrite <- (jsmap_get_delete_ne pageId k (pages (snd (stopScreencast pageId now ok p))))
    by congruence.
  rewrite stopScreencast_pages. apply jsmap_get_delete_ne. congruence.
Qed.

(** Whatever happens while a page is closed, the registry afterwards is the
    registry before without that page. *)
Lemma closePage_pages pageId now o p :
  pages (snd (closePage pageId now o p)) = JsMap.delete pageId (pages p).
Proof.
  unfold closePage.
  destruct (JsMap.get pageId (pages p)) as [i|] eqn:Hp.
  2:{ rewrite getPage_absent by done. cbn [snd]. by rewrite jsmap_delete_absent. }
  unfold getPage. rewrite Hp.
  set (p1 := with_pages _ p).
  assert (JsMap.delete pageId (pages p1) = JsMap.delete pageId (pages p)) as H1
    by (unfold p1; cbn [pages with_pages]; apply jsmap_delete_update).
  set (p2 := if screencastRunning (touch now i) then _ else p1).
  assert (JsMap.delete pageId (pages p2) = JsMap.delete pageId (pages p)) as H2.
  { unfold p2. destruct (screencastRunning (touch now i)); [|done].
    by rewrite stopScreencast_pages. }
  destruct (close_ok o); cbn [snd pages with_pages emit with_browsers onPageClose];
    rewrite ?jsmap_delete_idem; done.
Qed.

(** Events are only ever appended. *)
Lemma stopScreencast_emitted pageId now ok p :
  exists l, emitted (snd (stopScreencast pageId now ok p)) = emitted p ++ l /\
            forall e, In e l -> e = screencastStopped pageId.
Proof.
  unfold stopScreencast, getPage.
  destruct (JsMap.get pageId (pages p)) as [i|]; [|exists []; by rewrite app_nil_r].
  cbn [snd fst]. destruct (negb (screencastRunning (touch now i))); cbn [snd emitted with_pages].
  { exists []. by rewrite app_nil_r. }
  destruct (client (touch now i) && negb ok); cbn [snd emitted with_pages emit].
  - exists []. by rewrite app_nil_r.
  - exists [screencastStopped pageId]. split; [done|]. by intros e [<-|[]].
Qed.

Lemma closePage_emitted pageId now o p :
  exists l, emitted (snd (closePage pageId now o p)) = emitted p ++ l /\
            (forall e, In e l -> e = screencastStopped pageId \/ e = pageClosed pageId) /\
            (is_Some (JsMap.get pageId (pages p)) -> In (pageClosed pageId) l) /\
            (JsMap.get pageId (pages p) = None -> l = []).
Proof.
  unfold closePage.
  destruct (JsMap.get pageId (pages p)) as [i|] eqn:Hp.
  2:{ rewrite getPage_absent by done. exists []. cbn [snd]. rewrite app_nil_r.
      split_and!; [done|by intros e []|by intros [? [=]]|done]. }
  unfold getPage. rewrite Hp.
  set (p1 := with_pages _ p).
  set (p2 := if screencastRunning (touch now i) then _ else p1).
  assert (exists l, emitted p2 = emitted p ++ l /\
                    forall e, In e l -> e = screencastStopped pageId) as (l & Hl & Hin).
  { unfold p2. destruct (screencastRunning (touch now i)).
    - destruct (stopScreencast_emitted pageId now (stop_ok o) p1) as (l & Hl & Hin).
      exists l. by split.
    - exists []. split; [by rewrite app_nil_r|by intros e []]. }
  exists (l ++ (if close_ok o then [pageClosed pageId] else []) ++ [pageClosed pageId]).
  split_and!.
  - destruct (close_ok o); cbn [snd emitted with_pages emit with_browsers onPageClose app];
      by rewrite Hl, <- ?app_assoc.
  - intros e [He|He]%in_app_iff; [left; by apply Hin|right].
    destruct (close_ok o); cbn [app] in He; destruct He as [<-|He]; try done.
    by destruct He as [<-|[]].
  - intros _. apply in_app_iff. right. apply in_app_iff. right. by left.
  - done.
Qed.

Lemma closePage_browsers_get pageId now o p k :
  is_Some (JsMap.get k (browsers (snd (closePage pageId now o p))))
  <-> is_Some (JsMap.get k (browsers p)).
Proof.
  unfold closePage.
  pose proof (getPage_browsers pageId now p) as Hb.
  destruct (getPage pageId now p) as [[i|] p1]; cbn [snd] in *; [|by rewrite Hb].
  assert (browsers (if screencastRunning i
                    then snd (stopScreencast pageId now (stop_ok o) p1) else p1)
          = browsers p) as Hb2.
  { destruct (screencastRunning i); [by rewrite stopScreencast_browsers|done]. }
  destruct (close_ok o); cbn [snd browsers with_pages emit with_browsers onPageClose];
    rewrite Hb2; [|done].
  rewrite jsmap_get_update. destruct (String.eqb (browserId i) k); [|done].
  destruct (JsMap.get k (browsers p)); simpl; split; intros [? ?]; by eauto.
Qed.

(** The loop of [closeBrowser]: pages of other browsers stay, and every
    page visited is gone afterwards. *)
Lemma closePagesOf_pages bid entries now o p :
  forall pg i, In (pg, i) (pages (closePagesOf bid entries now o p)) ->
    In (pg, i) (pages p) /\
    ~ (exists j, In (pg, j) entries /\ browserId j = bid).
Proof.
  revert p. induction entries as [|[k v] rest IH]; intros p pg i Hin.
  { split; [done|]. by intros (j & [] & _). }
  cbn [closePagesOf] in Hin.
  destruct (String.eqb_spec (browserId v) bid) as [Hb|Hb].
  - apply IH in Hin as [Hin Hrest]. rewrite closePage_pages in Hin.
    assert (In (pg, i) (pages p) /\ pg <> k) as [Hp Hne].
    { clear -Hin. induction (pages p) as [|[k' v'] m IHm]; [done|].
      simpl in Hin. destruct (String.eqb_spec k' k) as [->|Hk].
      - apply IHm in Hin as [? ?]. split; [by right|done].
      - destruct Hin as [[= <- <-]|Hin]; [split; [by left|done]|].
        apply IHm in Hin as [? ?]. split; [by right|done]. }
    split; [done|]. intros (j & [[= <- <-]|Hj] & Hbj); [done|].
    apply Hrest. by exists j.
  - apply IH in Hin as [Hin Hrest]. split; [done|].
    intros (j & [[= <- <-]|Hj] & Hbj); [done|]. apply Hrest. by exists j.
Qed.

Lemma closePagesOf_emitted bid entries now o p :
  exists l, emitted (closePagesOf bid entries now o p) = emitted p ++ l /\
    (forall e, In e l ->
       exists pg j, In (pg, j) entries /\ browserId j = bid /\
                    (e = screencastStopped pg \/ e = pageClosed pg)) /\
    (forall pg j, In (pg, j) entries -> browserId j = bid ->
       is_Some (JsMap.get pg (pages p)) -> In (pageClosed pg) l).
Proof.
  revert p. induction entries as [|[k v] rest IH]; intros p.
  { exists []. rewrite app_nil_r. split_and!; [done|by intros e []|by intros pg j []]. }
  cbn [closePagesOf].
  destruct (String.eqb_spec (browserId v) bid) as [Hb|Hb].
  - destruct (closePage_emitted k now (o k) p) as (l1 & Hl1 & Hk1 & Hp1 & _).
    destruct (IH (snd (closePage k now (o k) p))) as (l2 & Hl2 & Hk2 & Hp2).
    exists (l1 ++ l2). split_and!.
    + by rewrite Hl2, Hl1, app_assoc.
    + intros e [He|He]%in_app_iff.
      * exists k, v. split_and!; [by left|done|by apply Hk1].
      * destruct (Hk2 e He) as (pg & j & Hin & Hbj & Hev).
        exists pg, j. split_and!; [by right|done|done].
    + intros pg j Hin Hbj Hsome. apply in_app_iff.
      destruct (decide (pg = k)) as [->|Hne]; [left; by apply Hp1|].
      destruct Hin as [[= <- <-]|Hin]; [done|]. right.
      apply (Hp2 pg j Hin Hbj). rewrite closePage_pages.
      rewrite jsmap_get_delete_ne; [done|congruence].
  - destruct (IH p) as (l & Hl & Hk & Hp). exists l. split_and!; [done| |].
    + intros e He. destruct (Hk e He) as (pg & j & Hin & Hbj & Hev).
      exists pg, j. split_and!; [by right|done|done].
    + intros pg j [[= <- <-]|Hin] Hbj; [done|]. by apply (Hp pg j).
Qed.

End PoolClosing.

(** ** Browser pool: caps, placement, closing, restart, shutdown *)

Section PoolTheorems.

Import BrowserPool.

Variable cfg : Config.BROWSER.
Variable launchPages : nat.

Lemma jsmap_In_is_Some {V} (k : string) (v : V) m : In (k, v) m -> is_Some (JsMap.get k m).
Proof.
  induction m as [|[k' v'] m IH]; [done|]. simpl.
  destruct (String.eqb_spec k' k); [by eauto|].
  intros [[= -> ->]|Hin]; [done|by apply IH].
Qed.

Lemma jsmap_In_delete {V} (k k' : string) (v : V) m :
  In (k', v) (JsMap.delete k m) <-> In (k', v) m /\ k' <> k.
Proof.
  induction m as [|[k0 v0] m IH]; simpl; [tauto|].
  destruct (String.eqb_spec k0 k) as [->|Hk]; simpl; rewrite IH; split.
  - intros [? ?]. split; [by right|done].
  - intros [[[= -> ->]|?] ?]; [done|by split].
  - intros [[= -> ->]|[? ?]]; [split; [by left|done]|split; [by right|done]].
  - intros [[[= -> ->]|?] ?]; [by left|right; by split].
Qed.

Lemma closePagesOf_keeps bid entries now o p pg i :
  In (pg, i) (pages p) ->
  ~ (exists j, In (pg, j) entries /\ browserId j = bid) ->
  In (pg, i) (pages (closePagesOf bid entries now o p)).
Proof.
  revert p. induction entries as [|[k v] rest IH]; intros p Hin Hno; [done|].
  cbn [closePagesOf].
  destruct (String.eqb_spec (browserId v) bid) as [Hb|Hb].
  - apply IH.
    + rewrite closePage_pages. apply jsmap_In_delete. split; [done|].
      intros ->. apply Hno. exists v. split; [by left|done].
    + intros (j & Hj & Hbj). apply Hno. exists j. split; [by right|done].
  - apply IH; [done|]. intros (j & Hj & Hbj). apply Hno. exists j. split; [by right|done].
Qed.

Lemma closePagesOf_browsers_get bid entries now o p k :
  is_Some (JsMap.get k (browsers (closePagesOf bid entries now o p)))
  <-> is_Some (JsMap.get k (browsers p)).
Proof.
  revert p. induction entries as [|[pg v] rest IH]; intros p; [done|].
  cbn [closePagesOf]. destruct (String.eqb (browserId v) bid); [|apply IH].
  rewrite IH. apply closePage_browsers_get.
Qed.

(** The events of one [closeBrowser] call. *)
Lemma closeBrowser_emitted bid now o ok p :
  is_Some (JsMap.get bid (browsers p)) ->
  exists l, emitted (snd (closeBrowser bid now o ok p)) = emitted p ++ l ++ [browserClosed bid] /\
    (forall e, In e l ->
       e = browserDisconnected bid \/
       exists pg j, In (pg, j) (pages p) /\ browserId j = bid /\
                    (e = screencastStopped pg \/ e = pageClosed pg)) /\
    (forall pg j, In (pg, j) (pages p) -> browserId j = bid -> In (pageClosed pg) l).
Proof.
  intros [b Hb]. destruct (closeBrowser_found bid now o ok p b Hb) as (_ & _ & _ & ->).
  destruct (closePagesOf_emitted bid (pages p) now o p) as (l & Hl & Hk & Hp).
  exists (l ++ if ok then [browserDisconnected bid] else []). split_and!.
  - by rewrite Hl, <- !app_assoc.
  - intros e [He|He]%in_app_iff; [right; by apply Hk|left].
    destruct ok; [by destruct He as [<-|[]]|done].
  - intros pg j Hin Hbj. apply in_app_iff. left.
    apply (Hp pg j Hin Hbj). by eapply jsmap_In_is_Some.
Qed.

Lemma closeBrowser_pages bid now o ok p b :
  JsMap.get bid (browsers p) = Some b ->
  pages (snd (closeBrowser bid now o ok p)) = pages (closePagesOf bid (pages p) now o p).
Proof. intros Hb. by destruct (closeBrowser_found bid now o ok p b Hb) as (_ & _ & -> & _). Qed.

Lemma closeBrowser_browsers_other bid now o ok p k :
  k <> bid ->
  is_Some (JsMap.get k (browsers (snd (closeBrowser bid now o ok p))))
  <-> is_Some (JsMap.get k (browsers p)).
Proof.
  intros Hk. destruct (JsMap.get bid (browsers p)) as [b|] eqn:Hb.
  2:{ unfold closeBrowser. by rewrite Hb. }
  destruct (closeBrowser_found bid now o ok p b Hb) as (_ & -> & _).
  rewrite jsmap_get_delete_ne by congruence. apply closePagesOf_browsers_get.
Qed.

(** [createBrowser] is its two parts run one right after the other. *)
Lemma createBrowser_phases options o p :
  createBrowser cfg launchPages options o p
  = match createBrowser_tests cfg options o p with
    | inl r => (r, p)
    | inr id => createBrowser_settled launchPages id o p
    end.
Proof.
  unfold createBrowser, createBrowser_tests, createBrowser_settled.
  destruct (_ <=? _)%nat; [done|].
  by destruct (JsMap.get _ (browsers p)).
Qed.

(** Two calls of [createBrowser] that overlap: both run their tests on the
    same pool before either launch settles; both browsers are stored. *)
Lemma overlapping_createBrowser options1 o1 options2 o2 p id1 id2 :
  createBrowser_tests cfg options1 o1 p = inr id1 ->
  createBrowser_tests cfg options2 o2 p = inr id2 ->
  id1 <> id2 -> launch_ok o1 = true -> launch_ok o2 = true ->
  let p1 := snd (createBrowser_settled launchPages id1 o1 p) in
  let p2 := snd (createBrowser_settled launchPages id2 o2 p1) in
  JsMap.size (browsers p2) = S (S (JsMap.size (browsers p))).
Proof.
  intros H1 H2 Hne Hok1 Hok2. cbn zeta. unfold createBrowser_settled. rewrite Hok1, Hok2.
  cbn [snd browsers emit with_browsers].
  assert (JsMap.get id1 (browsers p) = None /\ JsMap.get id2 (browsers p) = None) as [Hn1 Hn2].
  { revert H1 H2. unfold createBrowser_tests. destruct (_ <=? _)%nat; [done|].
    destruct (JsMap.get (Js.or_string (opt_browserId options1) _) (browsers p)) eqn:E1; [done|].
    destruct (JsMap.get (Js.or_string (opt_browserId options2) _) (browsers p)) eqn:E2; [done|].
    by intros [= <-] [= <-]. }
  rewrite !jsmap_size_set_absent; [done|done|].
  by rewrite jsmap_get_set_ne.
Qed.

(** X1.  The instance cap is an invariant of the pool as long as its calls
    do not overlap: after any sequence of calls of its public methods (page
    and browser creation, closing, restart, health-loop ticks) and of its
    two listeners (browser disconnected, page closed), each run to
    completion before the next one starts, started on the pool the
    constructor builds, the number of registered browsers is at most
    [maxBrowsers].  The restriction is needed: [createBrowser] tests the cap
    before it awaits the launch and stores the browser after it, so two
    calls that both run their tests on a pool one below the cap, before
    either launch settles, leave [maxBrowsers + 1] browsers registered. *)
Theorem X1_instance_cap_is_invariant (cs : list Call) :
  (JsMap.size (browsers (run cfg launchPages cs init)) <= Config.maxBrowsers cfg)%nat /\
  forall options1 o1 options2 o2 p id1 id2,
    S (JsMap.size (browsers p)) = Config.maxBrowsers cfg ->
    createBrowser_tests cfg options1 o1 p = inr id1 ->
    createBrowser_tests cfg options2 o2 p = inr id2 ->
    id1 <> id2 -> launch_ok o1 = true -> launch_ok o2 = true ->
    let p1 := snd (createBrowser_settled launchPages id1 o1 p) in
    let p2 := snd (createBrowser_settled launchPages id2 o2 p1) in
    JsMap.size (browsers p2) = S (Config.maxBrowsers cfg).
Proof.
  split.
  - unfold run. rewrite <- fold_left_rev_right.
    induction (rev cs) as [|c l IH]; simpl; [lia|].
    by apply step_size.
  - intros options1 o1 options2 o2 p id1 id2 Hsize H1 H2 Hne Hok1 Hok2. cbn zeta.
    rewrite <- Hsize. by apply (overlapping_createBrowser options1 o1 options2 o2).
Qed.

(** X2.  Least-loaded placement respects the per-browser cap: when every
    registered browser holds at most [maxPagesPerBrowser] pages, a freshly
    launched browser holds fewer than that, and the acquisition does not
    name a browser that is already registered, then after [createPage]
    (whether it succeeds or throws) every registered browser still holds
    at most [maxPagesPerBrowser] pages. *)
Theorem X2_placement_respects_page_cap options o p :
  NoDup (JsMap.keys (browsers p)) ->
  (launchPages < Config.maxPagesPerBrowser cfg)%nat ->
  JsMap.get (Js.or_string (opt_browserId (browserOptions options)) (browser_uuid (launch o)))
    (browsers p) = None ->
  (forall id b, JsMap.get id (browsers p) = Some b ->
                (openPages b <= Config.maxPagesPerBrowser cfg)%nat) ->
  forall id b, JsMap.get id (browsers (snd (createPage cfg launchPages options o p))) = Some b ->
               (openPages b <= Config.maxPagesPerBrowser cfg)%nat.
Proof. apply createPage_within_page_cap. Qed.

(** X3.  When the number of browsers has reached [maxBrowsers] and every
    one of them holds [maxPagesPerBrowser] pages or more, [createPage]
    throws a [ResourceLimitError] and leaves the pool exactly as it was:
    no page, no browser and no event is added. *)
Theorem X3_createPage_rejected_at_capacity options o p :
  (Config.maxBrowsers cfg <= JsMap.size (browsers p))%nat ->
  all_full cfg p ->
  Js.is_resource_limit (fst (createPage cfg launchPages options o p)) = true /\
  snd (createPage cfg launchPages options o p) = p.
Proof. intros Hs Hfull. by rewrite createPage_rejects. Qed.

(** X4.  [closeBrowser] on a registered browser removes the browser and
    every page registered for it, whatever fails on the way: it returns
    whether [browser.close()] went through, no page of that browser is
    left in the registry, no page is added, pages whose id is not used by
    that browser stay, a ['pageClosed'] event is emitted for each page of
    the browser, and ['browserClosed'] is the last event emitted. *)
Theorem X4_closeBrowser_closes_its_pages bid now o ok p b :
  JsMap.get bid (browsers p) = Some b ->
  let r := closeBrowser bid now o ok p in
  fst r = ok /\
  JsMap.get bid (browsers (snd r)) = None /\
  (forall pg i, In (pg, i) (pages (snd r)) -> In (pg, i) (pages p) /\ browserId i <> bid) /\
  (forall pg i, In (pg, i) (pages p) ->
     (forall j, In (pg, j) (pages p) -> browserId j <> bid) -> In (pg, i) (pages (snd r))) /\
  exists evs, emitted (snd r) = emitted p ++ evs ++ [browserClosed bid] /\
              forall pg i, In (pg, i) (pages p) -> browserId i = bid ->
                           In (pageClosed pg) evs.
Proof.
  intros Hb. cbn zeta. split_and!.
  - unfold closeBrowser. by rewrite Hb.
  - apply closeBrowser_removes.
  - intros pg i. rewrite (closeBrowser_pages _ _ _ _ _ _ Hb). intros Hin.
    apply closePagesOf_pages in Hin as [Hin Hno]. split; [done|].
    intros Hbi. apply Hno. by exists i.
  - intros pg i Hin Hno. rewrite (closeBrowser_pages _ _ _ _ _ _ Hb).
    apply closePagesOf_keeps; [done|]. intros (j & Hj & Hbj). by apply (Hno j).
  - destruct (closeBrowser_emitted bid now o ok p) as (l & Hl & _ & Hp); [by eexists|].
    by exists l.
Qed.

(** X5.  [restartBrowser] on a registered browser of a pool within its
    instance cap: the old browser and all its pages are removed first;
    when the launch succeeds a fresh browser (no page created yet, created
    at the launch instant) is registered under the same id and returned;
    when the launch fails the error is thrown and the id is left
    unregistered. *)
Theorem X5_restartBrowser_replaces_the_browser bid now o ok lo p b :
  bid <> "" ->
  JsMap.get bid (browsers p) = Some b ->
  (JsMap.size (browsers p) <= Config.maxBrowsers cfg)%nat ->
  let r := restartBrowser cfg launchPages bid now o ok lo p in
  let fresh := {| process := true; createdAt := launch_now lo;
                  pagesCreated := 0; openPages := launchPages |} in
  fst r = (if launch_ok lo then Js.Return (Some (bid, fresh))
           else Js.Throw (Js.Error "puppeteer.launch failed")) /\
  JsMap.get bid (browsers (snd r)) = (if launch_ok lo then Some fresh else None) /\
  (forall pg i, In (pg, i) (pages (snd r)) -> browserId i <> bid).
Proof.
  intros Hne Hb Hcap. cbn zeta. unfold restartBrowser. rewrite Hb.
  set (p1 := snd (closeBrowser bid now o ok p)).
  assert (JsMap.get bid (browsers p1) = None) as Hgone by apply closeBrowser_removes.
  assert (JsMap.size (browsers p1) < JsMap.size (browsers p))%nat as Hlt
    by (by eapply closeBrowser_size_present).
  assert (forall pg i, In (pg, i) (pages p1) -> browserId i <> bid) as Hpages.
  { intros pg i Hin. unfold p1 in Hin. rewrite (closeBrowser_pages _ _ _ _ _ _ Hb) in Hin.
    apply closePagesOf_pages in Hin as [Hin Hno]. intros Hbi. apply Hno. by exists i. }
  unfold createBrowser.
  destruct (Nat.leb_spec (Config.maxBrowsers cfg) (JsMap.size (browsers p1))) as [Hle|_]; [lia|].
  cbn [opt_browserId Js.or_string].
  destruct (String.eqb_spec bid "") as [->|_]; [done|].
  rewrite Hgone. destruct (launch_ok lo); cbn [fst snd browsers pages emit with_browsers].
  - split_and!; [done|apply jsmap_get_set_eq|done].
  - by split_and!.
Qed.

(** X6.  Screencast round trip: on a registered page whose screencast is
    not running, a successful [startScreencast] followed by a successful
    [stopScreencast] returns [true] twice, leaves the page registered with
    the screencast not running and no CDP session stored, emits
    ['screencastStarted'] then ['screencastStopped'] and nothing else, and
    changes nothing else of the page but its last-activity instant. *)
Theorem X6_screencast_round_trip pageId now1 now2 p i :
  JsMap.get pageId (pages p) = Some i ->
  screencastRunning i = false ->
  let r1 := startScreencast pageId now1 true p in
  let r2 := stopScreencast pageId now2 true (snd r1) in
  fst r1 = Js.Return true /\ fst r2 = true /\
  JsMap.get pageId (pages (snd r2))
  = Some {| browserId := browserId i; page_createdAt := page_createdAt i;
            lastActivityAt := now2; screencastRunning := false; client := false |} /\
  emitted (snd r2) = emitted p ++ [screencastStarted pageId; screencastStopped pageId] /\
  browsers (snd r2) = browsers p.
Proof.
  intros Hp Hrun. cbn zeta.
  unfold startScreencast, getPage. rewrite Hp. cbn [screencastRunning touch]. rewrite Hrun.
  cbn [fst snd]. unfold stopScreencast, getPage.
  cbn [pages emit with_pages]. rewrite !jsmap_get_update_eq, Hp.
  cbn [fmap option_fmap option_map set_screencast touch screencastRunning client negb andb fst snd
       pages emit with_pages emitted browsers].
  rewrite !jsmap_get_update_eq, Hp. cbn. split_and!; try done.
  by rewrite <- app_assoc.
Qed.

(** The loop of [shutdown]. *)
Lemma closeBrowsers_spec ids now o ok p :
  exists l, emitted (closeBrowsers ids now o ok p) = emitted p ++ l /\
    (forall bid, In bid ids -> is_Some (JsMap.get bid (browsers p)) ->
                 In (browserClosed bid) l) /\
    (forall pg i, In (pg, i) (pages p) -> In (browserId i) ids ->
                  is_Some (JsMap.get (browserId i) (browsers p)) -> In (pageClosed pg) l) /\
    (forall pg, In (pageClosed pg) l ->
       exists j, In (pg, j) (pages p) /\ In (browserId j) ids /\
                 is_Some (JsMap.get (browserId j) (browsers p))).
Proof.
  revert p. induction ids as [|b0 rest IH]; intros p.
  { exists []. rewrite app_nil_r. split_and!; try done; by intros ? []. }
  cbn [closeBrowsers].
  destruct (JsMap.get b0 (browsers p)) as [b|] eqn:Hb0.
  2:{ assert (snd (closeBrowser b0 now o (ok b0) p) = p) as ->
        by (unfold closeBrowser; by rewrite Hb0).
      destruct (IH p) as (l & Hl & HB & HP & HN). exists l. split_and!; [done| | |].
      - intros bid [<-|Hin] [x Hx]; [congruence|]. by apply HB.
      - intros pg i Hin [Heq|Hr] [x Hx]; [congruence|]. apply (HP pg i); by eauto.
      - intros pg Hpg. destruct (HN pg Hpg) as (j & ? & ? & ?). exists j.
        split_and!; [done|by right|done]. }
  destruct (closeBrowser_emitted b0 now o (ok b0) p) as (l1 & Hl1 & Hk1 & Hp1); [by eexists|].
  set (p1 := snd (closeBrowser b0 now o (ok b0) p)) in *.
  destruct (IH p1) as (l2 & Hl2 & HB & HP & HN).
  assert (forall pg i, In (pg, i) (pages p1) -> In (pg, i) (pages p) /\ browserId i <> b0) as Hsub.
  { intros pg i Hin. unfold p1 in Hin. rewrite (closeBrowser_pages _ _ _ _ _ _ Hb0) in Hin.
    apply closePagesOf_pages in Hin as [Hin Hno]. split; [done|].
    intros Hbi. apply Hno. by exists i. }
  exists ((l1 ++ [browserClosed b0]) ++ l2). split_and!.
  - rewrite Hl2, Hl1. by rewrite <- !app_assoc.
  - intros bid Hin Hsome. rewrite !in_app_iff.
    destruct (decide (bid = b0)) as [->|Hne]; [left; right; by left|].
    destruct Hin as [->|Hin]; [done|]. right. apply HB; [done|].
    by apply closeBrowser_browsers_other.
  - intros pg i Hin Hids Hsome. rewrite !in_app_iff.
    destruct (decide (Exists (fun e => e.1 = pg /\ browserId e.2 = b0) (pages p))) as [Hex|Hno].
    + apply Exists_exists in Hex as ([k j] & Hj & Hk & Hbj). cbn [fst snd] in *. subst k.
      left; left. apply (Hp1 pg j); [by apply list_elem_of_In|done].
    + right.
      assert (browserId i <> b0) as Hne.
      { intros Hbi. apply Hno. apply Exists_exists. exists (pg, i).
        split; [by apply list_elem_of_In|done]. }
      destruct Hids as [Heq|Hr]; [congruence|].
      apply (HP pg i); [|done|by apply closeBrowser_browsers_other].
      unfold p1. rewrite (closeBrowser_pages _ _ _ _ _ _ Hb0).
      apply closePagesOf_keeps; [done|]. intros (j & Hj & Hbj).
      apply Hno. apply Exists_exists. exists (pg, j). split; [by apply list_elem_of_In|done].
  - intros pg. rewrite !in_app_iff. intros [[Hin|[[=]|[]]]|Hin].
    + destruct (Hk1 _ Hin) as [[=]|(pg' & j & Hj & Hbj & [[=]|[= <-]])].
      exists j. split_and!; [done|left; by rewrite Hbj|rewrite Hbj; by eexists].
    + destruct (HN pg Hin) as (j & Hj & Hids & Hsome). exists j.
      destruct (Hsub pg j Hj) as [Hj' Hne].
      split_and!; [done|by right|by apply (closeBrowser_browsers_other b0 now o (ok b0))].
Qed.

(** X7.  [shutdown] returns [true] and leaves the pool with no browser and
    no page.  It emits ['browserClosed'] for every browser that was
    registered and ['pageClosed'] for every page whose browser was
    registered; a page whose browser was no longer registered (its browser
    had disconnected) is dropped from the registry without any
    ['pageClosed'] event. *)
Theorem X7_shutdown_empties_the_pool now o ok p :
  let r := shutdown now o ok p in
  fst r = true /\ browsers (snd r) = [] /\ pages (snd r) = [] /\
  exists evs, emitted (snd r) = emitted p ++ evs /\
    (forall bid b, JsMap.get bid (browsers p) = Some b -> In (browserClosed bid) evs) /\
    (forall pg i, In (pg, i) (pages p) -> is_Some (JsMap.get (browserId i) (browsers p)) ->
                  In (pageClosed pg) evs) /\
    (forall pg, (forall i, In (pg, i) (pages p) -> JsMap.get (browserId i) (browsers p) = None) ->
                ~ In (pageClosed pg) evs).
Proof.
  cbn zeta. unfold shutdown. cbn [fst snd browsers pages emitted with_pages with_browsers].
  split_and!; try done.
  destruct (closeBrowsers_spec (JsMap.keys (browsers p)) now o ok p) as (l & Hl & HB & HP & HN).
  assert (forall k, is_Some (JsMap.get k (browsers p)) -> In k (JsMap.keys (browsers p))) as Hkeys.
  { intros k [b Hk]. apply jsmap_get_In in Hk. unfold JsMap.keys.
    apply in_map_iff. by exists (k, b). }
  exists l. split_and!; [done| | |].
  - intros bid b Hb. apply HB; [apply Hkeys|]; by eexists.
  - intros pg i Hin Hsome. apply (HP pg i); [done|by apply Hkeys|done].
  - intros pg Horphan Hin. destruct (HN pg Hin) as (j & Hj & _ & [x Hx]).
    by rewrite (Horphan j Hj) in Hx.
Qed.

End PoolTheorems.

Section PoolWitnesses.

Import BrowserPool PoolScenario.

Lemma roomy_pool_browsers :
  browsers roomy_pool
  = [("b1", {| process := true; createdAt := 1; pagesCreated := 1; openPages := 2 |})].
Proof. by vm_compute. Qed.

Lemma X1_overlap_witness :
  let one := Config.BROWSER_CONFIG (Some 1%nat) in
  let p1 := snd (createBrowser_settled 1 "b1" (lo "b1" 1) init) in
  let p2 := snd (createBrowser_settled 1 "b2" (lo "b2" 2) p1) in
  createBrowser_tests one {| opt_browserId := None |} (lo "b1" 1) init = inr "b1" /\
  createBrowser_tests one {| opt_browserId := None |} (lo "b2" 2) init = inr "b2" /\
  JsMap.size (browsers p2) = 2%nat.
Proof.
  cbn zeta. split; [reflexivity|]. split; [reflexivity|].
  apply (proj2 (X1_instance_cap_is_invariant (Config.BROWSER_CONFIG (Some 1%nat)) 1 [])
           {| opt_browserId := None |} (lo "b1" 1) {| opt_browserId := None |} (lo "b2" 2)
           init "b1" "b2"); try reflexivity.
  discriminate.
Defined.

Lemma X2_placement_witness :
  let p' := snd (createPage cfg 1 plain (po "b2" "p2" 2) roomy_pool) in
  exists b, JsMap.get "b1" (browsers p') = Some b /\ (openPages b <= 5)%nat.
Proof.
  cbn zeta. eexists. split; [by vm_compute|].
  apply (X2_placement_respects_page_cap cfg 1 plain (po "b2" "p2" 2) roomy_pool) with (id := "b1").
  - apply (bool_decide_unpack _). by vm_compute.
  - simpl. lia.
  - by vm_compute.
  - intros id b. rewrite roomy_pool_browsers. cbn [JsMap.get].
    destruct (String.eqb "b1" id); [|done]. intros [= <-]. simpl. lia.
  - by vm_compute.
Defined.

Lemma X3_rejection_witness :
  let one := Config.BROWSER_CONFIG (Some 1%nat) in
  (Config.maxBrowsers one <= JsMap.size (browsers full_pool))%nat /\
  Js.is_resource_limit (fst (createPage one 1 plain (po "b9" "p9" 9) full_pool)) = true /\
  snd (createPage one 1 plain (po "b9" "p9" 9) full_pool) = full_pool.
Proof.
  cbn zeta. split; [vm_compute; lia|].
  apply (X3_createPage_rejected_at_capacity (Config.BROWSER_CONFIG (Some 1%nat)) 1 plain
           (po "b9" "p9" 9) full_pool).
  - vm_compute. lia.
  - intros id b Hin. vm_compute in Hin. destruct Hin as [[= <- <-]|[]]. simpl. lia.
Defined.

Lemma X4_closeBrowser_witness :
  let r := closeBrowser "b1" 5 (fun _ => closes_fine) true roomy_pool in
  exists b, JsMap.get "b1" (browsers roomy_pool) = Some b /\
            fst r = true /\ JsMap.get "b1" (browsers (snd r)) = None.
Proof.
  cbn zeta. eexists. split; [by vm_compute|].
  refine (let H := X4_closeBrowser_closes_its_pages "b1" 5 (fun _ => closes_fine) true
                     roomy_pool _ _ in conj (proj1 H) (proj1 (proj2 H))).
  by vm_compute.
Defined.

Lemma X5_restart_witness :
  let r := restartBrowser cfg 1 "b1" 5 (fun _ => closes_fine) true (lo "u" 5) roomy_pool in
  "b1" <> "" /\
  (JsMap.size (browsers roomy_pool) <= Config.maxBrowsers cfg)%nat /\
  JsMap.get "b1" (browsers (snd r))
  = Some {| process := true; createdAt := 5; pagesCreated := 0; openPages := 1 |}.
Proof.
  cbn zeta. split; [done|]. split; [vm_compute; lia|].
  refine (proj1 (proj2 (X5_restartBrowser_replaces_the_browser cfg 1 "b1" 5 (fun _ => closes_fine)
                          true (lo "u" 5) roomy_pool _ _ _ _))).
  - done.
  - by vm_compute.
  - vm_compute. lia.
Defined.

Lemma X6_round_trip_witness :
  let r1 := startScreencast "p1" 10 true roomy_pool in
  let r2 := stopScreencast "p1" 20 true (snd r1) in
  emitted (snd r2)
  = emitted roomy_pool ++ [screencastStarted "p1"; screencastStopped "p1"].
Proof.
  cbn zeta.
  refine (proj1 (proj2 (proj2 (proj2 (X6_screencast_round_trip "p1" 10 20 roomy_pool _ _ _))))).
  - by vm_compute.
  - done.
Defined.

End PoolWitnesses.

(** ** Session manager: invariants of every run *)

Section SessionInvariants.

Import SessionManager.

Variable cfg : Config.SESSION.

Local Abbreviation capped m :=
  (JsMap.size (sessions m) <= Config.maxConcurrentSessions cfg)%nat.

Local Abbreviation synced m :=
  (forall k, sessionTimeouts m !! k = idle_deadline cfg k m).

Lemma clearSessionTimeout_other id k m :
  k <> id -> sessionTimeouts (clearSessionTimeout id m) !! k = sessionTimeouts m !! k.
Proof.
  intros Hk. unfold clearSessionTimeout. destruct (sessionTimeouts m !! id); [|done].
  cbn [sessionTimeouts with_timeouts]. by rewrite lookup_delete_ne.
Qed.

Lemma resetSessionTimeout_other id k now m :
  k <> id -> sessionTimeouts (resetSessionTimeout cfg id now m) !! k = sessionTimeouts m !! k.
Proof.
  intros Hk. unfold resetSessionTimeout. cbn [sessionTimeouts with_timeouts].
  rewrite lookup_insert_ne by done. by apply clearSessionTimeout_other.
Qed.

Lemma clearSessionTimeout_emitted id m : emitted (clearSessionTimeout id m) = emitted m.
Proof. unfold clearSessionTimeout. by destruct (sessionTimeouts m !! id). Qed.

Lemma resetSessionTimeout_emitted id now m :
  emitted (resetSessionTimeout cfg id now m) = emitted m.
Proof. unfold resetSessionTimeout. cbn [emitted with_timeouts]. apply clearSessionTimeout_emitted. Qed.

(** A session stored under [id] by a function that sets its last
    activity to [now], with its timer re-armed at [now]. *)
Lemma synced_refresh id now (f : Session -> Session) m :
  (forall s, lastActivityAt (f s) = now) ->
  is_Some (JsMap.get id (sessions m)) ->
  synced m ->
  synced (resetSessionTimeout cfg id now (with_sessions (JsMap.update id f (sessions m)) m)).
Proof.
  intros Hf [s Hs] Hsync k. unfold idle_deadline.
  rewrite resetSessionTimeout_sessions. cbn [sessions with_sessions].
  destruct (decide (k = id)) as [->|Hk].
  - rewrite resetSessionTimeout_lookup, jsmap_get_update_eq, Hs. simpl. by rewrite Hf.
  - rewrite resetSessionTimeout_other by done. cbn [sessionTimeouts with_sessions].
    rewrite jsmap_get_update_ne by congruence. apply Hsync.
Qed.

Lemma createSession_capped options uuid now m :
  capped m -> capped (snd (createSession cfg options uuid now m)).
Proof.
  intros Hc. unfold createSession.
  destruct (Nat.leb_spec (Config.maxConcurrentSessions cfg) (JsMap.size (sessions m))); [done|].
  destruct (JsMap.get _ (sessions m)) eqn:Hg; [done|].
  cbn [snd sessions emit]. rewrite resetSessionTimeout_sessions. cbn [sessions with_sessions].
  rewrite jsmap_size_set_absent by done. lia.
Qed.

Lemma createSession_synced options uuid now m :
  synced m -> synced (snd (createSession cfg options uuid now m)).
Proof.
  intros Hsync. unfold createSession.
  destruct (_ <=? _)%nat; [done|].
  set (id := Js.or_string _ _).
  destruct (JsMap.get id (sessions m)) eqn:Hg; [done|].
  intros k. unfold idle_deadline. cbn [snd sessions sessionTimeouts emit].
  rewrite resetSessionTimeout_sessions. cbn [sessions with_sessions].
  destruct (decide (k = id)) as [->|Hk].
  - by rewrite resetSessionTimeout_lookup, jsmap_get_set_eq.
  - rewrite resetSessionTimeout_other by done. cbn [sessionTimeouts with_sessions].
    rewrite jsmap_get_set_ne by congruence. apply Hsync.
Qed.

Lemma getSession_capped id now m : capped m -> capped (snd (getSession cfg id now m)).
Proof.
  intros Hc. unfold getSession. destruct (JsMap.get id (sessions m)); [|done].
  cbn [snd]. rewrite resetSessionTimeout_sessions. cbn [sessions with_sessions].
  by rewrite jsmap_size_update.
Qed.

Lemma getSession_synced id now m : synced m -> synced (snd (getSession cfg id now m)).
Proof.
  intros Hsync. unfold getSession. destruct (JsMap.get id (sessions m)) eqn:Hg; [|done].
  cbn [snd]. apply synced_refresh; [done|by eexists|done].
Qed.

Lemma getSession_is_Some id now m s m' :
  getSession cfg id now m = (Some s, m') -> is_Some (JsMap.get id (sessions m')).
Proof.
  unfold getSession. destruct (JsMap.get id (sessions m)) eqn:Hg; [|done].
  intros [= <- <-]. rewrite resetSessionTimeout_sessions. cbn [sessions with_sessions].
  rewrite jsmap_get_update_eq, Hg. by eexists.
Qed.

Lemma updateSession_capped id u now m :
  capped m -> capped (snd (updateSession cfg id u now m)).
Proof.
  intros Hc. unfold updateSession.
  pose proof (getSession_capped id now m Hc) as H1.
  destruct (getSession cfg id now m) as [[s|] m1]; cbn [snd] in *; [|done].
  cbn [sessions emit]. rewrite resetSessionTimeout_sessions. cbn [sessions with_sessions].
  by rewrite jsmap_size_update.
Qed.

Lemma updateSession_synced id u now m :
  synced m -> synced (snd (updateSession cfg id u now m)).
Proof.
  intros Hsync. unfold updateSession.
  pose proof (getSession_synced id now m Hsync) as H1.
  destruct (getSession cfg id now m) as [[s|] m1] eqn:Hg; cbn [snd] in *; [|done].
  intros k. unfold idle_deadline. cbn [sessions sessionTimeouts emit].
  apply (synced_refresh id now (fun x => touch now (assign u x)) m1);
    [done|by eapply getSession_is_Some|done].
Qed.

Lemma updateSessionStats_capped id frames bytes now m :
  capped m -> capped (snd (updateSessionStats cfg id frames bytes now m)).
Proof.
  intros Hc. unfold updateSessionStats.
  pose proof (getSession_capped id now m Hc) as H1.
  destruct (getSession cfg id now m) as [[s|] m1]; cbn [snd] in *; [|done].
  rewrite resetSessionTimeout_sessions. cbn [sessions with_sessions].
  by rewrite jsmap_size_update.
Qed.

Lemma updateSessionStats_synced id frames bytes now m :
  synced m -> synced (snd (updateSessionStats cfg id frames bytes now m)).
Proof.
  intros Hsync. unfold updateSessionStats.
  pose proof (getSession_synced id now m Hsync) as H1.
  destruct (getSession cfg id now m) as [[s|] m1] eqn:Hg; cbn [snd] in *; [|done].
  apply (synced_refresh id now (fun x => touch now (assign_stats frames bytes x)) m1);
    [done|by eapply getSession_is_Some|done].
Qed.

Lemma closeSession_timeouts id reason o m pool k :
  sessionTimeouts (closeSession id reason o m pool).1.2 !! k
  = if decide (k = id) then
      match JsMap.get id (sessions m) with
      | Some _ => None
      | None => sessionTimeouts m !! k
      end
    else sessionTimeouts m !! k.
Proof.
  unfold closeSession. destruct (JsMap.get id (sessions m)) as [s|] eqn:E; cbn [fst snd].
  2:{ by destruct (decide (k = id)). }
  destruct (decide (k = id)) as [->|Hk];
    destruct (listener_throws o); cbn [fst snd sessionTimeouts emit with_sessions];
    rewrite ?clearSessionTimeout_lookup; try done;
    rewrite ?clearSessionTimeout_other by done; cbn [sessionTimeouts with_sessions];
    rewrite ?clearSessionTimeout_other by done; done.
Qed.

Lemma closeSession_capped id reason o m pool :
  capped m -> capped (closeSession id reason o m pool).1.2.
Proof.
  intros Hc. rewrite closeSession_sessions. etrans; [apply jsmap_size_delete_le|done].
Qed.

Lemma closeSession_synced id reason o m pool :
  synced m -> synced (closeSession id reason o m pool).1.2.
Proof.
  intros Hsync k. unfold idle_deadline.
  rewrite closeSession_timeouts, closeSession_sessions.
  destruct (decide (k = id)) as [->|Hk].
  - rewrite jsmap_get_delete_eq. destruct (JsMap.get id (sessions m)) eqn:E; [done|].
    rewrite Hsync. unfold idle_deadline. by rewrite E.
  - rewrite jsmap_get_delete_ne by congruence. apply Hsync.
Qed.

Lemma closeAll_capped ids reason o m pool :
  capped m -> capped (closeAll ids reason o m pool).1.
Proof.
  revert m pool. induction ids as [|id rest IH]; intros m pool Hc; cbn [closeAll]; [done|].
  pose proof (closeSession_capped id reason (o id) m pool Hc) as H1.
  destruct (closeSession id reason (o id) m pool) as [[r m'] pool']. by apply IH.
Qed.

Lemma closeAll_synced ids reason o m pool :
  synced m -> synced (closeAll ids reason o m pool).1.
Proof.
  revert m pool. induction ids as [|id rest IH]; intros m pool Hc; cbn [closeAll]; [done|].
  pose proof (closeSession_synced id reason (o id) m pool Hc) as H1.
  destruct (closeSession id reason (o id) m pool) as [[r m'] pool']. by apply IH.
Qed.

Lemma step_capped c m pool : capped m -> capped (step cfg c (m, pool)).1.
Proof.
  intros Hc. destruct c; cbn [step fst].
  - by apply createSession_capped.
  - by apply getSession_capped.
  - by apply updateSession_capped.
  - by apply updateSessionStats_capped.
  - pose proof (closeSession_capped id reason o m pool Hc).
    by destruct (closeSession id reason o m pool) as [[? ?] ?].
  - by apply closeAll_capped.
  - unfold onSessionTimeout. pose proof (closeSession_capped id "timeout" o m pool Hc).
    by destruct (closeSession id "timeout" o m pool) as [[? ?] ?].
  - unfold shutdown. destruct (closeAll _ _ _ _ _). cbn. lia.
Qed.

Lemma step_synced c m pool : synced m -> synced (step cfg c (m, pool)).1.
Proof.
  intros Hc. destruct c; cbn [step fst].
  - by apply createSession_synced.
  - by apply getSession_synced.
  - by apply updateSession_synced.
  - by apply updateSessionStats_synced.
  - pose proof (closeSession_synced id reason o m pool Hc).
    by destruct (closeSession id reason o m pool) as [[? ?] ?].
  - by apply closeAll_synced.
  - unfold onSessionTimeout. pose proof (closeSession_synced id "timeout" o m pool Hc).
    by destruct (closeSession id "timeout" o m pool) as [[? ?] ?].
  - unfold shutdown. destruct (closeAll _ _ _ _ _). by cbn.
Qed.

(** X8.  The session cap is an invariant of the session manager: after
    any sequence of calls of its methods, of cleanup runs and of timer
    expirations, started on the manager the constructor builds, the number
    of stored sessions is at most [maxConcurrentSessions]. *)
Theorem X8_session_cap_is_invariant (cs : list Call) (pool : BrowserPool.t) :
  (JsMap.size (sessions (run cfg cs (init, pool)).1) <= Config.maxConcurrentSessions cfg)%nat.
Proof.
  unfold run. rewrite <- fold_left_rev_right.
  induction (rev cs) as [|c l IH]; cbn [fold_right]; [cbn; lia|].
  destruct (fold_right _ _ l) as [m p]. by apply step_capped.
Qed.


(** X10.  [closeSession] on a stored session that holds a page releases
    everything, whatever fails on the way: the page is no longer
    registered in the pool, the session and its timer are gone, the call
    returns [true] unless a ['sessionClosed'] listener threw, and the last
    event emitted is ['sessionClosed'] (with the given reason, or with
    ['error'] when a listener threw). *)
Theorem X10_closeSession_releases_everything id reason o m pool s pg :
  JsMap.get id (sessions m) = Some s ->
  pageId s = Some pg -> pg <> "" ->
  let '(r, m', pool') := closeSession id reason o m pool in
  r = negb (listener_throws o) /\
  JsMap.get id (sessions m') = None /\
  sessionTimeouts m' !! id = None /\
  JsMap.get pg (BrowserPool.pages pool') = None /\
  emitted m'
  = emitted m ++ [sessionClosed id (if listener_throws o then "error" else reason)].
Proof.
  intros Hs Hpg Hne.
  pose proof (closeSession_sessions id reason o m pool) as Hsess.
  pose proof (closeSession_timeouts id reason o m pool id) as Ht.
  rewrite decide_True, Hs in Ht by done.
  revert Hsess Ht. unfold closeSession. rewrite Hs, Hpg.
  destruct (String.eqb_spec pg "") as [->|_]; [done|].
  destruct (listener_throws o); cbn [fst snd negb]; intros Hsess Ht;
    (split_and!; [done|by rewrite Hsess, jsmap_get_delete_eq|done|apply closePage_removes|]);
    cbn [emitted emit with_sessions];
    rewrite ?clearSessionTimeout_emitted; cbn [emitted emit with_sessions];
    by rewrite ?clearSessionTimeout_emitted.
Qed.

End SessionInvariants.

Section SessionWitnesses.

Import SessionManager SessionScenario.

Lemma X10_closeSession_witness :
  let m := snd (updateSession cfg "s1"
                  {| upd_browserId := Some "b1"; upd_pageId := Some "p1"; upd_webrtcId := None |}
                  10 busy_session) in
  let '(r, m', pool') := closeSession "s1" "closed" (quiet 20) m PoolScenario.roomy_pool in
  JsMap.get "p1" (BrowserPool.pages PoolScenario.roomy_pool) <> None /\
  r = true /\ JsMap.get "p1" (BrowserPool.pages pool') = None.
Proof.
  cbn zeta.
  pose proof (X10_closeSession_releases_everything "s1" "closed" (quiet 20)
                (snd (updateSession cfg "s1"
                        {| upd_browserId := Some "b1"; upd_pageId := Some "p1";
                           upd_webrtcId := None |} 10 busy_session))
                PoolScenario.roomy_pool
                {| createdAt := 0; lastActivityAt := 10; browserId := Some "b1";
                   pageId := Some "p1"; webrtcId := None; status := "created";
                   stats := {| frameCount := 0; bytesSent := 0; bytesReceived := 0 |} |}
                "p1" ltac:(by vm_compute) eq_refl ltac:(done)) as H.
  destruct (closeSession _ _ _ _ _) as [[r m'] pool'].
  destruct H as (Hr & _ & _ & Hp & _). split; [by vm_compute|]. by split.
Defined.

End SessionWitnesses.

(** ** WebSocket service: the heartbeat and the routing of input *)

Section JsMapMore.

Context {V : Type}.
Implicit Types (m : JsMap.t V) (k : string) (v : V).

Lemma jsmap_update_app_fresh k f pre v rest :
  ~ In k (JsMap.keys pre) ->
  JsMap.update k f (pre ++ (k, v) :: rest) = pre ++ (k, f v) :: rest.
Proof.
  induction pre as [|[k' v'] pre IH]; intros Hni; simpl.
  - by rewrite String.eqb_refl.
  - destruct (String.eqb_spec k' k) as [->|Hk]; [exfalso; apply Hni; by left|].
    rewrite IH; [done|]. intros Hin. apply Hni. by right.
Qed.

Lemma jsmap_delete_fresh k m : ~ In k (JsMap.keys m) -> JsMap.delete k m = m.
Proof.
  induction m as [|[k' v'] m IH]; intros Hni; simpl; [done|].
  destruct (String.eqb_spec k' k) as [->|Hk]; [exfalso; apply Hni; by left|].
  rewrite IH; [done|]. intros Hin. apply Hni. by right.
Qed.

Lemma jsmap_delete_app_fresh k pre v rest :
  ~ In k (JsMap.keys pre) -> ~ In k (JsMap.keys rest) ->
  JsMap.delete k (pre ++ (k, v) :: rest) = pre ++ rest.
Proof.
  induction pre as [|[k' v'] pre IH]; intros Hni Hnr; simpl.
  - rewrite String.eqb_refl. by apply jsmap_delete_fresh.
  - destruct (String.eqb_spec k' k) as [->|Hk]; [exfalso; apply Hni; by left|].
    rewrite IH; [done| |done]. intros Hin. apply Hni. by right.
Qed.

Lemma jsmap_In_update k f m k' v :
  In (k', v) (JsMap.update k f m) -> exists v0, In (k', v0) m /\ (v = v0 \/ v = f v0).
Proof.
  induction m as [|[k0 v0] m IH]; simpl; [done|].
  destruct (String.eqb_spec k0 k) as [->|Hk].
  - intros [[= <- <-]|Hin]; [exists v0; split; [by left|by right]|].
    exists v. split; [by right|by left].
  - intros [[= <- <-]|Hin]; [exists v0; split; [by left|by left]|].
    destruct (IH Hin) as (v1 & ? & ?). exists v1. split; [by right|done].
Qed.

Lemma jsmap_In_set k v0 m k' v :
  In (k', v) (JsMap.set k v0 m) -> In (k', v) m \/ (k' = k /\ v = v0).
Proof.
  induction m as [|[k1 v1] m IH]; simpl.
  - intros [[= <- <-]|[]]. by right.
  - destruct (String.eqb_spec k1 k) as [->|Hk].
    + intros [[= <- <-]|Hin]; [by right|left; by right].
    + intros [[= <- <-]|Hin]; [left; by left|].
      destruct (IH Hin) as [?|?]; [left; by right|by right].
Qed.

Lemma jsmap_In_delete_sub k m k' v : In (k', v) (JsMap.delete k m) -> In (k', v) m.
Proof. intros Hin. by apply jsmap_In_delete in Hin as [? _]. Qed.

Lemma jsmap_nodup_update k f m :
  NoDup (JsMap.keys m) -> NoDup (JsMap.keys (JsMap.update k f m)).
Proof. by rewrite jsmap_keys_update. Qed.

Lemma jsmap_nodup_set k v m :
  NoDup (JsMap.keys m) -> NoDup (JsMap.keys (JsMap.set k v m)).
Proof.
  induction m as [|[k' v'] m IH]; simpl; intros Hnd.
  - apply NoDup_cons. split; [by intros ?%elem_of_nil|constructor].
  - destruct (String.eqb_spec k' k) as [->|Hk]; [done|]. simpl.
    apply NoDup_cons in Hnd as [Hni Hnd]. apply NoDup_cons. split; [|by apply IH].
    intros Hin%list_elem_of_In. unfold JsMap.keys in Hin.
    apply in_map_iff in Hin as ([k1 v1] & Hk1 & Hin). simpl in Hk1. subst k1.
    apply jsmap_In_set in Hin as [Hin|[-> _]]; [|done].
    apply Hni. apply list_elem_of_In. unfold JsMap.keys. apply in_map_iff. by exists (k', v1).
Qed.

End JsMapMore.

Section Heartbeat.

Import WebSocketService.

Variable cfg : Config.WEBSOCKET.
Variable wire_length : Outgoing -> nat.

(** An entry after a tick it survives, and the event of one it does not. *)
Local Abbreviation pinged_entry := (fun e : string * Client => (e.1, pinged e.2)).
Local Abbreviation gone_event :=
  (fun e : string * Client => clientDisconnected e.1 (sessionId e.2)).

Lemma pingLoop_calm entries now o : forall pre w,
  calm o ->
  clients w = pre ++ entries ->
  NoDup (JsMap.keys (pre ++ entries)) ->
  let w' := pingLoop cfg entries now o w in
  clients w' = pre ++ map pinged_entry (List.filter (fun e => keeps cfg now e.2) entries) /\
  emitted w'
  = emitted w ++ map gone_event (List.filter (fun e => negb (keeps cfg now e.2)) entries) /\
  sent w' = sent w.
Proof.
  induction entries as [|[k c] rest IH]; intros pre w [Ht Hp] Hw Hnd; cbn zeta.
  { cbn. by rewrite Hw, !app_nil_r. }
  assert (~ In k (JsMap.keys pre) /\ ~ In k (JsMap.keys rest)) as [Hkp Hkr].
  { unfold JsMap.keys in *. rewrite map_app in Hnd. cbn in Hnd.
    apply NoDup_app in Hnd as (_ & Hdis & Hnd2). apply NoDup_cons in Hnd2 as [Hni _]. split.
    - intros Hin%list_elem_of_In. apply (Hdis k Hin). by left.
    - intros Hin%list_elem_of_In. by apply Hni. }
  cbn [pingLoop List.filter snd].
  destruct (keeps cfg now c) eqn:Hkeep; cbn [negb].
  - rewrite Hp.
    set (w1 := with_clients _ w).
    destruct (IH (pre ++ [(k, pinged c)]) w1 (conj Ht Hp)) as (Hc & He & Hs).
    + unfold w1. cbn [clients with_clients]. rewrite Hw.
      rewrite jsmap_update_app_fresh by done. by rewrite <- app_assoc.
    + rewrite <- app_assoc. cbn. revert Hnd. unfold JsMap.keys. by rewrite !map_app.
    + cbn zeta in *. rewrite Hc, He, Hs. cbn. by rewrite <- app_assoc.
  - rewrite Ht.
    set (w1 := emit _ _).
    destruct (IH pre w1 (conj Ht Hp)) as (Hc & He & Hs).
    + unfold w1. cbn [clients with_clients emit]. rewrite Hw.
      by rewrite jsmap_delete_app_fresh.
    + revert Hnd. unfold JsMap.keys. rewrite !map_app. cbn.
      intros Hnd. apply NoDup_app in Hnd as (H1 & H2 & H3). apply NoDup_cons in H3 as [H3 H4].
      apply NoDup_app. split_and!; [done| |done].
      intros x Hx Hr. apply (H2 x Hx). by right.
    + cbn zeta in *. rewrite Hc, He, Hs. unfold w1. cbn. by rewrite <- app_assoc.
Qed.

Lemma pingClients_calm now o w :
  NoDup (JsMap.keys (clients w)) ->
  calm o ->
  let w' := pingClients cfg now o w in
  clients w' = map pinged_entry (List.filter (fun e => keeps cfg now e.2) (clients w)) /\
  emitted w'
  = emitted w ++ map gone_event (List.filter (fun e => negb (keeps cfg now e.2)) (clients w)) /\
  sent w' = sent w.
Proof.
  intros Hnd Hcalm. unfold pingClients.
  by apply (pingLoop_calm (clients w) now o [] w).
Qed.

(** X11.  One run of [pingClients] during which no socket operation
    throws: the clients that stay registered are exactly those that were
    flagged alive and active within [pingTimeout], in their order, each
    with its alive flag cleared; every other client is removed and a
    ['clientDisconnected'] event is emitted for it, in registry order;
    nothing is written to any socket. *)
Theorem X11_ping_tick_keeps_the_live_and_recent now o w :
  NoDup (JsMap.keys (clients w)) ->
  calm o ->
  let w' := pingClients cfg now o w in
  clients w' = map pinged_entry (List.filter (fun e => keeps cfg now e.2) (clients w)) /\
  emitted w'
  = emitted w ++ map gone_event (List.filter (fun e => negb (keeps cfg now e.2)) (clients w)) /\
  sent w' = sent w.
Proof. apply pingClients_calm. Qed.

Lemma jsmap_get_map_filter (f : Client -> Client) (P : Client -> bool) k m :
  NoDup (JsMap.keys m) ->
  JsMap.get k (map (fun e : string * Client => (e.1, f e.2)) (List.filter (fun e => P e.2) m))
  = match JsMap.get k m with
    | Some c => if P c then Some (f c) else None
    | None => None
    end.
Proof.
  induction m as [|[k' c'] m IH]; intros Hnd; [done|].
  apply NoDup_cons in Hnd as [Hni Hnd]. cbn [List.filter snd JsMap.get].
  destruct (String.eqb_spec k' k) as [->|Hk].
  - destruct (P c'); cbn [map fst snd JsMap.get]; [by rewrite String.eqb_refl|].
    rewrite IH by done. destruct (JsMap.get k m) eqn:Hg; [|done].
    exfalso. apply Hni. apply list_elem_of_In. apply jsmap_get_In in Hg.
    unfold JsMap.keys. apply in_map_iff. by exists (k, c).
  - destruct (P c'); cbn [map fst snd JsMap.get]; [|by apply IH].
    destruct (String.eqb_spec k' k); [done|]. by apply IH.
Qed.

Lemma pong_then_tick id t now o w c :
  NoDup (JsMap.keys (clients w)) ->
  calm o ->
  JsMap.get id (clients w) = Some c ->
  JsMap.get id (clients (pingClients cfg now o (handlePong id t w)))
  = if (Config.pingTimeout cfg <? now - t)%Z then None else Some (pinged (alive t c)).
Proof.
  intros Hnd Hcalm Hc.
  assert (NoDup (JsMap.keys (clients (handlePong id t w)))) as Hnd'.
  { unfold handlePong. rewrite Hc. cbn [clients with_clients]. by apply jsmap_nodup_update. }
  destruct (pingClients_calm now o _ Hnd' Hcalm) as (-> & _ & _).
  rewrite (jsmap_get_map_filter pinged (keeps cfg now)) by done.
  unfold handlePong. rewrite Hc. cbn [clients with_clients].
  rewrite jsmap_get_update_eq, Hc. cbn [fmap option_fmap option_map].
  unfold keeps. cbn [isAlive lastActivityAt alive andb].
  by destruct (Config.pingTimeout cfg <? now - t)%Z.
Qed.

(** X12.  A pong alone does not keep a client: after [handlePong] at
    instant [t], the next run of [pingClients] at instant [now] keeps the
    client (with its alive flag cleared) when [now - t] is at most
    [pingTimeout], and removes it when [now - t] exceeds [pingTimeout],
    although the client answered the last ping. *)
Theorem X12_pong_older_than_pingTimeout_is_not_enough id t now o w c :
  NoDup (JsMap.keys (clients w)) ->
  calm o ->
  JsMap.get id (clients w) = Some c ->
  JsMap.get id (clients (pingClients cfg now o (handlePong id t w)))
  = if (Config.pingTimeout cfg <? now - t)%Z then None else Some (pinged (alive t c)).
Proof. apply pong_then_tick. Qed.

Lemma nodup_keys_map_filter (f : Client -> Client) (P : string * Client -> bool) m :
  NoDup (JsMap.keys m) ->
  NoDup (JsMap.keys (map (fun e : string * Client => (e.1, f e.2)) (List.filter P m))).
Proof.
  induction m as [|[k c] m IH]; intros Hnd; [constructor|].
  apply NoDup_cons in Hnd as [Hni Hnd]. cbn [List.filter].
  destruct (P (k, c)); [|by apply IH]. cbn. apply NoDup_cons. split; [|by apply IH].
  intros Hin%list_elem_of_In. apply Hni. apply list_elem_of_In.
  unfold JsMap.keys in *. apply in_map_iff in Hin as ([k1 c1] & Hk1 & Hin). cbn in Hk1. subst k1.
  apply in_map_iff in Hin as ([k2 c2] & [= -> _] & Hin). apply filter_In in Hin as [Hin _].
  apply in_map_iff. by exists (k, c2).
Qed.

(** X13.  A client that answers every ping but sends nothing else is
    dropped after one ping period whenever [pingTimeout] is shorter than
    [pingInterval]: if it survives the run of [pingClients] at instant
    [T1], answers with a pong at an instant [t] less than
    [pingInterval - pingTimeout] later, and stays silent, then the run of
    [pingClients] one [pingInterval] after [T1] removes it.  With the
    shipped settings (30 s and 10 s) this is every pong that arrives
    within 20 s. *)
Theorem X13_answering_pings_does_not_keep_a_silent_client id T1 t o1 o2 w c :
  NoDup (JsMap.keys (clients w)) ->
  calm o1 -> calm o2 ->
  JsMap.get id (clients w) = Some c ->
  keeps cfg T1 c = true ->
  (t - T1 < Config.pingInterval cfg - Config.pingTimeout cfg)%Z ->
  JsMap.get id
    (clients (run cfg wire_length
                [PingClients T1 o1; Pong id t; PingClients (T1 + Config.pingInterval cfg) o2] w))
  = None.
Proof.
  intros Hnd Hc1 Hc2 Hget Hkeep Ht. cbn [run fold_left step].
  destruct (pingClients_calm T1 o1 w Hnd Hc1) as (Hcl & _ & _).
  assert (NoDup (JsMap.keys (clients (pingClients cfg T1 o1 w)))) as Hnd1
    by (rewrite Hcl; by apply nodup_keys_map_filter).
  assert (JsMap.get id (clients (pingClients cfg T1 o1 w)) = Some (pinged c)) as Hget1.
  { rewrite Hcl, (jsmap_get_map_filter pinged (keeps cfg T1)) by done. by rewrite Hget, Hkeep. }
  rewrite (pong_then_tick id t _ o2 _ _ Hnd1 Hc2 Hget1).
  destruct (Z.ltb_spec (Config.pingTimeout cfg) (T1 + Config.pingInterval cfg - t)); [done|lia].
Qed.

End Heartbeat.

Section WebSocketRuns.

Import WebSocketService.

Variable cfg : Config.WEBSOCKET.
Variable wire_length : Outgoing -> nat.

(** *** Registry shape under every call *)

Lemma sendMessage_clients k m b w :
  clients (snd (sendMessage wire_length k m b w)) = clients w \/
  clients (snd (sendMessage wire_length k m b w))
  = JsMap.update k (counted_out (wire_length m)) (clients w).
Proof.
  unfold sendMessage. destruct (JsMap.get k (clients w)) as [c|]; [|by left].
  destruct (negb (open c)); [by left|]. destruct (negb b); [by left|by right].
Qed.

Lemma sendMessage_emitted k m b w :
  emitted (snd (sendMessage wire_length k m b w)) = emitted w.
Proof.
  unfold sendMessage. destruct (JsMap.get k (clients w)) as [c|]; [|done].
  destruct (negb (open c)); [done|]. by destruct (negb b).
Qed.

(** A property of the registry that updates which leave [isAlive] and
    [sessionId] alone, and removals, preserve. *)
Section Preserved.

Variable P : JsMap.t Client -> Prop.
Hypothesis P_update : forall k f m,
  (forall c, isAlive (f c) = isAlive c /\ sessionId (f c) = sessionId c) ->
  P m -> P (JsMap.update k f m).
Hypothesis P_delete : forall k m, P m -> P (JsMap.delete k m).

Lemma sendMessage_preserved k m b w :
  P (clients w) -> P (clients (snd (sendMessage wire_length k m b w))).
Proof.
  intros HP. destruct (sendMessage_clients k m b w) as [-> | ->]; [done|].
  by apply P_update.
Qed.

Lemma pingLoop_dead_preserved entries now o w :
  (forall e, In e entries -> isAlive e.2 = false) ->
  P (clients w) -> P (clients (pingLoop cfg entries now o w)).
Proof.
  revert w. induction entries as [|[k c] rest IH]; intros w Hdead HP; [done|].
  cbn [pingLoop]. unfold keeps.
  pose proof (Hdead (k, c) (or_introl eq_refl)) as Hk. cbn [snd] in Hk. rewrite Hk. cbn [andb].
  destruct (terminate_ok o k); [|done].
  apply IH; [intros e He; apply Hdead; by right|].
  cbn [clients emit with_clients]. by apply P_delete.
Qed.

End Preserved.

Local Abbreviation all_dead m :=
  (forall k (c : Client), In (k, c) m -> isAlive c = false).

Lemma all_dead_update k f (m : JsMap.t Client) :
  (forall c, isAlive (f c) = isAlive c /\ sessionId (f c) = sessionId c) ->
  all_dead m -> all_dead (JsMap.update k f m).
Proof.
  intros Hf Hd k' c Hin. apply jsmap_In_update in Hin as (c0 & Hin & [->| ->]).
  - by eapply Hd.
  - rewrite (proj1 (Hf c0)). by eapply Hd.
Qed.

Lemma all_dead_delete k (m : JsMap.t Client) : all_dead m -> all_dead (JsMap.delete k m).
Proof. intros Hd k' c Hin. apply jsmap_In_delete_sub in Hin. by eapply Hd. Qed.

Lemma set_session_update_dead k s (m : JsMap.t Client) :
  all_dead m -> all_dead (JsMap.update k (set_session s) m).
Proof.
  intros Hd k' c Hin. apply jsmap_In_update in Hin as (c0 & Hin & [->| ->]);
    cbn [isAlive set_session]; by eapply Hd.
Qed.

(** A call that is neither a pong nor a new connection keeps a registry
    of clients none of which is flagged alive in that state, and keeps its
    keys distinct. *)
Lemma quiet_step_dead c w :
  quiet c = true ->
  NoDup (JsMap.keys (clients w)) /\ all_dead (clients w) ->
  NoDup (JsMap.keys (clients (step cfg wire_length c w))) /\
  all_dead (clients (step cfg wire_length c w)).
Proof.
  intros Hq [Hnd Hd].
  pose (Q := fun m : JsMap.t Client => NoDup (JsMap.keys m) /\ all_dead m).
  assert (forall k f m,
            (forall c, isAlive (f c) = isAlive c /\ sessionId (f c) = sessionId c) ->
            Q m -> Q (JsMap.update k f m)) as Qu.
  { intros k f m Hf [? ?]. split; [by apply jsmap_nodup_update|by apply all_dead_update]. }
  assert (forall k m, Q m -> Q (JsMap.delete k m)) as Qd.
  { intros k m [? ?]. split; [by apply jsmap_nodup_delete|by apply all_dead_delete]. }
  assert (forall k s m, Q m -> Q (JsMap.update k (set_session s) m)) as Qs.
  { intros k s m [? ?]. split; [by apply jsmap_nodup_update|by apply set_session_update_dead]. }
  change (Q (clients (step cfg wire_length c w))).
  assert (Q (clients w)) as HQ by done.
  destruct c; try discriminate Hq; cbn [step].
  - (* Message *)
    unfold handleMessage. destruct (JsMap.get clientId (clients w)) as [c0|]; [|done].
    set (w1 := with_clients _ w).
    assert (Q (clients w1)) as HQ1 by (unfold w1; cbn [clients with_clients]; by apply Qu).
    destruct (parsed m) as [p|]; [|by apply (sendMessage_preserved Q Qu)].
    unfold processMessage. destruct (JsMap.get clientId (clients w1)) as [c1|]; [|done].
    destruct p as [|type sid]; [done|].
    repeat case_bool_decide; try by apply (sendMessage_preserved Q Qu).
    + destruct (truthy sid); [|by apply (sendMessage_preserved Q Qu)].
      cbn [clients emit]. apply (sendMessage_preserved Q Qu).
      cbn [clients with_clients]. by apply Qs.
    + by destruct (truthy (sessionId c1)); [|apply (sendMessage_preserved Q Qu)].
    + done.
  - (* Close *)
    unfold handleClose. destruct (JsMap.get clientId (clients w)); [|done].
    cbn [clients emit with_clients]. by apply Qd.
  - (* ClientError *)
    unfold handleClientError, closeConnection.
    destruct (JsMap.get clientId (clients w)); [|done].
    destruct (negb close_ok); [done|]. cbn [snd clients emit with_clients]. by apply Qd.
  - (* PingClients *)
    unfold pingClients. apply (pingLoop_dead_preserved Q Qd); [|done].
    intros [k c] Hin. by apply (Hd k c).
  - (* SendMessage *)
    by apply (sendMessage_preserved Q Qu).
  - (* SendMessageToSession *)
    unfold sendMessageToSession. destruct (findClient sid (clients w)); [|done].
    by apply (sendMessage_preserved Q Qu).
  - (* CloseConnection *)
    unfold closeConnection. destruct (JsMap.get clientId (clients w)); [|done].
    destruct (negb close_ok); [done|]. cbn [snd clients emit with_clients]. by apply Qd.
  - (* SocketState *)
    cbn [clients with_clients]. by apply Qu.
  - (* Shutdown *)
    cbn. split; [constructor|by intros ? ? []].
Qed.

Lemma filter_none {A} (P : A -> bool) (l : list A) :
  (forall x, In x l -> P x = false) -> List.filter P l = [].
Proof.
  induction l as [|x l IH]; intros H; [done|]. cbn.
  rewrite (H x) by (by left). apply IH. intros y Hy. apply H. by right.
Qed.

Lemma quiet_run_dead cs w :
  forallb quiet cs = true ->
  NoDup (JsMap.keys (clients w)) /\ all_dead (clients w) ->
  NoDup (JsMap.keys (clients (run cfg wire_length cs w))) /\
  all_dead (clients (run cfg wire_length cs w)).
Proof.
  revert w. unfold run. induction cs as [|c cs IH]; intros w Hq H1; [done|].
  cbn [forallb] in Hq. apply andb_true_iff in Hq as [Hqc Hqs].
  cbn [fold_left]. apply IH; [done|]. by apply quiet_step_dead.
Qed.

(** X14.  Traffic is no sign of life for the heartbeat: take two runs of
    [pingClients] during which no socket operation throws, with any calls
    in between except pongs and new connections (incoming messages,
    registrations, sends, socket state changes, further ping runs).
    After the second run no client is registered any more, however recent
    the messages of the clients were. *)
Theorem X14_two_ticks_without_pong_drop_every_client now1 now2 o1 o2 cs w :
  NoDup (JsMap.keys (clients w)) ->
  calm o1 -> calm o2 ->
  forallb quiet cs = true ->
  clients (pingClients cfg now2 o2 (run cfg wire_length cs (pingClients cfg now1 o1 w))) = [].
Proof.
  intros Hnd Hc1 Hc2 Hq.
  destruct (pingClients_calm cfg now1 o1 w Hnd Hc1) as (Hcl & _ & _).
  destruct (quiet_run_dead cs (pingClients cfg now1 o1 w) Hq) as [Hnd2 Hd2].
  { rewrite Hcl. split; [by apply nodup_keys_map_filter|].
    intros k c Hin. apply in_map_iff in Hin as ([k0 c0] & [= <- <-] & _). done. }
  destruct (pingClients_calm cfg now2 o2 _ Hnd2 Hc2) as (-> & _ & _).
  rewrite filter_none; [done|].
  intros [k c] Hin. unfold keeps. cbn [snd]. by rewrite (Hd2 k c Hin).
Qed.

(** *** Input is only forwarded for registered sessions *)

Local Abbreviation registered_sessions w :=
  (forall k (c : Client) s, In (k, c) (clients w) -> sessionId c = Some s ->
     exists k', In (clientRegistered k' s) (emitted w)).

Local Abbreviation inputs_follow_registration w :=
  (forall pre post s, emitted w = pre ++ input s :: post ->
     exists k', In (clientRegistered k' s) pre).

Local Abbreviation routed w := (registered_sessions w /\ inputs_follow_registration w).

Lemma snoc_split {A} (l pre post : list A) (e x : A) :
  l ++ [e] = pre ++ x :: post ->
  (post = [] /\ e = x /\ l = pre) \/ (exists post', post = post' ++ [e] /\ l = pre ++ x :: post').
Proof.
  induction post as [|y post' _] using rev_ind.
  - intros H. apply app_inj_tail in H as [-> ->]. by left.
  - rewrite app_comm_cons, app_assoc. intros H. apply app_inj_tail in H as [-> ->].
    right. by exists post'.
Qed.

Lemma routed_clients w w' :
  emitted w' = emitted w ->
  (forall k c, In (k, c) (clients w') ->
     sessionId c = None \/
     exists k0 c0, In (k0, c0) (clients w) /\ sessionId c = sessionId c0) ->
  routed w -> routed w'.
Proof.
  intros He Hc [H1 H2]. split.
  - intros k c s Hin Hs. rewrite He.
    destruct (Hc k c Hin) as [Hn|(k0 & c0 & Hin0 & Heq)]; [congruence|].
    apply (H1 k0 c0 s); [done|congruence].
  - intros pre post s. rewrite He. apply H2.
Qed.

Lemma routed_update_any k f w :
  (forall c, sessionId (f c) = sessionId c) ->
  routed w -> routed (with_clients (JsMap.update k f (clients w)) w).
Proof.
  intros Hf. apply routed_clients; [done|].
  intros k' c Hin. cbn [clients with_clients] in Hin. right.
  apply jsmap_In_update in Hin as (c0 & Hin & [->| ->]); exists k', c0; split; try done.
Qed.

Lemma routed_delete k w :
  routed w -> routed (with_clients (JsMap.delete k (clients w)) w).
Proof.
  apply routed_clients; [done|].
  intros k' c Hin. cbn [clients with_clients] in Hin. apply jsmap_In_delete_sub in Hin.
  right. by exists k', c.
Qed.

Lemma routed_sendMessage k m b w :
  routed w -> routed (snd (sendMessage wire_length k m b w)).
Proof.
  apply routed_clients; [apply sendMessage_emitted|].
  intros k' c Hin. right.
  destruct (sendMessage_clients k m b w) as [Heq|Heq]; rewrite Heq in Hin.
  - by exists k', c.
  - apply jsmap_In_update in Hin as (c0 & Hin & [->| ->]); by exists k', c0.
Qed.

Lemma routed_emit e w :
  (forall s, e <> input s) -> routed w -> routed (emit e w).
Proof.
  intros He [H1 H2]. split.
  - intros k c s Hin Hs. destruct (H1 k c s Hin Hs) as [k' Hk'].
    exists k'. cbn [emitted emit]. apply in_app_iff. by left.
  - intros pre post s. cbn [emitted emit]. intros Heq.
    apply snoc_split in Heq as [(_ & -> & _)|(post' & _ & Heq)]; [by destruct (He s)|].
    by eapply H2.
Qed.

Lemma routed_input k c s w :
  In (k, c) (clients w) -> sessionId c = Some s ->
  routed w -> routed (emit (input s) w).
Proof.
  intros Hin Hs [H1 H2]. split.
  - intros k1 c1 s1 Hin1 Hs1. destruct (H1 k1 c1 s1 Hin1 Hs1) as [k' Hk'].
    exists k'. cbn [emitted emit]. apply in_app_iff. by left.
  - intros pre post s1. cbn [emitted emit]. intros Heq.
    apply snoc_split in Heq as [(_ & [= <-] & <-)|(post' & _ & Heq)]; [|by eapply H2].
    by apply (H1 k c s).
Qed.

Lemma routed_register k s m b w :
  routed w ->
  routed (emit (clientRegistered k s)
            (snd (sendMessage wire_length k m b
                    (with_clients (JsMap.update k (set_session s) (clients w)) w)))).
Proof.
  intros [H1 H2].
  set (w1 := with_clients _ w). set (w2 := snd (sendMessage wire_length k m b w1)).
  assert (emitted w2 = emitted w) as He by (unfold w2; by rewrite sendMessage_emitted).
  assert (forall k' c, In (k', c) (clients w2) ->
            exists c0, In (k', c0) (clients w) /\
                       (sessionId c = sessionId c0 \/ sessionId c = Some s)) as Hc.
  { intros k' c Hin.
    assert (exists c1, In (k', c1) (clients w1) /\ sessionId c = sessionId c1) as (c1 & Hin1 & Hs1).
    { unfold w2 in Hin. destruct (sendMessage_clients k m b w1) as [Heq|Heq]; rewrite Heq in Hin.
      - by exists c.
      - apply jsmap_In_update in Hin as (c0 & Hin & [->| ->]); by exists c0. }
    unfold w1 in Hin1. cbn [clients with_clients] in Hin1.
    apply jsmap_In_update in Hin1 as (c0 & Hin0 & [->| ->]); exists c0; split; try done.
    - by left.
    - right. by rewrite Hs1. }
  split.
  - intros k' c s' Hin Hs. cbn [emitted emit clients] in *. rewrite He.
    destruct (Hc k' c Hin) as (c0 & Hin0 & [Heq|Heq]).
    + destruct (H1 k' c0 s' Hin0) as [k1 Hk1]; [congruence|].
      exists k1. apply in_app_iff. by left.
    + exists k. apply in_app_iff. right. left. congruence.
  - intros pre post s'. cbn [emitted emit]. rewrite He. intros Heq.
    apply snoc_split in Heq as [(_ & [=] & _)|(post' & _ & Heq)]. by eapply H2.
Qed.

Lemma truthy_Some o s : truthy o = Some s -> o = Some s.
Proof.
  unfold truthy. destruct o as [x|]; [|done]. by destruct (String.eqb x "").
Qed.

Lemma routed_pingLoop entries now o w :
  routed w -> routed (pingLoop cfg entries now o w).
Proof.
  revert w. induction entries as [|[k c] rest IH]; intros w Hr; [done|].
  cbn [pingLoop]. destruct (keeps cfg now c).
  - assert (routed (with_clients (JsMap.update k pinged (clients w)) w)) as Hr1
      by (by apply routed_update_any).
    destruct (ping_ok o k); [by apply IH|done].
  - destruct (terminate_ok o k); [|done]. apply IH.
    apply routed_emit; [done|]. by apply routed_delete.
Qed.

Lemma routed_step c w : routed w -> routed (step cfg wire_length c w).
Proof.
  intros Hr. destruct c; cbn [step].
  - (* Connection *)
    unfold handleConnection. apply routed_emit; [done|]. apply routed_sendMessage.
    revert Hr. apply routed_clients; [done|].
    intros k c Hin. cbn [clients with_clients] in Hin.
    apply jsmap_In_set in Hin as [Hin|[-> ->]]; [right; by exists k, c|by left].
  - (* Message *)
    unfold handleMessage. destruct (JsMap.get clientId (clients w)) as [c0|]; [|done].
    set (w1 := with_clients _ w).
    assert (routed w1) as Hr1 by (by apply routed_update_any).
    destruct (parsed m) as [p|]; [|by apply routed_sendMessage].
    unfold processMessage. destruct (JsMap.get clientId (clients w1)) as [c1|] eqn:Hc1; [|done].
    destruct p as [|type sid]; [done|].
    repeat case_bool_decide; try by apply routed_sendMessage.
    + destruct (truthy sid); [by apply routed_register|by apply routed_sendMessage].
    + destruct (truthy (sessionId c1)) as [s|] eqn:Hs; [|by apply routed_sendMessage].
      apply (routed_input clientId c1 s); [by apply jsmap_get_In|by apply truthy_Some|done].
    + by apply routed_emit.
  - (* Close *)
    unfold handleClose. destruct (JsMap.get clientId (clients w)); [|done].
    apply routed_emit; [done|]. by apply routed_delete.
  - (* ClientError *)
    unfold handleClientError, closeConnection.
    destruct (JsMap.get clientId (clients w)); [|done].
    destruct (negb close_ok); [done|]. cbn [snd].
    apply routed_emit; [done|]. by apply routed_delete.
  - (* Pong *)
    unfold handlePong. destruct (JsMap.get clientId (clients w)); [|done].
    by apply routed_update_any.
  - (* PingClients *)
    by apply routed_pingLoop.
  - by apply routed_sendMessage.
  - unfold sendMessageToSession. destruct (findClient sid (clients w)); [|done].
    by apply routed_sendMessage.
  - unfold closeConnection. destruct (JsMap.get clientId (clients w)); [|done].
    destruct (negb close_ok); [done|]. cbn [snd].
    apply routed_emit; [done|]. by apply routed_delete.
  - by apply routed_update_any.
  - revert Hr. apply routed_clients; [done|]. by intros k c [].
Qed.

(** X15.  Input is only forwarded for a session some client registered
    for: in every run of the service started on the state the constructor
    builds, each ['input'] event emitted for a session comes after a
    ['clientRegistered'] event for the same session. *)
Theorem X15_input_only_for_registered_sessions cs pre post s :
  emitted (run cfg wire_length cs init) = pre ++ input s :: post ->
  exists k, In (clientRegistered k s) pre.
Proof.
  assert (routed (run cfg wire_length cs init)) as [_ H2]; [|by apply H2].
  unfold run. rewrite <- fold_left_rev_right.
  induction (rev cs) as [|c l IH]; cbn [fold_right].
  - split; [by intros ? ? ? []|]. intros pre' post' s' Heq. by destruct pre'.
  - by apply routed_step.
Qed.

End WebSocketRuns.

Section WebSocketWitnesses.

Import WebSocketService WebSocketScenario.

Lemma connected_nodup : NoDup (JsMap.keys (clients connected)).
Proof. apply (bool_decide_unpack _). by vm_compute. Qed.

Lemma calm_sockets_calm : calm calm_sockets.
Proof. by split. Qed.

Lemma X11_tick_witness :
  clients (pingClients cfg 5000 calm_sockets connected)
  = map (fun e : string * Client => (e.1, pinged e.2))
      (List.filter (fun e => keeps cfg 5000 e.2) (clients connected)).
Proof.
  exact (proj1 (X11_ping_tick_keeps_the_live_and_recent cfg 5000 calm_sockets connected
                  connected_nodup calm_sockets_calm)).
Defined.

Lemma X12_pong_witness :
  JsMap.get "c1" (clients (pingClients cfg 20000 calm_sockets (handlePong "c1" 2000 connected)))
  = None.
Proof.
  refine (X12_pong_older_than_pingTimeout_is_not_enough cfg "c1" 2000 20000 calm_sockets
            connected
            {| open := true; createdAt := 0; lastActivityAt := 1000; isAlive := true;
               sessionId := Some "s1";
               stats := {| messagesSent := 2; messagesReceived := 1;
                           bytesSent := 128; bytesReceived := 40 |} |}
            connected_nodup calm_sockets_calm _).
  by vm_compute.
Defined.

Lemma X13_silent_client_witness :
  JsMap.get "c1"
    (clients (run cfg wire_length
                [PingClients 5000 calm_sockets; Pong "c1" 5040; PingClients 35000 calm_sockets]
                connected))
  = None.
Proof.
  refine (X13_answering_pings_does_not_keep_a_silent_client cfg wire_length "c1" 5000 5040
            calm_sockets calm_sockets connected
            {| open := true; createdAt := 0; lastActivityAt := 1000; isAlive := true;
               sessionId := Some "s1";
               stats := {| messagesSent := 2; messagesReceived := 1;
                           bytesSent := 128; bytesReceived := 40 |} |}
            connected_nodup calm_sockets_calm calm_sockets_calm _ _ _).
  - by vm_compute.
  - by vm_compute.
  - vm_compute. done.
Defined.

Lemma X14_traffic_witness :
  clients (pingClients cfg 35000 calm_sockets
             (run cfg wire_length [Message "c1" click true 34000]
                (pingClients cfg 5000 calm_sockets connected))) = [].
Proof.
  refine (X14_two_ticks_without_pong_drop_every_client cfg wire_length 5000 35000
            calm_sockets calm_sockets [Message "c1" click true 34000] connected
            connected_nodup calm_sockets_calm calm_sockets_calm _).
  done.
Defined.

Lemma X15_input_witness :
  emitted (run cfg wire_length clicking init)
  = [clientConnected "c1"; clientRegistered "c1" "s1"] ++ input "s1" :: [] /\
  exists k, In (clientRegistered k "s1") [clientConnected "c1"; clientRegistered "c1" "s1"].
Proof.
  split; [by vm_compute|].
  refine (X15_input_only_for_registered_sessions cfg wire_length clicking
            [clientConnected "c1"; clientRegistered "c1" "s1"] [] "s1" _).
  by vm_compute.
Defined.

End WebSocketWitnesses.

(** ** WebSocket service: messages addressed to a session *)

Section SessionRouting.

Import WebSocketService.

Variable wire_length : Outgoing -> nat.

Implicit Types (w : t) (sid k : string) (c : Client).

Lemma findClient_first sid pre k1 c1 post :
  sessionId c1 = Some sid ->
  Forall (fun x => sessionId x.2 <> Some sid) pre ->
  findClient sid (pre ++ (k1, c1) :: post) = Some k1.
Proof.
  intros Hc Hpre. induction pre as [|[k c] pre IH]; cbn [app findClient].
  - by rewrite bool_decide_eq_true_2.
  - apply Forall_cons in Hpre as [Hk Hpre]. cbn [snd] in Hk.
    rewrite bool_decide_eq_false_2 by done. by apply IH.
Qed.

Lemma jsmap_get_app_fresh {V} k (v : V) pre post :
  ~ In k (JsMap.keys pre) -> JsMap.get k (pre ++ (k, v) :: post) = Some v.
Proof.
  intros Hk. induction pre as [|[k' v'] pre IH]; cbn [app JsMap.get].
  - by rewrite String.eqb_refl.
  - destruct (String.eqb_spec k' k) as [->|Hne]; [exfalso; apply Hk; by left|].
    apply IH. intros Hin. apply Hk. by right.
Qed.

Lemma sendMessage_keys k m b w :
  JsMap.keys (clients (snd (sendMessage wire_length k m b w))) = JsMap.keys (clients w).
Proof.
  unfold sendMessage. destruct (JsMap.get k (clients w)) as [c|]; [|done].
  destruct (negb (open c)); [done|]. destruct (negb b); [done|].
  cbn [snd clients]. by rewrite jsmap_keys_update.
Qed.

(** Handling a message, a registration included, leaves every client at
    its place in the registry. *)
Lemma handleMessage_keys k inc b now w :
  JsMap.keys (clients (handleMessage wire_length k inc b now w)) = JsMap.keys (clients w).
Proof.
  unfold handleMessage. destruct (JsMap.get k (clients w)) as [c0|]; [|done].
  set (w1 := with_clients _ w).
  assert (JsMap.keys (clients w1) = JsMap.keys (clients w)) as H1
    by (unfold w1; cbn [clients with_clients]; by rewrite jsmap_keys_update).
  destruct (parsed inc) as [p|]; [|by rewrite sendMessage_keys].
  unfold processMessage. destruct (JsMap.get k (clients w1)) as [c1|]; [|done].
  destruct p as [|type sid]; [done|].
  repeat case_bool_decide; rewrite ?sendMessage_keys; try done.
  - destruct (truthy sid); cbn [clients emit]; rewrite sendMessage_keys; [|done].
    cbn [clients with_clients]. by rewrite jsmap_keys_update.
  - destruct (truthy (sessionId c1)); [done|]. by rewrite sendMessage_keys.
Qed.

(** A new client goes to the end of the registry. *)
Lemma handleConnection_keys uuid socket_open b now w :
  JsMap.get uuid (clients w) = None ->
  JsMap.keys (clients (handleConnection wire_length uuid socket_open b now w))
  = JsMap.keys (clients w) ++ [uuid].
Proof.
  intros Hnew. unfold handleConnection. cbn [clients emit].
  rewrite sendMessage_keys. cbn [clients with_clients]. by apply jsmap_keys_set_absent.
Qed.

(** X27.  A message addressed to a session goes to one client only, and
    that client is chosen by connection order, not by registration order.
    The registry keeps the clients in the order in which they connected:
    a new connection goes to its end, and handling a message, a
    registration included, moves no client.  When several clients carry
    the session id, [sendMessageToSession] addresses the first of them in
    the order of the registry, whichever of them registered first: it
    writes to that client if its socket is open and the write does not
    throw, and otherwise writes nothing and returns [false], whatever the
    state of the later clients; the other clients are left untouched, and
    [getClientBySessionId] answers that same client. *)
Theorem X27_session_messages_go_to_the_earliest_connection sid m send_ok w pre k1 c1 post :
  clients w = pre ++ (k1, c1) :: post ->
  sessionId c1 = Some sid ->
  Forall (fun x => sessionId x.2 <> Some sid) pre ->
  ~ In k1 (JsMap.keys pre) ->
  let r := sendMessageToSession wire_length sid m send_ok w in
  fst r = open c1 && send_ok /\
  sent (snd r) = sent w ++ (if open c1 && send_ok then [(k1, m)] else []) /\
  (forall k, k <> k1 -> JsMap.get k (clients (snd r)) = JsMap.get k (clients w)) /\
  getClientBySessionId sid w = Some (k1, c1) /\
  (forall k inc b now,
     JsMap.keys (clients (handleMessage wire_length k inc b now w)) = JsMap.keys (clients w)) /\
  (forall uuid socket_open b now,
     JsMap.get uuid (clients w) = None ->
     JsMap.keys (clients (handleConnection wire_length uuid socket_open b now w))
     = JsMap.keys (clients w) ++ [uuid]).
Proof.
  intros Hw Hc Hpre Hk. cbn zeta.
  assert (findClient sid (clients w) = Some k1) as Hfind
    by (rewrite Hw; by apply findClient_first).
  assert (JsMap.get k1 (clients w) = Some c1) as Hget
    by (rewrite Hw; by apply jsmap_get_app_fresh).
  unfold sendMessageToSession, getClientBySessionId. rewrite Hfind, Hget.
  unfold sendMessage. rewrite Hget.
  destruct (open c1), send_ok; cbn [negb andb fst snd sent clients];
    (split_and!; [done|by rewrite ?app_nil_r| |done|intros; apply handleMessage_keys
                 |intros; by apply handleConnection_keys]);
    try done.
  intros k Hne. by rewrite jsmap_get_update_ne.
Qed.

End SessionRouting.

Section SessionRoutingWitness.

Import WebSocketService WebSocketScenario.

Lemma X27_two_tabs_witness :
  emitted two_tabs
  = [clientConnected "c1"; clientConnected "c2";
     clientRegistered "c2" "s1"; clientRegistered "c1" "s1"] /\
  (open <$> JsMap.get "c2" (clients two_tabs)) = Some true /\
  fst (sendMessageToSession wire_length "s1" (payload "frame") true two_tabs) = false /\
  sent (snd (sendMessageToSession wire_length "s1" (payload "frame") true two_tabs))
  = sent two_tabs.
Proof.
  split; [by vm_compute|]. split; [by vm_compute|].
  destruct (clients two_tabs) as [|[k1 c1] post] eqn:Hw; [by vm_compute in Hw|].
  assert (k1 = "c1" /\ sessionId c1 = Some "s1" /\ open c1 = false) as (-> & Hs & Ho).
  { vm_compute in Hw. injection Hw as <- <- _. by split_and!. }
  destruct (X27_session_messages_go_to_the_earliest_connection wire_length "s1"
              (payload "frame") true two_tabs [] "c1" c1 post Hw Hs (Forall_nil_2 _)
              (fun F => F)) as (Hr & Hsent & _).
  rewrite Hr, Hsent, Ho. split; [done|]. by rewrite app_nil_r.
Defined.

End SessionRoutingWitness.

(** ** Streaming engine: no frame is lost track of *)

Section FrameAccounting.

Import StreamingEngine.

Context {E : Type} `{EncoderBackend E}.

Implicit Types (s : System E) (id pg k : string).

(** The two counters of the processor of a session. *)
Local Abbreviation tally k s :=
  ((fun fp => (processed fp, dropped fp)) <$> frameProcessors (engine s) !! k).

Lemma queued_put_processor id fp s k :
  queued k (put_processor id fp s)
  = if String.eqb id k then length (frameQueue fp) else queued k s.
Proof.
  unfold queued, put_processor. cbn [engine with_engine frameProcessors with_processors].
  destruct (String.eqb_spec id k) as [->|Hne].
  - by rewrite lookup_insert_eq.
  - by rewrite lookup_insert_ne.
Qed.

Lemma tally_put_processor id fp s k :
  tally k (put_processor id fp s)
  = if String.eqb id k then Some (processed fp, dropped fp) else tally k s.
Proof.
  unfold put_processor. cbn [engine with_engine frameProcessors with_processors].
  destruct (String.eqb_spec id k) as [->|Hne].
  - by rewrite lookup_insert_eq.
  - by rewrite lookup_insert_ne.
Qed.

Lemma pending_ext s s' k :
  encoding s' = encoding s -> immediates s' = immediates s -> queued k s' = queued k s ->
  pending k s' = pending k s.
Proof. unfold pending. by intros -> -> ->. Qed.

(** A frame handed to [processFrame] of a session that has a processor is
    on its way afterwards: it is queued or its encode is awaited. *)
Lemma processFrame_effect id f o s fp :
  frameProcessors (engine s) !! id = Some fp ->
  let s' := snd (processFrame id f o s) in
  streams (engine s') = streams (engine s) /\
  (forall k, pending k s' = (pending k s + if String.eqb id k then 1 else 0)%nat) /\
  (forall k, tally k s' = tally k s).
Proof.
  intros Hfp. destruct (processing fp) eqn:Hp.
  - rewrite (processFrame_busy id f o s fp) by done. cbn [snd]. split_and!; [done| |].
    + intros k. unfold pending. rewrite queued_put_processor.
      cbn [encoding immediates put_processor with_engine].
      destruct (String.eqb_spec id k) as [<-|Hne]; [|lia].
      unfold queued. rewrite Hfp. cbn [frameQueue enqueue]. rewrite length_app. simpl. lia.
    + intros k. rewrite tally_put_processor.
      destruct (String.eqb_spec id k) as [<-|Hne]; [|done]. by rewrite Hfp.
  - destruct (processFrame_idle id f o s fp Hfp Hp) as (H1 & H2 & H3 & H4).
    cbn zeta in *. split_and!; [done| |].
    + intros k. unfold pending, queued. rewrite H1, H3, H4, cnt_app, cnt_single.
      destruct (String.eqb_spec id k) as [<-|Hne].
      * rewrite lookup_insert_eq, Hfp. cbn [frameQueue set_processing]. lia.
      * rewrite lookup_insert_ne by done. lia.
    + intros k. rewrite H1. destruct (decide (id = k)) as [<-|Hne].
      * by rewrite lookup_insert_eq, Hfp.
      * by rewrite lookup_insert_ne.
Qed.

Lemma accounted_ext s s' k :
  JsMap.get k (streams (engine s')) = JsMap.get k (streams (engine s)) ->
  tally k s' = tally k s ->
  pending k s' = pending k s ->
  accounted k s -> accounted k s'.
Proof.
  intros Hst Ht Hp Hacc st Hget. rewrite Hst in Hget.
  destruct (Hacc st Hget) as (fp & Hfp & Hsum & Hd).
  rewrite Hfp in Ht. cbn in Ht.
  destruct (frameProcessors (engine s') !! k) as [fp'|]; [|done].
  injection Ht as Hpr Hdr. exists fp'. split; [done|]. rewrite Hp. split; congruence.
Qed.

Lemma handleScreencastFrame_accounted pg f o s :
  (forall k, accounted k s) -> forall k, accounted k (handleScreencastFrame pg f o s).
Proof.
  intros Hacc k. unfold handleScreencastFrame.
  destruct (findSession pg (streams (engine s))) as [id|]; [|done].
  destruct (String.eqb id ""); [done|].
  destruct (JsMap.get id (streams (engine s))) as [st|] eqn:Hst; [|done].
  destruct (negb (active st)); [done|].
  destruct (Hacc id st Hst) as (fp & Hfp & Hsum & Hd).
  set (s1 := with_engine _ s).
  assert (frameProcessors (engine s1) !! id = Some fp) as Hfp1 by done.
  rewrite Hfp1.
  destruct (decide (k = id)) as [->|Hne].
  - (* the session the frame belongs to *)
    destruct (too_early (gate_now o) fp).
    + intros st' Hget. exists (processor_dropped fp).
      revert Hget. unfold put_processor.
      cbn [engine with_engine frameProcessors with_processors streams with_streams s1].
      rewrite lookup_insert_eq, !jsmap_get_update_eq, Hst. cbn. intros [= <-].
      split; [done|]. cbn [frameCount droppedFrameCount received stream_dropped processed
                           dropped processor_dropped].
      unfold pending, queued.
      cbn [engine with_engine frameProcessors with_processors encoding immediates].
      rewrite lookup_insert_eq. cbn [frameQueue processor_dropped].
      unfold pending, queued in Hsum. rewrite Hfp in Hsum. unfold cnt in *. split; lia.
    + set (s2 := put_processor id (accepted_at (gate_now o) fp) s1).
      assert (frameProcessors (engine s2) !! id = Some (accepted_at (gate_now o) fp)) as Hfp2
        by (unfold s2, put_processor; cbn; apply lookup_insert_eq).
      destruct (processFrame_effect id f (frame_tick o) s2 _ Hfp2) as (Hs & Hp & Ht).
      cbn zeta in *. intros st' Hget. rewrite Hs in Hget.
      unfold s2, put_processor, s1 in Hget.
      cbn [engine with_engine streams with_streams with_processors] in Hget.
      rewrite jsmap_get_update_eq, Hst in Hget. cbn in Hget. injection Hget as <-.
      specialize (Ht id). rewrite Hfp2 in Ht. cbn in Ht.
      destruct (frameProcessors (engine (snd (processFrame id f (frame_tick o) s2))) !! id)
        as [fp'|]; [|done].
      injection Ht as Hpr Hdr. exists fp'. split; [done|].
      rewrite Hp, String.eqb_refl.
      assert (pending id s2 = pending id s) as ->.
      { apply pending_ext; [done..|]. unfold s2. rewrite queued_put_processor, String.eqb_refl.
        unfold queued. cbn [engine with_engine s1 frameProcessors with_streams]. by rewrite Hfp. }
      cbn [frameCount droppedFrameCount received]. split; [lia|congruence].
  - (* any other session *)
    assert (JsMap.get k (streams (engine s1)) = JsMap.get k (streams (engine s))) as Hk1.
    { unfold s1. cbn [engine with_engine streams with_streams].
      rewrite jsmap_get_update_ne; [done|congruence]. }
    destruct (too_early (gate_now o) fp).
    + apply (accounted_ext s); [| | |apply Hacc].
      * unfold put_processor. cbn [engine with_engine streams with_streams with_processors].
        rewrite jsmap_get_update_ne by congruence. exact Hk1.
      * rewrite tally_put_processor. destruct (String.eqb_spec id k); [congruence|done].
      * apply pending_ext; [done..|]. rewrite queued_put_processor.
        destruct (String.eqb_spec id k); [congruence|done].
    + set (s2 := put_processor id (accepted_at (gate_now o) fp) s1).
      assert (frameProcessors (engine s2) !! id = Some (accepted_at (gate_now o) fp)) as Hfp2
        by (unfold s2, put_processor; cbn; apply lookup_insert_eq).
      destruct (processFrame_effect id f (frame_tick o) s2 _ Hfp2) as (Hs & Hp & Ht).
      cbn zeta in *. apply (accounted_ext s); [| | |apply Hacc].
      * rewrite Hs. exact Hk1.
      * rewrite Ht. unfold s2. rewrite tally_put_processor.
        destruct (String.eqb_spec id k); [congruence|done].
      * rewrite Hp. destruct (String.eqb_spec id k); [congruence|].
        rewrite Nat.add_0_r. apply pending_ext; [done..|]. unfold s2.
        rewrite queued_put_processor. destruct (String.eqb_spec id k); [congruence|done].
Qed.

Lemma encodeDone_accounted id o s :
  (forall k, accounted k s) -> forall k, accounted k (encodeDone id o s).
Proof.
  intros Hacc k. unfold encodeDone.
  destruct (take id (encoding s)) as [[f rest]|] eqn:Ht; [|done].
  apply take_Some in Ht as [Hc Hother].
  set (s3 := with_engine _ _).
  assert (frameProcessors (engine s3) = frameProcessors (engine s)) as Hfp3
    by (unfold s3; cbn [engine with_engine]; apply updatePerformanceMetrics_processors).
  assert (streams (engine s3) = streams (engine s)) as Hst3.
  { unfold s3. cbn [engine with_engine with_encoder with_encoding].
    unfold updatePerformanceMetrics. by destruct (performanceMetrics _ !! id). }
  assert (encoding s3 = rest) as He3 by done.
  assert (immediates s3 = immediates s) as Hi3 by done.
  rewrite Hfp3.
  destruct (frameProcessors (engine s) !! id) as [fp|] eqn:Hfp.
  2:{ (* no processor: the session has no stream either *)
      intros st Hget. rewrite Hst3 in Hget.
      destruct (Hacc k st Hget) as (fp' & Hfp' & Hsum & Hd).
      exists fp'. rewrite Hfp3. split; [done|]. split; [|done].
      rewrite Hsum. unfold pending, queued. rewrite He3, Hi3, Hfp3.
      destruct (decide (k = id)) as [->|Hne]; [congruence|]. by rewrite Hother. }
  set (s4 := put_processor id (finished fp) s3).
  assert (forall s5, streams (engine s5) = streams (engine s4) ->
            frameProcessors (engine s5) = frameProcessors (engine s4) ->
            encoding s5 = rest ->
            (forall j, cnt j (immediates s5)
                       = (cnt j (immediates s)
                          + if String.eqb id j then length (frameQueue fp)
                                                    - length (frameQueue (finished fp))
                            else 0)%nat) ->
            accounted k s5) as Hgen.
  { intros s5 Hs5 Hf5 He5 Hi5 st Hget. rewrite Hs5 in Hget.
    unfold s4, put_processor in Hget. cbn [engine with_engine streams with_processors] in Hget.
    rewrite Hst3 in Hget. destruct (Hacc k st Hget) as (fp' & Hfp' & Hsum & Hd).
    destruct (decide (k = id)) as [->|Hne].
    - rewrite Hfp in Hfp'. injection Hfp' as <-. exists (finished fp).
      rewrite Hf5. unfold s4, put_processor. cbn [engine with_engine frameProcessors with_processors].
      rewrite lookup_insert_eq. split; [done|]. split; [|done].
      rewrite Hsum. unfold pending, queued. rewrite He5, Hi5, Hf5, String.eqb_refl, Hfp.
      unfold s4, put_processor. cbn [engine with_engine frameProcessors with_processors].
      rewrite lookup_insert_eq. cbn [frameQueue finished processed]. rewrite Hc.
      destruct (frameQueue fp); simpl; lia.
    - exists fp'. rewrite Hf5. unfold s4, put_processor.
      cbn [engine with_engine frameProcessors with_processors].
      rewrite lookup_insert_ne by done. rewrite Hfp3. split; [done|]. split; [|done].
      rewrite Hsum. unfold pending, queued. rewrite He5, Hi5, Hf5.
      unfold s4, put_processor. cbn [engine with_engine frameProcessors with_processors].
      rewrite lookup_insert_ne by done. rewrite Hfp3, Hother by done.
      destruct (String.eqb_spec id k); [congruence|]. lia. }
  destruct (frameQueue fp) as [|g q] eqn:Hq.
  - apply Hgen; try done. intros j. change (immediates s4) with (immediates s).
    destruct (String.eqb id j); cbn [frameQueue finished]; rewrite ?Hq; simpl; lia.
  - apply Hgen; try done. intros j.
    cbn [immediates with_immediates]. rewrite cnt_app, cnt_single.
    change (immediates s4) with (immediates s).
    destruct (String.eqb id j); cbn [frameQueue finished]; rewrite ?Hq; simpl; lia.
Qed.

Lemma runImmediate_accounted o s :
  (forall k, accounted k s) -> forall k, accounted k (runImmediate o s).
Proof.
  intros Hacc k. unfold runImmediate.
  destruct (immediates s) as [|[id f] rest] eqn:Hi; [done|].
  set (s1 := with_immediates rest s).
  assert (forall j, cnt j (immediates s) = (cnt j rest + if String.eqb id j then 1 else 0)%nat)
    as Hcnt.
  { intros j. rewrite Hi. unfold cnt. simpl. destruct (String.eqb id j); simpl; lia. }
  destruct (frameProcessors (engine s1) !! id) as [fp|] eqn:Hfp.
  - destruct (processFrame_effect id f o s1 fp Hfp) as (Hs & Hp & Ht). cbn zeta in *.
    apply (accounted_ext s); [by rewrite Hs|by rewrite Ht| |apply Hacc].
    rewrite Hp. unfold pending, s1. cbn [encoding immediates with_immediates].
    rewrite (Hcnt k). unfold queued. cbn [engine with_immediates]. lia.
  - rewrite processFrame_missing by done. cbn [snd].
    intros st Hget. change (streams (engine s1)) with (streams (engine s)) in Hget.
    destruct (Hacc k st Hget) as (fp' & Hfp' & Hsum & Hd).
    exists fp'. split; [done|]. split; [|done].
    rewrite Hsum. unfold pending, queued, s1. cbn [encoding immediates with_immediates engine].
    rewrite (Hcnt k). destruct (String.eqb_spec id k) as [->|Hne]; [|lia].
    change (frameProcessors (engine s1)) with (frameProcessors (engine s)) in Hfp. congruence.
Qed.

(** X16.  The frame counters add up along every run of the frame path
    (raw frames arriving, encodes settling, calls scheduled with
    [setImmediate] running): if for every stream the number of raw frames
    counted equals the frames dropped plus the frames processed plus the
    frames still on their way (queued, awaited by an encode or handed to
    [setImmediate]), and the processor and the stream agree on the number
    of drops, then the same holds after the run.  No accepted frame
    disappears without being processed. *)
Theorem X16_frame_counters_add_up (l : list FrameStep) (s : System E) :
  (forall id, accounted id s) ->
  forall id, accounted id (frameRun l s).
Proof.
  revert s. induction l as [|st l IH]; intros s Hacc; [done|].
  cbn [frameRun fold_left]. apply IH. destruct st; cbn [frameStep].
  - by apply handleScreencastFrame_accounted.
  - by apply encodeDone_accounted.
  - by apply runImmediate_accounted.
Qed.

End FrameAccounting.

Section FrameAccountingWitness.

Import StreamingEngine EngineScenario.

Lemma streaming_accounted id : accounted id streaming.
Proof.
  intros st Hget. destruct (String.eqb_spec "s1" id) as [<-|Hne].
  - vm_compute in Hget. injection Hget as <-. eexists. split; [by vm_compute|].
    by vm_compute.
  - exfalso. revert Hget.
    assert (streams (engine streaming)
            = [("s1", {| pageId := "p1"; webrtcId := "s1";
                         options := {| frameRate := 30; bitrate := 3000;
                                       encodingStrategy := "cuda_h264";
                                       adaptiveQuality := true |};
                         createdAt := 1000; lastFrameAt := 1000; frameCount := 0;
                         keyFrameCount := 0; droppedFrameCount := 0; totalBytes := 0;
                         active := true |})]) as -> by (by vm_compute).
    cbn [JsMap.get]. by destruct (String.eqb_spec "s1" id).
Qed.

Lemma X16_counters_witness :
  (forall id, accounted id streaming) /\
  forall id,
    accounted id
      (frameRun
         [ Arrive "p1" (frame 1) (at_ 1100); Arrive "p1" (frame 2) (at_ 1200);
           Arrive "p1" (frame 3) (at_ 1300); EncodeDone "s1" (settled 1350) ]
         streaming).
Proof.
  split; [exact streaming_accounted|].
  apply X16_frame_counters_add_up. exact streaming_accounted.
Defined.

End FrameAccountingWitness.

(** ** Streaming engine: creating and closing streams *)

Section StreamLifecycle.

Import StreamingEngine.

Context {E : Type} `{EncoderBackend E}.

Variable cfgB : Config.BROWSER.
Variable launchPages : nat.
Variable cfgS : Config.SESSION.

Implicit Types (s : System E) (id pg : string).

(** The registries of the engine once a stream was registered. *)
Local Abbreviation registered id st now e :=
  (emit (streamCreated id)
     (initializePerformanceMetrics id now
        (let e2 := createFrameProcessor id (options st) now
                     (with_streams (JsMap.set id st (streams e)) e) in
         if adaptive e2 then createAdaptiveQualityController id (options st) now e2 else e2))).

(** What a successful [createStream] returns for a new stream. *)
Local Abbreviation fresh_stream pg rtc r now :=
  {| pageId := pg; webrtcId := rtc; options := stream_options r;
     createdAt := now; lastFrameAt := now;
     frameCount := 0; keyFrameCount := 0; droppedFrameCount := 0;
     totalBytes := 0; active := true |}.

Lemma startScreencast_running pg now ok p r p' :
  BrowserPool.startScreencast pg now ok p = (Js.Return r, p') ->
  exists i, JsMap.get pg (BrowserPool.pages p') = Some i /\
            BrowserPool.screencastRunning i = true.
Proof.
  unfold BrowserPool.startScreencast, BrowserPool.getPage.
  destruct (JsMap.get pg (BrowserPool.pages p)) as [i|] eqn:Hp; [|done].
  destruct (BrowserPool.screencastRunning (BrowserPool.touch now i)) eqn:Hrun.
  - intros [= <- <-]. exists (BrowserPool.touch now i).
    cbn [BrowserPool.pages BrowserPool.with_pages]. by rewrite jsmap_get_update_eq, Hp.
  - destruct ok; [|done]. intros [= <- <-].
    cbn [BrowserPool.pages BrowserPool.with_pages BrowserPool.emit].
    rewrite !jsmap_get_update_eq, Hp. cbn. eexists. by split.
Qed.

Lemma finishCreateStream_spec id pg rtc r o s :
  match finishCreateStream id pg rtc r o s with
  | (Js.Throw _, s') => engine s' = engine s
  | (Js.Return st, s') =>
      st = fresh_stream pg rtc r (co_now o) /\
      engine s' = registered id st (co_now o) (engine s) /\
      exists i, JsMap.get pg (BrowserPool.pages (pool s')) = Some i /\
                BrowserPool.screencastRunning i = true
  end.
Proof.
  unfold finishCreateStream.
  destruct (BrowserPool.startScreencast _ _ _ _) as [[r0|e] p] eqn:Hs; [|done].
  split; [done|]. split; [done|].
  apply startScreencast_running in Hs. cbn [pool with_engine]. by rewrite detach_pool.
Qed.

Lemma openChannel_spec id pg r session o s :
  match openChannel cfgS id pg r session o s with
  | (Js.Throw _, s') => engine s' = engine s
  | (Js.Return st, s') =>
      (exists rtc, st = fresh_stream pg rtc r (co_now o)) /\
      engine s' = registered id st (co_now o) (engine s) /\
      exists i, JsMap.get pg (BrowserPool.pages (pool s')) = Some i /\
                BrowserPool.screencastRunning i = true
  end.
Proof.
  unfold openChannel.
  destruct (Js.or_string (req_webrtcId r) _) as [|a rtc].
  - destruct (WebRTCService.createConnection _ _ _ _) as [[c|e] w]; [|done].
    destruct (SessionManager.updateSession _ _ _ _ _) as [[x|e] m]; [|done].
    pose proof (finishCreateStream_spec id pg id r o
                  (with_sessionManager m (with_webrtc w s))) as Hf.
    destruct (finishCreateStream _ _ _ _ _ _) as [[st|e] s']; [|done].
    destruct Hf as (-> & He & Hp). split; [by eexists|]. by split.
  - pose proof (finishCreateStream_spec id pg (String a rtc) r o s) as Hf.
    destruct (finishCreateStream _ _ _ _ _ _) as [[st|e] s']; [|done].
    destruct Hf as (-> & He & Hp). split; [by eexists|]. by split.
Qed.

Lemma bindPage_spec id pg r session o s :
  match bindPage cfgS id pg r session o s with
  | (Js.Throw _, s') => engine s' = engine s
  | (Js.Return st, s') =>
      (exists rtc, st = fresh_stream pg rtc r (co_now o)) /\
      engine s' = registered id st (co_now o) (engine s) /\
      exists i, JsMap.get pg (BrowserPool.pages (pool s')) = Some i /\
                BrowserPool.screencastRunning i = true
  end.
Proof.
  unfold bindPage. destruct (BrowserPool.getPage _ _ _) as [[i|] p]; [|done].
  apply (openChannel_spec id pg r session o (with_pool p s)).
Qed.

Lemma createStream_spec id r o s :
  JsMap.get id (streams (engine s)) = None ->
  match createStream cfgB launchPages cfgS id r o s with
  | (Js.Throw _, s') => engine s' = engine s
  | (Js.Return st, s') =>
      (exists pg rtc, st = fresh_stream pg rtc r (co_now o)) /\
      engine s' = registered id st (co_now o) (engine s) /\
      exists i, JsMap.get (pageId st) (BrowserPool.pages (pool s')) = Some i /\
                BrowserPool.screencastRunning i = true
  end.
Proof.
  intros Hnew. unfold createStream. rewrite Hnew.
  destruct (SessionManager.getSession _ _ _ _) as [[session|] m]; [|done].
  assert (forall pg session s0, engine s0 = engine s ->
            match bindPage cfgS id pg r session o s0 with
            | (Js.Throw _, s') => engine s' = engine s
            | (Js.Return st, s') =>
                (exists pg rtc, st = fresh_stream pg rtc r (co_now o)) /\
                engine s' = registered id st (co_now o) (engine s) /\
                exists i, JsMap.get (pageId st) (BrowserPool.pages (pool s')) = Some i /\
                          BrowserPool.screencastRunning i = true
            end) as Hbind.
  { intros pg session0 s0 He. pose proof (bindPage_spec id pg r session0 o s0) as Hb.
    destruct (bindPage _ _ _ _ _ _) as [[st|e] s']; [|congruence].
    destruct Hb as ([rtc ->] & He' & Hp). split; [by eexists _, _|].
    split; [by rewrite He', He|done]. }
  destruct (Js.or_string (req_pageId r) _) as [|a pg].
  - destruct (BrowserPool.createPage _ _ _ _ _) as [[[pg info]|e] p]; [|done].
    destruct (SessionManager.updateSession _ _ _ _ _) as [[session'|e] m']; [|done].
    by apply Hbind.
  - by apply Hbind.
Qed.


(** *** Closing *)

Lemma stopScreencast_stopped pg now ok p i :
  JsMap.get pg (BrowserPool.pages (snd (BrowserPool.stopScreencast pg now ok p))) = Some i ->
  BrowserPool.screencastRunning i = false.
Proof.
  unfold BrowserPool.stopScreencast, BrowserPool.getPage.
  destruct (JsMap.get pg (BrowserPool.pages p)) as [i0|] eqn:Hp; [|cbn; congruence].
  cbn [fst snd].
  destruct (BrowserPool.screencastRunning (BrowserPool.touch now i0)) eqn:Hrun; cbn [negb snd].
  - destruct (BrowserPool.client (BrowserPool.touch now i0) && negb ok);
      cbn [snd BrowserPool.pages BrowserPool.with_pages BrowserPool.emit];
      rewrite !jsmap_get_update_eq, Hp; cbn; by intros [= <-].
  - cbn [BrowserPool.pages BrowserPool.with_pages].
    rewrite jsmap_get_update_eq, Hp. cbn. by intros [= <-].
Qed.

Lemma closeStream_spec id reason o s st :
  JsMap.get id (streams (engine s)) = Some st ->
  let r := closeStream id reason o s in
  fst r = negb (so_listener_throws o) /\
  engine (snd r)
  = (if bool_decide (is_Some (WebRTCService.connections (webrtc s) !! id))
     then emit (streamClosed id "webrtc_closed") else fun e => e)
      (emit (streamClosed id reason)
         (forget id (with_streams (JsMap.update id deactivated (streams (engine s)))
                       (engine s)))) /\
  WebRTCService.connections (webrtc (snd r)) !! id = None /\
  (forall k, k <> id ->
     WebRTCService.connections (webrtc (snd r)) !! k = WebRTCService.connections (webrtc s) !! k) /\
  (forall i, JsMap.get (pageId st) (BrowserPool.pages (pool (snd r))) = Some i ->
             BrowserPool.screencastRunning i = false) /\
  sessionManager (snd r) = sessionManager s.
Proof.
  intros Hst. cbn zeta.
  assert (forall w ok, WebRTCService.connections
                         (snd (WebRTCService.closeConnection id ok w)) !! id = None) as Hconn.
  { intros w ok. unfold WebRTCService.closeConnection.
    destruct (WebRTCService.connections w !! id) eqn:Hc; [|done].
    destruct ok; cbn; apply lookup_delete_eq. }
  assert (forall w ok k, k <> id ->
            WebRTCService.connections (snd (WebRTCService.closeConnection id ok w)) !! k
            = WebRTCService.connections w !! k) as Hother.
  { intros w ok k Hk. unfold WebRTCService.closeConnection.
    destruct (WebRTCService.connections w !! id) eqn:Hc; [|done].
    destruct ok; cbn; by apply lookup_delete_ne. }
  destruct (closeStream_found id reason o s st Hst) as (Hr & Hs & _ & He). cbn zeta in *.
  split; [exact Hr|]. split; [exact He|]. rewrite Hs.
  destruct (bool_decide _); unfold streamGone;
    cbn [webrtc pool sessionManager with_engine];
    rewrite ?releaseStream_webrtc, ?releaseStream_pool, ?releaseStream_sessionManager;
    cbn [webrtc pool sessionManager with_engine];
    rewrite ?releaseStream_webrtc, ?releaseStream_pool, ?releaseStream_sessionManager;
    cbn [webrtc pool sessionManager with_engine];
    (split_and!; [apply Hconn|intros k Hk; rewrite ?Hother by done; done
                 |intros i; apply stopScreencast_stopped|done]).
Qed.

(** X18.  [closeStream] on a registered stream releases everything the
    engine holds for the session, whatever the pool, the encoder or the
    transport raise on the way: the stream, its frame processor, its
    controller and its metrics are gone, the transport holds no connection
    under the session id, the screencast of the stream's page is not
    running, and the call returns [true] unless a ['streamClosed'] listener
    threw. *)
Theorem X18_closeStream_releases_everything id reason o s st :
  JsMap.get id (streams (engine s)) = Some st ->
  let r := closeStream id reason o s in
  fst r = negb (so_listener_throws o) /\
  JsMap.get id (streams (engine (snd r))) = None /\
  frameProcessors (engine (snd r)) !! id = None /\
  adaptiveQualityControllers (engine (snd r)) !! id = None /\
  performanceMetrics (engine (snd r)) !! id = None /\
  WebRTCService.connections (webrtc (snd r)) !! id = None /\
  (forall i, JsMap.get (pageId st) (BrowserPool.pages (pool (snd r))) = Some i ->
             BrowserPool.screencastRunning i = false).
Proof.
  intros Hst. destruct (closeStream_spec id reason o s st Hst) as (Hr & He & Hc & _ & Hp & _).
  cbn zeta in *. rewrite He. destruct (bool_decide _); split_and!; try done.
  all: cbn; first [apply jsmap_get_delete_eq|apply lookup_delete_eq].
Qed.

(** *** Shutdown *)

Lemma closeStream_streams id reason o s :
  streams (engine (snd (closeStream id reason o s))) = JsMap.delete id (streams (engine s)).
Proof.
  destruct (JsMap.get id (streams (engine s))) as [st|] eqn:Hst.
  - destruct (closeStream_spec id reason o s st Hst) as (_ & -> & _).
    destruct (bool_decide _); cbn; apply jsmap_delete_update.
  - rewrite (closeStream_absent id reason o s Hst). cbn [snd].
    by rewrite jsmap_delete_absent.
Qed.

Lemma jsmap_keys_delete {V} k (m : JsMap.t V) k' :
  In k' (JsMap.keys (JsMap.delete k m)) <-> In k' (JsMap.keys m) /\ k' <> k.
Proof.
  unfold JsMap.keys. rewrite !in_map_iff. split.
  - intros ([k0 v] & Hk & [Hin Hne]%jsmap_In_delete). cbn in Hk. subst k0.
    split; [|done]. by exists (k', v).
  - intros [([k0 v] & Hk & Hin) Hne]. cbn in Hk. subst k0.
    exists (k', v). split; [done|]. by apply jsmap_In_delete.
Qed.

Lemma closeStreams_none_left ids o : forall s,
  (forall k, In k (JsMap.keys (streams (engine s))) -> In k ids) ->
  streams (engine (closeStreams ids o s)) = [].
Proof.
  induction ids as [|id rest IH]; intros s Hsub; cbn [closeStreams].
  - destruct (streams (engine s)) as [|[k v] m]; [done|].
    destruct (Hsub k). by left.
  - apply IH. intros k. rewrite closeStream_streams.
    intros [Hin Hne]%jsmap_keys_delete. destruct (Hsub k Hin) as [->|]; done.
Qed.

(** Nothing is held for session [k]: no frame processor, no controller, no
    metrics, no connection. *)
Local Abbreviation released k s :=
  (frameProcessors (engine s) !! k = None /\
   adaptiveQualityControllers (engine s) !! k = None /\
   performanceMetrics (engine s) !! k = None /\
   WebRTCService.connections (webrtc s) !! k = None).

Lemma closeStream_keeps_released id reason o s k :
  released k s -> released k (snd (closeStream id reason o s)).
Proof.
  intros (R1 & R2 & R3 & R4).
  destruct (JsMap.get id (streams (engine s))) as [st|] eqn:Hst.
  - destruct (closeStream_spec id reason o s st Hst) as (_ & He & Hc & Hother & _).
    cbn zeta in *. rewrite He.
    destruct (bool_decide _);
      cbn [frameProcessors adaptiveQualityControllers performanceMetrics emit forget];
      (split_and!; try (apply lookup_delete_None; by right));
      (destruct (decide (k = id)) as [->|Hne]; [exact Hc|by rewrite Hother]).
  - by rewrite (closeStream_absent id reason o s Hst).
Qed.

Lemma closeStreams_keeps_released ids o k : forall s,
  released k s -> released k (closeStreams ids o s).
Proof.
  induction ids as [|id rest IH]; intros s Hr; [done|]. cbn [closeStreams].
  by apply IH, closeStream_keeps_released.
Qed.

Lemma closeStreams_released ids o k : forall s,
  In k ids -> is_Some (JsMap.get k (streams (engine s))) ->
  released k (closeStreams ids o s).
Proof.
  induction ids as [|id rest IH]; intros s Hin [st Hst]; [done|]. cbn [closeStreams].
  destruct (decide (k = id)) as [->|Hne].
  - apply closeStreams_keeps_released.
    destruct (closeStream_spec id "shutdown" (o id) s st Hst) as (_ & He & Hc & _).
    cbn zeta in *. rewrite He. destruct (bool_decide _); cbn; by rewrite !lookup_delete_eq.
  - destruct Hin as [->|Hin]; [done|]. apply IH; [done|].
    rewrite closeStream_streams, jsmap_get_delete_ne by done. by exists st.
Qed.

(** X19.  [shutdown] of the engine closes every stream, whatever fails on
    the way: afterwards no stream is registered, and for every session
    that had a stream the engine holds no frame processor, no controller
    and no metrics, and the transport holds no connection. *)
Theorem X19_engine_shutdown_closes_every_stream o s :
  streams (engine (shutdown o s)) = [] /\
  forall id, is_Some (JsMap.get id (streams (engine s))) ->
    frameProcessors (engine (shutdown o s)) !! id = None /\
    adaptiveQualityControllers (engine (shutdown o s)) !! id = None /\
    performanceMetrics (engine (shutdown o s)) !! id = None /\
    WebRTCService.connections (webrtc (shutdown o s)) !! id = None.
Proof.
  unfold shutdown. split.
  - by apply closeStreams_none_left.
  - intros id Hid. apply closeStreams_released; [|done].
    destruct Hid as [st Hst]. apply jsmap_get_In in Hst.
    unfold JsMap.keys. apply in_map_iff. by exists (id, st).
Qed.

End StreamLifecycle.

Section StreamLifecycleWitnesses.

Import StreamingEngine EngineScenario.


Lemma X18_closeStream_witness :
  exists st,
    JsMap.get "s1" (streams (engine streaming)) = Some st /\
    let r := closeStream "s1" "client" failing_stop streaming in
    fst r = true /\
    JsMap.get "s1" (streams (engine (snd r))) = None /\
    WebRTCService.connections (webrtc (snd r)) !! "s1" = None.
Proof.
  destruct (JsMap.get "s1" (streams (engine streaming))) as [st|] eqn:Hst;
    [|by vm_compute in Hst].
  exists st. split; [reflexivity|].
  destruct (X18_closeStream_releases_everything "s1" "client" failing_stop streaming st Hst)
    as (Hr & Hs & _ & _ & _ & Hc & _).
  split; [exact Hr|]. split; [exact Hs|exact Hc].
Defined.

End StreamLifecycleWitnesses.

(** ** Streaming engine: what every call keeps true of controllers and metrics *)

Section ControllerInvariants.

Import StreamingEngine.

Context {E : Type} `{EncoderBackend E}.

Variable cfgB : Config.BROWSER.
Variable launchPages : nat.
Variable cfgS : Config.SESSION.

Implicit Types (s : System E) (e : t) (id pg k : string).

(** A property of controllers that holds of a new controller and that the
    four ways in which a tick rewrites a controller keep. *)
Variable P : Controller -> Prop.
Hypothesis P_new : forall id o now e c,
  adaptiveQualityControllers (createAdaptiveQualityController id o now e) !! id = Some c -> P c.
Hypothesis P_set_time : forall now c, P c -> P (set_time now c).
Hypothesis P_sample : forall now ws es c, P c -> P (sample now ws es c).
Hypothesis P_adjust : forall net enc c, P c -> P (set_target (fst (adjust net enc c)) c).
Hypothesis P_commit : forall c, P c -> P (commit c).

(** A property of metrics that holds of new metrics and that recording an
    encode time keeps. *)
Variable M : Metrics -> Prop.
Hypothesis M_new : forall now, M {| frameEncodeTime := []; timestamp := now |}.
Hypothesis M_push : forall dt now m,
  M m -> M {| frameEncodeTime := push_bounded 100 dt (frameEncodeTime m); timestamp := now |}.

Local Abbreviation kept e :=
  ((forall k c, adaptiveQualityControllers e !! k = Some c -> P c) /\
   (forall k m, performanceMetrics e !! k = Some m -> M m)).

(** [e'] holds no controller and no metrics that [e] does not hold. *)
Local Abbreviation within e' e :=
  ((forall k c, adaptiveQualityControllers e' !! k = Some c ->
                adaptiveQualityControllers e !! k = Some c) /\
   (forall k m, performanceMetrics e' !! k = Some m -> performanceMetrics e !! k = Some m)).

Lemma kept_within e e' : within e' e -> kept e -> kept e'.
Proof. intros [W1 W2] [K1 K2]. split; [intros k c Hc|intros k m Hm]; eauto. Qed.

Lemma kept_put_controller id c s :
  P c -> kept (engine s) -> kept (engine (put_controller id c s)).
Proof.
  intros Hc [K1 K2]. split; [|exact K2]. intros k c'. unfold put_controller.
  cbn [engine with_engine adaptiveQualityControllers with_controllers].
  destruct (decide (id = k)) as [<-|Hne].
  - rewrite lookup_insert_eq. by intros [= <-].
  - rewrite lookup_insert_ne by done. apply K1.
Qed.

Lemma kept_applyAdaptiveQuality id o s :
  kept (engine s) -> kept (engine (snd (applyAdaptiveQuality id o s))).
Proof.
  intros Hs. unfold applyAdaptiveQuality.
  destruct (adaptiveQualityControllers (engine s) !! id) as [c|] eqn:Hc; [|done].
  destruct (negb (enabled c)); [done|].
  destruct (_ <? _)%Z; [done|].
  assert (P c) as HPc by (destruct Hs as [K1 _]; eauto).
  pose proof (kept_put_controller id (set_time (tick_now o) c) s (P_set_time _ _ HPc) Hs) as H1.
  destruct (WebRTCService.getConnectionStats _ _ _ _) as [[ws|] w]; [|exact H1].
  cbn [snd encoder with_webrtc].
  destruct (enc_getEncoderStats id _) as [es|]; [|exact H1].
  pose proof (P_adjust (net_of (sample (tick_now o) ws es c))
                (enc_of (sample (tick_now o) ws es c)) _ (P_sample (tick_now o) ws es c HPc))
    as H2.
  destruct (adjust _ _ _) as [tgt changed]. cbn [fst] in H2.
  destruct changed.
  - destruct enc_updateEncoderOptions as [update|]; cbn [snd].
    + apply (kept_put_controller id _ (with_encoder _ _)); [by apply P_commit|exact H1].
    + apply (kept_put_controller id _ (with_webrtc _ _)); [done|exact H1].
  - apply (kept_put_controller id _ (with_webrtc _ _)); [done|exact H1].
Qed.

Lemma kept_processFrame id f o s :
  kept (engine s) -> kept (engine (snd (processFrame id f o s))).
Proof.
  intros Hs. unfold processFrame.
  destruct (frameProcessors (engine s) !! id) as [fp|]; [|done].
  destruct (processing fp); [exact Hs|]. cbn [snd].
  set (s1 := put_processor id (set_processing true fp) s).
  assert (kept (engine s1)) as H1 by exact Hs.
  destruct (adaptiveQualityControllers (engine s1) !! id) as [c|]; [|exact H1].
  destruct (enabled c); [|exact H1].
  apply (kept_applyAdaptiveQuality id o s1 H1).
Qed.

Lemma kept_handleScreencastFrame pg f o s :
  kept (engine s) -> kept (engine (handleScreencastFrame pg f o s)).
Proof.
  intros Hs. unfold handleScreencastFrame.
  destruct (findSession pg (streams (engine s))) as [id|]; [|done].
  destruct (String.eqb id ""); [done|].
  destruct (JsMap.get id (streams (engine s))) as [st|]; [|done].
  destruct (negb (active st)); [done|].
  set (s1 := with_engine _ s). assert (kept (engine s1)) as H1 by exact Hs.
  destruct (frameProcessors (engine s1) !! id) as [fp|]; [|exact H1].
  destruct (too_early (gate_now o) fp); [exact H1|].
  apply kept_processFrame. exact H1.
Qed.

Lemma kept_updatePerformanceMetrics id dt now e :
  kept e -> kept (updatePerformanceMetrics id dt now e).
Proof.
  intros [K1 K2]. unfold updatePerformanceMetrics.
  destruct (performanceMetrics e !! id) as [m|] eqn:Hm; [|done].
  split; [exact K1|]. intros k m'. cbn [performanceMetrics with_metrics].
  destruct (decide (id = k)) as [<-|Hne].
  - rewrite lookup_insert_eq. intros [= <-]. apply M_push. eauto.
  - rewrite lookup_insert_ne by done. apply K2.
Qed.

Lemma kept_encodeDone id o s : kept (engine s) -> kept (engine (encodeDone id o s)).
Proof.
  intros Hs. unfold encodeDone. destruct (take id (encoding s)) as [[f rest]|]; [|done].
  set (s3 := with_engine _ _).
  assert (kept (engine s3)) as H3 by (apply kept_updatePerformanceMetrics; exact Hs).
  destruct (frameProcessors (engine s3) !! id) as [fp|]; [|exact H3].
  destruct (frameQueue fp); exact H3.
Qed.

Lemma kept_runImmediate o s : kept (engine s) -> kept (engine (runImmediate o s)).
Proof.
  intros Hs. unfold runImmediate. destruct (immediates s) as [|[id f] rest]; [done|].
  apply kept_processFrame. exact Hs.
Qed.

Lemma kept_detachedDone n o s : kept (engine s) -> kept (engine (detachedDone n o s)).
Proof.
  intros Hs. unfold detachedDone. destruct (detached s !! n) as [d|]; [|done].
  destruct (det_awaited d) as [|f rest]; [done|].
  set (s2 := with_engine _ _).
  assert (kept (engine s2)) as H2 by (apply kept_updatePerformanceMetrics; exact Hs).
  destruct (frameQueue (det_processor d)); exact H2.
Qed.

Lemma kept_frameStep st s : kept (engine s) -> kept (engine (frameStep st s)).
Proof.
  destruct st; cbn [frameStep];
    [apply kept_handleScreencastFrame|apply kept_encodeDone|apply kept_runImmediate].
Qed.

Lemma kept_finishCreateStream id pg rtc r o s :
  kept (engine s) -> kept (engine (snd (finishCreateStream id pg rtc r o s))).
Proof.
  intros Hs. pose proof (finishCreateStream_spec id pg rtc r o s) as Hc.
  destruct (finishCreateStream _ _ _ _ _ _) as [[st|err] s']; cbn [snd]; [|by rewrite Hc].
  destruct Hc as (_ & -> & _). destruct Hs as [K1 K2]. split.
  - intros k c. cbn [adaptiveQualityControllers emit initializePerformanceMetrics with_metrics].
    destruct (adaptive _).
    + destruct (decide (k = id)) as [->|Hne]; [apply P_new|].
      unfold createAdaptiveQualityController.
      cbn [adaptiveQualityControllers with_controllers createFrameProcessor with_processors
           with_streams].
      rewrite lookup_insert_ne by done. apply K1.
    + apply K1.
  - intros k m. cbn [performanceMetrics emit initializePerformanceMetrics with_metrics].
    destruct (decide (k = id)) as [->|Hne].
    + rewrite lookup_insert_eq. intros [= <-]. apply M_new.
    + rewrite lookup_insert_ne by done. destruct (adaptive _); apply K2.
Qed.

Lemma kept_createStream id r o s :
  kept (engine s) -> kept (engine (snd (createStream cfgB launchPages cfgS id r o s))).
Proof.
  intros Hs. destruct (JsMap.get id (streams (engine s))) as [st|] eqn:Hst.
  { unfold createStream. by rewrite Hst. }
  pose proof (createStream_spec cfgB launchPages cfgS id r o s Hst) as Hc.
  destruct (createStream _ _ _ _ _ _ _) as [[st|err] s']; cbn [snd]; [|by rewrite Hc].
  destruct Hc as (_ & -> & _). destruct Hs as [K1 K2]. split.
  - intros k c. cbn [adaptiveQualityControllers emit initializePerformanceMetrics with_metrics].
    destruct (adaptive _).
    + destruct (decide (k = id)) as [->|Hne]; [apply P_new|].
      unfold createAdaptiveQualityController.
      cbn [adaptiveQualityControllers with_controllers createFrameProcessor with_processors
           with_streams].
      rewrite lookup_insert_ne by done. apply K1.
    + apply K1.
  - intros k m. cbn [performanceMetrics emit initializePerformanceMetrics with_metrics].
    destruct (decide (k = id)) as [->|Hne].
    + rewrite lookup_insert_eq. intros [= <-]. apply M_new.
    + rewrite lookup_insert_ne by done. destruct (adaptive _); apply K2.
Qed.

Lemma kept_handleEncodedFrame id len key ok now s :
  kept (engine s) -> kept (engine (handleEncodedFrame cfgS id len key ok now s)).
Proof.
  intros Hs. unfold handleEncodedFrame.
  destruct (JsMap.get id (streams (engine s))) as [st|]; [|done].
  destruct (negb (active st)); [done|].
  by destruct (SessionManager.updateSessionStats _ _ _ _ _ _) as [[x|err] m].
Qed.

Lemma within_closeStream id reason o s :
  within (engine (snd (closeStream id reason o s))) (engine s).
Proof.
  destruct (JsMap.get id (streams (engine s))) as [st|] eqn:Hst.
  - destruct (closeStream_spec id reason o s st Hst) as (_ & -> & _).
    destruct (bool_decide _); split; intros k x; cbn; by intros [_ ?]%lookup_delete_Some.
  - by rewrite (closeStream_absent id reason o s Hst).
Qed.

Lemma kept_closeStream id reason o s :
  kept (engine s) -> kept (engine (snd (closeStream id reason o s))).
Proof. apply kept_within, within_closeStream. Qed.

Lemma kept_closeStreams ids o : forall s,
  kept (engine s) -> kept (engine (closeStreams ids o s)).
Proof.
  induction ids as [|id rest IH]; intros s Hs; [done|]. cbn [closeStreams].
  by apply IH, kept_closeStream.
Qed.

Lemma kept_step c s : kept (engine s) -> kept (engine (step cfgB launchPages cfgS c s)).
Proof.
  intros Hs. destruct c; cbn [step].
  - by apply kept_createStream.
  - by apply kept_frameStep.
  - by apply kept_detachedDone.
  - by apply kept_applyAdaptiveQuality.
  - by apply kept_handleEncodedFrame.
  - by apply kept_closeStream.
  - unfold handlePageClosed. destruct (findSession _ _) as [id|]; [|done].
    destruct (String.eqb id ""); [done|]. by apply kept_closeStream.
  - by apply kept_closeStream.
  - unfold handleWebRTCConnectionClosed. destruct (JsMap.get _ _); [|done].
    by apply kept_closeStream.
  - by apply kept_closeStreams.
  - by apply kept_finishCreateStream.
  - apply (kept_within (engine s)); [|done]. unfold streamGone. cbn [engine with_engine].
    rewrite releaseStream_engine.
    split; intros k x; cbn; by intros [_ ?]%lookup_delete_Some.
Qed.

Lemma kept_run cs : forall s,
  kept (engine s) -> kept (engine (run cfgB launchPages cfgS cs s)).
Proof.
  unfold run. induction cs as [|c cs IH]; intros s Hs; [done|]. cbn [fold_left].
  by apply IH, kept_step.
Qed.

End ControllerInvariants.

Section EngineBounds.

Import StreamingEngine.

Context {E : Type} `{EncoderBackend E}.

Variable cfgB : Config.BROWSER.
Variable launchPages : nat.
Variable cfgS : Config.SESSION.

Implicit Types (s : System E) (id pg k : string).

Lemma shift_length {A} (l : list A) x : length (tl (l ++ [x])) = length l.
Proof. destruct l; cbn; rewrite ?length_app; cbn; lia. Qed.

Lemma push_bounded_length {A} n (x : A) l :
  (length l <= n)%nat -> (length (push_bounded n x l) <= n)%nat.
Proof.
  intros Hl. unfold push_bounded.
  destruct (Nat.ltb_spec n (length (l ++ [x]))) as [Hlt|Hge]; [by rewrite shift_length|done].
Qed.

Lemma windows_bounded_sample now ws es c :
  windows_bounded c -> windows_bounded (sample now ws es c).
Proof.
  unfold windows_bounded, sample, push_bounded. intros (H1 & H2 & H3 & H4 & H5).
  cbn [rtt net_jitter packetLoss encodingTimes bitrates].
  destruct (Nat.ltb_spec 10 (length (rtt c ++ [WebRTCService.roundTripTime ws])));
    destruct (Nat.ltb_spec 10 (length (encodingTimes c ++ [inject_Z (encodingTime es)])));
    rewrite ?shift_length, ?length_app in *; cbn [length] in *; lia.
Qed.

(** X20.  Whatever reaches the engine, the histories it keeps per session
    stay bounded: in a quality controller the [rtt], [jitter] and
    [packetLoss] windows have the same length, at most ten, and so have
    the [encodingTimes] and [bitrates] windows; the [frameEncodeTime]
    history of the performance metrics of a session holds at most one
    hundred entries. *)
Theorem X20_engine_histories_stay_bounded (cs : list Call) s :
  bounded_history (engine s) ->
  bounded_history (engine (run cfgB launchPages cfgS cs s)).
Proof.
  unfold bounded_history.
  apply (kept_run cfgB launchPages cfgS windows_bounded); try done.
  - intros id o now e c. unfold createAdaptiveQualityController.
    cbn [adaptiveQualityControllers with_controllers]. rewrite lookup_insert_eq.
    intros [= <-]. unfold windows_bounded. cbn. lia.
  - intros now ws es c. apply windows_bounded_sample.
  - intros now. cbn. lia.
  - intros dt now m Hm. cbn [frameEncodeTime]. by apply push_bounded_length.
Qed.

Lemma Math_max_between a lo x :
  (a <= x)%Q -> (lo <= x)%Q -> (lo <= Js.Math_max a lo /\ Js.Math_max a lo <= x)%Q.
Proof. intros Ha Hlo. destruct (Math_max_cases a lo) as [[H1 ->]|[H1 ->]]; split; lra. Qed.

Lemma Math_min_between a hi x :
  (x <= a)%Q -> (x <= hi)%Q -> (x <= Js.Math_min a hi /\ Js.Math_min a hi <= hi)%Q.
Proof. intros Ha Hhi. destruct (Math_min_cases a hi) as [[H1 ->]|[H1 ->]]; split; lra. Qed.

Lemma adjust_in_range net enc c :
  in_range c (currentQuality c) -> in_range c (targetQuality c) ->
  in_range c (fst (adjust net enc c)).
Proof.
  unfold in_range. intros (C1 & C2 & C3 & C4) (T1 & T2 & T3 & T4).
  assert (0 < Config.minBitrate STREAMING)%Q as Hb0 by reflexivity.
  assert (0 < Config.minFrameRate STREAMING)%Q as Hf0 by reflexivity.
  pose proof (Math_max_between (q_bitrate (currentQuality c) * 0.8)
                (Config.minBitrate STREAMING) (q_bitrate (currentQuality c))) as Hb8.
  pose proof (Math_max_between (q_bitrate (currentQuality c) * 0.9)
                (Config.minBitrate STREAMING) (q_bitrate (currentQuality c))) as Hb9.
  pose proof (Math_max_between (q_frameRate (currentQuality c) * 0.8)
                (Config.minFrameRate STREAMING) (q_frameRate (currentQuality c))) as Hf8.
  pose proof (Math_min_between (q_bitrate (currentQuality c) * 1.1)
                (bitrate (ceiling c)) (q_bitrate (currentQuality c))) as Hb11.
  pose proof (Math_min_between (q_frameRate (currentQuality c) * 1.1)
                (frameRate (ceiling c)) (q_frameRate (currentQuality c))) as Hf11.
  destruct Hb8 as [Hb8 Hb8']; [lra|lra|].
  destruct Hb9 as [Hb9 Hb9']; [lra|lra|].
  destruct Hf8 as [Hf8 Hf8']; [lra|lra|].
  destruct Hb11 as [Hb11 Hb11']; [lra|lra|].
  destruct Hf11 as [Hf11 Hf11']; [lra|lra|].
  unfold adjust.
  destruct (is_poor net || is_poor enc);
    [|destruct (is_fair net || is_fair enc); [|destruct (is_good net && is_good enc)]];
    repeat (destruct (gt _ _)); cbn [fst q_bitrate q_frameRate]; split_and!; lra.
Qed.

Lemma within_limits_adjust net enc c :
  within_limits c -> within_limits (set_target (fst (adjust net enc c)) c).
Proof.
  unfold within_limits. cbn [ceiling set_target currentQuality targetQuality].
  intros Hc Hb Hf. destruct (Hc Hb Hf) as [Hcur Htgt]. split; [exact Hcur|].
  by apply (adjust_in_range net enc c).
Qed.

Lemma or_number_nonzero x d : (0 < x)%Q -> Js.or_number x d = x.
Proof.
  intros Hx. unfold Js.or_number. destruct (Qeq_bool x 0) eqn:Hz; [|done].
  apply Qeq_bool_iff in Hz. lra.
Qed.

Lemma within_limits_new id o now e c :
  adaptiveQualityControllers (createAdaptiveQualityController id o now e) !! id = Some c ->
  within_limits c.
Proof.
  unfold createAdaptiveQualityController.
  cbn [adaptiveQualityControllers with_controllers]. rewrite lookup_insert_eq.
  intros [= <-]. unfold within_limits, in_range.
  cbn [ceiling currentQuality targetQuality q_bitrate q_frameRate].
  intros Hb Hf.
  assert (0 < Config.minBitrate STREAMING)%Q as Hb0 by reflexivity.
  assert (0 < Config.minFrameRate STREAMING)%Q as Hf0 by reflexivity.
  rewrite !or_number_nonzero by lra. cbn [q_bitrate q_frameRate].
  split_and!; lra.
Qed.

(** X21.  Whatever reaches the engine and whatever the network and the
    encoder report, a quality controller never leaves its limits: for
    every stream whose requested frame rate and bitrate are not below the
    configured floors, the current and the target quality stay between the
    floor and the requested value, for the bitrate and for the frame rate. *)
Theorem X21_quality_stays_between_floor_and_ceiling (cs : list Call) s :
  (forall k c, adaptiveQualityControllers (engine s) !! k = Some c -> within_limits c) ->
  forall k c,
    adaptiveQualityControllers (engine (run cfgB launchPages cfgS cs s)) !! k = Some c ->
    within_limits c.
Proof.
  intros Hs.
  apply (kept_run cfgB launchPages cfgS within_limits within_limits_new
           (fun _ _ Hc => Hc) (fun _ _ _ _ Hc => Hc) within_limits_adjust
           (fun c (Hc : within_limits c) Hb Hf => conj (proj2 (Hc Hb Hf)) (proj2 (Hc Hb Hf)))
           (fun _ => True) (fun _ => I) (fun _ _ _ _ => I) cs s).
  split; [exact Hs|done].
Qed.

End EngineBounds.

Section EngineBoundsWitnesses.

Import StreamingEngine EngineScenario.

Lemma streaming_basic_controllers :
  exists c0 m0,
    adaptiveQualityControllers (engine streaming_basic) = {["s1" := c0]} /\
    performanceMetrics (engine streaming_basic) = {["s1" := m0]} /\
    windows_bounded c0 /\ (length (frameEncodeTime m0) <= 100)%nat /\
    (in_range c0 (currentQuality c0) /\ in_range c0 (targetQuality c0)).
Proof.
  eexists _, _. split; [by vm_compute|]. split; [by vm_compute|].
  split; [unfold windows_bounded; cbn; lia|]. split; [cbn; lia|].
  split; unfold in_range; cbn; split_and!; lra.
Defined.

Lemma X20_histories_witness :
  let s' := run cfgB 1 cfgS poor_network streaming_basic in
  (exists c, adaptiveQualityControllers (engine streaming_basic) !! "s1" = Some c) /\
  bounded_history (engine streaming_basic) /\
  bounded_history (engine s') /\
  (length <$> (rtt <$> adaptiveQualityControllers (engine s') !! "s1")) = Some 10%nat /\
  (length <$> (frameEncodeTime <$> performanceMetrics (engine s') !! "s1")) = Some 1%nat.
Proof.
  cbn zeta. destruct streaming_basic_controllers as (c0 & m0 & Hc & Hm & Hw & Hl & _).
  assert (bounded_history (engine streaming_basic)) as H0.
  { split; intros k x; rewrite ?Hc, ?Hm; by intros [_ <-]%lookup_singleton_Some. }
  split; [rewrite Hc, lookup_singleton_eq; by eexists|].
  split; [exact H0|].
  split; [apply X20_engine_histories_stay_bounded; exact H0|].
  split; by vm_compute.
Defined.

Lemma X21_quality_witness :
  let s' := run cfgB 1 cfgS poor_network streaming_basic in
  (exists c, adaptiveQualityControllers (engine streaming_basic) !! "s1" = Some c) /\
  (forall k c, adaptiveQualityControllers (engine streaming_basic) !! k = Some c ->
               within_limits c) /\
  (forall k c, adaptiveQualityControllers (engine s') !! k = Some c -> within_limits c) /\
  exists c, adaptiveQualityControllers (engine s') !! "s1" = Some c /\
            (Config.minBitrate STREAMING <= bitrate (ceiling c))%Q /\
            (Config.minFrameRate STREAMING <= frameRate (ceiling c))%Q /\
            Qred (q_bitrate (currentQuality c)) = 500%Q.
Proof.
  cbn zeta. destruct streaming_basic_controllers as (c0 & m0 & Hc & _ & _ & _ & Hr).
  assert (forall k c, adaptiveQualityControllers (engine streaming_basic) !! k = Some c ->
                      within_limits c) as H0.
  { intros k x. rewrite Hc. intros [_ <-]%lookup_singleton_Some. intros _ _. exact Hr. }
  split; [rewrite Hc, lookup_singleton_eq; by eexists|].
  split; [exact H0|].
  split; [apply X21_quality_stays_between_floor_and_ceiling; exact H0|].
  eexists. split; [by vm_compute|]. split_and!; by vm_compute.
Defined.

End EngineBoundsWitnesses.

(** ** Streaming engine: what it does to the encoder it was given *)

Section EncoderUse.

Import StreamingEngine.

Context {E : Type} `{EncoderBackend E}.

Variable cfgB : Config.BROWSER.
Variable launchPages : nat.
Variable cfgS : Config.SESSION.

Implicit Types (s : System E) (id pg k : string).

(** The encoder object defines neither [updateEncoderOptions] nor
    [destroyEncoder], and [Q] is a property of it that [createEncoder] and
    [encodeFrame] keep. *)
Hypothesis no_update : enc_updateEncoderOptions = None.
Hypothesis no_destroy : enc_destroyEncoder = None.
Variable Q : E -> Prop.
Hypothesis Q_create : forall id o c, Q c -> Q (enc_createEncoder id o c).
Hypothesis Q_encode : forall id len ok dt c, Q c -> Q (enc_encodeFrame id len ok dt c).

Lemma finishCreateStream_encoder id pg rtc r o s :
  Q (encoder s) -> Q (encoder (snd (finishCreateStream id pg rtc r o s))).
Proof.
  intros HQ. unfold finishCreateStream.
  destruct (BrowserPool.startScreencast _ _ _ _) as [[x|err] p];
    cbn [snd encoder with_engine with_pool]; rewrite ?detach_encoder; by apply Q_create.
Qed.

Lemma openChannel_encoder id pg r session o s :
  Q (encoder s) -> Q (encoder (snd (openChannel cfgS id pg r session o s))).
Proof.
  intros HQ. unfold openChannel.
  destruct (Js.or_string (req_webrtcId r) _) as [|a rtc].
  - destruct (WebRTCService.createConnection _ _ _ _) as [[c|err] w]; [|exact HQ].
    destruct (SessionManager.updateSession _ _ _ _ _) as [[x|err] m]; [|exact HQ].
    by apply finishCreateStream_encoder.
  - by apply finishCreateStream_encoder.
Qed.

Lemma bindPage_encoder id pg r session o s :
  Q (encoder s) -> Q (encoder (snd (bindPage cfgS id pg r session o s))).
Proof.
  intros HQ. unfold bindPage. destruct (BrowserPool.getPage _ _ _) as [[i|] p]; [|exact HQ].
  by apply openChannel_encoder.
Qed.

Lemma createStream_encoder id r o s :
  Q (encoder s) -> Q (encoder (snd (createStream cfgB launchPages cfgS id r o s))).
Proof.
  intros HQ. unfold createStream.
  destruct (JsMap.get id (streams (engine s))) as [st|]; [exact HQ|].
  destruct (SessionManager.getSession _ _ _ _) as [[session|] m]; [|exact HQ].
  destruct (Js.or_string (req_pageId r) _) as [|a pg].
  - destruct (BrowserPool.createPage _ _ _ _ _) as [[[pg info]|err] p]; [|exact HQ].
    destruct (SessionManager.updateSession _ _ _ _ _) as [[session'|err] m']; [|exact HQ].
    by apply bindPage_encoder.
  - by apply bindPage_encoder.
Qed.

Lemma applyAdaptiveQuality_encoder id o s :
  encoder (snd (applyAdaptiveQuality id o s)) = encoder s.
Proof. by destruct (tick_without_update_method id o s no_update) as (_ & ? & _). Qed.

Lemma processFrame_encoder id f o s : encoder (snd (processFrame id f o s)) = encoder s.
Proof.
  unfold processFrame. destruct (frameProcessors (engine s) !! id) as [fp|]; [|done].
  destruct (processing fp); [done|]. cbn [snd].
  set (s1 := put_processor id (set_processing true fp) s).
  destruct (adaptiveQualityControllers (engine s1) !! id) as [c|]; [|done].
  destruct (enabled c); [|done]. cbn [encoder with_encoding].
  by rewrite applyAdaptiveQuality_encoder.
Qed.

Lemma handleScreencastFrame_encoder pg f o s :
  encoder (handleScreencastFrame pg f o s) = encoder s.
Proof.
  unfold handleScreencastFrame.
  destruct (findSession pg (streams (engine s))) as [id|]; [|done].
  destruct (String.eqb id ""); [done|].
  destruct (JsMap.get id (streams (engine s))) as [st|]; [|done].
  destruct (negb (active st)); [done|].
  set (s1 := with_engine _ s).
  destruct (frameProcessors (engine s1) !! id) as [fp|]; [|done].
  destruct (too_early (gate_now o) fp); [done|].
  by rewrite processFrame_encoder.
Qed.

Lemma encodeDone_encoder id o s : Q (encoder s) -> Q (encoder (encodeDone id o s)).
Proof.
  intros HQ. unfold encodeDone. destruct (take id (encoding s)) as [[f rest]|]; [|done].
  set (s3 := with_engine _ _).
  assert (Q (encoder s3)) as H3 by (by apply Q_encode).
  destruct (frameProcessors (engine s3) !! id) as [fp|]; [|exact H3].
  destruct (frameQueue fp); exact H3.
Qed.

Lemma detachedDone_encoder n o s : Q (encoder s) -> Q (encoder (detachedDone n o s)).
Proof.
  intros HQ. unfold detachedDone. destruct (detached s !! n) as [d|]; [|done].
  destruct (det_awaited d) as [|f rest]; [done|].
  set (s2 := with_engine _ _).
  assert (Q (encoder s2)) as H2 by (by apply Q_encode).
  destruct (frameQueue (det_processor d)); exact H2.
Qed.

Lemma runImmediate_encoder o s : encoder (runImmediate o s) = encoder s.
Proof.
  unfold runImmediate. destruct (immediates s) as [|[id f] rest]; [done|].
  by rewrite processFrame_encoder.
Qed.

Lemma handleEncodedFrame_encoder id len key ok now s :
  encoder (handleEncodedFrame cfgS id len key ok now s) = encoder s.
Proof.
  unfold handleEncodedFrame.
  destruct (JsMap.get id (streams (engine s))) as [st|]; [|done].
  destruct (negb (active st)); [done|].
  by destruct (SessionManager.updateSessionStats _ _ _ _ _ _) as [[x|err] m].
Qed.

Lemma closeStream_encoder id reason o s :
  encoder (snd (closeStream id reason o s)) = encoder s.
Proof.
  unfold closeStream. destruct (JsMap.get id (streams (engine s))) as [st|]; [|done].
  cbn [snd]. destruct (bool_decide _); unfold streamGone; cbn [encoder with_engine];
    rewrite ?releaseStream_encoder, no_destroy; cbn [encoder with_engine];
    rewrite ?releaseStream_encoder, ?no_destroy; done.
Qed.

Lemma closeStreams_encoder ids o : forall s, encoder (closeStreams ids o s) = encoder s.
Proof.
  induction ids as [|id rest IH]; intros s; [done|]. cbn [closeStreams].
  by rewrite IH, closeStream_encoder.
Qed.

Lemma step_encoder c s : Q (encoder s) -> Q (encoder (step cfgB launchPages cfgS c s)).
Proof.
  intros HQ.
  destruct c as [id r o|st|n o|id o|id len key ok now|id reason o|pg o|id o|id o|o
                |id pg rtc r o|id reason st o];
    cbn [step].
  - by apply createStream_encoder.
  - destruct st; cbn [frameStep].
    + by rewrite handleScreencastFrame_encoder.
    + by apply encodeDone_encoder.
    + by rewrite runImmediate_encoder.
  - by apply detachedDone_encoder.
  - by rewrite applyAdaptiveQuality_encoder.
  - by rewrite handleEncodedFrame_encoder.
  - by rewrite closeStream_encoder.
  - unfold handlePageClosed. destruct (findSession _ _) as [id|]; [|done].
    destruct (String.eqb id ""); [done|]. by rewrite closeStream_encoder.
  - unfold handleSessionClosed. by rewrite closeStream_encoder.
  - unfold handleWebRTCConnectionClosed. destruct (JsMap.get _ _); [|done].
    by rewrite closeStream_encoder.
  - unfold shutdown. by rewrite closeStreams_encoder.
  - by apply finishCreateStream_encoder.
  - unfold streamGone. cbn [encoder with_engine]. by rewrite releaseStream_encoder, no_destroy.
Qed.

Lemma run_encoder cs : forall s,
  Q (encoder s) -> Q (encoder (run cfgB launchPages cfgS cs s)).
Proof.
  unfold run. induction cs as [|c cs IH]; intros s HQ; [done|]. cbn [fold_left].
  by apply IH, step_encoder.
Qed.

End EncoderUse.

Section CudaNeverStarted.

Import StreamingEngine.

Variable cfgB : Config.BROWSER.
Variable launchPages : nat.
Variable cfgS : Config.SESSION.

Lemma createEncoder_never_started id o c :
  CUDAEncoder.never_started c ->
  CUDAEncoder.never_started (snd (CUDAEncoder.createEncoder id o c)) /\
  CUDAEncoder.emitted (snd (CUDAEncoder.createEncoder id o c)) = CUDAEncoder.emitted c.
Proof.
  intros Hc. unfold CUDAEncoder.createEncoder.
  destruct (CUDAEncoder.encoders c !! id) as [e|] eqn:He; [done|]. split; [|done].
  intros k e. cbn [snd CUDAEncoder.encoders CUDAEncoder.with_encoders].
  destruct (decide (id = k)) as [<-|Hne].
  - rewrite lookup_insert_eq. by intros [= <-].
  - rewrite lookup_insert_ne by done. apply Hc.
Qed.

Lemma encodeFrame_never_started id len ok dt c :
  CUDAEncoder.never_started c -> CUDAEncoder.encodeFrame id len ok dt c = (false, c).
Proof.
  intros Hc. unfold CUDAEncoder.encodeFrame.
  destruct (CUDAEncoder.encoders c !! id) as [e|] eqn:He; [|done].
  destruct (Hc id e He) as (-> & _). done.
Qed.

(** X22.  The engine never starts an encoding worker.  On the CUDA
    encoder, along any sequence of engine calls (streams created and
    closed, raw frames, settled encodes, controller ticks, encoded frames
    delivered, shutdown), if no encoder was started before then none is
    afterwards: every encoder is inactive, holds no worker and has encoded
    no frame, and the encoder service has emitted no event. *)
Theorem X22_engine_never_starts_the_cuda_encoder
    (cs : list Call) (s : System CUDAEncoder.t) :
  CUDAEncoder.never_started (encoder s) ->
  CUDAEncoder.never_started (encoder (run cfgB launchPages cfgS cs s)) /\
  CUDAEncoder.emitted (encoder (run cfgB launchPages cfgS cs s))
  = CUDAEncoder.emitted (encoder s).
Proof.
  intros Hs.
  apply (@run_encoder CUDAEncoder.t cuda_backend cfgB launchPages cfgS eq_refl eq_refl
           (fun c => CUDAEncoder.never_started c /\
                     CUDAEncoder.emitted c = CUDAEncoder.emitted (encoder s))).
  - intros id o c [Hc He]. destruct (createEncoder_never_started id o c Hc) as [H1 H2].
    split; [exact H1|]. cbn [enc_createEncoder cuda_backend]. by rewrite H2.
  - intros id len ok dt c [Hc He]. cbn [enc_encodeFrame cuda_backend].
    by rewrite encodeFrame_never_started.
  - by split.
Qed.

End CudaNeverStarted.

Section CudaNeverStartedWitness.

Import StreamingEngine EngineScenario.

Lemma X22_never_started_witness :
  CUDAEncoder.never_started (encoder (with_session (boot true))) /\
  CUDAEncoder.never_started (encoder (run cfgB 1 cfgS one_stream (with_session (boot true)))).
Proof.
  assert (CUDAEncoder.never_started (encoder (with_session (boot true)))) as H0.
  { intros k e He. cbn in He. by rewrite lookup_empty in He. }
  split; [exact H0|].
  exact (proj1 (X22_engine_never_starts_the_cuda_encoder cfgB 1 cfgS one_stream
                  (with_session (boot true)) H0)).
Defined.

End CudaNeverStartedWitness.

(** ** Encoder services on their own *)

Section BasicEncoderFacts.

Import BasicEncoder.

Implicit Types (c : t) (id : string) (e : Encoder).

Lemma encodeFrame_active id len dt c e :
  encoders c !! id = Some e -> active e = true ->
  encodeFrame id len dt c
  = (true, emit (encodedFrame id len (S (framesEncoded (stats e)) mod 30 =? 0)%nat)
             (with_encoders (<[id := encoded len dt e]> (encoders c)) c)).
Proof. intros He Ha. unfold encodeFrame. by rewrite He, Ha. Qed.

Lemma encodeFrames_spec id frames : forall c e,
  encoders c !! id = Some e -> active e = true ->
  exists e',
    encoders (encodeFrames id frames c) !! id = Some e' /\
    active e' = true /\
    framesEncoded (stats e') = (framesEncoded (stats e) + length frames)%nat /\
    bytesEncoded (stats e') = (bytesEncoded (stats e) + list_sum (map fst frames))%nat /\
    emitted (encodeFrames id frames c)
    = emitted c
      ++ imap (fun i f => encodedFrame id (fst f)
                            ((framesEncoded (stats e) + S i) mod 30 =? 0)%nat) frames.
Proof.
  induction frames as [|[len dt] frames IH]; intros c e He Ha.
  - exists e. cbn. rewrite !Nat.add_0_r, app_nil_r. done.
  - unfold encodeFrames. cbn [fold_left fst snd].
    rewrite (encodeFrame_active id len dt c e He Ha). cbn [snd].
    set (c1 := emit _ _).
    assert (encoders c1 !! id = Some (encoded len dt e)) as He1
      by (unfold c1; cbn; apply lookup_insert_eq).
    destruct (IH c1 (encoded len dt e) He1 Ha) as (e' & H1 & H2 & H3 & H4 & H5).
    exists e'. split; [exact H1|]. split; [exact H2|].
    cbn [framesEncoded bytesEncoded stats encoded] in H3, H4, H5.
    split; [simpl; lia|]. split; [simpl; lia|].
    fold (encodeFrames id frames c1). rewrite H5. unfold c1. cbn [emitted emit with_encoders].
    rewrite <- app_assoc. f_equal. cbn [imap app fst]. f_equal.
    + by rewrite Nat.add_1_r.
    + apply imap_ext. intros i [len' dt'] _. cbn [fst compose].
      by replace (S (framesEncoded (stats e)) + S i)%nat
        with (framesEncoded (stats e) + S (S i))%nat by lia.
Qed.

(** X23.  Frames handed one after the other to an active basic encoder
    are all accepted and counted: the encoder stays active, its frame
    counter grows by the number of frames and its byte counter by the sum
    of their lengths, and one ['encodedFrame'] event is emitted per frame,
    in order, flagged as a key frame exactly when the count of frames
    encoded since the encoder was created is a multiple of 30 (so the
    first frame of a new encoder is not a key frame). *)
Theorem X23_basic_encoder_counts_and_flags_frames id frames c e :
  encoders c !! id = Some e -> active e = true ->
  exists e',
    encoders (encodeFrames id frames c) !! id = Some e' /\
    active e' = true /\
    framesEncoded (stats e') = (framesEncoded (stats e) + length frames)%nat /\
    bytesEncoded (stats e') = (bytesEncoded (stats e) + list_sum (map fst frames))%nat /\
    emitted (encodeFrames id frames c)
    = emitted c
      ++ imap (fun i f => encodedFrame id (fst f)
                            ((framesEncoded (stats e) + S i) mod 30 =? 0)%nat) frames.
Proof. apply encodeFrames_spec. Qed.

(** X24.  A basic encoder that was stopped or destroyed takes no frame:
    after [stopEncoder] or [destroyEncoder], [encodeFrame] returns nothing,
    counts nothing and emits nothing, whether the encoder existed or not;
    after [destroyEncoder] the statistics of the encoder are gone, and
    [createEncoder] under the same id starts again from zero. *)
Theorem X24_stopped_basic_encoder_takes_no_frame id len dt o c :
  encodeFrame id len dt (snd (stopEncoder id c)) = (false, snd (stopEncoder id c)) /\
  encodeFrame id len dt (destroyEncoder id c) = (false, destroyEncoder id c) /\
  getEncoderStats id (destroyEncoder id c) = None /\
  stats (fst (createEncoder id o (destroyEncoder id c)))
  = {| framesEncoded := 0; bytesEncoded := 0; encodingTime := 0 |}.
Proof.
  assert (encoders (destroyEncoder id c) !! id = None) as Hd.
  { unfold destroyEncoder. cbn [encoders with_encoders]. apply lookup_delete_eq. }
  split_and!.
  - unfold stopEncoder. destruct (encoders c !! id) as [e|] eqn:He; cbn [snd].
    + unfold encodeFrame. cbn [encoders emit with_encoders]. by rewrite lookup_insert_eq.
    + unfold encodeFrame. by rewrite He.
  - unfold encodeFrame. by rewrite Hd.
  - unfold getEncoderStats. by rewrite Hd.
  - unfold createEncoder. by rewrite Hd.
Qed.

End BasicEncoderFacts.

Section FallbackChain.

Import CUDAEncoder.

Implicit Types (c : t) (id : string) (e : Encoder).

Lemma handleFailures_spec id fs : forall c e k,
  NoDup (encodingStrategies c) ->
  encoders c !! id = Some e ->
  indexOf (strategy e) (encodingStrategies c) = Some k ->
  Forall (fun x => fatal x.1.1) fs ->
  let c' := handleFailures id fs c in
  encodingStrategies c' = encodingStrategies c /\
  strategyIndex id c' = Some (Nat.min (k + length fs) (length (encodingStrategies c) - 1)) /\
  ((length (encodingStrategies c) - 1 - k < length fs)%nat \/
   (S k = length (encodingStrategies c) /\ active e = false) ->
   (active <$> encoders c' !! id) = Some false).
Proof.
  induction fs as [|[[f ok] now] fs IH]; intros c e k Hnd He Hk Hfs; cbn zeta.
  - pose proof (indexOf_lookup _ _ _ Hk) as Hlk. apply lookup_lt_Some in Hlk.
    unfold handleFailures. cbn [fold_left length]. split; [done|]. split.
    + unfold strategyIndex. rewrite He, Hk. f_equal. lia.
    + intros [Hlt|[_ Ha]]; [cbn in Hlt; lia|]. by rewrite He; cbn; rewrite Ha.
  - apply Forall_cons in Hfs as [Hf Hfs]. cbn [fst snd] in Hf.
    pose proof (indexOf_lookup _ _ _ Hk) as Hlk. apply lookup_lt_Some in Hlk.
    destruct (handleFailure_spec id f ok now c e k He Hk) as (Hchain & Hadv & Hstay).
    unfold handleFailures. cbn [fold_left fst snd].
    fold (handleFailures id fs (handleFailure id f ok now c)).
    set (c1 := handleFailure id f ok now c) in *.
    destruct (decide (S k < length (encodingStrategies c))%nat) as [Hlt|Hge].
    + destruct (Hadv Hf Hlt) as (e1 & He1 & Hs1 & Ha1).
      assert (indexOf (strategy e1) (encodingStrategies c1) = Some (S k)) as Hk1
        by (rewrite Hchain; by apply lookup_indexOf).
      destruct (IH c1 e1 (S k)) as (H1 & H2 & H3); [by rewrite Hchain|done|done|done|].
      cbn zeta in *. rewrite Hchain in *. split; [done|]. split.
      * rewrite H2. f_equal. cbn [length]. lia.
      * intros Hcase. apply H3. left. cbn [length] in Hcase. lia.
    + assert (S k = length (encodingStrategies c)) as Hlast by lia.
      assert (encoders c1 !! id = Some (set_active false e)) as He1 by (apply Hstay; by right).
      destruct (IH c1 (set_active false e) k) as (H1 & H2 & H3);
        [by rewrite Hchain|done|by rewrite Hchain|done|].
      cbn zeta in *. rewrite Hchain in *. split; [done|]. split.
      * rewrite H2. f_equal. cbn [length]. lia.
      * intros _. apply H3. by right.
Qed.

(** X25.  The fallback chain is walked once and in order.  After [n]
    fatal failures of the worker of an encoder whose strategy is entry [k]
    of the chain, whatever the restarts in between give, the strategy is
    entry [min (k + n) last]; and once more failures have happened than
    there are strategies left, the encoder is inactive and no further
    failure brings it back. *)
Theorem X25_fallback_chain_is_walked_once id fs c e k :
  NoDup (encodingStrategies c) ->
  encoders c !! id = Some e ->
  indexOf (strategy e) (encodingStrategies c) = Some k ->
  Forall (fun x => fatal x.1.1) fs ->
  strategyIndex id (handleFailures id fs c)
  = Some (Nat.min (k + length fs) (length (encodingStrategies c) - 1)) /\
  ((length (encodingStrategies c) - 1 - k < length fs)%nat ->
   (active <$> encoders (handleFailures id fs c) !! id) = Some false).
Proof.
  intros Hnd He Hk Hfs.
  destruct (handleFailures_spec id fs c e k Hnd He Hk Hfs) as (_ & H2 & H3).
  split; [exact H2|]. intros Hlt. apply H3. by left.
Qed.

End FallbackChain.

Section EncoderWitnesses.

Import EngineScenario.

Lemma X23_basic_encoder_witness :
  exists e',
    BasicEncoder.encoders
      (BasicEncoder.encodeFrames "s1" [(1024, 5%Z); (2048, 7%Z)]
         (StreamingEngine.encoder streaming_basic)) !! "s1" = Some e' /\
    framesEncoded (BasicEncoder.stats e') = 2%nat /\
    bytesEncoded (BasicEncoder.stats e') = 3072%nat.
Proof.
  destruct (BasicEncoder.encoders (StreamingEngine.encoder streaming_basic) !! "s1")
    as [e|] eqn:He; [|by vm_compute in He].
  assert (BasicEncoder.active e = true /\ BasicEncoder.stats e
          = {| framesEncoded := 0; bytesEncoded := 0; encodingTime := 0 |}) as [Ha Hs].
  { vm_compute in He. injection He as <-. by split. }
  destruct (X23_basic_encoder_counts_and_flags_frames "s1" [(1024, 5%Z); (2048, 7%Z)]
              (StreamingEngine.encoder streaming_basic) e He Ha)
    as (e' & H1 & _ & H3 & H4 & _).
  exists e'. split; [exact H1|]. rewrite H3, H4, Hs. by split.
Defined.

Lemma X25_fallback_witness :
  CUDAEncoder.strategyIndex "s1"
    (CUDAEncoder.handleFailures "s1" five_failures (StreamingEngine.encoder streaming))
  = Some 4%nat /\
  (CUDAEncoder.active <$>
     CUDAEncoder.encoders
       (CUDAEncoder.handleFailures "s1" five_failures (StreamingEngine.encoder streaming))
     !! "s1") = Some false.
Proof.
  assert (NoDup (CUDAEncoder.encodingStrategies (StreamingEngine.encoder streaming))) as Hnd.
  { apply (bool_decide_unpack _). by vm_compute. }
  destruct (CUDAEncoder.encoders (StreamingEngine.encoder streaming) !! "s1") as [e|] eqn:He;
    [|by vm_compute in He].
  assert (indexOf (CUDAEncoder.strategy e)
            (CUDAEncoder.encodingStrategies (StreamingEngine.encoder streaming))
          = Some 0%nat) as Hk.
  { vm_compute in He. injection He as <-. by vm_compute. }
  assert (Forall (fun x => CUDAEncoder.fatal x.1.1) five_failures) as Hfs.
  { unfold five_failures. repeat (apply Forall_cons; split; [cbn; try done; lia|]).
    apply Forall_nil_2. }
  destruct (X25_fallback_chain_is_walked_once "s1" five_failures
              (StreamingEngine.encoder streaming) e 0 Hnd He Hk Hfs) as [H1 H2].
  split; [exact H1|]. apply H2. vm_compute. lia.
Defined.

End EncoderWitnesses.

(** ** Streaming engine: a stream created again after it was closed *)

Section Recreate.

Import StreamingEngine.

Context {E : Type} `{EncoderBackend E}.

Variable cfgB : Config.BROWSER.
Variable launchPages : nat.
Variable cfgS : Config.SESSION.

Implicit Types (s : System E) (id pg w : string) (m : SessionManager.t).

(** The session stored under [id] names connection [w]. *)
Local Abbreviation names_peer m id w :=
  (exists u0, JsMap.get id (SessionManager.sessions m) = Some u0 /\
              SessionManager.webrtcId u0 = Some w).

Lemma getSession_names_peer id now m w :
  names_peer m id w ->
  exists session m',
    SessionManager.getSession cfgS id now m = (Some session, m') /\
    SessionManager.webrtcId session = Some w /\ names_peer m' id w.
Proof.
  intros (u0 & Hu0 & Hw). unfold SessionManager.getSession. rewrite Hu0.
  eexists _, _. split; [done|]. split; [done|].
  exists (SessionManager.touch now u0). split; [|done].
  rewrite resetSessionTimeout_sessions. cbn [SessionManager.sessions SessionManager.with_sessions].
  by rewrite jsmap_get_update_eq, Hu0.
Qed.

Lemma updateSession_names_peer id u now m w :
  names_peer m id w -> SessionManager.upd_webrtcId u = None ->
  exists session m',
    SessionManager.updateSession cfgS id u now m = (Js.Return session, m') /\
    SessionManager.webrtcId session = Some w.
Proof.
  intros Hm Hu. unfold SessionManager.updateSession.
  destruct (getSession_names_peer id now m w Hm) as (session & m' & -> & Hw & _).
  eexists _, _. split; [done|].
  cbn [SessionManager.webrtcId SessionManager.touch SessionManager.assign]. by rewrite Hu.
Qed.

Lemma openChannel_named_peer id pg r session o s w :
  SessionManager.webrtcId session = Some w -> w <> "" -> req_webrtcId r = None ->
  webrtc (snd (openChannel cfgS id pg r session o s)) = webrtc s.
Proof.
  intros Hw Hne Hr. unfold openChannel. rewrite Hr, Hw. cbn [Js.or_string].
  destruct w as [|a w]; [done|]. cbn [String.eqb].
  unfold finishCreateStream.
  destruct (BrowserPool.startScreencast _ _ _ _) as [[x|err] p]; [|done].
  cbn [snd webrtc with_engine]. by rewrite detach_webrtc.
Qed.

Lemma bindPage_named_peer id pg r session o s w :
  SessionManager.webrtcId session = Some w -> w <> "" -> req_webrtcId r = None ->
  webrtc (snd (bindPage cfgS id pg r session o s)) = webrtc s.
Proof.
  intros Hw Hne Hr. unfold bindPage.
  destruct (BrowserPool.getPage _ _ _) as [[i|] p]; [|done].
  by rewrite (openChannel_named_peer id pg r session o _ w).
Qed.

Lemma createStream_named_peer id r o s w :
  names_peer (sessionManager s) id w -> w <> "" -> req_webrtcId r = None ->
  webrtc (snd (createStream cfgB launchPages cfgS id r o s)) = webrtc s.
Proof.
  intros Hm Hne Hr. unfold createStream.
  destruct (JsMap.get id (streams (engine s))) as [st|]; [done|].
  destruct (getSession_names_peer id (co_now o) _ w Hm) as (session & m' & -> & Hw & Hm').
  destruct (Js.or_string (req_pageId r) _) as [|a pg].
  - destruct (BrowserPool.createPage _ _ _ _ _) as [[[pg info]|err] p]; [|done].
    cbn [sessionManager with_pool with_sessionManager].
    destruct (updateSession_names_peer id
                {| SessionManager.upd_browserId := Some (BrowserPool.browserId info);
                   SessionManager.upd_pageId := Some pg;
                   SessionManager.upd_webrtcId := None |} (co_now o) m' w Hm' eq_refl)
      as (session' & m'' & -> & Hw').
    by rewrite (bindPage_named_peer id pg r session' o _ w).
  - by rewrite (bindPage_named_peer id (String a pg) r session o _ w).
Qed.

(** X26.  A stream that is closed and created again for the same session
    is left without a transport connection.  [createStream] records the
    connection it opened in the session; [closeStream] closes that
    connection but leaves the session as it is; so when [createStream] is
    called again without a [webrtcId] it finds one in the session and opens
    no connection.  Whether the second call returns or throws, the
    transport holds no connection for the session, and [sendVideoFrame]
    refuses every frame of the session; a stream the second call returns is
    nevertheless registered and active. *)
Theorem X26_recreated_stream_has_no_connection id reason so r co s st w :
  JsMap.get id (streams (engine s)) = Some st ->
  (exists u0, JsMap.get id (SessionManager.sessions (sessionManager s)) = Some u0 /\
              SessionManager.webrtcId u0 = Some w) ->
  w <> "" ->
  req_webrtcId r = None ->
  let again := createStream cfgB launchPages cfgS id r co (snd (closeStream id reason so s)) in
  WebRTCService.connections (webrtc (snd again)) !! id = None /\
  (forall len ok now,
     fst (WebRTCService.sendVideoFrame id len ok now (webrtc (snd again))) = false) /\
  (forall st', fst again = Js.Return st' ->
     active st' = true /\ JsMap.get id (streams (engine (snd again))) = Some st').
Proof.
  intros Hst Hm Hne Hr. cbn zeta.
  destruct (closeStream_spec id reason so s st Hst) as (_ & He & Hc & _ & _ & Hsm).
  cbn zeta in *. set (s1 := snd (closeStream id reason so s)) in *.
  assert (JsMap.get id (streams (engine s1)) = None) as Hgone.
  { rewrite He. destruct (bool_decide _); cbn; apply jsmap_get_delete_eq. }
  assert (WebRTCService.connections
            (webrtc (snd (createStream cfgB launchPages cfgS id r co s1))) !! id = None) as Hnone.
  { rewrite (createStream_named_peer id r co s1 w); [exact Hc|by rewrite Hsm|done|done]. }
  split; [exact Hnone|]. split.
  - intros len ok now. unfold WebRTCService.sendVideoFrame, WebRTCService.getConnection.
    by rewrite Hnone.
  - intros st' Hret. pose proof (createStream_spec cfgB launchPages cfgS id r co s1 Hgone) as Hspec.
    destruct (createStream _ _ _ _ _ _ _) as [[st2|err] s2]; [|done].
    cbn [fst snd] in *. injection Hret as ->.
    destruct Hspec as ((pg & rtc & ->) & He2 & _). split; [done|]. rewrite He2.
    cbn [streams emit initializePerformanceMetrics with_metrics].
    destruct (adaptive _); cbn; by rewrite jsmap_get_set_eq.
Qed.

End Recreate.

Section RecreateWitness.

Import StreamingEngine EngineScenario.

Lemma X26_recreate_witness :
  let again := createStream cfgB 1 cfgS "s1" request co
                 (snd (closeStream "s1" "client" failing_stop streaming)) in
  Js.returns (fst again) = true /\
  WebRTCService.connections (webrtc (snd again)) !! "s1" = None.
Proof.
  cbn zeta. split; [by vm_compute|].
  destruct (JsMap.get "s1" (streams (engine streaming))) as [st|] eqn:Hst;
    [|by vm_compute in Hst].
  refine (proj1 (X26_recreated_stream_has_no_connection cfgB 1 cfgS "s1" "client" failing_stop
                   request co streaming st "s1" Hst _ _ eq_refl)).
  - destruct (JsMap.get "s1" (SessionManager.sessions (sessionManager streaming)))
      as [u0|] eqn:Hu0; [|by vm_compute in Hu0].
    exists u0. split; [done|]. vm_compute in Hu0. by injection Hu0 as <-.
  - done.
Defined.

End RecreateWitness.
